(* ===== verification/_CoqProject ===== *)
-Q . S2P
Prelude.v
Hoare.v
Preserves.v
GoStrings.v
Json.v
Model.v
State.v
Graph.v
Compiler.v
Scheduling.v
Distributed.v
Effects.v
RunInvariant.v
RunOperations.v
RunResults.v
RunProperties.v
RunTheorems.v
RunTermination.v
ChangeSet.v
Recovery.v
Resume.v
Stores.v
Coordinator.v
CoordinatorTheorems.v
SnapshotJson.v
CanonicalJson.v
FileStore.v
Engine.v
EngineSteps.v
EngineInvariant.v
EngineLoop.v
EngineTheorems.v
Database.v
Dispatch.v
Workers.v
Encoding.v
EncodingFacts.v
WorkerApi.v
Definitions.v
Services.v
Cursors.v
CursorFacts.v
Queries.v
Listings.v
Pages.v
DatabaseFacts.v
DispatchSteps.v
DispatchInvariant.v
NewRuns.v
Protocol.v
Refinement.v
TableTypes.v
ProtocolTheorems.v
Registry.v
DispatchTheorems.v
DispatchLimit.v
DispatchCoordinator.v
DispatchCoordinatorTheorems.v
WorkerTheorems.v
WorkerApiTheorems.v
WorkerRuntime.v
WorkerRuntimeTheorems.v
Platform.v
PlatformTheorems.v
ListingTheorems.v
