(* ===== verification/Prelude.v ===== *)
(** * AI Workload Platform: a verification library

    The platform runs workflows: directed acyclic graphs of tasks with retries,
    timeouts and a concurrency limit.  A definition is compiled, a run of it is
    a snapshot that a state machine moves forward, and two executors drive that
    machine: a local engine that keeps snapshots in a file store, and a control
    plane that keeps them in PostgreSQL and leases tasks to remote workers.
    This library models the Go sources of both and proves them correct.

    ** Parts, and how they correspond to src/

    Foundations.  Prelude.v: errors, outcomes (a value, an error, a panic, or
    out of fuel), the state monad [go] the sources are written in, machine
    integers and time.  Hoare.v: a program logic for calls that can fail at any
    step.  Preserves.v: following a call statement by statement under a preorder.
    GoStrings.v, Json.v: the parts of Go's strings, utf8, regexp and
    encoding/json that the sources use.  Model.v: the records of
    workflow/definition.go, run.go, executor.go and change.go.

    Definitions.  Graph.v, Compiler.v: workflow/compiler.go ([Compile], Kahn's
    cycle check, cloning).

    Runs.  State.v: workflow/state.go (transition tables, audit events).
    Distributed.v: workflow/distributed_state.go, every operation on a snapshot.
    Scheduling.v and RunInvariant.v state the invariant, Effects.v,
    RunOperations.v and RunResults.v give the exact effect of each operation,
    RunProperties.v the transition system of a run.

    Change sets.  ChangeSet.v: workflow/change.go, the difference of two
    snapshots as rows and its validated application.

    The local executor.  Stores.v: workflow/store.go and persistence.go, the
    interfaces as type classes with a contract.  SnapshotJson.v, FileStore.v:
    workflow/filestore/store.go over a file system whose calls fail and which
    loses power.  Engine.v: workflow/engine.go, clock.go, proved against the
    store interface (EngineSteps.v, EngineInvariant.v, EngineLoop.v,
    EngineTheorems.v).  Recovery.v, Resume.v: workflow/recovery.go.

    The control plane.  Database.v: the tables of internal/postgres/migrations
    with their constraints, and run_store.go: loading a run and applying a
    change set row by row.  Dispatch.v: internal/postgres/dispatch_*.go.
    Workers.v: worker_repository.go and internal/workerauth/token.go.
    CanonicalJson.v: the JSON of a definition.  Definitions.v: definitions.go,
    the idempotency records of repository.go, and creating runs in run_store.go.
    Services.v: internal/app, creating versions with their cache and starting
    runs.  Encoding.v: base64, RFC 3339 times and flat JSON objects, written and
    read.  Cursors.v: the page cursors of internal/app/cursor.go.  Queries.v:
    internal/postgres/queries.go.  Listings.v: the pages, records and
    cancellation of internal/app.  DatabaseFacts.v relates rows to snapshots, DispatchSteps.v says what
    an operation does to the working tasks of its run, DispatchInvariant.v states
    the invariant of the tables, Protocol.v is the abstract dispatch protocol,
    Refinement.v shows that every operation implements it, TableTypes.v follows
    the constraints of the tables.  NewRuns.v and Registry.v state what new runs
    and stored versions are, Platform.v joins all requests of clients, workers
    and the controller.  Pages.v says what reading a listing page by page gives.

    The coordinators.  Coordinator.v: internal/runtime/coordinator.go, which
    supervises local runs, and DispatchCoordinator.v:
    internal/dispatch/coordinator.go, which scans the tables.  Their state holds
    the goroutines and calls in progress; an event is one critical section or
    one return of a call, so a list of events is an interleaving.  Withdrawing
    readiness, cancelling and sending the error in [fail], and waiting for the
    goroutines and closing the lock in [finishClose], are one event each, as is a
    call of the repository.

    ** What the theorems show

    - Compiler.v: [Compile] accepts exactly the valid definitions, and its
      result is well formed.
    - RunTheorems.v: the run invariant; the effect of every operation on every
      branch; dependencies first; failures only reach descendants; results
      count once; attempts are bounded; the log only grows; a run always has
      something to do until it ends.  RunTermination.v: it makes a bounded
      number of moves.
    - ChangeSet.v, Stores.v, FileStore.v: change sets round trip; no update is
      lost; a file holds the old or the new snapshot whatever fails.
    - EngineTheorems.v, Resume.v: the engine is safe and work conserving in
      every environment, returns the stored run, and recovers after a restart.
    - ProtocolTheorems.v, DispatchTheorems.v: the dispatcher refines the
      protocol and keeps the invariant; results count once across lost answers
      and retries; stale leases are refused; capacity, concurrency and the
      dispatch limit hold; claims, heartbeats, the reaper and cancellation do
      exactly what they should; the tables stay typed; the row-by-row store
      agrees with the change-set semantics.
    - WorkerTheorems.v: the token of a registration opens its session and no
      other; a drained worker gets no more leases.
    - CursorFacts.v, ListingTheorems.v: cursors come back as they were sent, anything
      else is refused; a client that follows them reads every row once, in order,
      while other requests change the tables between its pages.
    - CoordinatorTheorems.v: no two goroutines execute one run; the lock outlives
      them; stopping ends.  DispatchLimit.v, DispatchCoordinatorTheorems.v: the
      coordinator with the workers follows the protocol, scans only with the
      lock, loses no wake-up, and its batch size bounds the dispatches.
    - Platform.v, PlatformTheorems.v: over all requests, with restarts, what is
      stored stays consistent, versions are contiguous and immutable, and a run
      is started once for each idempotency key.

    ** Fuel and bounds

    Kahn's loop gets one step per task and the descendant traversal one per edge
    (Graph.v shows both suffice); the other loops are over lists.  Integers are
    Z with Go's wrap-around written out ([wrap64], [u64]); a duration is an int64
    of nanoseconds.  Revisions and event numbers cross into BIGINT columns
    through [int64].

    ** The environment

    Time, random tokens, rows locked by others ([SKIP LOCKED], a predicate), the
    end of a transaction (committed, rolled back, or committed with the answer
    lost), the collation of text and SHA-256 are arguments, so a theorem holds
    for all of them.  So is [jsonb], what a JSONB column makes of a definition;
    [jsonb_ok] says that decoding leaves a decoded document alone and that
    executors and attempt limits survive.  Transactions that commit are serialised: each locks the
    rows it writes, so their effects are those of one after another; a list of
    requests is such an order.  The rows of one run are kept in one entry.  A
    run in the database carries a definition in compiled form ([stored_run]);
    Registry.v shows that this is what the control plane stores.  PostgreSQL keeps microseconds; clock values
    are taken to be such.

    ** Not modelled

    The HTTP servers and clients (internal/httpapi, workerapi, workerclient,
    pkg/workloadclient), the agents (agent, internal/agentapp), alerting, observability, configuration, the worker's process
    (internal/workerruntime, containerexec, kubeexec), the commands, and the web front end: input and output around the
    core, or clients of third-party systems.  Schema migration is left out as well. *)
From stdpp Require Export base tactics list gmap strings numbers option.
From Stdlib Require Export ZArith Lia.

(** ** Errors

    A Go [error] is one of: a package level sentinel ([errors.New], identified
    by the Go identifier it is bound to), a fresh error made by [fmt.Errorf]
    (identified by its format string; the interpolated arguments are not
    modelled), or an error that wraps another one with [%w]. *)
Inductive error : Type :=
| Sentinel (name : string)
| Errorf (format : string)
| Wrapf (format : string) (cause : error).

#[export] Instance error_eq_dec : EqDecision error.
Proof. solve_decision. Defined.

(** [errors.Is]: the target is compared with the error and with everything it
    wraps. *)
Fixpoint errors_Is (err target : error) : bool :=
  bool_decide (err = target) ||
  match err with
  | Wrapf _ cause => errors_Is cause target
  | _ => false
  end.

(** ** Outcomes and the state monad

    A Go call that threads a mutable object ends in one of four ways: it
    returns normally, it returns an error (the mutations made so far stay),
    it panics, or - in a model whose loops carry fuel - the fuel ran out. *)
Inductive outcome (A : Type) : Type :=
| Ok (a : A)
| Err (e : error)
| Panic
| Diverge.
Arguments Ok {A} a.
Arguments Err {A} e.
Arguments Panic {A}.
Arguments Diverge {A}.

#[export] Instance outcome_ret : MRet outcome := @Ok.
#[export] Instance outcome_bind : MBind outcome := fun A B f m =>
  match m with
  | Ok a => f a
  | Err e => Err e
  | Panic => Panic
  | Diverge => Diverge
  end.
#[export] Instance outcome_fmap : FMap outcome := fun A B f m =>
  match m with
  | Ok a => Ok (f a)
  | Err e => Err e
  | Panic => Panic
  | Diverge => Diverge
  end.

Definition go (S A : Type) : Type := S -> S * outcome A.

#[export] Instance go_ret {S} : MRet (go S) := fun A a s => (s, Ok a).
#[export] Instance go_bind {S} : MBind (go S) := fun A B f m s =>
  match m s with
  | (s', Ok a) => f a s'
  | (s', Err e) => (s', Err e)
  | (s', Panic) => (s', Panic)
  | (s', Diverge) => (s', Diverge)
  end.

Definition get {S} : go S S := fun s => (s, Ok s).
Definition put {S} (s : S) : go S unit := fun _ => (s, Ok tt).
Definition gets {S A} (f : S -> A) : go S A := fun s => (s, Ok (f s)).
Definition modify {S} (f : S -> S) : go S unit := fun s => (f s, Ok tt).
Definition throw {S A} (e : error) : go S A := fun s => (s, Err e).
Definition panic {S A} : go S A := fun s => (s, Panic).
Definition diverge {S A} : go S A := fun s => (s, Diverge).

(** [if cond { return err }] *)
Definition fail_if {S} (cond : bool) (e : error) : go S unit :=
  if cond then throw e else mret tt.
Definition check {A} (cond : bool) (e : error) (k : outcome A) : outcome A :=
  if cond then Err e else k.

(** Reading a slice element or dereferencing a pointer panics when there is
    nothing to read. *)
Definition deref {S A} (o : option A) : go S A :=
  match o with Some a => mret a | None => panic end.
Definition or_panic {A} (o : option A) : outcome A :=
  match o with Some a => Ok a | None => Panic end.

(** A call whose result is already known as an outcome. *)
Definition lift {S A} (m : outcome A) : go S A := fun s => (s, m).

(** [for _, x := range l { body }] with early exit through [return err]. *)
Fixpoint for_each {S A} (l : list A) (body : A -> go S unit) : go S unit :=
  match l with
  | [] => mret tt
  | x :: l' => _ ← body x; for_each l' body
  end.

(** ** Machine integers and time

    [int64] arithmetic wraps to [-2^63, 2^63), [uint64] to [0, 2^64).
    [time.Duration] is an [int64] number of nanoseconds, and an instant
    ([time.Time]) is the number of nanoseconds since Go's zero time. *)
Definition wrap64 (z : Z) : Z := ((z + 2 ^ 63) `mod` 2 ^ 64 - 2 ^ 63)%Z.
Definition u64 (z : Z) : Z := (z `mod` 2 ^ 64)%Z.

Abbreviation time := Z (only parsing).
Abbreviation duration := Z (only parsing).
Definition Nanosecond : duration := 1%Z.
Definition Millisecond : duration := 1000000%Z.
Definition Second : duration := 1000000000%Z.
Definition Minute : duration := 60000000000%Z.

(** [time.Duration(ms) * time.Millisecond] *)
Definition millis (ms : Z) : duration := wrap64 (ms * Millisecond).
(** [t.Add(d)] *)
Definition time_add (t : time) (d : duration) : time := (t + d)%Z.
(** [t.Sub(u)] saturates at the extreme durations. *)
Definition time_sub (t u : time) : duration :=
  Z.max (- 2 ^ 63) (Z.min (2 ^ 63 - 1) (t - u)).
Definition before (t u : time) : bool := (t <? u)%Z.
Definition after (t u : time) : bool := (u <? t)%Z.

(** ** Running monadic code

    [go_inv H] takes apart a hypothesis that a composed call ended in a given
    outcome; [go_step] runs the head of the composed call in the goal. *)
Lemma bind_run {S A B} (m : go S A) (f : A -> go S B) s s' a :
  m s = (s', Ok a) -> (m ≫= f) s = f a s'.
Proof. intros H. unfold mbind, go_bind. by rewrite H. Qed.

Lemma bind_run_err {S A B} (m : go S A) (f : A -> go S B) s s' e :
  m s = (s', Err e) -> (m ≫= f) s = (s', Err e).
Proof. intros H. unfold mbind, go_bind. by rewrite H. Qed.

Lemma bind_inv {S A B} (m : go S A) (f : A -> go S B) s s' b :
  (m ≫= f) s = (s', Ok b) -> exists a s1, m s = (s1, Ok a) /\ f a s1 = (s', Ok b).
Proof. unfold mbind, go_bind. destruct (m s) as [s1 []]; intros H; simplify_eq; eauto. Qed.

Lemma fail_if_inv {S} c e (s s' : S) a :
  fail_if c e s = (s', Ok a) -> c = false /\ s' = s.
Proof. destruct c; intros H; [discriminate H|by injection H as <- <-]. Qed.

Lemma deref_inv {S A} (o : option A) (s s' : S) a :
  deref o s = (s', Ok a) -> o = Some a /\ s' = s.
Proof. destruct o; intros H; [by injection H as <- <-|discriminate H]. Qed.

Lemma outcome_bind_inv {A B} (m : outcome A) (f : A -> outcome B) b :
  m ≫= f = Ok b -> exists a, m = Ok a /\ f a = Ok b.
Proof. destruct m; intros H; simplify_eq/=; eauto. Qed.

Lemma check_inv {A} c e (k : outcome A) a : check c e k = Ok a -> c = false /\ k = Ok a.
Proof. destruct c; intros H; by simplify_eq/=. Qed.

Ltac go_inv1 :=
  match goal with
  | H : (_ ≫= _) _ = (_, Ok _) |- _ =>
    apply bind_inv in H;
    let a := fresh "a" in let s := fresh "s" in let H1 := fresh "Hm" in
    destruct H as (a & s & H1 & H); cbn beta in H
  | H : fail_if _ _ _ = (_, Ok _) |- _ =>
    apply fail_if_inv in H; let Hc := fresh "Hc" in destruct H as [Hc ->]
  | H : deref _ _ = (_, Ok _) |- _ =>
    apply deref_inv in H; let Hd := fresh "Hd" in destruct H as [Hd ->]
  | H : get _ = (_, Ok _) |- _ => first [injection H as <- <- | inversion H; subst; clear H]
  | H : gets _ _ = (_, Ok _) |- _ => first [injection H as <- <- | inversion H; subst; clear H]
  | H : modify _ _ = (_, Ok _) |- _ => first [injection H as <- <- | inversion H; subst; clear H]
  | H : mret _ _ = (_, Ok _) |- _ => first [injection H as <- <- | inversion H; subst; clear H]
  | H : throw _ _ = (_, Ok _) |- _ => discriminate H
  | H : panic _ = (_, Ok _) |- _ => discriminate H
  | H : diverge _ = (_, Ok _) |- _ => discriminate H
  | H : _ ≫= _ = Ok _ |- _ =>
    apply outcome_bind_inv in H;
    let a := fresh "a" in let H1 := fresh "Hm" in destruct H as (a & H1 & H); cbn beta in H
  | H : check _ _ _ = Ok _ |- _ =>
    apply check_inv in H; let Hc := fresh "Hc" in destruct H as [Hc H]
  end.
Tactic Notation "go_step" "by" tactic3(tac) :=
  lazymatch goal with
  | |- context [(?m ≫= ?f) ?s] => erewrite (bind_run m f s) by tac; cbv beta
  end.
Ltac go_step := go_step by reflexivity.
Ltac go_inv := repeat (go_inv1; simplify_eq).

Lemma for_each_app {S A} (l1 l2 : list A) (f : A -> go S unit) s :
  for_each (l1 ++ l2) f s = (_ ← for_each l1 f; for_each l2 f) s.
Proof.
  revert s. induction l1 as [|x l1 IH]; intros s; [done|].
  cbn. unfold mbind, go_bind in *. destruct (f x s) as [s1 []]; [apply IH|done..].
Qed.

(** A loop body that keeps an invariant keeps it to the end of the loop. *)
Lemma for_each_inv {S A} (P : S -> Prop) (l : list A) (f : A -> go S unit) s s' :
  (forall x s1 s2, x ∈ l -> P s1 -> f x s1 = (s2, Ok tt) -> P s2) ->
  P s -> for_each l f s = (s', Ok tt) -> P s'.
Proof.
  revert s. induction l as [|x l IH]; intros s Hf Hs H; cbn in H; go_inv; [done|].
  destruct a. eapply IH; [..|exact H]; [intros; eapply Hf; eauto; by right|].
  eapply Hf; [by left| |]; eauto.
Qed.

(** ** Lists *)
Lemma alter_insert_eq {A} (f : A -> A) (l : list A) i x :
  l !! i = Some x -> alter f i l = <[i := f x]> l.
Proof.
  intros H. apply list_eq. intros j. destruct (decide (i = j)) as [<-|Hne].
  - rewrite list_lookup_alter_eq, H, list_lookup_insert_eq; [done|]. by eapply lookup_lt_Some.
  - by rewrite list_lookup_alter_ne, list_lookup_insert_ne.
Qed.

Lemma alter_same {A} (f g : A -> A) (l : list A) i x :
  l !! i = Some x -> f x = g x -> alter f i l = alter g i l.
Proof. intros H E. by rewrite !(alter_insert_eq _ _ _ _ H), E. Qed.

Lemma wrap64_id z : (- 2 ^ 63 <= z < 2 ^ 63)%Z -> wrap64 z = z.
Proof. intros ?. unfold wrap64. rewrite Z.mod_small; lia. Qed.

Lemma u64_id z : (0 <= z < 2 ^ 64)%Z -> u64 z = z.
Proof. apply Z.mod_small. Qed.

Lemma u64_succ z : u64 (u64 z + 1) = u64 (z + 1).
Proof. unfold u64. by rewrite Zplus_mod_idemp_l. Qed.

Lemma list_filter_iff_in {A} (P Q : A -> Prop) `{!forall x, Decision (P x), !forall x, Decision (Q x)}
    (l : list A) :
  (forall x, x ∈ l -> (P x <-> Q x)) -> filter P l = filter Q l.
Proof.
  induction l as [|x l IH]; intros Hiff; [done|].
  rewrite !filter_cons, IH by (intros; apply Hiff; by right).
  specialize (Hiff x (list_elem_of_here x l)).
  destruct (decide (P x)), (decide (Q x)); tauto.
Qed.

(** ** Calls that return *)
Definition returns {A} (m : outcome A) : Prop :=
  match m with Ok _ | Err _ => True | Panic | Diverge => False end.

Lemma returns_bind {A B} (m : outcome A) (f : A -> outcome B) :
  returns m -> (forall a, m = Ok a -> returns (f a)) -> returns (m ≫= f).
Proof. destruct m; cbn; auto. Qed.

Lemma returns_check {A} c e (k : outcome A) : (c = false -> returns k) -> returns (check c e k).
Proof. destruct c; cbn; auto. Qed.

Lemma check_false {A} e (k : outcome A) : check false e k = k.
Proof. done. Qed.

(** [pass_check by tac] discharges the guard at the head of the goal. *)
Tactic Notation "pass_check" "by" tactic3(tac) :=
  lazymatch goal with
  | |- check ?c _ _ = _ => replace c with false by (symmetry; tac); rewrite check_false
  end.
Lemma differs_false {A} `{EqDecision A} (x y : A) : x = y -> bool_decide (x ≠ y) = false.
Proof. intros ->. apply bool_decide_eq_false. auto. Qed.
