(* ===== verification/Hoare.v ===== *)
(** * A small program logic for the [go] monad

    [triple P m Q E]: from a state in [P], [m] returns normally in a state
    satisfying [Q], or ends abnormally (error, panic, out of fuel) in a state
    satisfying [E].  Used where a call makes many steps any of which can
    fail. *)
From S2P Require Import Prelude.

#[export] Instance go_fmap {S} : FMap (go S) := fun A B f m => a ← m; mret (f a).

Definition triple {S A} (P : S -> Prop) (m : go S A) (Q : A -> S -> Prop) (E : S -> Prop) : Prop :=
  forall s s' r, P s -> m s = (s', r) -> match r with Ok a => Q a s' | _ => E s' end.

Section rules.
Context {S : Type}.
Implicit Types P : S -> Prop.

Lemma triple_ret {A} (a : A) P Q E : (forall s, P s -> Q a s) -> triple P (mret a) Q E.
Proof. intros H s s' r HP [= <- <-]. by apply H. Qed.

Lemma triple_throw {A} e P (Q : A -> S -> Prop) E : (forall s, P s -> E s) -> triple P (throw e) Q E.
Proof. intros H s s' r HP [= <- <-]. by apply H. Qed.

Lemma triple_panic {A} P (Q : A -> S -> Prop) E : (forall s, P s -> E s) -> triple P panic Q E.
Proof. intros H s s' r HP [= <- <-]. by apply H. Qed.

Lemma triple_bind {A B} P (m : go S A) (f : A -> go S B) Q R E :
  triple P m R E -> (forall a, triple (R a) (f a) Q E) -> triple P (m ≫= f) Q E.
Proof.
  intros Hm Hf s s' r HP. unfold mbind, go_bind. destruct (m s) as [s1 out] eqn:Em.
  specialize (Hm _ _ _ HP Em). destruct out; [by apply Hf|by intros [= <- <-]..].
Qed.

Lemma triple_fmap {A B} P (m : go S A) (f : A -> B) Q E :
  triple P m (fun a s => Q (f a) s) E -> triple P (f <$> m) Q E.
Proof. intros H. eapply triple_bind; [exact H|]. intros a. by apply triple_ret. Qed.

Lemma triple_conseq {A} P P' (m : go S A) Q Q' E E' :
  triple P' m Q' E' -> (forall s, P s -> P' s) -> (forall a s, Q' a s -> Q a s) -> (forall s, E' s -> E s) ->
  triple P m Q E.
Proof. intros H HP HQ HE s s' r Hs Hrun. specialize (H _ _ _ (HP _ Hs) Hrun). destruct r; auto. Qed.

Lemma triple_pre {A} P P' (m : go S A) Q E : triple P' m Q E -> (forall s, P s -> P' s) -> triple P m Q E.
Proof. intros H HP. by eapply triple_conseq; eauto. Qed.

Lemma triple_post {A} P (m : go S A) Q Q' E E' :
  triple P m Q' E' -> (forall a s, Q' a s -> Q a s) -> (forall s, E' s -> E s) -> triple P m Q E.
Proof. intros H HQ HE. by eapply triple_conseq; eauto. Qed.

(** Facts that do not depend on the state. *)
Lemma triple_pure {A} (phi : Prop) P (m : go S A) Q E :
  (phi -> triple P m Q E) -> triple (fun s => phi /\ P s) m Q E.
Proof. intros H s s' r [Hphi HP]. by apply H. Qed.

Lemma triple_exists {A X} (P : X -> S -> Prop) (m : go S A) Q E :
  (forall x, triple (P x) m Q E) -> triple (fun s => exists x, P x s) m Q E.
Proof. intros H s s' r [x HP]. by eapply H. Qed.

Lemma triple_fail_if P c e E :
  (c = true -> forall s, P s -> E s) -> triple P (fail_if c e) (fun _ s => c = false /\ P s) E.
Proof. intros H s s' r HP. destruct c; intros [= <- <-]; [by apply H|done]. Qed.

Lemma triple_lift {A} (m : outcome A) P E :
  (forall s, P s -> E s) -> triple P (lift m) (fun a s => m = Ok a /\ P s) E.
Proof. intros H s s' r HP. unfold lift. intros [= <- <-]. destruct m; [done|by apply H..]. Qed.

Lemma triple_deref {A} (o : option A) P E :
  (o = None -> forall s, P s -> E s) -> triple P (deref o) (fun a s => o = Some a /\ P s) E.
Proof. intros H s s' r HP. destruct o; intros [= <- <-]; [done|by apply H]. Qed.

Lemma triple_get P E : triple P get (fun a s => a = s /\ P s) E.
Proof. by intros s s' r HP [= <- <-]. Qed.

Lemma triple_gets {A} (f : S -> A) P E : triple P (gets f) (fun a s => a = f s /\ P s) E.
Proof. by intros s s' r HP [= <- <-]. Qed.

(** A fact about the state just read. *)
Lemma triple_at {A} (s0 : S) P (m : go S A) Q E :
  (P s0 -> triple (fun s => s0 = s /\ P s) m Q E) -> triple (fun s => s0 = s /\ P s) m Q E.
Proof. intros H s s' r [<- HP]. by apply (H HP). Qed.

Lemma triple_modify (f : S -> S) P Q E : (forall s, P s -> Q tt (f s)) -> triple P (modify f) Q E.
Proof. intros H s s' r HP [= <- <-]. by apply H. Qed.

Lemma triple_for_each {A} (P : S -> Prop) (l : list A) (f : A -> go S unit) E :
  (forall x, x ∈ l -> triple P (f x) (fun _ => P) E) -> triple P (for_each l f) (fun _ => P) E.
Proof.
  induction l as [|x l IH]; intros H; [by apply triple_ret|]. cbn.
  eapply triple_bind; [apply H; by left|]. intros ?. apply IH. intros y Hy. apply H. by right.
Qed.
End rules.
