(* ===== verification/Preserves.v ===== *)
(** * Following a call statement by statement

    [preserves R m]: when the call [m] succeeds, the states before and after are
    related by the preorder [R]; [always R m]: however it ends.  The rules take a
    call apart in the order the code runs; [keep] applies them, and what is left
    are the statements that write.  Used on snapshots (the status of a run only
    moves forward) and on the database (only the rows of a run are written, no
    active dispatch is added, the tables stay typed, the protocol is followed). *)
From S2P Require Import Prelude.
From stdpp Require Import relations.

Create HintDb keeps discriminated.

Section preserves.
Context {S : Type} (R : relation S) `{!PreOrder R}.

Definition preserves {A} (m : go S A) : Prop := forall db db' a, m db = (db', Ok a) -> R db db'.

Lemma preserves_bind {A B} (m : go S A) (f : A -> go S B) :
  preserves m -> (forall a, preserves (f a)) -> preserves (m ≫= f).
Proof. intros Hm Hf db db' b H. apply bind_inv in H as (a & db1 & H1 & H2). etrans; [by eapply Hm|by eapply Hf]. Qed.

Lemma preserves_same {A} (m : go S A) : (forall db db' a, m db = (db', Ok a) -> db' = db) -> preserves m.
Proof. intros H db db' a Hm. by rewrite (H _ _ _ Hm). Qed.

Lemma preserves_ret {A} (a : A) : preserves (mret a).
Proof. apply preserves_same. intros db db' b H. by go_inv. Qed.
Lemma preserves_throw {A} e : @preserves A (throw e).
Proof. by intros db db' a H. Qed.
Lemma preserves_get : preserves (@get S).
Proof. apply preserves_same. intros db db' a H. by go_inv. Qed.
Lemma preserves_gets {A} (f : S -> A) : preserves (gets f).
Proof. apply preserves_same. intros db db' a H. by go_inv. Qed.
Lemma preserves_lift {A} (o : outcome A) : preserves (lift o).
Proof. apply preserves_same. intros db db' a H. by injection H as <-. Qed.
Lemma preserves_fail_if c e : preserves (fail_if c e).
Proof. apply preserves_same. intros db db' a H. by go_inv. Qed.
Lemma preserves_deref {A} (o : option A) : preserves (deref o).
Proof. apply preserves_same. intros db db' a H. by go_inv. Qed.
Lemma preserves_for_each {A} (l : list A) (f : A -> go S unit) : (forall x, preserves (f x)) -> preserves (for_each l f).
Proof. intros Hf. induction l as [|x l IH]; [apply preserves_ret|]. apply preserves_bind; [apply Hf|done]. Qed.
(** A call, however it ends. *)
Definition always {A} (m : go S A) : Prop := forall db db' r, m db = (db', r) -> R db db'.

Lemma always_fail_if {A} c e (m : go S A) : (c = false -> always m) -> always (_ ← fail_if c e; m).
Proof. intros H db db' r. destruct c; [by intros [= <- <-]|by apply (H eq_refl)]. Qed.
Lemma always_lift {A B} (m : outcome A) (f : A -> go S B) :
  (forall a, m = Ok a -> always (f a)) -> always (a ← lift m; f a).
Proof. intros H db db' r. unfold mbind, go_bind, lift. destruct m as [a|e| |]; [by apply (H a eq_refl)|by intros [= <- <-]..]. Qed.
Lemma always_for_each {A} (l : list A) (f : A -> go S unit) : (forall x, always (f x)) -> always (for_each l f).
Proof.
  intros Hf. induction l as [|x l IH]; intros db db' r H; cbn in H; [by injection H as <- _|].
  unfold mbind, go_bind in H. destruct (f x db) as [db1 out] eqn:E. pose proof (Hf x _ _ _ E) as H1.
  destruct out as [[]|e| |]; [|by injection H as <- _..]. etrans; [exact H1|]. by eapply IH.
Qed.
End preserves.

#[export] Hint Resolve preserves_ret preserves_throw preserves_get preserves_lift preserves_fail_if preserves_deref
  preserves_for_each preserves_gets : keeps.

(** Follows the statements of a call. *)
Ltac keep :=
  repeat first
    [ progress cbv zeta
    | solve [eauto with keeps typeclass_instances]
    | apply preserves_bind; [apply _| |intros ?]
    | apply preserves_for_each; [apply _|intros ?]
    | match goal with
      | |- preserves _ (match ?x with _ => _ end) => destruct x eqn:?
      | |- preserves _ (let '(_, _) := ?x in _) => destruct x eqn:?
      end ].
