(* ===== verification/GoStrings.v ===== *)
(** * Go strings

    A Go string is a sequence of bytes, represented by Rocq's [string].  This
    file holds the part of [strings], [unicode/utf8], [regexp] and [strconv]
    that the platform's sources use: white space trimming, rune decoding and
    the identifier pattern of workflow and task keys. *)
From S2P Require Import Prelude.
From stdpp Require Export pretty.
From Stdlib Require Import Ascii.

Definition bytes_of (s : string) : list N :=
  N_of_ascii <$> String.list_ascii_of_string s.
Definition string_of_bytes (l : list N) : string :=
  String.string_of_list_ascii (ascii_of_N <$> l).

Definition in_range (lo hi b : N) : bool := ((lo <=? b) && (b <=? hi))%N.

(** ** [unicode/utf8]

    [decode_rune] is [utf8.DecodeRune]: the rune, its width in bytes, and
    whether the encoding was valid (an invalid byte decodes to U+FFFD with
    width 1). *)
Definition cont (b : N) : bool := in_range 128 191 b.

Definition decode_rune (l : list N) : N * nat * bool :=
  match l with
  | [] => (65533%N, 0%nat, false)
  | b0 :: r =>
    if (b0 <? 128)%N then (b0, 1%nat, true) else
    if in_range 194 223 b0 then
      match r with
      | b1 :: _ => if cont b1 then (((b0 - 192) * 64 + (b1 - 128))%N, 2%nat, true)
                   else (65533%N, 1%nat, false)
      | _ => (65533%N, 1%nat, false)
      end
    else if in_range 224 239 b0 then
      match r with
      | b1 :: b2 :: _ =>
        if in_range (if (b0 =? 224)%N then 160 else 128)
                    (if (b0 =? 237)%N then 159 else 191) b1 && cont b2
        then (((b0 - 224) * 4096 + (b1 - 128) * 64 + (b2 - 128))%N, 3%nat, true)
        else (65533%N, 1%nat, false)
      | _ => (65533%N, 1%nat, false)
      end
    else if in_range 240 244 b0 then
      match r with
      | b1 :: b2 :: b3 :: _ =>
        if in_range (if (b0 =? 240)%N then 144 else 128)
                    (if (b0 =? 244)%N then 143 else 191) b1 && cont b2 && cont b3
        then (((b0 - 240) * 262144 + (b1 - 128) * 4096 + (b2 - 128) * 64 + (b3 - 128))%N, 4%nat, true)
        else (65533%N, 1%nat, false)
      | _ => (65533%N, 1%nat, false)
      end
    else (65533%N, 1%nat, false)
  end.

(** The runes of a byte string with the bytes each one was read from. *)
Fixpoint runes_fuel (fuel : nat) (l : list N) : list (N * list N * bool) :=
  match fuel, l with
  | S fuel', _ :: _ =>
    let '(r, n, ok) := decode_rune l in
    (r, take n l, ok) :: runes_fuel fuel' (drop n l)
  | _, _ => []
  end.
Definition runes (s : string) : list (N * list N * bool) :=
  runes_fuel (String.length s) (bytes_of s).

(** [utf8.RuneCountInString] *)
Definition rune_count (s : string) : nat := length (runes s).

(** ** [strings.TrimSpace]

    [unicode.IsSpace] on the decoded runes at both ends. *)
Definition is_space (r : N) : bool :=
  in_range 9 13 r || (r =? 32)%N || (r =? 133)%N || (r =? 160)%N ||
  (r =? 5760)%N || in_range 8192 8202 r || (r =? 8232)%N || (r =? 8233)%N ||
  (r =? 8239)%N || (r =? 8287)%N || (r =? 12288)%N.

Fixpoint drop_spaces (l : list (N * list N * bool)) : list (N * list N * bool) :=
  match l with
  | (r, b, ok) :: l' => if is_space r then drop_spaces l' else l
  | [] => []
  end.

Definition TrimSpace (s : string) : string :=
  string_of_bytes
    (mjoin ((fun x => x.1.2) <$> reverse (drop_spaces (reverse (drop_spaces (runes s)))))).

(** ** The identifier pattern [^[a-z0-9_-]{1,64}$] *)
Definition identifier_byte (b : N) : bool :=
  in_range 97 122 b || in_range 48 57 b || (b =? 95)%N || (b =? 45)%N.

Definition match_identifier (s : string) : bool :=
  let l := bytes_of s in
  (1 <=? length l)%nat && (length l <=? 64)%nat && forallb identifier_byte l.

Definition is_empty (s : string) : bool := bool_decide (s = EmptyString).

(** ** The rest of [strings] and [fmt] *)
Definition contains_any (chars s : list N) : bool :=
  existsb (fun b => existsb (N.eqb b) chars) s.
Definition has_suffix (s suffix : string) : bool :=
  (String.length suffix <=? String.length s)%nat &&
  bool_decide (String.substring (String.length s - String.length suffix)
                                (String.length suffix) s = suffix).
Definition trim_suffix (s suffix : string) : string :=
  if has_suffix s suffix
  then String.substring 0 (String.length s - String.length suffix) s else s.

(** ["%s/%d"] *)
Definition slash_number (key : string) (n : Z) : string :=
  (key ++ "/" ++ pretty n)%string.
