(* ===== verification/Json.v ===== *)
(** * Task inputs as JSON values

    A task input is a Go [map[string]any].  [any] below is the tree of Go
    values that can sit in it, with one constructor per case that
    [validateJSONValue] of src/workflow/compiler.go tells apart; a nil map or
    slice encodes as JSON [null] and is [AnyNil].  Values whose pointers form a
    cycle are not trees and cannot be written in this type.  [json_encode] is
    what [encoding/json.Marshal] writes for them and [json_roundtrip] what
    decoding those bytes with [UseNumber] gives back. *)
From S2P Require Import Prelude GoStrings.

Inductive any : Type :=
| AnyNil
| AnyBool (b : bool)
(** integers, floats and [json.Number]: the literal [json.Marshal] writes if it
    is a valid number, [None] for NaN and infinities, which it refuses *)
| AnyNumber (literal : option string)
| AnyString (s : string)
(** entries in the order [json.Marshal] writes them: sorted by key *)
| AnyMap (entries : list (string * any))
| AnySlice (elems : list any)
| AnyArray (elems : list any)
| AnyByteSlice
| AnyMarshaler
| AnyTextMarshaler
| AnyNonStringKeyMap
| AnyUnsupported.

(** A task input; [None] is the nil map. *)
Abbreviation Input := (option (list (string * any))).

(** ** [validateJSONValue] *)
Fixpoint validateJSONValue (value : any) : outcome unit :=
  let fix validate_entries (l : list (string * any)) : outcome unit :=
    match l with
    | [] => Ok tt
    | (_, v) :: l' => _ ← validateJSONValue v; validate_entries l'
    end in
  let fix validate_elems (l : list any) : outcome unit :=
    match l with
    | [] => Ok tt
    | v :: l' => _ ← validateJSONValue v; validate_elems l'
    end in
  match value with
  | AnyNil => Ok tt
  | AnyMarshaler => Err (Errorf "custom JSON marshaler %T is not supported")
  | AnyTextMarshaler => Err (Errorf "custom text marshaler %T is not supported")
  | AnyBool _ | AnyString _ | AnyNumber _ => Ok tt
  | AnyNonStringKeyMap => Err (Errorf "map key type %s is not a string")
  | AnyMap entries => validate_entries entries
  | AnyByteSlice => Err (Errorf "byte slices are not JSON arrays")
  | AnySlice elems => validate_elems elems
  | AnyArray elems => validate_elems elems
  | AnyUnsupported => Err (Errorf "type %T is not part of the JSON data model")
  end.

Definition input_value (input : Input) : any :=
  match input with None => AnyNil | Some entries => AnyMap entries end.

(** ** [encoding/json] *)
Definition hex_digit (n : N) : N := if (n <? 10)%N then (48 + n)%N else (87 + n)%N.

(** One rune of a JSON string, with [EscapeHTML] on as in [json.Marshal]. *)
Definition json_rune (x : N * list N * bool) : list N :=
  let '(r, raw, ok) := x in
  if negb ok then [92; 117; 102; 102; 102; 100]%N else
  if (r =? 34)%N || (r =? 92)%N then [92%N; r] else
  if (r =? 8)%N then [92; 98]%N else
  if (r =? 12)%N then [92; 102]%N else
  if (r =? 10)%N then [92; 110]%N else
  if (r =? 13)%N then [92; 114]%N else
  if (r =? 9)%N then [92; 116]%N else
  if (r <? 32)%N || (r =? 60)%N || (r =? 62)%N || (r =? 38)%N
  then [92; 117; 48; 48; hex_digit (r / 16); hex_digit (r `mod` 16)]%N else
  if (r =? 8232)%N || (r =? 8233)%N
  then [92; 117; 50; 48; 50; hex_digit (r `mod` 16)]%N
  else raw.

Definition json_string (s : string) : list N :=
  [34%N] ++ mjoin (json_rune <$> runes s) ++ [34%N].

Fixpoint json_join (l : list (list N)) : list N :=
  match l with
  | [] => []
  | [x] => x
  | x :: l' => x ++ [44%N] ++ json_join l'
  end.

(** [isValidNumber], which [json.Marshal] applies to a [json.Number]. *)
Definition is_digit (b : N) : bool := in_range 48 57 b.
Fixpoint drop_digits (l : list N) : list N :=
  match l with b :: l' => if is_digit b then drop_digits l' else l | [] => [] end.
Definition drop_integer (l : list N) : option (list N) :=
  match l with
  | b :: l' => if (b =? 48)%N then Some l' else if in_range 49 57 b then Some (drop_digits l') else None
  | [] => None
  end.
Definition drop_fraction (l : list N) : list N :=
  match l with
  | b :: c :: l' => if (b =? 46)%N && is_digit c then drop_digits l' else l
  | _ => l
  end.
Definition drop_exponent (l : list N) : option (list N) :=
  match l with
  | b :: c :: l' =>
    if (b =? 101)%N || (b =? 69)%N then
      if (c =? 43)%N || (c =? 45)%N then match l' with [] => None | _ => Some (drop_digits l') end
      else Some (drop_digits (c :: l'))
    else Some l
  | _ => Some l
  end.
Definition valid_number (s : string) : bool :=
  let l := match bytes_of s with b :: l' => if (b =? 45)%N then l' else b :: l' | [] => [] end in
  match drop_integer l with
  | None => false
  | Some l => match drop_exponent (drop_fraction l) with Some [] => true | _ => false end
  end.

Fixpoint json_encode (value : any) : option (list N) :=
  let fix encode_entries (l : list (string * any)) : option (list (list N)) :=
    match l with
    | [] => Some []
    | (k, v) :: l' =>
      b ← json_encode v; bs ← encode_entries l';
      Some ((json_string k ++ [58%N] ++ b) :: bs)
    end in
  let fix encode_elems (l : list any) : option (list (list N)) :=
    match l with
    | [] => Some []
    | v :: l' => b ← json_encode v; bs ← encode_elems l'; Some (b :: bs)
    end in
  match value with
  | AnyNil => Some (bytes_of "null")
  | AnyBool true => Some (bytes_of "true")
  | AnyBool false => Some (bytes_of "false")
  | AnyNumber (Some literal) => if valid_number literal then Some (bytes_of literal) else None
  | AnyString s => Some (json_string s)
  | AnyMap entries =>
    bs ← encode_entries entries; Some ([123%N] ++ json_join bs ++ [125%N])
  | AnySlice elems | AnyArray elems =>
    bs ← encode_elems elems; Some ([91%N] ++ json_join bs ++ [93%N])
  | _ => None
  end.

(** Decoding replaces every invalid byte of a string by U+FFFD (EF BF BD),
    turns numbers into [json.Number] literals and arrays into slices. *)
Definition sanitize (s : string) : string :=
  string_of_bytes
    (mjoin ((fun x : N * list N * bool => if x.2 then x.1.2 else [239; 191; 189]%N) <$> runes s)).

Fixpoint json_roundtrip (value : any) : any :=
  let fix entries_roundtrip (l : list (string * any)) :=
    match l with
    | [] => []
    | (k, v) :: l' => (sanitize k, json_roundtrip v) :: entries_roundtrip l'
    end in
  let fix elems_roundtrip (l : list any) :=
    match l with
    | [] => []
    | v :: l' => json_roundtrip v :: elems_roundtrip l'
    end in
  match value with
  | AnyString s => AnyString (sanitize s)
  | AnyMap entries => AnyMap (entries_roundtrip entries)
  | AnySlice elems | AnyArray elems => AnySlice (elems_roundtrip elems)
  | v => v
  end.

(** [cloneTaskInput]: nil stays nil, everything else goes through JSON; an
    encoding failure panics. *)
Definition cloneTaskInput (input : Input) : outcome Input :=
  match input with
  | None => Ok None
  | Some entries =>
    match json_encode (AnyMap entries) with
    | None => Panic
    | Some _ =>
      match json_roundtrip (AnyMap entries) with
      | AnyMap entries' => Ok (Some entries')
      | _ => Panic
      end
    end
  end.
