(* ===== verification/Model.v ===== *)
(** * The data of a workflow run

    Definitions (src/workflow/definition.go), runs and snapshots
    (src/workflow/run.go), executor results (src/workflow/executor.go) and
    change sets (src/workflow/change.go).  Statuses are Go strings: each type
    has the constants of the source and a last constructor for any other
    string.  A nil pointer or an unset optional time is [None]; a nil slice and
    an empty one are both []. *)
From S2P Require Import Prelude GoStrings Json.

(** ** Definitions *)
Abbreviation TaskKey := string (only parsing).
Abbreviation RunID := string (only parsing).

Inductive ExecutorKind : Type :=
| ExecutorMock
| ExecutorContainer
| ExecutorOther (name : string).

Record RetryPolicy := mkRetryPolicy {
  MaxAttempts : Z;
  IntervalMillis : Z;
}.

Record TaskDefinition := mkTaskDefinition {
  def_Key : TaskKey;
  def_Executor : ExecutorKind;
  def_Action : string;
  def_Input : Input;
  DependsOn : list TaskKey;
  Retry : RetryPolicy;
  TimeoutMillis : Z;
}.

Record WorkflowDefinition := mkWorkflowDefinition {
  wf_ID : string;
  Concurrency : Z;
  def_Tasks : list TaskDefinition;
}.

(** ** Statuses *)
Inductive WorkflowStatus : Type :=
| WorkflowPending
| WorkflowRunning
| WorkflowSucceeded
| WorkflowFailed
| WorkflowCanceled
| WorkflowOther (s : string).

Inductive TaskStatus : Type :=
| TaskWaitingDependencies
| TaskReady
| TaskQueued
| TaskRunning
| TaskWaitingRetry
| TaskSucceeded
| TaskFailed
| TaskCanceled
| TaskSkipped
| TaskOther (s : string).

Inductive AttemptStatus : Type :=
| AttemptRunning
| AttemptSucceeded
| AttemptFailed
| AttemptTimedOut
| AttemptCanceled
| AttemptInterrupted
| AttemptOther (s : string).

Definition workflow_status_string (s : WorkflowStatus) : string :=
  match s with
  | WorkflowPending => "pending"
  | WorkflowRunning => "running"
  | WorkflowSucceeded => "succeeded"
  | WorkflowFailed => "failed"
  | WorkflowCanceled => "canceled"
  | WorkflowOther s => s
  end.

Definition task_status_string (s : TaskStatus) : string :=
  match s with
  | TaskWaitingDependencies => "waiting_dependencies"
  | TaskReady => "ready"
  | TaskQueued => "queued"
  | TaskRunning => "running"
  | TaskWaitingRetry => "waiting_retry"
  | TaskSucceeded => "succeeded"
  | TaskFailed => "failed"
  | TaskCanceled => "canceled"
  | TaskSkipped => "skipped"
  | TaskOther s => s
  end.

Definition attempt_status_string (s : AttemptStatus) : string :=
  match s with
  | AttemptRunning => "running"
  | AttemptSucceeded => "succeeded"
  | AttemptFailed => "failed"
  | AttemptTimedOut => "timed_out"
  | AttemptCanceled => "canceled"
  | AttemptInterrupted => "interrupted"
  | AttemptOther s => s
  end.

(** ** Executor protocol *)
Inductive ResultKind : Type :=
| ResultSuccess
| ResultTemporaryFailure
| ResultPermanentFailure
| ResultCanceled
| ResultOther (s : string).
Definition result_kind_string (k : ResultKind) : string :=
  match k with
  | ResultSuccess => "success"
  | ResultTemporaryFailure => "temporary_failure"
  | ResultPermanentFailure => "permanent_failure"
  | ResultCanceled => "canceled"
  | ResultOther s => s
  end.

Record ExecutionRequest := mkExecutionRequest {
  req_DefinitionID : string;
  req_RunID : RunID;
  req_TaskKey : TaskKey;
  req_Action : string;
  req_Input : Input;
  req_Attempt : Z;
}.

Record ExecutionResponse := mkExecutionResponse {
  Kind : ResultKind;
  resp_Output : string;
  resp_ErrorCode : string;
  resp_ErrorMessage : string;
}.

(** ** Runs *)
Record ExecutionResult := mkExecutionResult {
  res_Output : string;
  res_ErrorCode : string;
  res_ErrorMessage : string;
}.

Record Attempt := mkAttempt {
  Number : Z;
  att_Status : AttemptStatus;
  WorkerID : string;
  DispatchID : string;
  att_StartedAt : time;
  att_FinishedAt : option time;
  Result : ExecutionResult;
}.

Record TaskRun := mkTaskRun {
  Key : TaskKey;
  Status : TaskStatus;
  Attempts : list Attempt;
  ReadyAt : option time;
  FinishedAt : option time;
}.

Record StateEvent := mkStateEvent {
  Sequence : Z;
  At : time;
  Entity : string;
  ev_Key : string;
  From : string;
  To : string;
  Reason : string;
}.

Record WorkflowRun := mkWorkflowRun {
  ID : RunID;
  DefinitionID : string;
  DefinitionVersion : Z;
  run_Status : WorkflowStatus;
  Revision : Z;
  LastEventSequence : Z;
  CancelRequestedAt : option time;
  Tasks : list TaskRun;
  RemainingDependencies : list Z;
  CreatedAt : time;
  run_StartedAt : option time;
  run_FinishedAt : option time;
}.

Record RunSnapshot := mkRunSnapshot {
  Version : Z;
  Definition_ : option WorkflowDefinition;
  Run : WorkflowRun;
  Events : list StateEvent;
}.

(** The zero values Go gives to [TaskRun{}], [WorkflowRun{}] and [RunSnapshot{}]. *)
Definition zero_TaskRun : TaskRun := mkTaskRun "" (TaskOther "") [] None None.
Definition zero_WorkflowRun : WorkflowRun :=
  mkWorkflowRun "" "" 0 (WorkflowOther "") 0 0 None [] [] 0 None None.
Definition zero_RunSnapshot : RunSnapshot := mkRunSnapshot 0 None zero_WorkflowRun [].

(** ** Compiled workflows *)
Record CompiledWorkflow := mkCompiledWorkflow {
  definition : WorkflowDefinition;
  index : gmap TaskKey nat;
  dependencies : list (list nat);
  successors : list (list nat);
}.

(** ** Change sets *)
Inductive ChangeOperation : Type :=
| ChangeInsert
| ChangeUpdate
| ChangeOther (s : string).

Record TaskRunChange := mkTaskRunChange {
  tc_RunID : RunID;
  tc_Index : Z;
  tc_Task : TaskRun;
  tc_RemainingDependencies : Z;
}.

Record AttemptChange := mkAttemptChange {
  ac_RunID : RunID;
  ac_TaskKey : TaskKey;
  ac_TaskIndex : Z;
  ac_Attempt : Attempt;
  ac_Operation : ChangeOperation;
}.

Record ChangeSet := mkChangeSet {
  cs_RunID : RunID;
  ExpectedRevision : Z;
  cs_Run : option WorkflowRun;
  cs_Tasks : list TaskRunChange;
  cs_Attempts : list AttemptChange;
  cs_Events : list StateEvent;
}.

(** ** Decidable equality *)
#[export] Instance ExecutorKind_eq_dec : EqDecision ExecutorKind.
Proof. solve_decision. Defined.
#[export] Instance WorkflowStatus_eq_dec : EqDecision WorkflowStatus.
Proof. solve_decision. Defined.
#[export] Instance TaskStatus_eq_dec : EqDecision TaskStatus.
Proof. solve_decision. Defined.
#[export] Instance AttemptStatus_eq_dec : EqDecision AttemptStatus.
Proof. solve_decision. Defined.
#[export] Instance ResultKind_eq_dec : EqDecision ResultKind.
Proof. solve_decision. Defined.
#[export] Instance ExecutionResult_eq_dec : EqDecision ExecutionResult.
Proof. solve_decision. Defined.
#[export] Instance Attempt_eq_dec : EqDecision Attempt.
Proof. solve_decision. Defined.
#[export] Instance TaskRun_eq_dec : EqDecision TaskRun.
Proof. solve_decision. Defined.
#[export] Instance StateEvent_eq_dec : EqDecision StateEvent.
Proof. solve_decision. Defined.
#[export] Instance ChangeOperation_eq_dec : EqDecision ChangeOperation.
Proof. solve_decision. Defined.

(** ** Updates of one field *)
Definition set_task_Status (v : TaskStatus) (t : TaskRun) : TaskRun :=
  mkTaskRun (Key t) v (Attempts t) (ReadyAt t) (FinishedAt t).
Definition set_task_Attempts (v : list Attempt) (t : TaskRun) : TaskRun :=
  mkTaskRun (Key t) (Status t) v (ReadyAt t) (FinishedAt t).
Definition set_task_ReadyAt (v : option time) (t : TaskRun) : TaskRun :=
  mkTaskRun (Key t) (Status t) (Attempts t) v (FinishedAt t).
Definition set_task_FinishedAt (v : option time) (t : TaskRun) : TaskRun :=
  mkTaskRun (Key t) (Status t) (Attempts t) (ReadyAt t) v.

Definition set_att_Status (v : AttemptStatus) (a : Attempt) : Attempt :=
  mkAttempt (Number a) v (WorkerID a) (DispatchID a) (att_StartedAt a) (att_FinishedAt a) (Result a).
Definition set_att_FinishedAt (v : option time) (a : Attempt) : Attempt :=
  mkAttempt (Number a) (att_Status a) (WorkerID a) (DispatchID a) (att_StartedAt a) v (Result a).
Definition set_att_Result (v : ExecutionResult) (a : Attempt) : Attempt :=
  mkAttempt (Number a) (att_Status a) (WorkerID a) (DispatchID a) (att_StartedAt a) (att_FinishedAt a) v.

Definition set_run_Status (v : WorkflowStatus) (r : WorkflowRun) : WorkflowRun :=
  mkWorkflowRun (ID r) (DefinitionID r) (DefinitionVersion r) v (Revision r) (LastEventSequence r)
    (CancelRequestedAt r) (Tasks r) (RemainingDependencies r) (CreatedAt r) (run_StartedAt r) (run_FinishedAt r).
Definition set_run_Revision (v : Z) (r : WorkflowRun) : WorkflowRun :=
  mkWorkflowRun (ID r) (DefinitionID r) (DefinitionVersion r) (run_Status r) v (LastEventSequence r)
    (CancelRequestedAt r) (Tasks r) (RemainingDependencies r) (CreatedAt r) (run_StartedAt r) (run_FinishedAt r).
Definition set_run_LastEventSequence (v : Z) (r : WorkflowRun) : WorkflowRun :=
  mkWorkflowRun (ID r) (DefinitionID r) (DefinitionVersion r) (run_Status r) (Revision r) v
    (CancelRequestedAt r) (Tasks r) (RemainingDependencies r) (CreatedAt r) (run_StartedAt r) (run_FinishedAt r).
Definition set_run_CancelRequestedAt (v : option time) (r : WorkflowRun) : WorkflowRun :=
  mkWorkflowRun (ID r) (DefinitionID r) (DefinitionVersion r) (run_Status r) (Revision r) (LastEventSequence r)
    v (Tasks r) (RemainingDependencies r) (CreatedAt r) (run_StartedAt r) (run_FinishedAt r).
Definition set_run_DefinitionVersion (v : Z) (r : WorkflowRun) : WorkflowRun :=
  mkWorkflowRun (ID r) (DefinitionID r) v (run_Status r) (Revision r) (LastEventSequence r)
    (CancelRequestedAt r) (Tasks r) (RemainingDependencies r) (CreatedAt r) (run_StartedAt r) (run_FinishedAt r).
Definition set_run_Tasks (v : list TaskRun) (r : WorkflowRun) : WorkflowRun :=
  mkWorkflowRun (ID r) (DefinitionID r) (DefinitionVersion r) (run_Status r) (Revision r) (LastEventSequence r)
    (CancelRequestedAt r) v (RemainingDependencies r) (CreatedAt r) (run_StartedAt r) (run_FinishedAt r).
Definition set_run_Remaining (v : list Z) (r : WorkflowRun) : WorkflowRun :=
  mkWorkflowRun (ID r) (DefinitionID r) (DefinitionVersion r) (run_Status r) (Revision r) (LastEventSequence r)
    (CancelRequestedAt r) (Tasks r) v (CreatedAt r) (run_StartedAt r) (run_FinishedAt r).
Definition set_run_StartedAt (v : option time) (r : WorkflowRun) : WorkflowRun :=
  mkWorkflowRun (ID r) (DefinitionID r) (DefinitionVersion r) (run_Status r) (Revision r) (LastEventSequence r)
    (CancelRequestedAt r) (Tasks r) (RemainingDependencies r) (CreatedAt r) v (run_FinishedAt r).
Definition set_run_FinishedAt (v : option time) (r : WorkflowRun) : WorkflowRun :=
  mkWorkflowRun (ID r) (DefinitionID r) (DefinitionVersion r) (run_Status r) (Revision r) (LastEventSequence r)
    (CancelRequestedAt r) (Tasks r) (RemainingDependencies r) (CreatedAt r) (run_StartedAt r) v.

Definition set_Run (r : WorkflowRun) (s : RunSnapshot) : RunSnapshot :=
  mkRunSnapshot (Version s) (Definition_ s) r (Events s).
Definition set_Events (e : list StateEvent) (s : RunSnapshot) : RunSnapshot :=
  mkRunSnapshot (Version s) (Definition_ s) (Run s) e.
Definition upd_Run (f : WorkflowRun -> WorkflowRun) (s : RunSnapshot) : RunSnapshot :=
  set_Run (f (Run s)) s.
Definition upd_Tasks (f : list TaskRun -> list TaskRun) (s : RunSnapshot) : RunSnapshot :=
  upd_Run (fun r => set_run_Tasks (f (Tasks r)) r) s.
Definition upd_Remaining (f : list Z -> list Z) (s : RunSnapshot) : RunSnapshot :=
  upd_Run (fun r => set_run_Remaining (f (RemainingDependencies r)) r) s.

(** [&snapshot.Run.Tasks[i]] as the target of an assignment, and
    [&task.Attempts[k]] inside it. *)
Definition upd_task (i : nat) (f : TaskRun -> TaskRun) : RunSnapshot -> RunSnapshot :=
  upd_Tasks (alter f i).
Definition upd_attempt (i k : nat) (f : Attempt -> Attempt) : RunSnapshot -> RunSnapshot :=
  upd_task i (fun t => set_task_Attempts (alter f k (Attempts t)) t).

(** [cloneRunSnapshot] and [cloneRepositorySnapshot] copy the slices a
    transition mutates; on values the copy is the snapshot itself. *)
Definition cloneRunSnapshot (snapshot : RunSnapshot) : RunSnapshot :=
  let run := Run snapshot in
  mkRunSnapshot (Version snapshot) (Definition_ snapshot)
    (set_run_Remaining (RemainingDependencies run)
       (set_run_Tasks ((fun t => set_task_Attempts (Attempts t) t) <$> Tasks run) run))
    (Events snapshot).
