(* ===== verification/State.v ===== *)
(** * The state machine of runs, tasks and attempts

    src/workflow/state.go: the transition tables, the three [transition*]
    functions that are the only way to advance a status, and the audit events
    they append.  The mutable [*RunSnapshot] is the state of the [go] monad. *)
From S2P Require Import Prelude GoStrings Json Model.

Definition isWorkflowTerminal (status : WorkflowStatus) : bool :=
  match status with
  | WorkflowSucceeded | WorkflowFailed | WorkflowCanceled => true
  | _ => false
  end.

Definition isTaskTerminal (status : TaskStatus) : bool :=
  match status with
  | TaskSucceeded | TaskFailed | TaskCanceled | TaskSkipped => true
  | _ => false
  end.

Definition workflowTransitions (from to : WorkflowStatus) : bool :=
  match from, to with
  | WorkflowPending, (WorkflowRunning | WorkflowCanceled) => true
  | WorkflowRunning, (WorkflowSucceeded | WorkflowFailed | WorkflowCanceled) => true
  | _, _ => false
  end.

Definition taskTransitions (from to : TaskStatus) : bool :=
  match from, to with
  | TaskWaitingDependencies, (TaskReady | TaskCanceled | TaskSkipped) => true
  | TaskReady, (TaskQueued | TaskRunning | TaskCanceled | TaskSkipped) => true
  | TaskQueued, (TaskRunning | TaskReady | TaskCanceled) => true
  | TaskRunning, (TaskSucceeded | TaskWaitingRetry | TaskFailed | TaskCanceled) => true
  | TaskWaitingRetry, (TaskReady | TaskFailed | TaskCanceled) => true
  | _, _ => false
  end.

Definition attemptTransitions (from to : AttemptStatus) : bool :=
  match from, to with
  | AttemptRunning, (AttemptSucceeded | AttemptFailed | AttemptTimedOut
                    | AttemptCanceled | AttemptInterrupted) => true
  | _, _ => false
  end.

(** [snapshotLastEventSequence] of src/workflow/change.go. *)
Definition snapshotLastEventSequence (snapshot : RunSnapshot) : Z :=
  let lastSequence := LastEventSequence (Run snapshot) in
  match last (Events snapshot) with
  | Some e => if (lastSequence <? Sequence e)%Z then Sequence e else lastSequence
  | None => lastSequence
  end.

Definition appendEvent (at_ : time) (entity key from to reason : string) : go RunSnapshot unit :=
  lastSequence ← gets snapshotLastEventSequence;
  let event := mkStateEvent (u64 (lastSequence + 1)) at_ entity key from to reason in
  _ ← modify (fun s => set_Events (Events s ++ [event]) s);
  modify (upd_Run (set_run_LastEventSequence (Sequence event))).

Definition transitionWorkflow (to : WorkflowStatus) (at_ : time) (reason : string)
    : go RunSnapshot unit :=
  from ← gets (fun s => run_Status (Run s));
  _ ← fail_if (negb (workflowTransitions from to))
        (Errorf "illegal workflow transition %s -> %s");
  _ ← modify (upd_Run (set_run_Status to));
  started ← gets (fun s => run_StartedAt (Run s));
  _ ← (if bool_decide (to = WorkflowRunning) && negb (bool_decide (is_Some started))
       then modify (upd_Run (set_run_StartedAt (Some at_))) else mret tt);
  _ ← (if isWorkflowTerminal to
       then modify (upd_Run (set_run_FinishedAt (Some at_))) else mret tt);
  id ← gets (fun s => ID (Run s));
  appendEvent at_ "workflow" id (workflow_status_string from) (workflow_status_string to) reason.

Definition transitionTask (taskIndex : nat) (to : TaskStatus) (at_ : time) (reason : string)
    : go RunSnapshot unit :=
  s ← get;
  task ← deref (Tasks (Run s) !! taskIndex);
  let from := Status task in
  _ ← fail_if (negb (taskTransitions from to)) (Errorf "illegal task transition %s -> %s");
  _ ← modify (upd_task taskIndex (set_task_Status to));
  _ ← (if bool_decide (to ≠ TaskWaitingRetry)
       then modify (upd_task taskIndex (set_task_ReadyAt None)) else mret tt);
  _ ← (if bool_decide (to = TaskSucceeded) || bool_decide (to = TaskFailed) ||
          bool_decide (to = TaskCanceled) || bool_decide (to = TaskSkipped)
       then modify (upd_task taskIndex (set_task_FinishedAt (Some at_))) else mret tt);
  appendEvent at_ "task" (Key task) (task_status_string from) (task_status_string to) reason.

(** The attempt pointer is given by the position of its task and its own
    position in the task's history. *)
Definition transitionAttempt (taskKey : TaskKey) (taskIndex attemptIndex : nat)
    (to : AttemptStatus) (at_ : time) (reason : string) : go RunSnapshot unit :=
  s ← get;
  task ← deref (Tasks (Run s) !! taskIndex);
  attempt ← deref (Attempts task !! attemptIndex);
  let from := att_Status attempt in
  _ ← fail_if (negb (attemptTransitions from to)) (Errorf "illegal attempt transition %s -> %s");
  _ ← modify (upd_attempt taskIndex attemptIndex (set_att_Status to));
  _ ← modify (upd_attempt taskIndex attemptIndex (set_att_FinishedAt (Some at_)));
  appendEvent at_ "attempt" (slash_number taskKey (Number attempt))
    (attempt_status_string from) (attempt_status_string to) reason.

(** ** The tables as one-step relations *)
Definition task_step (from to : TaskStatus) : Prop := taskTransitions from to = true.

(** What a successful [transitionTask] leaves in the task record. *)
Definition task_after (to : TaskStatus) (at_ : time) (t : TaskRun) : TaskRun :=
  mkTaskRun (Key t) to (Attempts t)
    (if bool_decide (to ≠ TaskWaitingRetry) then None else ReadyAt t)
    (if isTaskTerminal to then Some at_ else FinishedAt t).

Definition attempt_after (to : AttemptStatus) (at_ : time) (a : Attempt) : Attempt :=
  set_att_FinishedAt (Some at_) (set_att_Status to a).

(** What a successful [transitionWorkflow] leaves in the run row. *)
Definition workflow_after (to : WorkflowStatus) (at_ : time) (r : WorkflowRun) : WorkflowRun :=
  let r1 := set_run_Status to r in
  let r2 := if bool_decide (to = WorkflowRunning) && negb (bool_decide (is_Some (run_StartedAt r)))
            then set_run_StartedAt (Some at_) r1 else r1 in
  if isWorkflowTerminal to then set_run_FinishedAt (Some at_) r2 else r2.

(** A snapshot with one more audit event. *)
Definition next_event (at_ : time) (entity key from to reason : string) (s : RunSnapshot) : StateEvent :=
  mkStateEvent (u64 (snapshotLastEventSequence s + 1)) at_ entity key from to reason.
Definition push_event (e : StateEvent) (s : RunSnapshot) : RunSnapshot :=
  upd_Run (set_run_LastEventSequence (Sequence e)) (set_Events (Events s ++ [e]) s).

(** The audit log is numbered 1, 2, 3, ... and the run row agrees with it. *)
Record audit_ok (s : RunSnapshot) : Prop := {
  audit_sequence : forall k e, Events s !! k = Some e -> Sequence e = u64 (Z.of_nat k + 1);
  audit_last : LastEventSequence (Run s) = u64 (Z.of_nat (length (Events s)));
}.

(** ** Equations *)
Lemma appendEvent_run at_ entity key from to reason s :
  appendEvent at_ entity key from to reason s =
  (push_event (next_event at_ entity key from to reason s) s, Ok tt).
Proof. done. Qed.

Lemma upd_task_upd_task i f g s : upd_task i f (upd_task i g s) = upd_task i (f ∘ g) s.
Proof.
  destruct s as [? ? [] ?]. unfold upd_task, upd_Tasks, upd_Run, set_Run, set_run_Tasks.
  simpl. by rewrite list_alter_alter_eq.
Qed.

Lemma upd_task_same i f g s t :
  Tasks (Run s) !! i = Some t -> f t = g t -> upd_task i f s = upd_task i g s.
Proof.
  intros Ht E. unfold upd_task, upd_Tasks, upd_Run. do 2 f_equal.
  by eapply alter_same.
Qed.

Lemma transitionTask_run i to at_ reason s t :
  Tasks (Run s) !! i = Some t -> taskTransitions (Status t) to = true ->
  transitionTask i to at_ reason s =
  (push_event
     (next_event at_ "task" (Key t) (task_status_string (Status t)) (task_status_string to) reason s)
     (upd_task i (task_after to at_) s), Ok tt).
Proof.
  intros Ht Hlegal. unfold transitionTask.
  go_step. rewrite Ht. go_step. rewrite Hlegal. do 2 go_step.
  destruct to; cbn [isTaskTerminal task_after]; simpl;
  repeat go_step; rewrite ?upd_task_upd_task; done.
Qed.

Lemma transitionTask_illegal i to at_ reason s t :
  Tasks (Run s) !! i = Some t -> taskTransitions (Status t) to = false ->
  transitionTask i to at_ reason s = (s, Err (Errorf "illegal task transition %s -> %s")).
Proof. intros Ht Hno. unfold transitionTask. go_step. rewrite Ht. go_step. by rewrite Hno. Qed.

Lemma transitionTask_inv i to at_ reason s s' :
  transitionTask i to at_ reason s = (s', Ok tt) ->
  exists t, Tasks (Run s) !! i = Some t /\ taskTransitions (Status t) to = true /\
    s' = push_event
     (next_event at_ "task" (Key t) (task_status_string (Status t)) (task_status_string to) reason s)
     (upd_task i (task_after to at_) s).
Proof.
  intros H. destruct (Tasks (Run s) !! i) as [t|] eqn:Ht.
  - exists t. destruct (taskTransitions (Status t) to) eqn:Hl.
    + rewrite (transitionTask_run _ _ _ _ _ _ Ht Hl) in H. by injection H as <-.
    + by rewrite (transitionTask_illegal _ _ _ _ _ _ Ht Hl) in H.
  - unfold transitionTask in H. go_inv.
Qed.

Lemma upd_attempt_as_task i k f s t :
  Tasks (Run s) !! i = Some t ->
  upd_attempt i k f s =
  upd_task i (fun _ => set_task_Attempts (alter f k (Attempts t)) t) s.
Proof. intros Ht. unfold upd_attempt. by eapply upd_task_same. Qed.

Lemma transitionAttempt_run key i k to at_ reason s t a :
  Tasks (Run s) !! i = Some t -> Attempts t !! k = Some a ->
  attemptTransitions (att_Status a) to = true ->
  transitionAttempt key i k to at_ reason s =
  (push_event
     (next_event at_ "attempt" (slash_number key (Number a))
        (attempt_status_string (att_Status a)) (attempt_status_string to) reason s)
     (upd_attempt i k (attempt_after to at_) s), Ok tt).
Proof.
  intros Ht Ha Hl. unfold transitionAttempt.
  go_step. rewrite Ht. go_step. rewrite Ha. go_step. rewrite Hl. do 3 go_step.
  rewrite appendEvent_run. unfold upd_attempt. rewrite upd_task_upd_task.
  erewrite (upd_task_same i _ _ s t Ht); [reflexivity|].
  unfold compose, set_task_Attempts; cbn [Attempts]. by rewrite list_alter_alter_eq.
Qed.

Lemma transitionWorkflow_run to at_ reason s :
  workflowTransitions (run_Status (Run s)) to = true ->
  transitionWorkflow to at_ reason s =
  (push_event
     (next_event at_ "workflow" (ID (Run s)) (workflow_status_string (run_Status (Run s)))
        (workflow_status_string to) reason s)
     (upd_Run (workflow_after to at_) s), Ok tt).
Proof.
  intros Hl. unfold transitionWorkflow.
  go_step. rewrite Hl. do 3 go_step. unfold workflow_after.
  change (run_StartedAt (Run (upd_Run (set_run_Status to) s))) with (run_StartedAt (Run s)).
  destruct (bool_decide (to = WorkflowRunning) && _) eqn:E; go_step;
    destruct (isWorkflowTerminal to); do 2 go_step; rewrite appendEvent_run;
    unfold upd_Run; by rewrite E.
Qed.

Lemma transitionWorkflow_illegal to at_ reason s :
  workflowTransitions (run_Status (Run s)) to = false ->
  transitionWorkflow to at_ reason s =
  (s, Err (Errorf "illegal workflow transition %s -> %s")).
Proof. intros Hno. unfold transitionWorkflow. go_step. by rewrite Hno. Qed.

(** ** Projections of the updated snapshots *)
Lemma push_event_Tasks e s : Tasks (Run (push_event e s)) = Tasks (Run s).
Proof. done. Qed.
Lemma push_event_Remaining e s :
  RemainingDependencies (Run (push_event e s)) = RemainingDependencies (Run s).
Proof. done. Qed.
Lemma push_event_Status e s : run_Status (Run (push_event e s)) = run_Status (Run s).
Proof. done. Qed.
Lemma push_event_Events e s : Events (push_event e s) = Events s ++ [e].
Proof. done. Qed.
Lemma upd_task_Tasks i f s : Tasks (Run (upd_task i f s)) = alter f i (Tasks (Run s)).
Proof. done. Qed.
Lemma upd_task_Remaining i f s :
  RemainingDependencies (Run (upd_task i f s)) = RemainingDependencies (Run s).
Proof. done. Qed.
Lemma upd_task_Status i f s : run_Status (Run (upd_task i f s)) = run_Status (Run s).
Proof. done. Qed.
Lemma upd_attempt_Remaining i k f s :
  RemainingDependencies (Run (upd_attempt i k f s)) = RemainingDependencies (Run s).
Proof. done. Qed.
Lemma upd_attempt_Status i k f s : run_Status (Run (upd_attempt i k f s)) = run_Status (Run s).
Proof. done. Qed.
Lemma workflow_after_Tasks to at_ r : Tasks (workflow_after to at_ r) = Tasks r.
Proof. unfold workflow_after. by destruct (_ && _), (isWorkflowTerminal to). Qed.
Lemma workflow_after_Remaining to at_ r :
  RemainingDependencies (workflow_after to at_ r) = RemainingDependencies r.
Proof. unfold workflow_after. by destruct (_ && _), (isWorkflowTerminal to). Qed.
Lemma workflow_after_Status to at_ r : run_Status (workflow_after to at_ r) = to.
Proof. unfold workflow_after. by destruct (_ && _), (isWorkflowTerminal to). Qed.
Lemma workflow_after_Last to at_ r :
  LastEventSequence (workflow_after to at_ r) = LastEventSequence r.
Proof. unfold workflow_after. by destruct (_ && _), (isWorkflowTerminal to). Qed.

Create Rewrite HintDb snapshot.
#[export] Hint Rewrite push_event_Tasks push_event_Remaining push_event_Status push_event_Events
  upd_task_Tasks upd_task_Remaining upd_task_Status upd_attempt_Remaining upd_attempt_Status
  workflow_after_Tasks workflow_after_Remaining workflow_after_Status workflow_after_Last : snapshot.

(** ** The audit log *)
Lemma audit_last_sequence s :
  audit_ok s -> snapshotLastEventSequence s = u64 (Z.of_nat (length (Events s))).
Proof.
  intros [Hseq Hlast]. unfold snapshotLastEventSequence.
  destruct (Events s) as [|e l _] eqn:E using rev_ind; [done|].
  rewrite last_snoc, Hlast.
  rewrite (Hseq (length l) e) by (apply list_lookup_middle; done).
  rewrite length_app, Nat.add_comm, Nat2Z.inj_succ. unfold Z.succ. by rewrite Z.ltb_irrefl.
Qed.

Lemma push_event_audit at_ entity key from to reason s s' :
  audit_ok s -> Events s' = Events s -> LastEventSequence (Run s') = LastEventSequence (Run s) ->
  audit_ok (push_event (next_event at_ entity key from to reason s) s').
Proof.
  intros Hok He Hl. pose proof (audit_last_sequence _ Hok) as Hlast. split.
  - intros k e. rewrite push_event_Events, He. intros Hk.
    destruct (lookup_app_Some (Events s) [next_event at_ entity key from to reason s] k e) as [H _].
    destruct (H Hk) as [Hk'|[Hge Hk']]; [by apply Hok|].
    apply list_lookup_singleton_Some in Hk' as [Hz <-]. cbn.
    rewrite Hlast, u64_succ. f_equal. lia.
  - cbn. rewrite Hlast, u64_succ, He, length_app. cbn. f_equal. lia.
Qed.

Lemma audit_ok_ext s s' :
  Events s' = Events s -> LastEventSequence (Run s') = LastEventSequence (Run s) ->
  audit_ok s -> audit_ok s'.
Proof. intros He Hl []. split; by rewrite ?He, ?Hl. Qed.

Lemma transitionTask_audit i to at_ reason s s' :
  audit_ok s -> transitionTask i to at_ reason s = (s', Ok tt) -> audit_ok s'.
Proof. intros Hok (t & _ & _ & ->)%transitionTask_inv. by apply push_event_audit. Qed.
