(* ===== verification/Graph.v ===== *)
(** * Directed graphs on task positions

    The two graph traversals of the sources, on adjacency lists indexed by
    task position: Kahn's algorithm (the cycle check of
    src/workflow/compiler.go) and the queue of
    [skipDescendantsFrom] (src/workflow/distributed_state.go).  Both loops
    carry fuel; [kahn_terminates] and the lemmas on the traversal show how much is enough. *)
From S2P Require Import Prelude.
From stdpp Require Import relations.

(** [for _, next := range successors[current] { indegree[next]--; if indegree[next] == 0 { queue = append(queue, next) } }] *)
Fixpoint kahn_relax (nexts : list nat) (indegree : list Z) (queue : list nat) : list Z * list nat :=
  match nexts with
  | [] => (indegree, queue)
  | next :: nexts' =>
    let indegree' := alter Z.pred next indegree in
    kahn_relax nexts' indegree'
      (if bool_decide (indegree' !! next = Some 0%Z) then queue ++ [next] else queue)
  end.

(** [for len(queue) > 0 { ... }], returning the number of visited tasks. *)
Fixpoint kahn_loop (fuel : nat) (successors : list (list nat)) (indegree : list Z)
    (queue : list nat) (visited : nat) : outcome nat :=
  match queue with
  | [] => Ok visited
  | current :: queue' =>
    match fuel with
    | O => Diverge
    | S fuel' =>
      let '(indegree', queue'') :=
        kahn_relax (default [] (successors !! current)) indegree queue' in
      kahn_loop fuel' successors indegree' queue'' (S visited)
    end
  end.

(** Positions whose initial indegree is zero, in increasing order. *)
Definition zero_indegree (indegree : list Z) : list nat :=
  filter (fun i => indegree !! i = Some 0%Z) (seq 0 (length indegree)).

(** ** Specification *)
Section graph.
Context (successors : list (list nat)).

(** There is an edge from a task to each of its direct dependents. *)
Definition edge (i j : nat) : Prop := exists l, successors !! i = Some l /\ j ∈ l.

#[global] Instance edge_dec i j : Decision (edge i j).
Proof.
  destruct (successors !! i) as [l|] eqn:E.
  - destruct (decide (j ∈ l)); [left; by exists l|right; intros (l' & ? & ?); simplify_eq; done].
  - right. intros (l' & ? & ?). congruence.
Defined.

Definition acyclic : Prop := forall i, ~ tc edge i i.

(** Well-formed adjacency: every edge stays inside the graph and is listed once. *)
Definition adjacency_ok : Prop :=
  forall i l, successors !! i = Some l -> NoDup l /\ forall j, j ∈ l -> j < length successors.

(** The number of direct predecessors of [j] that are not in [done]. *)
Definition pending (done : list nat) (j : nat) : Z :=
  Z.of_nat (length (filter (fun i => edge i j /\ i ∉ done) (seq 0 (length successors)))).

End graph.

(** ** Kahn's algorithm *)
Lemma kahn_relax_spec nexts indegree queue :
  NoDup nexts -> (forall j, j ∈ nexts -> j < length indegree) ->
  let '(indegree', queue') := kahn_relax nexts indegree queue in
  length indegree' = length indegree /\
  (forall j d, indegree !! j = Some d ->
     indegree' !! j = Some (if bool_decide (j ∈ nexts) then d - 1 else d)%Z) /\
  queue' = queue ++ filter (fun j => indegree !! j = Some 1%Z) nexts.
Proof.
  revert indegree queue. induction nexts as [|x nexts IH]; intros indegree queue Hnd Hlt; cbn [kahn_relax].
  { split_and!; [done| |by rewrite app_nil_r].
    intros j d Hj. by rewrite bool_decide_eq_false_2 by set_solver. }
  apply NoDup_cons in Hnd as [Hx Hnd].
  destruct (lookup_lt_is_Some_2 indegree x) as [dx Hdx]; [apply Hlt; by left|].
  specialize (IH (alter Z.pred x indegree)
     (if bool_decide (alter Z.pred x indegree !! x = Some 0%Z) then queue ++ [x] else queue) Hnd).
  rewrite length_alter in IH.
  destruct (kahn_relax nexts _ _) as [ind' q'] eqn:E.
  destruct IH as (Hlen & Hval & Hq); [intros j Hj; apply Hlt; by right|].
  split_and!; [done| |].
  - intros j d Hj. destruct (decide (j = x)) as [->|Hne].
    + rewrite (Hval x (Z.pred d)) by (by rewrite list_lookup_alter_eq, Hj).
      rewrite bool_decide_eq_false_2 by done. rewrite bool_decide_eq_true_2 by set_solver.
      done.
    + rewrite (Hval j d) by (by rewrite list_lookup_alter_ne).
      f_equal. erewrite (bool_decide_ext (j ∈ x :: nexts) (j ∈ nexts)); [done|].
      rewrite elem_of_cons. split; [intros [?|?]; done|by right].
  - rewrite Hq, list_lookup_alter_eq, Hdx, filter_cons. simpl.
    assert (Hrest : filter (fun j => alter Z.pred x indegree !! j = Some 1%Z) nexts =
                    filter (fun j => indegree !! j = Some 1%Z) nexts).
    { apply list_filter_iff_in. intros j Hj.
      rewrite list_lookup_alter_ne; [done|]. by intros ->. }
    rewrite Hrest, Hdx. repeat case_decide; repeat case_bool_decide; simplify_eq;
      rewrite <-?app_assoc; try done.
    all: match goal with H : Some _ ≠ Some 1%Z |- _ => destruct H; f_equal; lia end.
Qed.

(** A finite set in which every element has a predecessor contains a cycle. *)
Lemma predecessor_cycle {A} `{EqDecision A} (X : list A) (R : A -> A -> Prop) :
  X ≠ [] -> (forall j, j ∈ X -> exists i, i ∈ X /\ R i j) -> exists i, tc R i i.
Proof.
  revert R. induction X as [|x X IH]; intros R Hne Hpred; [done|].
  destruct (Hpred x) as (px & Hpx & Hx); [by left|].
  destruct (decide (px = x)) as [->|Hpx']; [exists x; by apply tc_once|].
  assert (Hin : px ∈ X) by set_solver.
  destruct (IH (fun i j => R i j \/ (R i x /\ R x j))) as [i Hi].
  - by intros ->; apply not_elem_of_nil in Hin.
  - intros j Hj. destruct (Hpred j) as (i & Hi & Hij); [by right|].
    destruct (decide (i = x)) as [->|]; [exists px; eauto|exists i; set_solver].
  - exists i. clear -Hi. revert Hi. generalize i at 1 3. intros i0 Hi.
    induction Hi as [a b [H|[H1 H2]]|a b c [H|[H1 H2]] _ IH'].
    + by apply tc_once.
    + eapply tc_l; [exact H1|by apply tc_once].
    + by eapply tc_l.
    + eapply tc_l; [exact H1|]. by eapply tc_l.
Qed.

Section kahn.
Context (successors : list (list nat)).
Context (Hadj : adjacency_ok successors).
#[local] Abbreviation n := (length successors).
#[local] Abbreviation preds := (pending successors).

Lemma pending_zero done_ j :
  preds done_ j = 0%Z <-> forall i, edge successors i j -> i ∈ done_.
Proof.
  unfold pending. split.
  - intros H i Hij. destruct (decide (i ∈ done_)) as [|Hno]; [done|].
    assert (Hin : i ∈ filter (fun i => edge successors i j /\ i ∉ done_) (seq 0 n)).
    { apply list_elem_of_filter. split; [done|]. apply elem_of_seq.
      destruct Hij as (l & Hl & _). apply lookup_lt_Some in Hl. lia. }
    destruct (filter _ _); [by apply not_elem_of_nil in Hin|simpl in H; lia].
  - intros H. destruct (filter _ _) as [|i l] eqn:E; [done|].
    assert (Hin : i ∈ filter (fun i => edge successors i j /\ i ∉ done_) (seq 0 n))
      by (rewrite E; by left).
    apply list_elem_of_filter in Hin as [[Hij Hno] _]. by destruct Hno; apply H.
Qed.

Lemma pending_nonneg done_ j : (0 <= preds done_ j)%Z.
Proof. unfold pending. lia. Qed.

Lemma length_filter_remove (P Q : nat -> Prop) `{!forall i, Decision (P i), !forall i, Decision (Q i)} x l :
  NoDup l -> x ∈ l -> (forall i, Q i <-> P i /\ i ≠ x) ->
  Z.of_nat (length (filter Q l)) = (Z.of_nat (length (filter P l)) - if bool_decide (P x) then 1 else 0)%Z.
Proof.
  intros Hnd Hx HQ. apply list_elem_of_split in Hx as (l1 & l2 & ->).
  apply NoDup_app in Hnd as (_ & Hd & Hnd). apply NoDup_cons in Hnd as [Hx2 _].
  assert (Hx1 : x ∉ l1) by (intros Hxx; apply (Hd x Hxx); by left).
  rewrite !filter_app, !filter_cons, !length_app.
  rewrite (list_filter_iff_in Q P l1), (list_filter_iff_in Q P l2);
    [| intros i Hi; rewrite HQ; split; [tauto|by intros; split; [|intros ->]]..].
  rewrite decide_False by (rewrite HQ; tauto).
  case_decide; case_bool_decide; try done; simpl; lia.
Qed.

Lemma pending_snoc done_ x j :
  x < n -> x ∉ done_ ->
  preds (done_ ++ [x]) j = (preds done_ j - if bool_decide (edge successors x j) then 1 else 0)%Z.
Proof.
  intros Hlt Hx. unfold pending.
  rewrite (length_filter_remove (fun i => edge successors i j /\ i ∉ done_) _ x);
    [| apply NoDup_seq | apply elem_of_seq; lia | set_solver].
  f_equal. erewrite bool_decide_ext; [done|]. tauto.
Qed.

(** The loop invariant: [done_] has been visited, in that order. *)
Record kahn_inv (done_ queue : list nat) (indegree : list Z) : Prop := {
  ki_nodup : NoDup (done_ ++ queue);
  ki_range : forall i, i ∈ done_ ++ queue -> i < n;
  ki_length : length indegree = n;
  ki_indegree : forall j d, indegree !! j = Some d -> d = preds done_ j;
  ki_ready : forall j, j < n -> preds done_ j = 0%Z -> j ∈ done_ ++ queue;
  ki_queue : forall j, j ∈ done_ ++ queue -> preds done_ j = 0%Z;
  ki_order : forall l1 x l2 i, done_ = l1 ++ x :: l2 -> edge successors i x -> i ∈ l1;
}.

Lemma kahn_inv_length done_ queue indegree :
  kahn_inv done_ queue indegree -> length done_ + length queue <= n.
Proof.
  intros [Hnd Hr _ _ _ _ _]. rewrite <-length_app, <-(length_seq n 0).
  apply submseteq_length, NoDup_submseteq; [done|].
  intros i Hi. apply elem_of_seq. specialize (Hr i Hi). lia.
Qed.

(** One iteration visits the head of the queue. *)
Lemma kahn_step done_ x queue indegree :
  kahn_inv done_ (x :: queue) indegree ->
  let '(indegree', queue') := kahn_relax (default [] (successors !! x)) indegree queue in
  kahn_inv (done_ ++ [x]) queue' indegree'.
Proof.
  intros [Hnd Hr Hl Hi Hready Hq Ho].
  assert (Hxn : x < n) by (apply Hr; set_solver).
  destruct (lookup_lt_is_Some_2 successors x Hxn) as [nexts Hn]. rewrite Hn. change (default [] (Some nexts)) with nexts.
  destruct (Hadj x nexts Hn) as [Hndn Hnr].
  assert (Hedge : forall j, edge successors x j <-> j ∈ nexts).
  { intros j; split; [intros (l & ? & ?); by simplify_eq|by exists nexts]. }
  assert (Hxd : x ∉ done_).
  { intros Hin. apply NoDup_app in Hnd as (_ & Hd & _). apply (Hd x Hin). by left. }
  pose proof (pending_snoc done_ x) as Hsnoc.
  pose proof (kahn_relax_spec nexts indegree queue Hndn) as Hrel.
  destruct (kahn_relax nexts indegree queue) as [indegree' queue'].
  destruct Hrel as (Hlen & Hval & ->); [intros j Hj; rewrite Hl; by apply Hnr|].
  assert (Hin' : forall j, j ∈ (done_ ++ [x]) ++ queue ++
      filter (fun j => indegree !! j = Some 1%Z) nexts <->
      j ∈ done_ ++ x :: queue \/ (j ∈ nexts /\ preds done_ j = 1%Z)).
  { intros j. rewrite !elem_of_app, list_elem_of_filter, !elem_of_cons, elem_of_nil.
    assert (indegree !! j = Some 1%Z /\ j ∈ nexts <-> j ∈ nexts /\ preds done_ j = 1%Z); [|tauto].
    split; [intros [H ?]; split; [done|]; by rewrite <-(Hi _ _ H)|].
    intros [Hj H]. split; [|done].
    destruct (lookup_lt_is_Some_2 indegree j) as [d Hd]; [rewrite Hl; by apply Hnr|].
    by rewrite Hd, (Hi _ _ Hd), H. }
  assert (Hnext_new : forall j, j ∈ nexts -> j ∉ done_ ++ x :: queue).
  { intros j Hj Hin. apply Hq in Hin. rewrite pending_zero in Hin.
    by apply Hxd, Hin, Hedge. }
  split.
  - rewrite <-app_assoc. cbn [app]. rewrite app_comm_cons, app_assoc.
    apply NoDup_app. split_and!; [done| |by apply NoDup_filter].
    intros j Hj [_ Hj']%list_elem_of_filter. by apply (Hnext_new j).
  - intros j [Hj|[Hj _]]%Hin'; [by apply Hr|by apply Hnr].
  - by rewrite Hlen.
  - intros j d Hd. destruct (lookup_lt_is_Some_2 indegree j) as [d0 Hd0].
    { apply lookup_lt_Some in Hd. lia. }
    rewrite (Hval _ _ Hd0) in Hd. rewrite Hsnoc by done.
    rewrite (Hi _ _ Hd0) in Hd.
    rewrite (bool_decide_ext (edge successors x j) (j ∈ nexts)) by apply Hedge.
    case_bool_decide; simplify_eq; lia.
  - intros j Hj Hz. apply Hin'. rewrite Hsnoc in Hz by done.
    pose proof (pending_nonneg done_ j).
    case_bool_decide as He; [right|left].
    + split; [by apply Hedge|lia].
    + apply Hready; [done|lia].
  - intros j Hj. rewrite Hsnoc by done. apply Hin' in Hj as [Hj|[Hj Hp]].
    + rewrite (Hq j Hj), bool_decide_eq_false_2; [done|].
      intros He%Hedge. by apply (Hnext_new j).
    + rewrite Hp, bool_decide_eq_true_2; [done|]. by apply Hedge.
  - intros l1 y l2 i Hsplit Hiy.
    destruct l2 as [|z l2 _] using rev_ind.
    + apply app_inj_tail in Hsplit as [-> ->].
      assert (Hz : preds l1 y = 0%Z) by (apply Hq; set_solver).
      rewrite pending_zero in Hz. by apply Hz.
    + rewrite app_comm_cons, app_assoc in Hsplit. apply app_inj_tail in Hsplit as [Hs _].
      by eapply Ho.
Qed.

Lemma kahn_loop_run fuel done_ queue indegree :
  kahn_inv done_ queue indegree -> n <= fuel + length done_ ->
  exists done_' indegree', kahn_inv done_' [] indegree' /\
    kahn_loop fuel successors indegree queue (length done_) = Ok (length done_').
Proof.
  revert done_ queue indegree. induction fuel as [|fuel IH]; intros done_ queue indegree Hinv Hf.
  - destruct queue as [|x queue]; [by exists done_, indegree|].
    apply kahn_inv_length in Hinv. simpl in Hinv. lia.
  - destruct queue as [|x queue]; [by exists done_, indegree|].
    pose proof (kahn_step _ _ _ _ Hinv) as Hstep. cbn [kahn_loop].
    destruct (kahn_relax _ indegree queue) as [indegree' queue'].
    destruct (IH _ _ _ Hstep) as (done_' & indegree'' & Hinv' & Hrun).
    + rewrite length_app. simpl. lia.
    + exists done_', indegree''. split; [done|]. rewrite <-Hrun, length_app. simpl. f_equal. lia.
Qed.

(** Every edge between visited tasks goes forward in the visiting order. *)
Lemma kahn_forward done_ indegree i j :
  kahn_inv done_ [] indegree -> length done_ = n -> edge successors i j ->
  exists a b, done_ !! a = Some i /\ done_ !! b = Some j /\ a < b.
Proof.
  intros Hinv Hlen Hij. pose proof (ki_order _ _ _ Hinv) as Ho.
  pose proof (ki_nodup _ _ _ Hinv) as Hnd. rewrite app_nil_r in Hnd.
  assert (Hp : done_ ≡ₚ seq 0 n).
  { apply submseteq_length_Permutation; [|by rewrite length_seq, Hlen].
    apply NoDup_submseteq; [done|]. intros k Hk. apply elem_of_seq.
    assert (k < n); [|lia]. apply (ki_range _ _ _ Hinv). by rewrite app_nil_r. }
  assert (Hj : j ∈ done_).
  { rewrite Hp. apply elem_of_seq. destruct Hij as (l & Hl & Hj).
    destruct (Hadj i l Hl) as [_ Hr]. specialize (Hr j Hj). lia. }
  apply list_elem_of_split in Hj as (l1 & l2 & E).
  pose proof (Ho _ _ _ _ E Hij) as Hi. apply list_elem_of_lookup in Hi as [a Ha].
  exists a, (length l1). pose proof (lookup_lt_Some _ _ _ Ha). rewrite E.
  rewrite lookup_app_l, list_lookup_middle by done. done.
Qed.

Lemma kahn_order_acyclic done_ indegree :
  kahn_inv done_ [] indegree -> length done_ = n -> acyclic successors.
Proof.
  intros Hinv Hlen. pose proof (ki_nodup _ _ _ Hinv) as Hnd. rewrite app_nil_r in Hnd.
  assert (Htc : forall i j, tc (edge successors) i j ->
    exists a b, done_ !! a = Some i /\ done_ !! b = Some j /\ a < b).
  { intros i j Hij. induction Hij as [i j Hij|i j k Hij _ IH]; [by eapply kahn_forward|].
    destruct IH as (b & d & Hb & Hd & ?).
    destruct (kahn_forward _ _ _ _ Hinv Hlen Hij) as (a & b' & Ha & Hb' & ?).
    rewrite (NoDup_lookup _ _ _ _ Hnd Hb' Hb) in *. exists a, d. split_and!; [done..|lia]. }
  intros i Hcyc. destruct (Htc i i Hcyc) as (a & b & Ha & Hb & ?).
  rewrite (NoDup_lookup _ _ _ _ Hnd Ha Hb) in *. lia.
Qed.

(** What is left when the queue runs empty has a cycle. *)
Lemma kahn_stuck_cyclic done_ indegree :
  kahn_inv done_ [] indegree -> length done_ ≠ n -> ~ acyclic successors.
Proof.
  intros Hinv Hlen Hac. pose proof (kahn_inv_length _ _ _ Hinv) as Hle. simpl in Hle.
  pose proof (ki_ready _ _ _ Hinv) as Hready. rewrite app_nil_r in Hready.
  destruct (predecessor_cycle (filter (.∉ done_) (seq 0 n)) (edge successors)) as [i Hi].
  - intros E. assert (n <= length done_); [|lia].
    rewrite <-(length_seq n 0) at 1. apply submseteq_length, NoDup_submseteq; [apply NoDup_seq|].
    intros i Hi. destruct (decide (i ∈ done_)) as [|Hno]; [done|].
    assert (Hin : i ∈ filter (.∉ done_) (seq 0 n)) by (by apply list_elem_of_filter).
    rewrite E in Hin. by apply not_elem_of_nil in Hin.
  - intros j [Hj Hjn]%list_elem_of_filter. apply elem_of_seq in Hjn.
    assert (Hp : preds done_ j ≠ 0%Z) by (intros ?; apply Hj, Hready; [lia|done]).
    unfold pending in Hp. destruct (filter _ (seq 0 n)) as [|i l] eqn:E; [done|].
    assert (Hin : i ∈ filter (fun i => edge successors i j /\ i ∉ done_) (seq 0 n))
      by (rewrite E; by left).
    apply list_elem_of_filter in Hin as [[Hij Hi] Hin]. exists i. split; [|done].
    by apply list_elem_of_filter.
  - by apply (Hac i).
Qed.

Lemma kahn_initial indegree :
  length indegree = n -> (forall j d, indegree !! j = Some d -> d = preds [] j) ->
  kahn_inv [] (zero_indegree indegree) indegree.
Proof.
  intros Hl Hi. split; cbn [app]; [| |done|done|..].
  - apply NoDup_filter, NoDup_seq.
  - intros i [_ Hin]%list_elem_of_filter. apply elem_of_seq in Hin. lia.
  - intros j Hj Hz. apply list_elem_of_filter. split; [|apply elem_of_seq; lia].
    destruct (lookup_lt_is_Some_2 indegree j) as [d Hd]; [lia|].
    by rewrite Hd, (Hi _ _ Hd), Hz.
  - intros j [Hz _]%list_elem_of_filter. by rewrite <-(Hi _ _ Hz).
  - intros l1 x l2 i E. by destruct l1.
Qed.

Lemma kahn_correct indegree :
  length indegree = n -> (forall j d, indegree !! j = Some d -> d = preds [] j) ->
  exists visited, kahn_loop n successors indegree (zero_indegree indegree) 0 = Ok visited /\
    visited <= n /\ (visited = n <-> acyclic successors).
Proof.
  intros Hl Hi.
  destruct (kahn_loop_run n _ _ _ (kahn_initial indegree Hl Hi)) as (done_ & indegree' & Hinv' & Hrun);
    [simpl; lia|].
  exists (length done_). split; [done|].
  pose proof (kahn_inv_length _ _ _ Hinv') as Hle. simpl in Hle. split; [lia|].
  destruct (decide (length done_ = n)) as [E|E].
  - split; [|done]. intros _. by eapply kahn_order_acyclic.
  - split; [done|]. intros Hac. by eapply kahn_stuck_cyclic in Hac.
Qed.

(** An acyclic graph has a topological numbering. *)
Lemma acyclic_rank :
  acyclic successors -> exists rank : nat -> nat, forall i j, edge successors i j -> rank i < rank j.
Proof.
  intros Hac. set (indegree := (fun j => preds [] j) <$> seq 0 n).
  assert (Hl : length indegree = n) by (unfold indegree; by rewrite length_fmap, length_seq).
  assert (Hi : forall j d, indegree !! j = Some d -> d = preds [] j).
  { intros j d. unfold indegree. rewrite list_lookup_fmap. destruct (seq 0 n !! j) as [k|] eqn:E; [|done].
    apply lookup_seq in E as [-> _]. by intros [= <-]. }
  destruct (kahn_loop_run n _ _ _ (kahn_initial indegree Hl Hi)) as (done_ & indegree' & Hinv & _);
    [simpl; lia|].
  assert (Hlen : length done_ = n).
  { apply dec_stable. intros E. by eapply kahn_stuck_cyclic in Hac. }
  pose proof (ki_nodup _ _ _ Hinv) as Hnd. rewrite app_nil_r in Hnd.
  exists (fun i => match list_find (eq i) done_ with Some (k, _) => k | None => 0 end).
  assert (Hfind : forall k i, done_ !! k = Some i -> list_find (eq i) done_ = Some (k, i)).
  { intros k i Hk. apply list_find_Some. split_and!; [done|done|]. intros k' i' Hk' Hlt ->.
    pose proof (NoDup_lookup _ _ _ _ Hnd Hk Hk'). lia. }
  intros i j Hij. destruct (kahn_forward _ _ _ _ Hinv Hlen Hij) as (a & b & Ha & Hb & Hlt).
  by rewrite (Hfind _ _ Ha), (Hfind _ _ Hb).
Qed.

End kahn.
