(* ===== verification/Compiler.v ===== *)
(** * Compiling a workflow definition

    src/workflow/compiler.go: [Compile] checks a definition, fills in the
    defaults, builds the task index and the two adjacency lists and rejects
    cyclic dependencies.  The specification [valid_definition] says which
    definitions it must accept, [compiled_wf] what the result promises to the
    scheduler. *)
From S2P Require Import Prelude GoStrings Json Model Graph.

Definition maxWorkflowTasks : nat := Z.to_nat 10000.
Definition maxTaskInputBytes : nat := Z.to_nat 65536.

(** ** [Compile] *)
Definition cloneTask (task : TaskDefinition) : outcome TaskDefinition :=
  input ← cloneTaskInput (def_Input task);
  Ok (mkTaskDefinition (def_Key task) (def_Executor task) (def_Action task) input
        (DependsOn task) (Retry task) (TimeoutMillis task)).

Fixpoint cloneTasks (tasks : list TaskDefinition) : outcome (list TaskDefinition) :=
  match tasks with
  | [] => Ok []
  | task :: tasks' => t ← cloneTask task; ts ← cloneTasks tasks'; Ok (t :: ts)
  end.

Definition cloneDefinition (def : WorkflowDefinition) : outcome WorkflowDefinition :=
  tasks ← cloneTasks (def_Tasks def);
  Ok (mkWorkflowDefinition (wf_ID def) (Concurrency def) tasks).

(** The first loop of [Compile]: the input of one task. *)
Definition checkInput (input : Input) : outcome unit :=
  match validateJSONValue (input_value input) with
  | Ok _ =>
    match json_encode (input_value input) with
    | None => Err (Errorf "task %q input must be a JSON object: %w")
    | Some body =>
      check (bool_decide (maxTaskInputBytes < length body))
        (Errorf "task %q input cannot exceed %d bytes") (Ok tt)
    end
  | Err e => Err (Wrapf "task %q input must contain only JSON values: %w" e)
  | Panic => Panic
  | Diverge => Diverge
  end.

Fixpoint checkInputs (tasks : list TaskDefinition) : outcome unit :=
  match tasks with
  | [] => Ok tt
  | task :: tasks' => _ ← checkInput (def_Input task); checkInputs tasks'
  end.

(** The second loop: the checks and defaults of one task, without its index. *)
Definition normalize (task : TaskDefinition) : TaskDefinition :=
  mkTaskDefinition (def_Key task)
    (if bool_decide (def_Executor task = ExecutorOther "") then ExecutorMock else def_Executor task)
    (def_Action task) (def_Input task) (DependsOn task)
    (if (MaxAttempts (Retry task) =? 0)%Z
     then mkRetryPolicy 1 (IntervalMillis (Retry task)) else Retry task)
    (TimeoutMillis task).

Definition compileTask (index : gmap TaskKey nat) (task : TaskDefinition) : outcome TaskDefinition :=
  check (negb (match_identifier (def_Key task))) (Errorf "invalid task key %q") $
  check (bool_decide (is_Some (index !! def_Key task))) (Errorf "duplicate task key %q") $
  check (is_empty (TrimSpace (def_Action task))) (Errorf "task %q action is required") $
  let executor := def_Executor (normalize task) in
  check (negb (bool_decide (executor = ExecutorMock)) && negb (bool_decide (executor = ExecutorContainer)))
    (Errorf "task %q executor %q is not supported") $
  check (TimeoutMillis task <=? 0)%Z (Errorf "task %q timeout must be greater than zero") $
  let retry := Retry (normalize task) in
  check ((MaxAttempts retry <? 1)%Z || (IntervalMillis retry <? 0)%Z)
    (Errorf "invalid retry policy for task %q") $
  Ok (normalize task).

Fixpoint compileTasks (i : nat) (tasks : list TaskDefinition) (index : gmap TaskKey nat)
    : outcome (list TaskDefinition * gmap TaskKey nat) :=
  match tasks with
  | [] => Ok ([], index)
  | task :: tasks' =>
    task' ← compileTask index task;
    '(rest, index') ← compileTasks (S i) tasks' (<[def_Key task := i]> index);
    Ok (task' :: rest, index')
  end.

(** The third loop: [dependencies], [successors] and [indegree]. *)
Record graph_state := mkGraphState {
  g_dependencies : list (list nat);
  g_successors : list (list nat);
  g_indegree : list Z;
}.

Definition addEdge (g : graph_state) (e : nat * nat) : graph_state :=
  let '(dependencyIndex, taskIndex) := e in
  mkGraphState
    (alter (fun l => l ++ [dependencyIndex]) taskIndex (g_dependencies g))
    (alter (fun l => l ++ [taskIndex]) dependencyIndex (g_successors g))
    (alter Z.succ taskIndex (g_indegree g)).

Fixpoint addDependencies (index : gmap TaskKey nat) (taskIndex : nat) (keys : list TaskKey)
    (seen : gset nat) (g : graph_state) : outcome graph_state :=
  match keys with
  | [] => Ok g
  | dependencyKey :: keys' =>
    match index !! dependencyKey with
    | None => Err (Errorf "task %q depends on missing task %q")
    | Some dependencyIndex =>
      check (bool_decide (dependencyIndex ∈ seen)) (Errorf "task %q repeats dependency %q") $
      addDependencies index taskIndex keys' ({[dependencyIndex]} ∪ seen)
        (addEdge g (dependencyIndex, taskIndex))
    end
  end.

Fixpoint addTasks (index : gmap TaskKey nat) (taskIndex : nat) (tasks : list TaskDefinition)
    (g : graph_state) : outcome graph_state :=
  match tasks with
  | [] => Ok g
  | task :: tasks' =>
    g' ← addDependencies index taskIndex (DependsOn task) ∅ g;
    addTasks index (S taskIndex) tasks' g'
  end.

Definition emptyGraph (n : nat) : graph_state :=
  mkGraphState (replicate n []) (replicate n []) (replicate n 0%Z).

Definition Compile (def0 : WorkflowDefinition) : outcome CompiledWorkflow :=
  _ ← checkInputs (def_Tasks def0);
  def ← cloneDefinition def0;
  check (is_empty (wf_ID def)) (Errorf "workflow id is required") $
  check (negb (match_identifier (wf_ID def))) (Errorf "invalid workflow id %q") $
  check (Concurrency def <=? 0)%Z (Errorf "concurrency must be greater than zero") $
  let n := length (def_Tasks def) in
  check (bool_decide (n = 0)) (Errorf "workflow must contain at least one task") $
  check (bool_decide (maxWorkflowTasks < n)) (Errorf "workflow cannot contain more than 10000 tasks") $
  '(tasks, index) ← compileTasks 0 (def_Tasks def) ∅;
  g ← addTasks index 0 tasks (emptyGraph n);
  visited ← kahn_loop n (g_successors g) (g_indegree g) (zero_indegree (g_indegree g)) 0;
  check (bool_decide (visited ≠ n)) (Errorf "workflow contains a dependency cycle") $
  Ok (mkCompiledWorkflow (mkWorkflowDefinition (wf_ID def) (Concurrency def) tasks)
        index (g_dependencies g) (g_successors g)).

(** [CompiledWorkflow.Definition]; [None] is the nil pointer. *)
Definition Definition_of (c : option CompiledWorkflow) : outcome WorkflowDefinition :=
  match c with
  | None => Ok (mkWorkflowDefinition "" 0 [])
  | Some c => cloneDefinition (definition c)
  end.

(** ** Specification *)

(** The task at position [j] names the task at position [i] in [DependsOn]. *)
Definition depends (tasks : list TaskDefinition) (i j : nat) : Prop :=
  exists ti tj, tasks !! i = Some ti /\ tasks !! j = Some tj /\ def_Key ti ∈ DependsOn tj.

Definition valid_task (t : TaskDefinition) : Prop :=
  match_identifier (def_Key t) = true /\
  TrimSpace (def_Action t) ≠ "" /\
  def_Executor t ∈ [ExecutorOther ""; ExecutorMock; ExecutorContainer] /\
  (0 < TimeoutMillis t)%Z /\ (0 <= MaxAttempts (Retry t))%Z /\ (0 <= IntervalMillis (Retry t))%Z /\
  NoDup (DependsOn t).

Record valid_definition (def : WorkflowDefinition) : Prop := {
  vd_inputs : Forall (fun t => checkInput (def_Input t) = Ok tt) (def_Tasks def);
  vd_id : match_identifier (wf_ID def) = true;
  vd_concurrency : (0 < Concurrency def)%Z;
  vd_count : 1 <= length (def_Tasks def) <= maxWorkflowTasks;
  vd_tasks : Forall valid_task (def_Tasks def);
  vd_keys : NoDup (def_Key <$> def_Tasks def);
  vd_known : forall t k, t ∈ def_Tasks def -> k ∈ DependsOn t -> k ∈ def_Key <$> def_Tasks def;
  vd_acyclic : forall i, ~ tc (depends (def_Tasks def)) i i;
}.

(** A compiled task has its defaults filled in. *)
Definition compiled_task_ok (t : TaskDefinition) : Prop :=
  match_identifier (def_Key t) = true /\ TrimSpace (def_Action t) ≠ "" /\
  def_Executor t ∈ [ExecutorMock; ExecutorContainer] /\
  (0 < TimeoutMillis t)%Z /\ (1 <= MaxAttempts (Retry t))%Z /\ (0 <= IntervalMillis (Retry t))%Z.

Record compiled_wf (c : CompiledWorkflow) : Prop := {
  cw_id : match_identifier (wf_ID (definition c)) = true;
  cw_concurrency : (0 < Concurrency (definition c))%Z;
  cw_nonempty : 0 < length (def_Tasks (definition c));
  cw_tasks : Forall compiled_task_ok (def_Tasks (definition c));
  cw_keys : NoDup (def_Key <$> def_Tasks (definition c));
  cw_index : forall k i, index c !! k = Some i <->
    exists t, def_Tasks (definition c) !! i = Some t /\ def_Key t = k;
  cw_dep_length : length (dependencies c) = length (def_Tasks (definition c));
  cw_succ_length : length (successors c) = length (def_Tasks (definition c));
  cw_dependencies : forall i t, def_Tasks (definition c) !! i = Some t -> exists ds,
    dependencies c !! i = Some ds /\ (index c !!.) <$> DependsOn t = Some <$> ds;
  cw_dep_nodup : forall i ds, dependencies c !! i = Some ds -> NoDup ds;
  cw_dual : forall i j, edge (successors c) i j <-> edge (dependencies c) j i;
  cw_adjacency : adjacency_ok (successors c);
  cw_acyclic : acyclic (successors c);
}.

(** ** Inputs and clones *)
(** What [Compile] makes of one task. *)
Definition compiled_from (t t' : TaskDefinition) : Prop :=
  exists t0, cloneTask t = Ok t0 /\ t' = normalize t0.

Definition shape (t : TaskDefinition) : TaskKey * list TaskKey := (def_Key t, DependsOn t).

Lemma cloneTask_same t t0 : cloneTask t = Ok t0 ->
  def_Key t0 = def_Key t /\ def_Executor t0 = def_Executor t /\ def_Action t0 = def_Action t /\
  DependsOn t0 = DependsOn t /\ Retry t0 = Retry t /\ TimeoutMillis t0 = TimeoutMillis t.
Proof. unfold cloneTask. intros H. by go_inv. Qed.

Lemma checkInputs_ok tasks :
  checkInputs tasks = Ok tt <-> Forall (fun t => checkInput (def_Input t) = Ok tt) tasks.
Proof.
  induction tasks as [|t tasks IH]; cbn; [by split; [constructor|]|].
  rewrite Forall_cons. split.
  - intros H. go_inv. destruct a. by rewrite <-IH.
  - intros [-> H]. by apply IH.
Qed.

Lemma checkInput_encodes entries :
  checkInput (Some entries) = Ok tt -> is_Some (json_encode (AnyMap entries)).
Proof.
  unfold checkInput. cbn [input_value].
  destruct (validateJSONValue _); [|done..]. destruct (json_encode _); [by eexists|done].
Qed.

Lemma cloneTaskInput_ok input :
  checkInput input = Ok tt -> exists input', cloneTaskInput input = Ok input'.
Proof.
  destruct input as [entries|]; [|by eexists]. intros [b Hb]%checkInput_encodes.
  unfold cloneTaskInput. rewrite Hb. cbn. by eexists.
Qed.

Lemma cloneTasks_ok tasks :
  Forall (fun t => checkInput (def_Input t) = Ok tt) tasks -> exists ts, cloneTasks tasks = Ok ts.
Proof.
  induction 1 as [|t tasks Ht _ (ts & Hts)]; [by exists []|].
  destruct (cloneTaskInput_ok _ Ht) as [input Hinput].
  exists (mkTaskDefinition (def_Key t) (def_Executor t) (def_Action t) input
    (DependsOn t) (Retry t) (TimeoutMillis t) :: ts).
  cbn [cloneTasks]. unfold cloneTask. by rewrite Hinput, Hts.
Qed.

Lemma cloneTasks_inv tasks ts :
  cloneTasks tasks = Ok ts -> Forall2 (fun t t0 => cloneTask t = Ok t0) tasks ts.
Proof.
  revert ts. induction tasks as [|t tasks IH]; intros ts H; cbn in H; simplify_eq; [constructor|go_inv].
  constructor; [done|]. by apply IH.
Qed.

Lemma cloned_shapes (tasks ts : list TaskDefinition) :
  Forall2 (fun t t0 => cloneTask t = Ok t0) tasks ts -> shape <$> (normalize <$> ts) = shape <$> tasks.
Proof.
  induction 1 as [|t t0 tasks ts Ht _ IH]; [done|]. cbn [fmap list_fmap]. rewrite IH. f_equal.
  apply cloneTask_same in Ht as (Hk & _ & _ & Hd & _). unfold shape. cbn. by rewrite Hk, Hd.
Qed.

Lemma cloned_valid tasks ts (P : TaskDefinition -> Prop) :
  Forall2 (fun t t0 => cloneTask t = Ok t0) tasks ts ->
  (forall t t0, cloneTask t = Ok t0 -> P t <-> P t0) -> Forall P tasks <-> Forall P ts.
Proof. intros H HP. induction H as [|t t0 tasks ts Ht _ IH]; [done|]. by rewrite !Forall_cons, IH, HP. Qed.

(** ** The task index *)
Definition valid_alone (t : TaskDefinition) : Prop :=
  match_identifier (def_Key t) = true /\
  TrimSpace (def_Action t) ≠ "" /\
  def_Executor t ∈ [ExecutorOther ""; ExecutorMock; ExecutorContainer] /\
  (0 < TimeoutMillis t)%Z /\ (0 <= MaxAttempts (Retry t))%Z /\ (0 <= IntervalMillis (Retry t))%Z.

Lemma compileTask_iff index t t' :
  compileTask index t = Ok t' <->
  valid_alone t /\ index !! def_Key t = None /\ t' = normalize t.
Proof.
  unfold compileTask, valid_alone, is_empty. cbn [def_Executor Retry normalize].
  assert (Hexec : negb (bool_decide ((if bool_decide (def_Executor t = ExecutorOther "")
      then ExecutorMock else def_Executor t) = ExecutorMock)) &&
    negb (bool_decide ((if bool_decide (def_Executor t = ExecutorOther "")
      then ExecutorMock else def_Executor t) = ExecutorContainer)) = false <->
    def_Executor t ∈ [ExecutorOther ""; ExecutorMock; ExecutorContainer]).
  { rewrite !elem_of_cons, elem_of_nil, andb_false_iff, !negb_false_iff, !bool_decide_eq_true.
    case_bool_decide; naive_solver. }
  assert (Hretry : ((MaxAttempts (if (MaxAttempts (Retry t) =? 0)%Z
      then mkRetryPolicy 1 (IntervalMillis (Retry t)) else Retry t) <? 1)%Z ||
    (IntervalMillis (if (MaxAttempts (Retry t) =? 0)%Z
      then mkRetryPolicy 1 (IntervalMillis (Retry t)) else Retry t) <? 0)%Z = false) <->
    (0 <= MaxAttempts (Retry t) /\ 0 <= IntervalMillis (Retry t))%Z).
  { rewrite orb_false_iff, !Z.ltb_ge. destruct (Z.eqb_spec (MaxAttempts (Retry t)) 0); cbn; lia. }
  split.
  - intros H. go_inv. apply Hexec in Hc2. apply Hretry in Hc4.
    rewrite negb_false_iff in Hc. rewrite Z.leb_gt in Hc3.
    rewrite bool_decide_eq_false, <-eq_None_not_Some in Hc0. rewrite bool_decide_eq_false in Hc1.
    tauto.
  - intros ((Hk & Ha & He & Ht & Hr & Hi) & Hx & ->).
    rewrite Hk, Hx, bool_decide_eq_false_2, check_false by (by intros [? ?]).
    rewrite bool_decide_eq_false_2 by done. rewrite (proj2 Hexec He), (proj2 Hretry (conj Hr Hi)).
    by rewrite (proj2 (Z.leb_gt _ _) Ht).
Qed.

Lemma compileTasks_iff i tasks index ts idx :
  compileTasks i tasks index = Ok (ts, idx) <->
  Forall valid_alone tasks /\ NoDup (def_Key <$> tasks) /\
  (forall k, k ∈ def_Key <$> tasks -> index !! k = None) /\
  ts = normalize <$> tasks /\
  idx = foldl (fun m p => <[p.2 := p.1]> m) index (zip (seq i (length tasks)) (def_Key <$> tasks)).
Proof.
  revert i index ts idx. induction tasks as [|t tasks IH]; intros i index ts idx; cbn.
  - split; [intros [= <- <-]|intros (_ & _ & _ & -> & ->); done].
    split_and!; [constructor|constructor|set_solver|done|done].
  - rewrite Forall_cons, NoDup_cons. split.
    + intros H. go_inv. apply compileTask_iff in Hm as (Hv & Hk & ->).
      destruct a0 as [rest idx']. injection H as <- <-.
      apply IH in Hm0 as (Hf & Hnd & Hfresh & -> & ->).
      assert (Hnew : def_Key t ∉ def_Key <$> tasks).
      { intros Hin. apply Hfresh in Hin. by rewrite lookup_insert_eq in Hin. }
      split_and!; [done..| |done|done].
      intros k [->|Hin]%elem_of_cons; [done|].
      specialize (Hfresh k Hin). rewrite lookup_insert_ne in Hfresh; [done|]. by intros <-.
    + intros ((Hv & Hf) & (Hn & Hnd) & Hfresh & -> & ->).
      erewrite (proj2 (compileTask_iff _ _ (normalize t)));
        [|split_and!; [done|apply Hfresh; by left|done]].
      cbn. erewrite (proj2 (IH (S i) _ _ _)); [reflexivity|].
      split_and!; [done|done| |done|done].
      intros k Hk. rewrite lookup_insert_ne; [apply Hfresh; by right|]. by intros <-.
Qed.

Lemma index_lookup i keys (m : gmap TaskKey nat) k p :
  NoDup keys -> (forall k, k ∈ keys -> m !! k = None) ->
  foldl (fun m p => <[p.2 := p.1]> m) m (zip (seq i (length keys)) keys) !! k = Some p <->
  (exists j, keys !! j = Some k /\ p = i + j) \/ m !! k = Some p.
Proof.
  revert i m. induction keys as [|x keys IH]; intros i m Hnd Hfresh; cbn.
  { split; [by right|]. intros [(j & ? & _)|?]; done. }
  apply NoDup_cons in Hnd as [Hx Hnd]. rewrite IH; [|done|].
  - split.
    + intros [(j & Hj & ->)|H]; [left; exists (S j); split; [done|lia]|].
      destruct (decide (x = k)) as [->|Hne].
      * rewrite lookup_insert_eq in H. left. exists 0. simplify_eq. split; [done|lia].
      * rewrite lookup_insert_ne in H by done. by right.
    + intros [([|j] & Hj & ->)|H].
      * right. simplify_eq/=. rewrite lookup_insert_eq. f_equal. lia.
      * left. exists j. split; [done|lia].
      * right. rewrite lookup_insert_ne; [done|]. intros ->.
        rewrite Hfresh in H; [done|by left].
  - intros k' Hk'. rewrite lookup_insert_ne; [apply Hfresh; by right|]. by intros ->.
Qed.

(** ** The adjacency lists *)
Lemma addDependencies_iff index ti keys seen g g' :
  addDependencies index ti keys seen g = Ok g' <->
  exists ds, (index !!.) <$> keys = Some <$> ds /\ NoDup ds /\ (forall d, d ∈ ds -> d ∉ seen) /\
    g' = foldl addEdge g ((fun d => (d, ti)) <$> ds).
Proof.
  revert seen g. induction keys as [|k keys IH]; intros seen g; cbn.
  { split.
    - intros [= <-]. exists []. split_and!; [done|constructor|set_solver|done].
    - intros ([|d ds] & Hds & _ & _ & ->); done. }
  split.
  - intros H. destruct (index !! k) as [d|] eqn:Hk; [|done]. go_inv.
    apply IH in H as (ds & Hds & Hnd & Hseen & ->). rewrite bool_decide_eq_false in Hc.
    exists (d :: ds). cbn. rewrite Hds. split_and!; [done| | |done].
    + apply NoDup_cons. split; [|done]. intros Hin. by apply (Hseen d Hin), elem_of_union_l, elem_of_singleton.
    + intros d' [->|Hd']%elem_of_cons; [done|]. specialize (Hseen d' Hd'). set_solver.
  - intros ([|d ds] & Hds & Hnd & Hseen & ->); [done|]. cbn in Hds.
    injection Hds as Hk Hds. rewrite Hk. apply NoDup_cons in Hnd as [Hd Hnd].
    rewrite bool_decide_eq_false_2, check_false by (apply Hseen; by left).
    apply IH. exists ds. split_and!; [done|done| |done].
    intros d' Hd'. apply not_elem_of_union. split; [|apply Hseen; by right].
    apply not_elem_of_singleton. by intros ->.
Qed.

(** The edges (dependency, task) in the order the loop adds them. *)
Fixpoint edges (i : nat) (dss : list (list nat)) : list (nat * nat) :=
  match dss with
  | [] => []
  | ds :: dss' => ((fun d => (d, i)) <$> ds) ++ edges (S i) dss'
  end.

Definition resolved (index : gmap TaskKey nat) (t : TaskDefinition) (ds : list nat) : Prop :=
  (index !!.) <$> DependsOn t = Some <$> ds /\ NoDup ds.

Lemma addTasks_iff index i tasks g g' :
  addTasks index i tasks g = Ok g' <->
  exists dss, Forall2 (resolved index) tasks dss /\ g' = foldl addEdge g (edges i dss).
Proof.
  revert i g. induction tasks as [|t tasks IH]; intros i g; cbn [addTasks].
  { split; [intros [= <-]; exists []; split; [constructor|done]|].
    intros (dss & ->%Forall2_nil_inv_l & ->). done. }
  split.
  - intros H. go_inv. apply addDependencies_iff in Hm as (ds & Hds & Hnd & _ & ->).
    apply IH in H as (dss & Hf & ->). exists (ds :: dss).
    split; [by constructor|]. cbn. by rewrite foldl_app.
  - intros (dss' & (ds & dss & [Hds Hnd] & Hf & ->)%Forall2_cons_inv_l & ->).
    erewrite (proj2 (addDependencies_iff _ _ _ _ _ _));
      [|exists ds; split_and!; [done|done|set_solver|reflexivity]].
    apply IH. exists dss. split; [done|]. cbn. by rewrite foldl_app.
Qed.

Lemma edges_elem i dss d j :
  (d, j) ∈ edges i dss <-> exists k ds, dss !! k = Some ds /\ j = i + k /\ d ∈ ds.
Proof.
  revert i. induction dss as [|ds dss IH]; intros i; cbn.
  { split; [by intros ?%not_elem_of_nil|]. by intros (? & ? & ? & _). }
  rewrite elem_of_app, list_elem_of_fmap, IH. split.
  - intros [(d' & [= <- <-] & Hd)|(k & ds' & Hk & -> & Hd)].
    + exists 0, ds. split_and!; [done|lia|done].
    + exists (S k), ds'. split_and!; [done|lia|done].
  - intros ([|k] & ds' & Hk & -> & Hd); simplify_eq/=.
    + left. exists d. split; [f_equal; lia|done].
    + right. exists k, ds'. split_and!; [done|lia|done].
Qed.

Lemma foldl_addEdge_dependencies n E i :
  i < n ->
  g_dependencies (foldl addEdge (emptyGraph n) E) !! i = Some (filter (fun e => e.2 = i) E).*1.
Proof.
  intros Hi. induction E as [|[d t] E IH] using rev_ind; cbn.
  - by rewrite lookup_replicate_2.
  - rewrite foldl_app, filter_app, fmap_app, filter_cons, filter_nil. cbn.
    destruct (decide (t = i)) as [->|Hne].
    + by rewrite list_lookup_alter_eq, IH.
    + by rewrite list_lookup_alter_ne, IH, app_nil_r.
Qed.

Lemma foldl_addEdge_successors n E i :
  i < n ->
  g_successors (foldl addEdge (emptyGraph n) E) !! i = Some (filter (fun e => e.1 = i) E).*2.
Proof.
  intros Hi. induction E as [|[d t] E IH] using rev_ind; cbn.
  - by rewrite lookup_replicate_2.
  - rewrite foldl_app, filter_app, fmap_app, filter_cons, filter_nil. cbn.
    destruct (decide (d = i)) as [->|Hne].
    + by rewrite list_lookup_alter_eq, IH.
    + by rewrite list_lookup_alter_ne, IH, app_nil_r.
Qed.

Lemma foldl_addEdge_indegree n E i :
  i < n ->
  g_indegree (foldl addEdge (emptyGraph n) E) !! i =
  Some (Z.of_nat (length (filter (fun e => e.2 = i) E))).
Proof.
  intros Hi. induction E as [|[d t] E IH] using rev_ind; cbn.
  - by rewrite lookup_replicate_2.
  - rewrite foldl_app, filter_app, length_app, filter_cons, filter_nil. cbn.
    destruct (decide (t = i)) as [->|Hne].
    + rewrite list_lookup_alter_eq, IH. cbn. f_equal. lia.
    + rewrite list_lookup_alter_ne, IH by done. cbn. do 2 f_equal. lia.
Qed.

Lemma foldl_addEdge_lengths n E :
  length (g_dependencies (foldl addEdge (emptyGraph n) E)) = n /\
  length (g_successors (foldl addEdge (emptyGraph n) E)) = n /\
  length (g_indegree (foldl addEdge (emptyGraph n) E)) = n.
Proof.
  induction E as [|[d t] E IH] using rev_ind.
  - cbn. by rewrite !length_replicate.
  - rewrite foldl_app. cbn. by rewrite !length_alter.
Qed.

(** The incoming edges of a task are its resolved dependencies, in order. *)
Lemma edges_incoming i dss j :
  (filter (fun e => e.2 = i + j) (edges i dss)).*1 = default [] (dss !! j).
Proof.
  assert (Hnone : forall i dss k, k < i -> filter (fun e : nat * nat => e.2 = k) (edges i dss) = []).
  { clear. intros i dss k Hk. destruct (filter _ _) as [|[d t] l] eqn:E; [done|].
    assert (Hin : (d, t) ∈ filter (fun e : nat * nat => e.2 = k) (edges i dss)) by (rewrite E; by left).
    apply list_elem_of_filter in Hin as [Ht Hin]. cbn in Ht.
    apply edges_elem in Hin as (? & ? & _ & ? & _). lia. }
  revert i j. induction dss as [|ds dss IH]; intros i j; [done|]. cbn [edges].
  rewrite filter_app, fmap_app. destruct j as [|j].
  - rewrite Hnone, app_nil_r by lia. cbn. rewrite Nat.add_0_r. clear.
    induction ds as [|d ds IH]; [done|]. rewrite fmap_cons, filter_cons, decide_True by done.
    cbn. by rewrite IH.
  - rewrite <-Nat.add_succ_comm, IH. cbn.
    replace (filter _ _) with (@nil (nat * nat)); [done|].
    clear. induction ds as [|d ds IH]; [done|].
    rewrite fmap_cons, filter_cons, decide_False by (cbn; lia). done.
Qed.

Lemma edges_nodup i dss :
  (forall k ds, dss !! k = Some ds -> NoDup ds) -> NoDup (edges i dss).
Proof.
  revert i. induction dss as [|ds dss IH]; intros i Hnd; cbn [edges]; [constructor|].
  apply NoDup_app. split_and!.
  - apply NoDup_fmap_2; [|by apply (Hnd 0)]. by intros ?? [= ->].
  - intros [d t] (d' & [= -> ->] & _)%list_elem_of_fmap Hin.
    apply edges_elem in Hin as (? & ? & _ & ? & _). lia.
  - apply IH. intros k ds' Hk. by apply (Hnd (S k)).
Qed.

Lemma outgoing_nodup (E : list (nat * nat)) d : NoDup E -> NoDup (filter (fun e => e.1 = d) E).*2.
Proof.
  intros Hnd. apply NoDup_fmap_2_strong; [|by apply NoDup_filter].
  intros [d1 t1] [d2 t2] [H1 _]%list_elem_of_filter [H2 _]%list_elem_of_filter E12.
  cbn in *. by subst.
Qed.

Lemma edges_incoming_0 dss j :
  (filter (fun e => e.2 = j) (edges 0 dss)).*1 = default [] (dss !! j).
Proof. apply (edges_incoming 0). Qed.

Section built_graph.
Context (dss : list (list nat)).
#[local] Abbreviation n := (length dss).
Context (Hrange : forall j ds d, dss !! j = Some ds -> d ∈ ds -> d < n).
Context (Hnodup : forall j ds, dss !! j = Some ds -> NoDup ds).
#[local] Abbreviation g := (foldl addEdge (emptyGraph n) (edges 0 dss)).

Lemma built_dependencies : g_dependencies g = dss.
Proof.
  pose proof (foldl_addEdge_lengths n (edges 0 dss)) as (Hl & _ & _).
  apply list_eq. intros i. destruct (decide (i < n)) as [Hi|Hi].
  - rewrite foldl_addEdge_dependencies by done. rewrite edges_incoming_0.
    destruct (lookup_lt_is_Some_2 dss i Hi) as [ds Hds]. by rewrite Hds.
  - rewrite !lookup_ge_None_2; [done|lia..].
Qed.

Lemma built_successors i : i < n ->
  exists l, g_successors g !! i = Some l /\ NoDup l /\
    forall j, j ∈ l <-> edge dss j i.
Proof.
  intros Hi. eexists. split; [by apply foldl_addEdge_successors|]. split.
  - by apply outgoing_nodup, edges_nodup.
  - intros j. rewrite list_elem_of_fmap. unfold edge. split.
    + intros ([d t] & -> & [Hd Hin]%list_elem_of_filter). cbn in *. subst.
      apply edges_elem in Hin as (k & ds & Hk & -> & Hd). by exists ds.
    + intros (ds & Hds & Hd). exists (i, j). split; [done|]. apply list_elem_of_filter.
      split; [done|]. apply edges_elem. by exists j, ds.
Qed.

Lemma built_dual i j : edge (g_successors g) i j <-> edge dss j i.
Proof.
  split.
  - intros (l & Hl & Hj).
    assert (Hi : i < n).
    { apply lookup_lt_Some in Hl. by destruct (foldl_addEdge_lengths n (edges 0 dss)) as (_ & <- & _). }
    destruct (built_successors i Hi) as (l' & Hl' & _ & H). simplify_eq. by apply H.
  - intros Hji. assert (Hi : i < n) by (destruct Hji as (ds & Hds & Hin); by eapply Hrange).
    destruct (built_successors i Hi) as (l & Hl & _ & H). exists l. split; [done|]. by apply H.
Qed.

Lemma built_adjacency : adjacency_ok (g_successors g).
Proof.
  destruct (foldl_addEdge_lengths n (edges 0 dss)) as (_ & Hlen & _).
  intros i l Hl. assert (Hi : i < n) by (apply lookup_lt_Some in Hl; lia).
  destruct (built_successors i Hi) as (l' & Hl' & Hnd & H). simplify_eq. split; [done|].
  intros j (ds & Hds & _)%H. rewrite Hlen. by eapply lookup_lt_Some.
Qed.

Lemma built_indegree j d : g_indegree g !! j = Some d -> d = pending (g_successors g) [] j.
Proof.
  intros Hd. destruct (foldl_addEdge_lengths n (edges 0 dss)) as (_ & Hlen & Hlen').
  assert (Hj : j < n) by (apply lookup_lt_Some in Hd; lia).
  rewrite foldl_addEdge_indegree in Hd by done. injection Hd as <-.
  unfold pending. f_equal. rewrite Hlen.
  rewrite <-(length_fmap fst), edges_incoming_0.
  destruct (lookup_lt_is_Some_2 dss j Hj) as [ds Hds]. rewrite Hds. cbn.
  apply Permutation_length, NoDup_Permutation; [by eapply Hnodup|apply NoDup_filter, NoDup_seq|].
  intros i. rewrite list_elem_of_filter, elem_of_seq, built_dual. split.
  - intros Hi. split_and!; [by exists ds|apply not_elem_of_nil|lia|]. by eapply Hrange.
  - intros [[(ds' & Hds' & Hi) _] _]. by simplify_eq.
Qed.

Lemma built_kahn :
  exists visited, kahn_loop n (g_successors g) (g_indegree g) (zero_indegree (g_indegree g)) 0 = Ok visited /\
    (visited = n <-> acyclic (g_successors g)).
Proof.
  destruct (foldl_addEdge_lengths n (edges 0 dss)) as (_ & Hlen & Hlen').
  destruct (kahn_correct _ built_adjacency (g_indegree g)) as (v & Hv & _ & Hac).
  - by rewrite Hlen, Hlen'.
  - apply built_indegree.
  - rewrite Hlen in *. by exists v.
Qed.
End built_graph.

(** ** [Compile] accepts exactly the valid definitions *)
Lemma tc_impl {A} (R Q : A -> A -> Prop) x y : (forall x y, R x y -> Q x y) -> tc R x y -> tc Q x y.
Proof. intros H. induction 1; [by apply tc_once, H|]. eapply tc_l; [by apply H|done]. Qed.

Lemma shape_lookup (tasks tasks' : list TaskDefinition) (i : nat) t :
  shape <$> tasks' = shape <$> tasks -> tasks !! i = Some t ->
  exists t', tasks' !! i = Some t' /\ shape t' = shape t.
Proof.
  intros E Ht. assert (H : (shape <$> tasks') !! i = Some (shape t))
    by by rewrite E, list_lookup_fmap, Ht.
  rewrite list_lookup_fmap in H. destruct (tasks' !! i) as [t'|]; [|done].
  exists t'. split; [done|]. exact (inj Some _ _ H).
Qed.

Lemma depends_shape (tasks tasks' : list TaskDefinition) i j :
  shape <$> tasks' = shape <$> tasks -> depends tasks i j -> depends tasks' i j.
Proof.
  intros E (ti & tj & Hi & Hj & Hin).
  destruct (shape_lookup _ _ _ _ E Hi) as (ti' & Hi' & [= Hki _]).
  destruct (shape_lookup _ _ _ _ E Hj) as (tj' & Hj' & [= _ Hdj]).
  exists ti', tj'. by rewrite Hki, Hdj.
Qed.

Lemma valid_alone_cloned t t0 : cloneTask t = Ok t0 -> valid_alone t <-> valid_alone t0.
Proof.
  intros (Hk & He & Ha & _ & Hr & Ht)%cloneTask_same. unfold valid_alone.
  by rewrite Hk, He, Ha, Hr, Ht.
Qed.

Lemma normalize_ok t : valid_alone t -> compiled_task_ok (normalize t).
Proof.
  intros (Hk & Ha & He & Ht & Hm & Hi). unfold compiled_task_ok. cbn.
  rewrite !elem_of_cons, elem_of_nil in *. split_and!; [done|done| |done|..].
  - case_bool_decide; naive_solver.
  - destruct (Z.eqb_spec (MaxAttempts (Retry t)) 0); cbn; lia.
  - by destruct (Z.eqb_spec (MaxAttempts (Retry t)) 0).
Qed.

(** A compiled index finds every task under its key, and nothing else. *)
Definition index_ok (tasks : list TaskDefinition) (index : gmap TaskKey nat) : Prop :=
  forall k i, index !! k = Some i <-> exists t, tasks !! i = Some t /\ def_Key t = k.

Lemma built_index_ok (ts : list TaskDefinition) :
  NoDup (def_Key <$> ts) ->
  index_ok (normalize <$> ts)
    (foldl (fun m p => <[p.2 := p.1]> m) ∅ (zip (seq 0 (length ts)) (def_Key <$> ts))).
Proof.
  intros Hnd k i. rewrite <-(length_fmap def_Key ts), index_lookup by (done || by intros; apply lookup_empty).
  rewrite lookup_empty, list_lookup_fmap. split.
  - intros [(j & Hj & ->)|?]; [|done]. cbn. rewrite list_lookup_fmap in Hj.
    destruct (ts !! j) as [t|]; [|done]. exists (normalize t). split; [done|]. by injection Hj.
  - intros (t & Ht & <-). left. exists i. split; [|done]. rewrite list_lookup_fmap.
    destruct (ts !! i) as [t0|]; [|done]. by injection Ht as <-.
Qed.

Section resolved.
Context (tasks : list TaskDefinition) (index : gmap TaskKey nat) (dss : list (list nat)).
Context (Hindex : index_ok tasks index).

Lemma resolved_range : Forall2 (resolved index) tasks dss ->
  forall j ds d, dss !! j = Some ds -> d ∈ ds -> d < length dss.
Proof.
  intros Hf j ds d Hj Hd. rewrite <-(Forall2_length _ _ _ Hf).
  destruct (Forall2_lookup_r _ _ _ _ _ Hf Hj) as (t & Ht & Hds & _).
  assert (Hin : Some d ∈ (index !!.) <$> DependsOn t) by (rewrite Hds; by apply list_elem_of_fmap_2).
  apply list_elem_of_fmap in Hin as (k & Hk & _). symmetry in Hk.
  apply Hindex in Hk as (t' & Ht' & _). by eapply lookup_lt_Some.
Qed.

Lemma resolved_nodup : Forall2 (resolved index) tasks dss ->
  forall j ds, dss !! j = Some ds -> NoDup ds.
Proof. intros Hf j ds Hj. by destruct (Forall2_lookup_r _ _ _ _ _ Hf Hj) as (t & Ht & _ & ?). Qed.

Lemma resolved_edge : Forall2 (resolved index) tasks dss ->
  forall i j, edge dss j i <-> depends tasks i j.
Proof.
  intros Hf i j. split.
  - intros (ds & Hj & Hi). destruct (Forall2_lookup_r _ _ _ _ _ Hf Hj) as (t & Ht & Hds & _).
    assert (Hin : Some i ∈ (index !!.) <$> DependsOn t) by (rewrite Hds; by apply list_elem_of_fmap_2).
    apply list_elem_of_fmap in Hin as (k & Hk & Hin). symmetry in Hk.
    apply Hindex in Hk as (t' & Ht' & <-). by exists t', t.
  - intros (ti & tj & Hi & Hj & Hin). destruct (Forall2_lookup_l _ _ _ _ _ Hf Hj) as (ds & Hds & E & _).
    exists ds. split; [done|].
    assert (Hk : index !! def_Key ti = Some i) by (apply Hindex; by exists ti).
    apply (list_elem_of_fmap_2 (index !!.)) in Hin. rewrite Hk, E in Hin.
    by apply list_elem_of_fmap in Hin as (d & [= <-] & ?).
Qed.

Lemma resolve_keys keys :
  NoDup keys -> (forall k, k ∈ keys -> k ∈ def_Key <$> tasks) ->
  exists ds, (index !!.) <$> keys = Some <$> ds /\ NoDup ds.
Proof.
  intros Hnd Hkeys.
  assert (Hall : exists ds, (index !!.) <$> keys = Some <$> ds).
  { clear Hnd. induction keys as [|k keys IH]; [by exists []|].
    destruct IH as [ds Hds]; [intros; apply Hkeys; by right|].
    destruct (proj1 (list_elem_of_fmap _ _ _) (Hkeys k (list_elem_of_here k keys))) as (t & Hk & Ht).
    apply list_elem_of_lookup in Ht as [i Hi]. exists (i :: ds). cbn. rewrite Hds. f_equal.
    apply Hindex. by exists t. }
  destruct Hall as [ds Hds]. exists ds. split; [done|].
  apply (NoDup_fmap_1 Some). rewrite <-Hds. apply NoDup_fmap_2_strong; [|done].
  intros k1 k2 H1 H2 E.
  assert (H : is_Some (index !! k1)).
  { apply (list_elem_of_fmap_2 (index !!.)) in H1. rewrite Hds in H1.
    by apply list_elem_of_fmap in H1 as (? & -> & _). }
  destruct H as [i H]. rewrite H in E. symmetry in E.
  apply Hindex in H as (t1 & ? & <-), E as (t2 & ? & <-). by simplify_eq.
Qed.
End resolved.

Lemma resolve_all index tasks :
  (forall t, t ∈ tasks -> exists ds, resolved index t ds) -> exists dss, Forall2 (resolved index) tasks dss.
Proof.
  induction tasks as [|t tasks IH]; intros H; [by exists []|].
  destruct (H t (list_elem_of_here _ _)) as [ds Hds].
  destruct IH as [dss Hdss]; [intros; apply H; by right|]. exists (ds :: dss). by constructor.
Qed.

Lemma tc_depends tasks dss : (forall i j, edge dss j i <-> depends tasks i j) ->
  forall sc, (forall i j, edge sc i j <-> edge dss j i) ->
  acyclic sc <-> forall i, ~ tc (depends tasks) i i.
Proof.
  intros H1 sc H2. unfold acyclic.
  split; intros H i Htc; apply (H i); revert Htc; apply tc_impl; intros x y; by rewrite H2, H1.
Qed.

Lemma match_identifier_nonempty s : match_identifier s = true -> is_empty s = false.
Proof. intros H. unfold is_empty. apply bool_decide_eq_false. by intros ->. Qed.

Lemma resolved_known tasks index dss t : index_ok tasks index -> Forall2 (resolved index) tasks dss ->
  t ∈ tasks -> NoDup (DependsOn t) /\ forall k, k ∈ DependsOn t -> k ∈ def_Key <$> tasks.
Proof.
  intros Hidx Hf [i Hi]%list_elem_of_lookup.
  destruct (Forall2_lookup_l _ _ _ _ _ Hf Hi) as (ds & _ & Hds & Hnd). split.
  - apply (NoDup_fmap_1 (index !!.)). rewrite Hds. by apply NoDup_fmap_2; [apply _|].
  - intros k Hk. apply (list_elem_of_fmap_2 (index !!.)) in Hk. rewrite Hds in Hk.
    apply list_elem_of_fmap in Hk as (d & Hd & _).
    apply Hidx in Hd as (t' & Ht' & <-). apply list_elem_of_fmap_2. by eapply list_elem_of_lookup_2.
Qed.

Lemma shape_elem (tasks tasks' : list TaskDefinition) t :
  shape <$> tasks' = shape <$> tasks -> t ∈ tasks -> exists t', t' ∈ tasks' /\ shape t' = shape t.
Proof.
  intros E [i Hi]%list_elem_of_lookup. destruct (shape_lookup _ _ _ _ E Hi) as (t' & Ht' & ?).
  exists t'. split; [by eapply list_elem_of_lookup_2|done].
Qed.

Lemma shape_keys (tasks tasks' : list TaskDefinition) :
  shape <$> tasks' = shape <$> tasks -> def_Key <$> tasks' = def_Key <$> tasks.
Proof. intros E. change def_Key with (fst ∘ shape). by rewrite !list_fmap_compose, E. Qed.

(** The core of both directions: after the per-task checks, [Compile] succeeds
    exactly when the dependencies resolve and are acyclic. *)
Lemma Compile_tail tasks ts g n :
  n = length tasks -> ts = tasks ->
  forall index, index_ok tasks index -> addTasks index 0 ts (emptyGraph n) = Ok g ->
  exists dss visited, Forall2 (resolved index) tasks dss /\ g_dependencies g = dss /\
    length (g_successors g) = n /\
    adjacency_ok (g_successors g) /\ (forall i j, edge (g_successors g) i j <-> edge dss j i) /\
    kahn_loop n (g_successors g) (g_indegree g) (zero_indegree (g_indegree g)) 0 = Ok visited /\
    (visited = n <-> forall i, ~ tc (depends tasks) i i).
Proof.
  intros -> -> index Hidx Hadd. apply addTasks_iff in Hadd as (dss & Hf & ->).
  pose proof (Forall2_length _ _ _ Hf) as Hlen. rewrite Hlen.
  pose proof (resolved_range _ _ _ Hidx Hf) as Hr.
  pose proof (resolved_nodup _ _ _ Hf) as Hn.
  destruct (built_kahn dss Hr Hn) as (v & Hv & Hac).
  exists dss, v. split_and!; [done| | | | |done|].
  - by apply built_dependencies.
  - by destruct (foldl_addEdge_lengths (length dss) (edges 0 dss)) as (_ & ? & _).
  - by apply built_adjacency.
  - by apply built_dual.
  - rewrite Hac. apply (tc_depends tasks dss); [by eapply resolved_edge|by apply built_dual].
Qed.

Lemma Compile_sound def c :
  Compile def = Ok c ->
  valid_definition def /\ compiled_wf c /\
  wf_ID (definition c) = wf_ID def /\ Concurrency (definition c) = Concurrency def /\
  Forall2 compiled_from (def_Tasks def) (def_Tasks (definition c)).
Proof.
  unfold Compile. cbv zeta. intros H. go_inv. destruct a, a1 as [tasks idx]. go_inv.
  rename a into g.
  unfold cloneDefinition in Hm0. go_inv. cbn [wf_ID Concurrency def_Tasks] in *. rename a into ts.
  apply checkInputs_ok in Hm. pose proof (cloneTasks_inv _ _ Hm4) as Hclone.
  pose proof (Forall2_length _ _ _ Hclone) as Hlen.
  pose proof (cloned_shapes _ _ Hclone) as Hshape.
  apply compileTasks_iff in Hm1 as (Hvalid & Hnd & _ & -> & Hidx).
  pose proof (built_index_ok ts Hnd) as Hiok. rewrite <-Hidx in Hiok.
  destruct (Compile_tail (normalize <$> ts) _ g (length ts) (eq_sym (length_fmap _ _)) eq_refl
    idx Hiok Hm2) as (dss & v & Hf & Hdeps & Hslen & Hadj & Hdual & Hk & Hv).
  rewrite Hk in Hm3. injection Hm3 as ->.
  rewrite negb_false_iff in Hc0. rewrite Z.leb_gt in Hc1.
  rewrite bool_decide_eq_false in Hc2, Hc3, Hc4. apply dec_stable in Hc4.
  pose proof (proj1 Hv Hc4) as Hac. pose proof (shape_keys _ _ Hshape) as Hkeys.
  assert (Hnd' : NoDup (def_Key <$> (normalize <$> ts))) by (by rewrite <-list_fmap_compose).
  split; [|split_and!; [|done|done|]].
  - split; [done..|lia| |by rewrite <-Hkeys| |].
    + apply Forall_forall. intros t Ht.
      destruct (shape_elem _ _ _ Hshape Ht) as (t' & Ht' & [= _ Hd]).
      destruct (resolved_known _ _ _ _ Hiok Hf Ht') as [Hnodup _]. rewrite Hd in Hnodup.
      pose proof (proj2 (cloned_valid _ _ valid_alone Hclone valid_alone_cloned) Hvalid) as Hv'.
      rewrite Forall_forall in Hv'. destruct (Hv' t Ht) as (?&?&?&?&?&?). by split_and!.
    + intros t k Ht Hk'. destruct (shape_elem _ _ _ Hshape Ht) as (t' & Ht' & [= _ Hd]).
      destruct (resolved_known _ _ _ _ Hiok Hf Ht') as [_ Hin]. rewrite Hd in Hin.
      rewrite <-Hkeys. by apply Hin.
    + intros i Htc. apply (Hac i). revert Htc. apply tc_impl. intros x y. by apply depends_shape.
  - split; cbn [definition index dependencies successors def_Tasks wf_ID Concurrency];
      rewrite ?Hdeps, ?length_fmap; [done|done|lia| |done|done| |done| | |done|done|].
    + apply Forall_fmap. eapply Forall_impl; [exact Hvalid|]. apply normalize_ok.
    + by rewrite <-(Forall2_length _ _ _ Hf), length_fmap.
    + intros i t Ht. destruct (Forall2_lookup_l _ _ _ _ _ Hf Ht) as (ds & ? & ? & _). by exists ds.
    + by eapply resolved_nodup.
    + apply (tc_depends (normalize <$> ts) dss); [by eapply resolved_edge|done|done].
  - cbn. apply Forall2_fmap_r. eapply Forall2_impl; [exact Hclone|]. intros t t0 H. by exists t0.
Qed.

Lemma Compile_complete def : valid_definition def -> exists c, Compile def = Ok c.
Proof.
  intros [Hin Hid Hcon Hcount Htasks Hnd Hknown Hac].
  destruct (cloneTasks_ok _ Hin) as [ts Hts]. pose proof (cloneTasks_inv _ _ Hts) as Hclone.
  pose proof (Forall2_length _ _ _ Hclone) as Hlen.
  pose proof (cloned_shapes _ _ Hclone) as Hshape. pose proof (shape_keys _ _ Hshape) as Hkeys.
  rewrite <-list_fmap_compose in Hkeys. change (def_Key ∘ normalize) with def_Key in Hkeys.
  rewrite <-Hkeys in Hnd. pose proof (built_index_ok ts Hnd) as Hiok.
  set (index := foldl _ _ _) in Hiok.
  assert (Hvalid : Forall valid_alone ts).
  { apply (cloned_valid _ _ valid_alone Hclone valid_alone_cloned).
    eapply Forall_impl; [exact Htasks|]. intros t (?&?&?&?&?&?&_). by split_and!. }
  destruct (resolve_all index (normalize <$> ts)) as [dss Hdss].
  { intros t Ht. destruct (shape_elem _ _ _ (eq_sym Hshape) Ht) as (t' & Ht' & [= _ Hd]).
    unfold resolved. rewrite <-Hd. apply (resolve_keys _ _ Hiok).
    - rewrite Forall_forall in Htasks. by destruct (Htasks _ Ht') as (?&?&?&?&?&?&?).
    - intros k Hk. rewrite <-list_fmap_compose. change (def_Key ∘ normalize) with def_Key.
      rewrite Hkeys. by eapply Hknown. }
  destruct (Compile_tail (normalize <$> ts) _ (foldl addEdge (emptyGraph (length ts)) (edges 0 dss))
    (length ts) (eq_sym (length_fmap _ _)) eq_refl index Hiok) as
    (_ & v & _ & _ & _ & _ & _ & Hk & Hv); [apply addTasks_iff; by exists dss|].
  eexists. unfold Compile, cloneDefinition. rewrite (proj2 (checkInputs_ok _) Hin), Hts.
  cbn. rewrite (match_identifier_nonempty _ Hid), Hid, (proj2 (Z.leb_gt _ _) Hcon). cbn.
  rewrite !bool_decide_eq_false_2 by lia. cbn.
  rewrite (proj2 (compileTasks_iff 0 ts ∅ (normalize <$> ts) index)); [|by split_and!]. cbn.
  rewrite (proj2 (addTasks_iff index 0 (normalize <$> ts) (emptyGraph (length ts)) (foldl addEdge (emptyGraph (length ts)) (edges 0 dss))));
    [|by exists dss]. cbn. rewrite Hk. cbn.
  rewrite bool_decide_eq_false_2; [reflexivity|]. intros Hne. apply Hne, Hv.
  intros i Htc. apply (Hac i). revert Htc. apply tc_impl. intros x y. by apply depends_shape.
Qed.

(** ** [Compile] always returns *)
Lemma validateJSONValue_returns : forall v, returns (validateJSONValue v).
Proof.
  fix IH 1. intros []; simpl; try done.
  - induction entries as [|[k v] l IHl]; simpl; [done|].
    apply returns_bind; [apply IH|intros; apply IHl].
  - induction elems as [|v l IHl]; simpl; [done|].
    apply returns_bind; [apply IH|intros; apply IHl].
  - induction elems as [|v l IHl]; simpl; [done|].
    apply returns_bind; [apply IH|intros; apply IHl].
Qed.

Lemma checkInputs_returns tasks : returns (checkInputs tasks).
Proof.
  induction tasks as [|t tasks IH]; cbn; [done|]. apply returns_bind; [|done].
  unfold checkInput. pose proof (validateJSONValue_returns (input_value (def_Input t))) as H.
  destruct (validateJSONValue _); cbn in H |- *; try done.
  destruct (json_encode _); [by apply returns_check|done].
Qed.

Lemma compileTasks_returns i tasks index : returns (compileTasks i tasks index).
Proof.
  revert i index. induction tasks as [|t tasks IH]; intros i index; cbn; [done|].
  apply returns_bind; [unfold compileTask; by repeat (apply returns_check; intros _)|].
  intros t' _. apply returns_bind; [apply IH|by intros []].
Qed.

Lemma addTasks_returns index i tasks g : returns (addTasks index i tasks g).
Proof.
  revert i g. induction tasks as [|t tasks IH]; intros i g; cbn; [done|].
  apply returns_bind; [|done]. generalize (∅ : gset nat). revert g.
  induction (DependsOn t) as [|k keys IHk]; intros g seen; cbn; [done|].
  destruct (index !! k); [|done]. apply returns_check. intros _. apply IHk.
Qed.

Lemma Compile_returns def : returns (Compile def).
Proof.
  unfold Compile. apply returns_bind; [apply checkInputs_returns|]. intros [] Hin%checkInputs_ok.
  destruct (cloneTasks_ok _ Hin) as [ts Hts]. unfold cloneDefinition. rewrite Hts. cbn.
  do 5 (apply returns_check; intros _).
  apply returns_bind; [apply compileTasks_returns|].
  intros [tasks idx] (_ & Hnd & _ & -> & ->)%compileTasks_iff.
  apply returns_bind; [apply addTasks_returns|]. intros g Hg.
  destruct (Compile_tail (normalize <$> ts) _ g (length ts) (eq_sym (length_fmap _ _)) eq_refl
    _ (built_index_ok ts Hnd) Hg) as (_ & v & _ & _ & _ & _ & _ & -> & _).
  cbn. by apply returns_check.
Qed.

(** ** Compiled inputs can be cloned again *)
Lemma encode_map_cons k v l :
  is_Some (json_encode (AnyMap ((k, v) :: l))) <->
  is_Some (json_encode v) /\ is_Some (json_encode (AnyMap l)).
Proof.
  cbn. destruct (json_encode v) as [b|]; cbn; [|split; [by intros [? [=]]|by intros [[? [=]] _]]].
  match goal with |- context [mbind _ (?f l)] => destruct (f l) end; cbn;
    (split; [intros [? ?]|intros [_ [? ?]]]); try done; eauto.
Qed.

Lemma encode_slice_cons v l :
  is_Some (json_encode (AnySlice (v :: l))) <->
  is_Some (json_encode v) /\ is_Some (json_encode (AnySlice l)).
Proof.
  cbn. destruct (json_encode v) as [b|]; cbn; [|split; [by intros [? [=]]|by intros [[? [=]] _]]].
  match goal with |- context [mbind _ (?f l)] => destruct (f l) end; cbn;
    (split; [intros [? ?]|intros [_ [? ?]]]); try done; eauto.
Qed.

Lemma roundtrip_map_cons k v l :
  exists es, json_roundtrip (AnyMap l) = AnyMap es /\
    json_roundtrip (AnyMap ((k, v) :: l)) = AnyMap ((sanitize k, json_roundtrip v) :: es).
Proof. eexists. split; reflexivity. Qed.

Lemma roundtrip_slice_cons v l :
  exists es, json_roundtrip (AnySlice l) = AnySlice es /\
    json_roundtrip (AnySlice (v :: l)) = AnySlice (json_roundtrip v :: es).
Proof. eexists. split; reflexivity. Qed.

Lemma roundtrip_encodes : forall v, is_Some (json_encode v) -> is_Some (json_encode (json_roundtrip v)).
Proof.
  fix IH 1. intros v. destruct v as [| | | |entries|elems|elems| | | | |]; try done.
  - intros H. induction entries as [|[k v] l IHl]; [done|].
    apply encode_map_cons in H as [Hv Hl]. destruct (roundtrip_map_cons k v l) as (es & E1 & ->).
    rewrite encode_map_cons, <-E1. split; [by apply IH|by apply IHl].
  - intros H. induction elems as [|v l IHl]; [done|].
    apply encode_slice_cons in H as [Hv Hl]. destruct (roundtrip_slice_cons v l) as (es & E1 & ->).
    rewrite encode_slice_cons, <-E1. split; [by apply IH|by apply IHl].
  - intros H. change (json_encode (AnyArray elems)) with (json_encode (AnySlice elems)) in H.
    change (json_roundtrip (AnyArray elems)) with (json_roundtrip (AnySlice elems)).
    induction elems as [|v l IHl]; [done|].
    apply encode_slice_cons in H as [Hv Hl]. destruct (roundtrip_slice_cons v l) as (es & E1 & ->).
    rewrite encode_slice_cons, <-E1. split; [by apply IH|by apply IHl].
Qed.

Lemma cloneTaskInput_again input input' :
  cloneTaskInput input = Ok input' -> exists input'', cloneTaskInput input' = Ok input''.
Proof.
  destruct input as [entries|]; cbn [cloneTaskInput]; [|intros [= <-]; by eexists].
  destruct (json_encode (AnyMap entries)) as [b|] eqn:E; [|done].
  destruct (roundtrip_encodes (AnyMap entries)) as [b' Hb']; [by eexists|].
  destruct (json_roundtrip (AnyMap entries)) as [| | | |entries'|elems|elems| | | | |] eqn:Er; try done.
  intros [= <-]. cbn [cloneTaskInput]. rewrite Hb'. cbn. by eexists.
Qed.

Lemma Compile_inputs def c i d :
  Compile def = Ok c -> def_Tasks (definition c) !! i = Some d ->
  exists input, cloneTaskInput (def_Input d) = Ok input.
Proof.
  intros (_ & _ & _ & _ & Hf)%Compile_sound Hd.
  destruct (Forall2_lookup_r _ _ _ _ _ Hf Hd) as (t & _ & t0 & Ht0 & ->).
  unfold cloneTask in Ht0. go_inv. cbn. by eapply cloneTaskInput_again.
Qed.

(** ** Samples *)
Definition sample_task (key : TaskKey) (deps : list TaskKey) (attempts : Z) : TaskDefinition :=
  mkTaskDefinition key (ExecutorOther "") "echo" (Some [("n", AnyNumber (Some "1"))]) deps
    (mkRetryPolicy attempts 50) 1000.
Definition diamond_workflow : WorkflowDefinition :=
  mkWorkflowDefinition "diamond" 2
    [sample_task "a" [] 0; sample_task "b" ["a"] 2; sample_task "c" ["a"] 1;
     sample_task "d" ["b"; "c"] 1].
Definition compiled_diamond : CompiledWorkflow :=
  match Compile diamond_workflow with
  | Ok c => c
  | _ => mkCompiledWorkflow diamond_workflow ∅ [] []
  end.

Lemma compile_diamond : Compile diamond_workflow = Ok compiled_diamond.
Proof. vm_compute. reflexivity. Qed.

Example compile_cycle :
  Compile (mkWorkflowDefinition "w" 1 [sample_task "a" ["b"] 1; sample_task "b" ["a"] 1]) =
  Err (Errorf "workflow contains a dependency cycle").
Proof. vm_compute. reflexivity. Qed.

(** ** Properties *)


(** what [Compile] returns is well formed - the index is exactly the
    position of each key, [dependencies] resolves [DependsOn] in order,
    [successors] is its converse without repetitions, the graph is acyclic,
    every default is filled in - and each task is the normalised clone of the
    caller's task at the same position. *)
Theorem Compile_result def c :
  Compile def = Ok c ->
  compiled_wf c /\ wf_ID (definition c) = wf_ID def /\
  Concurrency (definition c) = Concurrency def /\
  Forall2 compiled_from (def_Tasks def) (def_Tasks (definition c)).
Proof. intros H. by apply Compile_sound in H as [_ ?]. Qed.

Lemma Compile_result_witness :
  Compile diamond_workflow = Ok compiled_diamond /\ compiled_wf compiled_diamond.
Proof.
  assert (H : Compile diamond_workflow = Ok compiled_diamond) by (vm_compute; reflexivity).
  split; [exact H|]. exact (proj1 (Compile_result diamond_workflow compiled_diamond H)).
Defined.
