(* ===== verification/Scheduling.v ===== *)
(** * The scheduling invariant on task statuses

    What the operations of Distributed.v keep true of the statuses of all
    tasks of a run, of the dependency counters and of the run status: a
    counter is the number of dependencies that have not succeeded, a task that
    became ready has only succeeded dependencies, a failure has been
    propagated to every descendant, a skipped task is downstream of a failure,
    and the run status agrees with the tasks.  This file is about the abstract
    statuses only; RunInvariant.v connects it to snapshots. *)
From S2P Require Import Prelude GoStrings Json Model State Graph Compiler.
From stdpp Require Import relations.

Definition active (st : TaskStatus) : bool :=
  match st with
  | TaskReady | TaskQueued | TaskRunning | TaskWaitingRetry => true
  | _ => false
  end.

(** Failed, or skipped because of a failure upstream. *)
Definition broken (st : TaskStatus) : bool :=
  match st with TaskFailed | TaskSkipped => true | _ => false end.

Section scheduling.
Context (c : CompiledWorkflow).
#[local] Abbreviation n := (length (def_Tasks (definition c))).
#[local] Abbreviation upstream := (edge (successors c)).

(** The number of direct dependencies that have not succeeded. *)
Definition dep_count (sts : list TaskStatus) (j : nat) : Z :=
  Z.of_nat (length (filter (fun i => sts !! i ≠ Some TaskSucceeded)
                      (default [] (dependencies c !! j)))).

Definition status_ok (ws : WorkflowStatus) (sts : list TaskStatus) (j : nat) (st : TaskStatus) : Prop :=
  match st with
  | TaskWaitingDependencies => (0 < dep_count sts j)%Z
  | TaskReady | TaskQueued | TaskRunning | TaskWaitingRetry | TaskSucceeded | TaskFailed =>
    dep_count sts j = 0%Z
  | TaskSkipped => exists i st', upstream i j /\ sts !! i = Some st' /\ broken st' = true
  | TaskCanceled => ws = WorkflowCanceled
  | TaskOther _ => False
  end.

Record sched_core (ws : WorkflowStatus) (sts : list TaskStatus) (rem : list Z) : Prop := {
  sc_length : length sts = n;
  sc_rem_length : length rem = n;
  sc_rem : forall j r, rem !! j = Some r -> r = dep_count sts j;
  sc_status : forall j st, sts !! j = Some st -> status_ok ws sts j st;
  sc_propagated : forall i j st, sts !! i = Some st -> broken st = true -> upstream i j ->
    sts !! j = Some TaskSkipped;
}.

(** The run status agrees with the statuses of the tasks. *)
Definition workflow_agrees (ws : WorkflowStatus) (sts : list TaskStatus) : Prop :=
  match ws with
  | WorkflowPending => forall st, st ∈ sts -> st = TaskWaitingDependencies \/ st = TaskReady
  | WorkflowRunning => exists st, st ∈ sts /\ isTaskTerminal st = false
  | WorkflowSucceeded => forall st, st ∈ sts -> st = TaskSucceeded
  | WorkflowFailed => TaskFailed ∈ sts /\ forall st, st ∈ sts -> isTaskTerminal st = true
  | WorkflowCanceled => forall st, st ∈ sts -> isTaskTerminal st = true
  | WorkflowOther _ => False
  end.

Record sched_inv (ws : WorkflowStatus) (sts : list TaskStatus) (rem : list Z) : Prop := {
  si_core : sched_core ws sts rem;
  si_agrees : workflow_agrees ws sts;
}.

(** Statuses after the success of task [i] and after its failure. *)
Definition after_success (i : nat) (sts : list TaskStatus) : list TaskStatus :=
  imap (fun j st => if bool_decide (upstream i j)
                       && bool_decide (dep_count (<[i := TaskSucceeded]> sts) j = 0%Z)
                    then TaskReady else st) (<[i := TaskSucceeded]> sts).
Definition after_failure (reached : nat -> bool) (i : nat) (sts : list TaskStatus) : list TaskStatus :=
  imap (fun j st => if reached j && negb (isTaskTerminal st) then TaskSkipped else st)
    (<[i := TaskFailed]> sts).
(** The same for a set [X] of running tasks that fail together. *)
Definition after_failures (reached : nat -> bool) (X : list nat) (sts : list TaskStatus) : list TaskStatus :=
  imap (fun j st => if bool_decide (j ∈ X) then TaskFailed
                    else if reached j && negb (isTaskTerminal st) then TaskSkipped else st) sts.
Definition after_cancel (sts : list TaskStatus) : list TaskStatus :=
  (fun st => if isTaskTerminal st then st else TaskCanceled) <$> sts.

(** ** Dependency counts *)
Context (Hc : compiled_wf c).

Lemma in_dependencies j i :
  i ∈ default [] (dependencies c !! j) <-> upstream i j.
Proof.
  rewrite (cw_dual c Hc). unfold edge. destruct (dependencies c !! j) as [ds|]; cbn.
  - split; [intros ?; by exists ds|intros (l & ? & ?); by simplify_eq].
  - split; [by intros ?%not_elem_of_nil|intros (l & ? & _); done].
Qed.

Lemma dependencies_nodup j : NoDup (default [] (dependencies c !! j)).
Proof.
  destruct (dependencies c !! j) as [ds|] eqn:E; cbn; [|constructor]. by eapply cw_dep_nodup.
Qed.

Lemma dep_count_zero sts j :
  dep_count sts j = 0%Z <-> forall i, upstream i j -> sts !! i = Some TaskSucceeded.
Proof.
  unfold dep_count. split.
  - intros H i Hi%in_dependencies. apply dec_stable. intros Hne.
    assert (Hin : i ∈ filter (fun i => sts !! i ≠ Some TaskSucceeded)
      (default [] (dependencies c !! j))) by (by apply list_elem_of_filter).
    destruct (filter _ _); [by apply not_elem_of_nil in Hin|simpl in H; lia].
  - intros H. destruct (filter _ _) as [|i l] eqn:E; [done|].
    assert (Hin : i ∈ filter (fun i => sts !! i ≠ Some TaskSucceeded)
      (default [] (dependencies c !! j))) by (rewrite E; by left).
    apply list_elem_of_filter in Hin as [Hne Hin]. by destruct Hne; apply H, in_dependencies.
Qed.

Lemma dep_count_nonneg sts j : (0 <= dep_count sts j)%Z.
Proof. unfold dep_count. lia. Qed.

Lemma dep_count_pos sts j :
  (0 < dep_count sts j)%Z -> exists i, upstream i j /\ sts !! i ≠ Some TaskSucceeded.
Proof.
  unfold dep_count. intros H. destruct (filter _ _) as [|i l] eqn:E; [simpl in H; lia|].
  assert (Hin : i ∈ filter (fun i => sts !! i ≠ Some TaskSucceeded)
    (default [] (dependencies c !! j))) by (rewrite E; by left).
  apply list_elem_of_filter in Hin as [Hne Hin]. exists i. split; [by apply in_dependencies|done].
Qed.

Lemma dep_count_pos_of sts i j :
  upstream i j -> sts !! i ≠ Some TaskSucceeded -> (0 < dep_count sts j)%Z.
Proof.
  intros Hij Hne. pose proof (dep_count_nonneg sts j).
  destruct (decide (dep_count sts j = 0%Z)) as [Hz|]; [|lia].
  rewrite dep_count_zero in Hz. by destruct Hne; apply Hz.
Qed.

Lemma dep_count_ext sts sts' j :
  (forall i, sts !! i = Some TaskSucceeded <-> sts' !! i = Some TaskSucceeded) ->
  dep_count sts j = dep_count sts' j.
Proof. intros H. unfold dep_count. do 2 f_equal. apply list_filter_iff. intros i. by rewrite H. Qed.

Lemma dep_count_succeed sts i j from :
  sts !! i = Some from -> from ≠ TaskSucceeded ->
  dep_count (<[i := TaskSucceeded]> sts) j =
  (dep_count sts j - if bool_decide (upstream i j) then 1 else 0)%Z.
Proof.
  intros Hi Hne. pose proof (lookup_lt_Some _ _ _ Hi) as Hlt. case_bool_decide as Hij.
  - unfold dep_count.
    rewrite (length_filter_remove (fun i => sts !! i ≠ Some TaskSucceeded) _ i).
    + rewrite bool_decide_eq_true_2; [done|]. rewrite Hi. congruence.
    + apply dependencies_nodup.
    + by apply in_dependencies.
    + intros k. destruct (decide (k = i)) as [->|Hk].
      * rewrite list_lookup_insert_eq by done. naive_solver.
      * rewrite list_lookup_insert_ne by done. tauto.
  - rewrite Z.sub_0_r. unfold dep_count. do 2 f_equal. apply list_filter_iff_in.
    intros k Hk%in_dependencies. rewrite list_lookup_insert_ne; [done|]. by intros <-.
Qed.

(** ** Consequences of the invariant *)
Lemma upstream_range i j : upstream i j -> i < n /\ j < n.
Proof.
  intros Hij. split.
  - destruct Hij as (l & Hl & _). apply lookup_lt_Some in Hl. by rewrite (cw_succ_length c Hc) in Hl.
  - destruct Hij as (l & Hl & Hj). apply (cw_adjacency c Hc) in Hl as [_ H].
    rewrite <-(cw_succ_length c Hc). by apply H.
Qed.

(** A task downstream of one that has not succeeded has not started. *)
Lemma downstream_idle ws sts rem i j st st' :
  sched_core ws sts rem -> ws ≠ WorkflowCanceled -> upstream i j ->
  sts !! i = Some st -> st ≠ TaskSucceeded -> sts !! j = Some st' ->
  st' = TaskWaitingDependencies \/ st' = TaskSkipped.
Proof.
  intros Hs Hws Hij Hi Hne Hj. pose proof (sc_status _ _ _ Hs j st' Hj) as Hok.
  assert (Hpos : (0 < dep_count sts j)%Z) by (eapply dep_count_pos_of; [done|congruence]).
  destruct st'; cbn in Hok; try lia; auto; done.
Qed.

Lemma descendants_idle ws sts rem i j st :
  sched_core ws sts rem -> ws ≠ WorkflowCanceled -> tc upstream i j ->
  sts !! i = Some st -> st ≠ TaskSucceeded ->
  sts !! j = Some TaskWaitingDependencies \/ sts !! j = Some TaskSkipped.
Proof.
  intros Hs Hws Htc. revert st. induction Htc as [i j Hij|i k j Hik _ IH]; intros st Hi Hne.
  - destruct (lookup_lt_is_Some_2 sts j) as [st' Hj].
    { rewrite (sc_length _ _ _ Hs). by eapply upstream_range. }
    destruct (downstream_idle _ _ _ _ _ _ _ Hs Hws Hij Hi Hne Hj) as [->| ->]; auto.
  - destruct (lookup_lt_is_Some_2 sts k) as [st' Hk].
    { rewrite (sc_length _ _ _ Hs). by eapply upstream_range. }
    apply (IH st' Hk). intros ->.
    by destruct (downstream_idle _ _ _ _ _ _ _ Hs Hws Hik Hi Hne Hk).
Qed.

(** No subset of the tasks in which everybody waits for a member is nonempty. *)
Lemma no_waiting_cycle (P : nat -> Prop) `{!forall i, Decision (P i)} :
  (forall j, j < n -> P j -> exists i, upstream i j /\ P i) -> forall j, j < n -> ~ P j.
Proof.
  intros Hstep j Hj HP.
  destruct (predecessor_cycle (filter P (seq 0 n)) upstream) as [i Hi].
  - intros E. assert (Hin : j ∈ filter P (seq 0 n)).
    { apply list_elem_of_filter. split; [done|]. apply elem_of_seq. lia. }
    rewrite E in Hin. by apply not_elem_of_nil in Hin.
  - intros k [Hk Hlt]%list_elem_of_filter. apply elem_of_seq in Hlt.
    destruct (Hstep k) as (i & Hik & Hi); [lia|done|]. exists i. split; [|done].
    apply list_elem_of_filter. split; [done|]. apply elem_of_seq.
    pose proof (upstream_range _ _ Hik). lia.
  - by apply (cw_acyclic c Hc i).
Qed.

(** As long as a task is unfinished, some task can be worked on. *)
Lemma sched_progress ws sts rem j st :
  sched_core ws sts rem -> ws ≠ WorkflowCanceled -> sts !! j = Some st -> isTaskTerminal st = false ->
  exists k st', sts !! k = Some st' /\ active st' = true.
Proof.
  intros Hs Hws Hj Hnt.
  destruct (decide (Exists (fun st => active st = true) sts)) as [Hex|Hno].
  { apply Exists_exists in Hex as (st' & [k Hk]%list_elem_of_lookup & ?). by exists k, st'. }
  exfalso. rewrite <-Forall_Exists_neg, Forall_lookup in Hno.
  assert (Hw : forall j st, sts !! j = Some st -> isTaskTerminal st = false -> st = TaskWaitingDependencies).
  { clear j st Hj Hnt. intros j st Hj Hnt. specialize (Hno j st Hj).
    pose proof (sc_status _ _ _ Hs j st Hj). destruct st; try done; by destruct Hno. }
  apply (no_waiting_cycle (fun j => sts !! j = Some TaskWaitingDependencies)) with (j := j).
  - intros k _ Hk. pose proof (sc_status _ _ _ Hs k _ Hk) as Hpos. cbn in Hpos.
    destruct (dep_count_pos _ _ Hpos) as (i & Hik & Hne). exists i. split; [done|].
    destruct (lookup_lt_is_Some_2 sts i) as [sti Hi].
    { rewrite (sc_length _ _ _ Hs). by destruct (upstream_range _ _ Hik). }
    pose proof (sc_propagated _ _ _ Hs i k sti Hi) as Hprop. rewrite Hk in Hprop.
    pose proof (sc_status _ _ _ Hs i sti Hi) as Hok.
    rewrite Hi in Hne |- *. f_equal. apply (Hw i sti Hi).
    destruct sti; try done; by specialize (Hprop eq_refl Hik).
  - rewrite <-(sc_length _ _ _ Hs). by eapply lookup_lt_Some.
  - rewrite Hj. f_equal. by eapply Hw.
Qed.

(** When everything is finished and nothing failed, everything succeeded. *)
Lemma finished_without_failure ws sts rem :
  sched_core ws sts rem -> ws ≠ WorkflowCanceled ->
  (forall st, st ∈ sts -> isTaskTerminal st = true) -> TaskFailed ∉ sts ->
  forall st, st ∈ sts -> st = TaskSucceeded.
Proof.
  intros Hs Hws Hall Hnf.
  assert (Hskip : forall j, j < n -> sts !! j ≠ Some TaskSkipped).
  { apply (no_waiting_cycle (fun j => sts !! j = Some TaskSkipped)). intros j _ Hj.
    pose proof (sc_status _ _ _ Hs j _ Hj) as (i & st' & Hij & Hi & Hb).
    exists i. split; [done|]. destruct st'; try done.
    destruct Hnf. by eapply list_elem_of_lookup_2. }
  intros st Hin. pose proof (Hall st Hin) as Ht. apply list_elem_of_lookup in Hin as [j Hj].
  pose proof (sc_status _ _ _ Hs j st Hj) as Hok.
  destruct st; try done.
  - destruct Hnf. by eapply list_elem_of_lookup_2.
  - exfalso. apply (Hskip j); [|done]. rewrite <-(sc_length _ _ _ Hs). by eapply lookup_lt_Some.
Qed.

(** ** The operations keep the invariant *)
Lemma core_canceled_free ws sts rem j :
  sched_core ws sts rem -> ws ≠ WorkflowCanceled -> sts !! j ≠ Some TaskCanceled.
Proof. intros Hs Hws Hj. by pose proof (sc_status _ _ _ Hs j _ Hj). Qed.

Lemma core_status_change ws ws' sts rem :
  sched_core ws sts rem -> ws ≠ WorkflowCanceled -> sched_core ws' sts rem.
Proof.
  intros Hs Hws. destruct Hs as [H1 H2 H3 H4 H5].
  split; try done. intros j st Hj. specialize (H4 j st Hj). by destruct st.
Qed.

(** Moving tasks between the working states. *)
Definition moves (sts sts' : list TaskStatus) : Prop :=
  length sts' = length sts /\
  forall i st, sts !! i = Some st -> sts' !! i = Some st \/
    exists st', sts' !! i = Some st' /\ active st = true /\ active st' = true.

Lemma core_moves ws sts sts' rem : sched_core ws sts rem -> moves sts sts' -> sched_core ws sts' rem.
Proof.
  intros [H1 H2 H3 H4 H5] [Hlen Hm].
  assert (Hback : forall i st', sts' !! i = Some st' -> active st' = false -> sts !! i = Some st').
  { intros i st' Hi Ha. destruct (lookup_lt_is_Some_2 sts i) as [st Hst].
    { rewrite <-Hlen. by eapply lookup_lt_Some. }
    destruct (Hm i st Hst) as [?|(st'' & ? & ? & ?)]; [congruence|]. congruence. }
  assert (Hfwd : forall i st, sts !! i = Some st -> active st = false -> sts' !! i = Some st).
  { intros i st Hi Ha. destruct (Hm i st Hi) as [?|(st'' & ? & ? & ?)]; [done|]. congruence. }
  assert (Hext : forall j, dep_count sts' j = dep_count sts j).
  { intros j. apply dep_count_ext. intros k. split; intros Hk; [by apply Hback|by apply Hfwd]. }
  split; [by rewrite Hlen|done| | |].
  - intros j r Hj. rewrite Hext. by apply H3.
  - intros j st Hj. destruct (active st) eqn:Ha.
    + destruct (lookup_lt_is_Some_2 sts j) as [st0 Hj0]; [rewrite <-Hlen; by eapply lookup_lt_Some|].
      specialize (H4 j st0 Hj0).
      assert (Ha0 : active st0 = true).
      { destruct (Hm j st0 Hj0) as [?|(? & ? & ? & ?)]; [|done]. congruence. }
      destruct st; try done; cbn; rewrite Hext; by destruct st0.
    + specialize (H4 j st (Hback j st Hj Ha)). destruct st; cbn in *; rewrite ?Hext; try done.
      destruct H4 as (k & st' & Hkj & Hk & Hb). exists k, st'. split_and!; [done| |done].
      apply Hfwd; [done|by destruct st'].
  - intros k j st Hk Hb Hkj. apply Hfwd; [|done]. eapply H5; [apply Hback; [done|by destruct st]|done|done].
Qed.

Lemma core_move ws sts rem i from to :
  sched_core ws sts rem -> sts !! i = Some from -> active from = true -> active to = true ->
  sched_core ws (<[i := to]> sts) rem.
Proof.
  intros Hs Hi Hf Ht. eapply core_moves; [done|]. split; [by rewrite length_insert|]. intros j st Hj.
  destruct (decide (j = i)) as [->|Hne].
  - right. exists to. simplify_eq. split_and!; [|done|done].
    apply list_lookup_insert_eq. by eapply lookup_lt_Some.
  - left. by rewrite list_lookup_insert_ne.
Qed.

(** Success: the counters of the successors go down and those at zero become ready. *)
Section success.
Context (ws : WorkflowStatus) (sts : list TaskStatus) (rem : list Z) (i : nat).
Context (Hs : sched_core ws sts rem) (Hws : ws ≠ WorkflowCanceled) (Hi : sts !! i = Some TaskRunning).
#[local] Abbreviation sts1 := (<[i := TaskSucceeded]> sts).

Lemma success_lt : i < length sts.
Proof. by eapply lookup_lt_Some. Qed.

Lemma no_self_edge : ~ upstream i i.
Proof. intros H. by apply (cw_acyclic c Hc i), tc_once. Qed.

Lemma success_idle j : upstream i j ->
  sts !! j = Some TaskWaitingDependencies \/ sts !! j = Some TaskSkipped.
Proof. intros Hij. eapply descendants_idle; [done|done|by apply tc_once|done|done]. Qed.

Lemma success_lookup j st : sts1 !! j = Some st -> after_success i sts !! j =
  Some (if bool_decide (upstream i j) && bool_decide (dep_count sts1 j = 0%Z) then TaskReady else st).
Proof. intros Hj. unfold after_success. by rewrite list_lookup_imap, Hj. Qed.

Lemma success_lookup_ne j : j ≠ i -> after_success i sts !! j =
  (fun st => if bool_decide (upstream i j) && bool_decide (dep_count sts1 j = 0%Z) then TaskReady else st)
    <$> sts !! j.
Proof. intros Hne. unfold after_success. by rewrite list_lookup_imap, list_lookup_insert_ne. Qed.

Lemma success_self : after_success i sts !! i = Some TaskSucceeded.
Proof.
  rewrite (success_lookup i TaskSucceeded) by (apply list_lookup_insert_eq, success_lt).
  by rewrite bool_decide_eq_false_2 by apply no_self_edge.
Qed.

Lemma success_count1 j :
  dep_count sts1 j = (dep_count sts j - if bool_decide (upstream i j) then 1 else 0)%Z.
Proof. by eapply dep_count_succeed. Qed.

Lemma success_count j :
  dep_count (after_success i sts) j =
  (dep_count sts j - if bool_decide (upstream i j) then 1 else 0)%Z.
Proof.
  rewrite <-success_count1. apply dep_count_ext. intros k. destruct (decide (k = i)) as [->|Hne].
  - rewrite success_self. by rewrite list_lookup_insert_eq by apply success_lt.
  - rewrite success_lookup_ne, list_lookup_insert_ne by done.
    destruct (sts !! k) as [st|] eqn:Hk; [|done]. cbn. case_bool_decide as Hik; [|done].
    case_bool_decide; [|done]. cbn. split; intros [= ->].
    by destruct (success_idle k Hik); simplify_eq.
Qed.

(** Nobody enters or leaves the failed and skipped tasks. *)
Lemma success_broken j st :
  broken st = true -> after_success i sts !! j = Some st <-> sts !! j = Some st.
Proof.
  intros Hb. destruct (decide (j = i)) as [->|Hne].
  { rewrite success_self, Hi. split; intros [= <-]; done. }
  rewrite success_lookup_ne by done. destruct (sts !! j) as [st'|] eqn:Hj; [|done]. cbn.
  case_bool_decide as Hij; cbn; [|done]. case_bool_decide as Hz; [|done].
  split; intros [= <-]; [done|]. pose proof (sc_status _ _ _ Hs j st' Hj) as H4.
  destruct st'; try done; cbn in H4.
  - pose proof (dep_count_nonneg sts1 j). rewrite success_count1, (bool_decide_eq_true_2 (upstream i j)) in Hz by done. lia.
  - destruct H4 as (k & st' & Hkj & Hk & Hb'). rewrite dep_count_zero in Hz.
    specialize (Hz k Hkj). rewrite list_lookup_insert_ne in Hz
      by (intros <-; rewrite Hi in Hk; by simplify_eq).
    by simplify_eq.
Qed.

Lemma success_status j st :
  after_success i sts !! j = Some st -> status_ok ws (after_success i sts) j st.
Proof.
  intros Hj. destruct (broken st) eqn:Hb.
  { pose proof Hj as Hj0. rewrite (success_broken j st Hb) in Hj0.
    pose proof (sc_status _ _ _ Hs j st Hj0) as H4. destruct st; try done; cbn in H4 |- *.
    - rewrite success_count, H4, bool_decide_eq_false_2; [done|]. intros Hij.
      by destruct (success_idle j Hij); simplify_eq.
    - destruct H4 as (k & st' & Hkj & Hk & Hb'). exists k, st'. split_and!; [done| |done].
      by apply success_broken. }
  destruct (decide (j = i)) as [->|Hne].
  { rewrite success_self in Hj. injection Hj as <-. cbn.
    rewrite success_count, bool_decide_eq_false_2 by apply no_self_edge.
    pose proof (sc_status _ _ _ Hs i _ Hi) as H4. cbn in H4. lia. }
  rewrite success_lookup_ne in Hj by done. destruct (sts !! j) as [st0|] eqn:Hj0; [|done].
  pose proof (sc_status _ _ _ Hs j st0 Hj0) as H4.
  pose proof (success_count j) as Hcount. pose proof (dep_count_nonneg (after_success i sts) j).
  cbn in Hj. case_bool_decide as Hij; cbn in Hj.
  - rewrite success_count1, (bool_decide_eq_true_2 (upstream i j)) in Hj by done.
    case_bool_decide as Hz; simplify_eq; cbn; [lia|].
    destruct (success_idle j Hij); simplify_eq. cbn. lia.
  - simplify_eq. destruct st; try done; cbn in *; lia.
Qed.

Lemma core_succeed rem' :
  length rem' = n ->
  (forall j r, rem !! j = Some r ->
     rem' !! j = Some (r - if bool_decide (upstream i j) then 1 else 0)%Z) ->
  sched_core ws (after_success i sts) rem'.
Proof.
  intros Hl Hrem. split.
  - unfold after_success. rewrite length_imap, length_insert. by apply Hs.
  - done.
  - intros j r Hj. destruct (lookup_lt_is_Some_2 rem j) as [r0 Hr0].
    { rewrite (sc_rem_length _ _ _ Hs), <-Hl. by eapply lookup_lt_Some. }
    rewrite (Hrem _ _ Hr0) in Hj. injection Hj as <-. rewrite success_count. f_equal.
    by apply (sc_rem _ _ _ Hs).
  - apply success_status.
  - intros k j st Hk Hb Hkj. rewrite (success_broken k st Hb) in Hk. apply success_broken; [done|].
    by eapply (sc_propagated _ _ _ Hs).
Qed.
End success.

(** Failure: every unfinished descendant is skipped. *)
Section failures.
Context (ws : WorkflowStatus) (sts : list TaskStatus) (rem : list Z) (X : list nat) (reached : nat -> bool).
Context (Hs : sched_core ws sts rem) (Hws : ws ≠ WorkflowCanceled).
Context (HX : forall i, i ∈ X -> sts !! i = Some TaskRunning).
(** Everything downstream of [X] is reached; more may be, if it is skipped already. *)
Context (Hreached : forall j, reached j = true ->
  (exists i, i ∈ X /\ tc upstream i j) \/ sts !! j = Some TaskSkipped).
Context (Hcover : forall i j, i ∈ X -> tc upstream i j -> reached j = true).

Lemma failure_idle j : reached j = true ->
  sts !! j = Some TaskWaitingDependencies \/ sts !! j = Some TaskSkipped.
Proof. intros [(i & Hi%HX & Htc)|?]%Hreached; [by eapply descendants_idle|by right]. Qed.

Lemma failure_not_self i : i ∈ X -> reached i = false.
Proof.
  intros Hi. destruct (reached i) eqn:Hr; [|done].
  pose proof (HX i Hi). by destruct (failure_idle i Hr); simplify_eq.
Qed.

Lemma failure_self i : i ∈ X -> after_failures reached X sts !! i = Some TaskFailed.
Proof.
  intros Hi. unfold after_failures. rewrite list_lookup_imap, (HX i Hi). cbn.
  by rewrite bool_decide_eq_true_2.
Qed.

Lemma failure_lookup j : j ∉ X ->
  after_failures reached X sts !! j = if reached j then Some TaskSkipped else sts !! j.
Proof.
  intros Hne. unfold after_failures. rewrite list_lookup_imap. destruct (reached j) eqn:Hr; cbn.
  - by destruct (failure_idle j Hr) as [-> | ->]; cbn; rewrite bool_decide_eq_false_2.
  - destruct (sts !! j); [|done]. cbn. by rewrite bool_decide_eq_false_2.
Qed.

Lemma failure_count j : dep_count (after_failures reached X sts) j = dep_count sts j.
Proof.
  apply dep_count_ext. intros k. destruct (decide (k ∈ X)) as [Hk|Hne].
  - by rewrite failure_self, (HX k Hk).
  - rewrite failure_lookup by done. destruct (reached k) eqn:Hr; [|done].
    by destruct (failure_idle k Hr) as [-> | ->].
Qed.

Lemma failure_broken j st : sts !! j = Some st -> broken st = true ->
  exists st', after_failures reached X sts !! j = Some st' /\ broken st' = true.
Proof.
  intros Hj Hb. destruct (decide (j ∈ X)) as [Hin|Hne]; [by rewrite failure_self; eauto|].
  rewrite failure_lookup, Hj by done. destruct (reached j); eauto.
Qed.

(** A reached task has a failed or skipped predecessor. *)
Lemma failure_cause j : reached j = true ->
  exists k st', upstream k j /\ after_failures reached X sts !! k = Some st' /\ broken st' = true.
Proof.
  intros Hr. apply Hreached in Hr as [(i & Hi & Htc)|Hsk].
  2:{ pose proof (sc_status _ _ _ Hs j _ Hsk) as (k & st & Hkj & Hk & Hb).
      destruct (failure_broken k st Hk Hb) as (st' & ? & ?). by exists k, st'. }
  assert (Hlast : upstream i j \/ exists k, tc upstream i k /\ upstream k j).
  { clear -Htc. induction Htc as [i j Hij|i k j Hik Hkj [IH|(m & Hm & Hmj)]]; [by left| |].
    - right. exists k. split; [by apply tc_once|done].
    - right. exists m. split; [by eapply tc_l|done]. }
  destruct Hlast as [Hij|(k & Hik & Hkj)].
  - exists i, TaskFailed. split_and!; [done|by apply failure_self|done].
  - exists k, TaskSkipped. split_and!; [done| |done].
    assert (Hk : reached k = true) by (by eapply Hcover).
    rewrite failure_lookup, Hk; [done|]. intros Hin. by rewrite failure_not_self in Hk.
Qed.

Lemma core_failures : sched_core ws (after_failures reached X sts) rem.
Proof.
  pose proof Hs as [H1 H2 H3 H4 H5]. split; [|done|intros j r Hj; rewrite failure_count; by apply H3| |].
  - unfold after_failures. by rewrite length_imap.
  - intros j st Hj. destruct (decide (j ∈ X)) as [Hin|Hne].
    + rewrite failure_self in Hj by done. injection Hj as <-. cbn. rewrite failure_count.
      apply (H4 _ _ (HX j Hin)).
    + rewrite failure_lookup in Hj by done. destruct (reached j) eqn:Hr.
      * injection Hj as <-. by apply failure_cause.
      * specialize (H4 j st Hj). destruct st; cbn in *; rewrite ?failure_count; try done.
        destruct H4 as (k & st' & Hkj & Hk & Hb).
        destruct (failure_broken k st' Hk Hb) as (st'' & ? & ?). by exists k, st''.
  - intros k j st Hk Hb Hkj.
    assert (Hkb : k ∈ X \/ reached k = true \/ sts !! k = Some st).
    { destruct (decide (k ∈ X)) as [|Hne]; [by left|]. right. rewrite failure_lookup in Hk by done.
      destruct (reached k); [by left|by right]. }
    assert (Hor : reached j = true \/ sts !! j = Some TaskSkipped).
    { destruct Hkb as [Hin|[Hr|Hk']].
      - left. eapply Hcover; [done|by apply tc_once].
      - apply Hreached in Hr as [(i & Hi & Htc)|Hsk].
        + left. eapply Hcover; [done|by eapply tc_r].
        + right. by eapply H5.
      - right. by eapply H5. }
    assert (Hne : j ∉ X).
    { intros Hin. pose proof (HX j Hin) as Hj. destruct Hor as [Hr|Hsk]; [|congruence].
      by rewrite failure_not_self in Hr. }
    rewrite failure_lookup by done. by destruct Hor as [-> | ->]; [|case_match].
Qed.
End failures.

Lemma after_failures_one reached i sts :
  reached i = false -> sts !! i = Some TaskRunning ->
  after_failure reached i sts = after_failures reached [i] sts.
Proof.
  intros Hr Hi. apply list_eq. intros j. unfold after_failure, after_failures. rewrite !list_lookup_imap.
  rewrite (bool_decide_ext (j ∈ [i]) (j = i)) by apply list_elem_of_singleton.
  destruct (decide (j = i)) as [->|Hne].
  - rewrite list_lookup_insert_eq, Hi by (by eapply lookup_lt_Some). cbn.
    by rewrite Hr, bool_decide_eq_true_2.
  - rewrite list_lookup_insert_ne by done. destruct (sts !! j); [|done]. cbn.
    by rewrite bool_decide_eq_false_2.
Qed.

Lemma core_fail ws sts rem i reached :
  sched_core ws sts rem -> ws ≠ WorkflowCanceled -> sts !! i = Some TaskRunning ->
  (forall j, reached j = true <-> tc upstream i j) ->
  sched_core ws (after_failure reached i sts) rem.
Proof.
  intros Hs Hws Hi Hreached.
  assert (HX : forall k, k ∈ [i] -> sts !! k = Some TaskRunning) by (by intros k ->%list_elem_of_singleton).
  assert (HR : forall j, reached j = true ->
    (exists k, k ∈ [i] /\ tc upstream k j) \/ sts !! j = Some TaskSkipped).
  { intros j ?%Hreached. left. exists i. split; [by left|done]. }
  assert (HC : forall k j, k ∈ [i] -> tc upstream k j -> reached j = true).
  { by intros k j ->%list_elem_of_singleton ?%Hreached. }
  rewrite after_failures_one; [by apply core_failures| |done].
  eapply (failure_not_self ws sts rem [i]); try done. by left.
Qed.

(** Cancellation: every unfinished task is canceled. *)
Lemma core_cancel ws sts rem :
  sched_core ws sts rem -> ws ≠ WorkflowCanceled -> sched_core WorkflowCanceled (after_cancel sts) rem.
Proof.
  intros Hs Hws. pose proof Hs as [H1 H2 H3 H4 H5].
  assert (Hext : forall j, dep_count (after_cancel sts) j = dep_count sts j).
  { intros j. apply dep_count_ext. intros k. unfold after_cancel. rewrite list_lookup_fmap.
    destruct (sts !! k) as [[]|]; cbn; split; done. }
  assert (Hbr : forall j st, broken st = true -> after_cancel sts !! j = Some st <-> sts !! j = Some st).
  { intros j st Hb. unfold after_cancel. rewrite list_lookup_fmap.
    destruct (sts !! j) as [st'|]; [|done]. cbn. destruct (isTaskTerminal st') eqn:Ht; [done|].
    split; intros [= <-]; [done|]. by destruct st'. }
  split; [by unfold after_cancel; rewrite length_fmap|done|intros j r Hj; rewrite Hext; by apply H3| |].
  - intros j st Hj. unfold after_cancel in Hj. rewrite list_lookup_fmap in Hj.
    destruct (sts !! j) as [st'|] eqn:Hj'; [|done]. cbn in Hj. injection Hj as <-.
    specialize (H4 j st' Hj'). destruct st'; cbn in *; rewrite ?Hext; try done.
    destruct H4 as (k & st' & Hkj & Hk & Hb). exists k, st'. split_and!; [done|by apply Hbr|done].
  - intros k j st Hk Hb Hkj. apply Hbr; [done|]. eapply H5; [by apply Hbr|done|done].
Qed.
End scheduling.
