(* ===== verification/Distributed.v ===== *)
(** * Operations on a run snapshot

    src/workflow/distributed_state.go, [newRunSnapshot] of src/workflow/run.go
    and [prepareTask] of src/workflow/engine.go: how a run is created and how
    a task is queued, started, finished, retried, timed out, interrupted and
    canceled.  [*RunSnapshot] is the state of the [go] monad; a pointer to a
    task or attempt is its position.  Task indices are Go integers ([Z]) where
    the caller supplies them.  Both execution paths (the local engine and the
    PostgreSQL coordinator) go through these functions. *)
From S2P Require Import Prelude GoStrings Json Model State Graph Compiler.

Definition currentSnapshotVersion : Z := 1.

(** ** Creating a run *)
Fixpoint initTasks (i : nat) (tasks : list TaskDefinition) (deps : list (list nat))
    : outcome (list TaskRun * list Z) :=
  match tasks with
  | [] => Ok ([], [])
  | task :: tasks' =>
    ds ← or_panic (deps !! i);
    let remaining := Z.of_nat (length ds) in
    let status := if (remaining =? 0)%Z then TaskReady else TaskWaitingDependencies in
    '(ts, rs) ← initTasks (S i) tasks' deps;
    Ok (mkTaskRun (def_Key task) status [] None None :: ts, remaining :: rs)
  end.

Definition newRunSnapshot (id : RunID) (compiled : CompiledWorkflow) (now : time) : outcome RunSnapshot :=
  '(tasks, remaining) ← initTasks 0 (def_Tasks (definition compiled)) (dependencies compiled);
  Ok (mkRunSnapshot currentSnapshotVersion (Some (definition compiled))
        (mkWorkflowRun id (wf_ID (definition compiled)) 0 WorkflowPending 0 0 None
           tasks remaining now None None) []).

Definition NewRunSnapshotForVersion (id : RunID) (compiled : option CompiledWorkflow) (version : Z)
    (now : time) : outcome RunSnapshot :=
  check (is_empty id) (Errorf "run ID is required") $
  match compiled with
  | None => Err (Errorf "compiled workflow is required")
  | Some compiled =>
    check (version <=? 0)%Z (Errorf "definition version must be positive") $
    snapshot ← newRunSnapshot id compiled now;
    Ok (upd_Run (set_run_DefinitionVersion version) snapshot)
  end.

(** ** Task index guards *)
Definition out_of_range (taskIndex : Z) (s : RunSnapshot) : bool :=
  ((taskIndex <? 0) || (Z.of_nat (length (Tasks (Run s))) <=? taskIndex))%Z.

Definition QueueTask (taskIndex : Z) (at_ : time) : go RunSnapshot unit :=
  s ← get;
  _ ← fail_if (out_of_range taskIndex s) (Errorf "task index %d is out of range");
  _ ← (if bool_decide (run_Status (Run s) = WorkflowPending)
       then transitionWorkflow WorkflowRunning at_ "distributed execution started" else mret tt);
  s ← get;
  _ ← fail_if (bool_decide (run_Status (Run s) ≠ WorkflowRunning))
        (Errorf "workflow must be running before queueing a task");
  transitionTask (Z.to_nat taskIndex) TaskQueued at_ "dispatch created".

Definition ReturnQueuedTaskToReady (taskIndex : Z) (at_ : time) (reason : string) : go RunSnapshot unit :=
  s ← get;
  _ ← fail_if (out_of_range taskIndex s) (Errorf "task index %d is out of range");
  transitionTask (Z.to_nat taskIndex) TaskReady at_ reason.

(** ** Starting an attempt *)
Definition appendAttempt (i : nat) (a : Attempt) : go RunSnapshot unit :=
  modify (upd_task i (fun t => set_task_Attempts (Attempts t ++ [a]) t)).

Definition executionRequest (compiled : CompiledWorkflow) (i : nat) (number : Z)
    : go RunSnapshot ExecutionRequest :=
  d ← deref (def_Tasks (definition compiled) !! i);
  input ← lift (cloneTaskInput (def_Input d));
  s ← get;
  mret (mkExecutionRequest (DefinitionID (Run s)) (ID (Run s)) (def_Key d) (def_Action d) input number).

Definition StartQueuedAttempt (compiled : option CompiledWorkflow) (taskIndex : Z) (at_ : time)
    (workerID dispatchID : string) : go RunSnapshot ExecutionRequest :=
  match compiled with
  | None => throw (Errorf "snapshot and compiled workflow are required")
  | Some compiled =>
    s ← get;
    _ ← fail_if (out_of_range taskIndex s
                 || (Z.of_nat (length (def_Tasks (definition compiled))) <=? taskIndex)%Z)
          (Errorf "task index %d is out of range");
    _ ← fail_if (is_empty workerID || is_empty dispatchID)
          (Errorf "worker and dispatch IDs are required");
    let i := Z.to_nat taskIndex in
    task ← deref (Tasks (Run s) !! i);
    d ← deref (def_Tasks (definition compiled) !! i);
    _ ← fail_if (bool_decide (Key task ≠ def_Key d))
          (Errorf "task identity does not match compiled workflow");
    _ ← transitionTask i TaskRunning at_ "lease claimed";
    let number := (Z.of_nat (length (Attempts task)) + 1)%Z in
    _ ← appendAttempt i
          (mkAttempt number AttemptRunning workerID dispatchID at_ None (mkExecutionResult "" "" ""));
    executionRequest compiled i number
  end.

(** [Engine.prepareTask]; [now1] and [now2] are its two readings of the clock. *)
Definition prepareTask (compiled : CompiledWorkflow) (i : nat) (now1 now2 : time)
    : go RunSnapshot (ExecutionRequest * Z) :=
  s ← get;
  task ← deref (Tasks (Run s) !! i);
  _ ← transitionTask i TaskRunning now1 "execution started";
  let number := (Z.of_nat (length (Attempts task)) + 1)%Z in
  _ ← appendAttempt i
        (mkAttempt number AttemptRunning "" "" now2 None (mkExecutionResult "" "" ""));
  request ← executionRequest compiled i number;
  mret (request, number).

(** ** Failure propagation *)
Fixpoint skip_loop (fuel : nat) (successors : list (list nat)) (visited : list bool)
    (queue : list nat) (at_ : time) : go RunSnapshot unit :=
  match queue with
  | [] => mret tt
  | current :: queue' =>
    match fuel with
    | O => diverge
    | S fuel' =>
      seen ← deref (visited !! current);
      if (seen : bool) then skip_loop fuel' successors visited queue' at_
      else
        s ← get;
        task ← deref (Tasks (Run s) !! current);
        _ ← (if isTaskTerminal (Status task) then mret tt
             else transitionTask current TaskSkipped at_ "upstream task failed");
        next ← deref (successors !! current);
        skip_loop fuel' successors (<[current := true]> visited) (queue' ++ next) at_
    end
  end.

(** [queue = append(queue, compiled.successors[failedTask]...)] *)
Fixpoint successors_of (successors : list (list nat)) (failedTasks : list nat)
    : go RunSnapshot (list nat) :=
  match failedTasks with
  | [] => mret []
  | failedTask :: rest =>
    l ← deref (successors !! failedTask);
    ls ← successors_of successors rest;
    mret (l ++ ls)
  end.

(** Every position enters the queue at most once per edge into it. *)
Definition edge_count (successors : list (list nat)) : nat :=
  sum_list (length <$> successors).

Definition skipDescendantsFrom (compiled : CompiledWorkflow) (failedTasks : list nat) (at_ : time)
    : go RunSnapshot unit :=
  queue ← successors_of (successors compiled) failedTasks;
  s ← get;
  skip_loop (length queue + edge_count (successors compiled)) (successors compiled)
    (replicate (length (Tasks (Run s))) false) queue at_.

Definition skipDescendants (compiled : CompiledWorkflow) (failedTask : nat) (at_ : time)
    : go RunSnapshot unit :=
  skipDescendantsFrom compiled [failedTask] at_.

(** ** Settling the run *)
Definition hasFailedTask (tasks : list TaskRun) : bool :=
  existsb (fun t => bool_decide (Status t = TaskFailed)) tasks.
Definition allTasksSucceeded (tasks : list TaskRun) : bool :=
  forallb (fun t => bool_decide (Status t = TaskSucceeded)) tasks.
Definition hasWaitingRetry (tasks : list TaskRun) : bool :=
  existsb (fun t => bool_decide (Status t = TaskWaitingRetry)) tasks.

Definition settleWorkflowIfComplete (at_ : time) : go RunSnapshot unit :=
  s ← get;
  let tasks := Tasks (Run s) in
  if negb (forallb (fun t => isTaskTerminal (Status t)) tasks) then mret tt
  else if hasFailedTask tasks
  then transitionWorkflow WorkflowFailed at_ "one or more tasks failed"
  else
    _ ← fail_if (negb (allTasksSucceeded tasks))
          (Errorf "workflow %q reached mixed terminal tasks without failure");
    transitionWorkflow WorkflowSucceeded at_ "all tasks succeeded".

(** ** Finishing an attempt *)

(** [activeAttempt]: the running attempt the caller names, or [None] when the
    result is stale.  The attempt is the last one of the task. *)
Definition activeAttempt (taskIndex attemptNumber : Z) : go RunSnapshot (option (TaskRun * Attempt)) :=
  s ← get;
  _ ← fail_if (out_of_range taskIndex s) (Errorf "task index %d is out of range");
  task ← deref (Tasks (Run s) !! Z.to_nat taskIndex);
  mret (if bool_decide (Status task ≠ TaskRunning) then None
        else match last (Attempts task) with
             | None => None
             | Some attempt =>
               if bool_decide (Number attempt ≠ attemptNumber)
                  || bool_decide (att_Status attempt ≠ AttemptRunning)
               then None else Some (task, attempt)
             end).

(** [attempt.Result = result; transitionAttempt(snapshot, task.Key, attempt, to, at, reason)] *)
Definition closeAttempt (i : nat) (task : TaskRun) (result : ExecutionResult) (to : AttemptStatus)
    (at_ : time) (reason : string) : go RunSnapshot unit :=
  let k := pred (length (Attempts task)) in
  _ ← modify (upd_attempt i k (set_att_Result result));
  transitionAttempt (Key task) i k to at_ reason.

Definition applyRetryDecision (compiled : option CompiledWorkflow) (i : nat) (number : Z) (at_ : time)
    (reason : string) : go RunSnapshot bool :=
  compiled ← deref compiled;
  d ← deref (def_Tasks (definition compiled) !! i);
  if (number <? MaxAttempts (Retry d))%Z then
    _ ← transitionTask i TaskWaitingRetry at_ reason;
    let readyAt := time_add at_ (millis (IntervalMillis (Retry d))) in
    _ ← modify (upd_task i (set_task_ReadyAt (Some readyAt)));
    mret true
  else
    _ ← transitionTask i TaskFailed at_ "retry attempts exhausted";
    _ ← skipDescendants compiled i at_;
    _ ← settleWorkflowIfComplete at_;
    mret true.

(** One iteration of the loop over the successors of a succeeded task. *)
Definition releaseSuccessor (at_ : time) (successorIndex : nat) : go RunSnapshot unit :=
  s ← get;
  before ← deref (RemainingDependencies (Run s) !! successorIndex);
  _ ← modify (upd_Remaining <[successorIndex := (before - 1)%Z]>);
  _ ← fail_if (before - 1 <? 0)%Z (Errorf "task %q dependency count became negative");
  if (before - 1 =? 0)%Z
  then transitionTask successorIndex TaskReady at_ "dependencies succeeded" else mret tt.

Definition response_result (response : ExecutionResponse) : ExecutionResult :=
  mkExecutionResult (resp_Output response) (resp_ErrorCode response) (resp_ErrorMessage response).

Definition known_result (kind : ResultKind) : bool :=
  match kind with
  | ResultSuccess | ResultTemporaryFailure | ResultPermanentFailure => true
  | _ => false
  end.

Definition ApplyAttemptResult (compiled : option CompiledWorkflow) (taskIndex attemptNumber : Z)
    (response : ExecutionResponse) (at_ : time) : go RunSnapshot bool :=
  match compiled with
  | None => throw (Errorf "compiled workflow is required")
  | Some c =>
    active ← activeAttempt taskIndex attemptNumber;
    match active with
    | None => mret false
    | Some (task, attempt) =>
      let i := Z.to_nat taskIndex in
      let result := response_result response in
      _ ← fail_if (negb (known_result (Kind response))) (Errorf "unsupported execution result %q");
      match Kind response with
      | ResultTemporaryFailure =>
        _ ← closeAttempt i task result AttemptFailed at_ "temporary execution failure";
        applyRetryDecision compiled i (Number attempt) at_ "temporary execution failure"
      | ResultPermanentFailure =>
        _ ← closeAttempt i task result AttemptFailed at_ "permanent execution failure";
        _ ← transitionTask i TaskFailed at_ "permanent execution failure";
        _ ← skipDescendants c i at_;
        _ ← settleWorkflowIfComplete at_;
        mret true
      | _ =>
        _ ← closeAttempt i task result AttemptSucceeded at_ "execution succeeded";
        _ ← transitionTask i TaskSucceeded at_ "execution succeeded";
        next ← deref (successors c !! i);
        _ ← for_each next (releaseSuccessor at_);
        _ ← settleWorkflowIfComplete at_;
        mret true
      end
    end
  end.

Definition InterruptAttempt (compiled : option CompiledWorkflow) (taskIndex attemptNumber : Z)
    (at_ : time) (reason : string) : go RunSnapshot bool :=
  active ← activeAttempt taskIndex attemptNumber;
  match active with
  | None => mret false
  | Some (task, attempt) =>
    let i := Z.to_nat taskIndex in
    _ ← closeAttempt i task (mkExecutionResult "" "interrupted" reason) AttemptInterrupted at_ reason;
    applyRetryDecision compiled i (Number attempt) at_ reason
  end.

Definition TimeoutAttempt (compiled : option CompiledWorkflow) (taskIndex attemptNumber : Z)
    (at_ : time) : go RunSnapshot bool :=
  match compiled with
  | None => throw (Errorf "compiled workflow is required")
  | Some _ =>
    active ← activeAttempt taskIndex attemptNumber;
    match active with
    | None => mret false
    | Some (task, attempt) =>
      let i := Z.to_nat taskIndex in
      _ ← closeAttempt i task (mkExecutionResult "" "timeout" "execution timed out")
            AttemptTimedOut at_ "execution timed out";
      applyRetryDecision compiled i (Number attempt) at_ "execution timed out"
    end
  end.

Definition MakeRetryReady (taskIndex attemptNumber : Z) (at_ : time) : go RunSnapshot bool :=
  s ← get;
  _ ← fail_if (out_of_range taskIndex s) (Errorf "invalid retry task index %d");
  task ← deref (Tasks (Run s) !! Z.to_nat taskIndex);
  match Status task, ReadyAt task, last (Attempts task) with
  | TaskWaitingRetry, Some readyAt, Some attempt =>
    if bool_decide (Number attempt ≠ attemptNumber) || before at_ readyAt then mret false
    else
      _ ← transitionTask (Z.to_nat taskIndex) TaskReady at_ "retry interval elapsed";
      mret true
  | _, _, _ => mret false
  end.

(** ** Cancellation *)
Definition cancelTask (at_ : time) (taskIndex : nat) : go RunSnapshot unit :=
  s ← get;
  task ← deref (Tasks (Run s) !! taskIndex);
  if isTaskTerminal (Status task) then mret tt
  else
    _ ← (match Status task, last (Attempts task) with
         | TaskRunning, Some attempt =>
           if bool_decide (att_Status attempt = AttemptRunning)
           then closeAttempt taskIndex task (mkExecutionResult "" "canceled" "execution canceled")
                  AttemptCanceled at_ "workflow canceled"
           else mret tt
         | _, _ => mret tt
         end);
    transitionTask taskIndex TaskCanceled at_ "workflow canceled".

Definition CancelRunSnapshot (snapshot : RunSnapshot) (at_ : time) : outcome RunSnapshot :=
  let updated := cloneRunSnapshot snapshot in
  match (_ ← for_each (seq 0 (length (Tasks (Run updated)))) (cancelTask at_);
         transitionWorkflow WorkflowCanceled at_ "cancellation requested") updated with
  | (updated', Ok _) => Ok updated'
  | (_, Err e) => Err e
  | (_, Panic) => Panic
  | (_, Diverge) => Diverge
  end.
