(* ===== verification/Effects.v ===== *)
(** * What the operations do to a snapshot

    Each operation of Distributed.v, when it is called in a state where the
    source means it to succeed, is shown to return and its exact effect is
    given: which task records change and how, the dependency counters, the
    run status, and - the [frame] - that every other field stays, that the
    audit log only grows, and that it stays consistently numbered. *)
From S2P Require Import Prelude GoStrings Json Model State Graph Compiler Scheduling Distributed.
From stdpp Require Import relations.

Definition statuses (s : RunSnapshot) : list TaskStatus := Status <$> Tasks (Run s).

(** The part of a run no task operation may change, and the audit log. *)
Definition identity_fields (s : RunSnapshot) :=
  (Version s, Definition_ s, ID (Run s), DefinitionID (Run s), DefinitionVersion (Run s),
   Revision (Run s), CancelRequestedAt (Run s), CreatedAt (Run s)).

Record frame (s s' : RunSnapshot) : Prop := {
  fr_identity : identity_fields s' = identity_fields s;
  fr_events : exists evs, Events s' = Events s ++ evs;
  fr_audit : audit_ok s -> audit_ok s';
}.

(** Nothing but the progress fields changed. *)
Record touch (s s' : RunSnapshot) : Prop := {
  to_identity : identity_fields s' = identity_fields s;
  to_events : Events s' = Events s;
  to_last : LastEventSequence (Run s') = LastEventSequence (Run s);
}.

Definition workflow_fields (s : RunSnapshot) :=
  (run_Status (Run s), run_StartedAt (Run s), run_FinishedAt (Run s)).

(** Only the record of task [i] changed, to [t']. *)
Record task_effect (i : nat) (t' : TaskRun) (s s' : RunSnapshot) : Prop := {
  te_frame : frame s s';
  te_tasks : Tasks (Run s') = <[i := t']> (Tasks (Run s));
  te_remaining : RemainingDependencies (Run s') = RemainingDependencies (Run s);
  te_workflow : workflow_fields s' = workflow_fields s;
}.

(** Every task record changed by [f], nothing else. *)
Record tasks_effect (f : nat -> TaskRun -> TaskRun) (s s' : RunSnapshot) : Prop := {
  tse_frame : frame s s';
  tse_tasks : Tasks (Run s') = imap f (Tasks (Run s));
  tse_remaining : RemainingDependencies (Run s') = RemainingDependencies (Run s);
  tse_workflow : workflow_fields s' = workflow_fields s;
}.

(** Only the status of the run changed. *)
Record workflow_effect (to : WorkflowStatus) (at_ : time) (s s' : RunSnapshot) : Prop := {
  we_frame : frame s s';
  we_tasks : Tasks (Run s') = Tasks (Run s);
  we_remaining : RemainingDependencies (Run s') = RemainingDependencies (Run s);
  we_status : run_Status (Run s') = to;
  we_finished : run_FinishedAt (Run s') =
    if isWorkflowTerminal to then Some at_ else run_FinishedAt (Run s);
  we_started : run_StartedAt (Run s') =
    match run_StartedAt (Run s) with
    | Some a => Some a
    | None => if bool_decide (to = WorkflowRunning) then Some at_ else None
    end;
}.

(** The last attempt of [t], closed with [result]. *)
Definition close_last (result : ExecutionResult) (to : AttemptStatus) (at_ : time) (t : TaskRun) : TaskRun :=
  set_task_Attempts
    (alter (fun a => attempt_after to at_ (set_att_Result result a)) (pred (length (Attempts t))) (Attempts t)) t.
Definition append_attempt (a : Attempt) (t : TaskRun) : TaskRun :=
  set_task_Attempts (Attempts t ++ [a]) t.

(** ** Frames *)
#[export] Instance frame_preorder : PreOrder frame.
Proof.
  split.
  - intros s. split; [done| |done]. exists []. by rewrite app_nil_r.
  - intros s1 s2 s3 [H1 [e1 H2] H3] [H4 [e2 H5] H6]. split; [congruence| |auto].
    exists (e1 ++ e2). by rewrite H5, H2, app_assoc.
Qed.

#[export] Instance touch_preorder : PreOrder touch.
Proof. split; [by split|]. intros s1 s2 s3 [] []. split; congruence. Qed.

Lemma touch_frame s s' : touch s s' -> frame s s'.
Proof.
  intros [H1 H2 H3]. split; [done|exists []; by rewrite app_nil_r|]. by apply audit_ok_ext.
Qed.

Lemma push_event_frame at_ entity key from to reason s s' :
  touch s s' -> frame s (push_event (next_event at_ entity key from to reason s) s').
Proof.
  intros [H1 H2 H3]. split.
  - rewrite <-H1. done.
  - eexists. by rewrite push_event_Events, H2.
  - intros Hok. by apply push_event_audit.
Qed.

Lemma touch_task i f s : touch s (upd_task i f s).
Proof. by split. Qed.
Lemma touch_attempt i k f s : touch s (upd_attempt i k f s).
Proof. by split. Qed.
Lemma touch_remaining f s : touch s (upd_Remaining f s).
Proof. by split. Qed.
Lemma touch_workflow to at_ s : touch s (upd_Run (workflow_after to at_) s).
Proof. split; unfold identity_fields, workflow_after; cbn; repeat case_match; done. Qed.

#[export] Hint Resolve touch_frame push_event_frame touch_task touch_attempt touch_remaining
  touch_workflow : core.
#[export] Hint Extern 0 (frame ?s ?s) => reflexivity : core.
#[export] Hint Extern 0 (touch ?s ?s) => reflexivity : core.

(** ** Effects on one task *)
Lemma task_effect_trans i t1 t2 s s1 s2 :
  task_effect i t1 s s1 -> task_effect i t2 s1 s2 -> task_effect i t2 s s2.
Proof.
  intros [F1 T1 R1 W1] [F2 T2 R2 W2]. split; [by etrans| |congruence..].
  by rewrite T2, T1, list_insert_insert_eq.
Qed.

Lemma task_effect_lookup i t t' s s' :
  Tasks (Run s) !! i = Some t -> task_effect i t' s s' -> Tasks (Run s') !! i = Some t'.
Proof. intros Ht [_ -> _ _]. apply list_lookup_insert_eq. by eapply lookup_lt_Some. Qed.

Lemma upd_task_effect i f s t :
  Tasks (Run s) !! i = Some t -> task_effect i (f t) s (upd_task i f s).
Proof. intros Ht. split; [auto| |done|done]. rewrite upd_task_Tasks. by apply alter_insert_eq. Qed.

Lemma transitionTask_effect i to at_ reason s t :
  Tasks (Run s) !! i = Some t -> taskTransitions (Status t) to = true ->
  exists s', transitionTask i to at_ reason s = (s', Ok tt) /\ task_effect i (task_after to at_ t) s s'.
Proof.
  intros Ht Hl. eexists. split; [by apply transitionTask_run|]. split; [auto| |done|done].
  rewrite push_event_Tasks, upd_task_Tasks. by apply alter_insert_eq.
Qed.

Lemma upd_attempt_effect i k f s t :
  Tasks (Run s) !! i = Some t ->
  task_effect i (set_task_Attempts (alter f k (Attempts t)) t) s (upd_attempt i k f s).
Proof. intros Ht. unfold upd_attempt. by apply (upd_task_effect _ (fun t => set_task_Attempts (alter f k (Attempts t)) t)). Qed.

Lemma closeAttempt_effect i result to at_ reason s t a :
  Tasks (Run s) !! i = Some t -> last (Attempts t) = Some a -> att_Status a = AttemptRunning ->
  attemptTransitions AttemptRunning to = true ->
  exists s', closeAttempt i t result to at_ reason s = (s', Ok tt) /\
    task_effect i (close_last result to at_ t) s s'.
Proof.
  intros Ht Ha Hr Hl. unfold closeAttempt. cbv zeta.
  rewrite last_lookup in Ha. set (k := pred (length (Attempts t))) in *.
  set (t1 := set_task_Attempts (alter (set_att_Result result) k (Attempts t)) t).
  pose proof (upd_attempt_effect i k (set_att_Result result) s t Ht) as E1.
  set (s1 := upd_attempt i k (set_att_Result result) s) in *.
  pose proof (task_effect_lookup _ _ _ _ _ Ht E1) as Ht1.
  assert (Ha1 : Attempts t1 !! k = Some (set_att_Result result a)).
  { unfold t1. cbn. by rewrite list_lookup_alter_eq, Ha. }
  eexists. split; [go_step; eapply transitionAttempt_run; [exact Ht1|exact Ha1|cbn; by rewrite Hr]|].
  eapply task_effect_trans; [exact E1|]. split; [auto| |done|done].
  rewrite push_event_Tasks. pose proof (upd_attempt_effect i k (attempt_after to at_) s1 t1 Ht1) as E2.
  etransitivity; [exact (te_tasks _ _ _ _ E2)|]. f_equal. unfold close_last, t1, set_task_Attempts. cbn. f_equal.
  by rewrite list_alter_alter_eq.
Qed.

Lemma appendAttempt_effect i a s t :
  Tasks (Run s) !! i = Some t ->
  exists s', appendAttempt i a s = (s', Ok tt) /\ task_effect i (append_attempt a t) s s'.
Proof.
  intros Ht. eexists. split; [reflexivity|].
  by apply (upd_task_effect i (fun t => set_task_Attempts (Attempts t ++ [a]) t)).
Qed.

Lemma task_effect_statuses i t t' s s' :
  Tasks (Run s) !! i = Some t -> task_effect i t' s s' ->
  statuses s' = <[i := Status t']> (statuses s).
Proof. intros Ht [_ Hts _ _]. unfold statuses. by rewrite Hts, list_fmap_insert. Qed.

Lemma transitionWorkflow_effect to at_ reason s :
  workflowTransitions (run_Status (Run s)) to = true ->
  exists s', transitionWorkflow to at_ reason s = (s', Ok tt) /\ workflow_effect to at_ s s'.
Proof.
  intros Hl. eexists. split; [by apply transitionWorkflow_run|]. split.
  - auto.
  - cbn. by rewrite workflow_after_Tasks.
  - cbn. by rewrite workflow_after_Remaining.
  - cbn. by rewrite workflow_after_Status.
  - unfold workflow_after. cbn. repeat case_match; done.
  - unfold workflow_after. cbn. destruct (run_StartedAt (Run s)) as [a|] eqn:E; cbn;
      destruct to; cbn; done.
Qed.

(** ** Settling *)
Lemma settle_open at_ s t :
  t ∈ Tasks (Run s) -> isTaskTerminal (Status t) = false ->
  settleWorkflowIfComplete at_ s = (s, Ok tt).
Proof.
  intros Hin Ht. unfold settleWorkflowIfComplete. go_step. cbv zeta.
  destruct (forallb _ _) eqn:E; [|done]. exfalso.
  rewrite forallb_forall in E. specialize (E t). rewrite <-list_elem_of_In in E.
  specialize (E Hin). congruence.
Qed.

Lemma all_terminal_forallb tasks :
  (forall t, t ∈ tasks -> isTaskTerminal (Status t) = true) ->
  forallb (fun t => isTaskTerminal (Status t)) tasks = true.
Proof. intros H. apply forallb_forall. intros t Ht. apply H. by apply list_elem_of_In. Qed.

Lemma hasFailedTask_true tasks : hasFailedTask tasks = true <-> TaskFailed ∈ Status <$> tasks.
Proof.
  unfold hasFailedTask. rewrite existsb_exists, list_elem_of_fmap. split.
  - intros (t & Hin%list_elem_of_In & Hb%bool_decide_eq_true). by exists t.
  - intros (t & E & Hin%list_elem_of_In). exists t. split; [done|]. by apply bool_decide_eq_true.
Qed.

Lemma allTasksSucceeded_true tasks :
  (forall st, st ∈ Status <$> tasks -> st = TaskSucceeded) -> allTasksSucceeded tasks = true.
Proof.
  intros H. apply forallb_forall. intros t Ht%list_elem_of_In. apply bool_decide_eq_true, H.
  by apply list_elem_of_fmap_2.
Qed.

(** ** Skipping descendants *)
Definition skip_if (reached : nat -> bool) (at_ : time) (j : nat) (t : TaskRun) : TaskRun :=
  if reached j && negb (isTaskTerminal (Status t)) then task_after TaskSkipped at_ t else t.

Definition marked (visited : list bool) (j : nat) : bool := default false (visited !! j).

Fixpoint unvisited_edges (visited : list bool) (successors : list (list nat)) : nat :=
  match visited, successors with
  | b :: visited', l :: successors' =>
    (if b then 0 else length l) + unvisited_edges visited' successors'
  | _, _ => 0
  end.

Lemma unvisited_edges_visit visited succs i l :
  visited !! i = Some false -> succs !! i = Some l ->
  unvisited_edges visited succs = length l + unvisited_edges (<[i := true]> visited) succs.
Proof.
  revert succs i. induction visited as [|b visited IH]; intros [|l' succs] [|i] Hv Hs; simplify_eq/=.
  - done.
  - rewrite (IH _ _ Hv Hs). destruct b; lia.
Qed.

Lemma unvisited_edges_fresh succs :
  unvisited_edges (replicate (length succs) false) succs = edge_count succs.
Proof.
  unfold edge_count. induction succs as [|l succs IH]; [done|]. cbn. by rewrite IH.
Qed.

Lemma marked_insert visited i j :
  i < length visited -> marked (<[i := true]> visited) j = bool_decide (j = i) || marked visited j.
Proof.
  intros Hi. unfold marked. case_bool_decide as E; cbn.
  - subst. by rewrite list_lookup_insert_eq.
  - by rewrite list_lookup_insert_ne.
Qed.

Lemma tasks_effect_step f g i t' s0 s s1 :
  tasks_effect f s0 s -> task_effect i t' s s1 ->
  (forall j t, Tasks (Run s0) !! j = Some t -> g j t = if bool_decide (j = i) then t' else f j t) ->
  tasks_effect g s0 s1.
Proof.
  intros [F1 T1 R1 W1] [F2 T2 R2 W2] Hg. split; [by etrans| |congruence..].
  rewrite T2, T1. apply list_eq. intros j. rewrite list_lookup_imap.
  destruct (decide (i = j)) as [->|Hne].
  - destruct (Tasks (Run s0) !! j) as [t|] eqn:Ht; cbn.
    + rewrite list_lookup_insert_eq by (rewrite length_imap; by eapply lookup_lt_Some).
      by rewrite (Hg j t Ht), bool_decide_eq_true_2.
    + rewrite list_insert_ge; [by rewrite list_lookup_imap, Ht|].
      rewrite length_imap. by apply lookup_ge_None.
  - rewrite list_lookup_insert_ne, list_lookup_imap by done.
    destruct (Tasks (Run s0) !! j) as [t|] eqn:Ht; cbn; [|done].
    by rewrite (Hg j t Ht), bool_decide_eq_false_2 by congruence.
Qed.

Lemma tasks_effect_ext f g s s' :
  (forall j t, Tasks (Run s) !! j = Some t -> f j t = g j t) -> tasks_effect f s s' -> tasks_effect g s s'.
Proof.
  intros H [F T R W]. split; [done| |done|done]. rewrite T. apply list_eq. intros j.
  rewrite !list_lookup_imap. destruct (Tasks (Run s) !! j) eqn:E; [|done]. cbn. by rewrite (H _ _ E).
Qed.

Lemma tasks_effect_id f s :
  (forall j t, Tasks (Run s) !! j = Some t -> f j t = t) -> tasks_effect f s s.
Proof.
  intros H. split; [auto| |done|done]. apply list_eq. intros j. rewrite list_lookup_imap.
  destruct (Tasks (Run s) !! j) eqn:E; [|done]. cbn. by rewrite (H _ _ E).
Qed.

Section skip.
Context (succs : list (list nat)) (failed : list nat) (at_ : time) (s0 : RunSnapshot).
Context (Hadj : adjacency_ok succs) (Hlen : length succs = length (Tasks (Run s0))).

Definition reachable_from (j : nat) : Prop := exists f, f ∈ failed /\ tc (edge succs) f j.

Context (Hlegal : forall j t, reachable_from j -> Tasks (Run s0) !! j = Some t ->
  isTaskTerminal (Status t) = false -> taskTransitions (Status t) TaskSkipped = true).

(** The invariant of the traversal. *)
Record skip_inv (visited : list bool) (queue : list nat) (s : RunSnapshot) : Prop := {
  sk_length : length visited = length succs;
  sk_effect : tasks_effect (skip_if (marked visited) at_) s0 s;
  sk_queue : forall j, j ∈ queue -> reachable_from j;
  sk_visited : forall j, marked visited j = true -> reachable_from j;
  sk_sources : forall f j, f ∈ failed -> edge succs f j -> marked visited j = true \/ j ∈ queue;
  sk_closed : forall i j, marked visited i = true -> edge succs i j ->
    marked visited j = true \/ j ∈ queue;
}.

Lemma reachable_lt j : reachable_from j -> j < length succs.
Proof.
  intros (f & _ & Htc). induction Htc as [i j (l & Hl & Hj)|]; [by eapply Hadj|done].
Qed.

Lemma skip_inv_seen visited i queue s :
  skip_inv visited (i :: queue) s -> visited !! i = Some true -> skip_inv visited queue s.
Proof.
  intros [H1 H2 H3 H4 H5 H6] Hi.
  assert (Hm : marked visited i = true) by (unfold marked; by rewrite Hi).
  split; [done|done| |done| |].
  - intros j Hj. apply H3. by right.
  - intros f j Hf Hfj. destruct (H5 f j Hf Hfj) as [?|[->|?]%elem_of_cons]; auto.
  - intros k j Hk Hkj. destruct (H6 k j Hk Hkj) as [?|[->|?]%elem_of_cons]; auto.
Qed.

Lemma skip_inv_visit visited i queue s l s1 :
  skip_inv visited (i :: queue) s -> visited !! i = Some false -> succs !! i = Some l ->
  tasks_effect (skip_if (marked (<[i := true]> visited)) at_) s0 s1 ->
  skip_inv (<[i := true]> visited) (queue ++ l) s1.
Proof.
  intros [H1 H2 H3 H4 H5 H6] Hi Hl He. pose proof (lookup_lt_Some _ _ _ Hi) as Hlt.
  assert (Hri : reachable_from i) by (apply H3; by left).
  split; [by rewrite length_insert|done| | | |].
  - intros j [Hj|Hj]%elem_of_app; [apply H3; by right|].
    destruct Hri as (f & Hf & Htc). exists f. split; [done|]. eapply tc_r; [done|]. by exists l.
  - intros j. rewrite marked_insert by done. intros [->%bool_decide_eq_true|Hj]%orb_true_iff; auto.
  - intros f j Hf Hfj. rewrite marked_insert, elem_of_app by done.
    destruct (H5 f j Hf Hfj) as [->|[->|?]%elem_of_cons]; [|left; by rewrite bool_decide_eq_true_2|auto].
    left. by rewrite orb_true_r.
  - intros k j. rewrite !marked_insert, elem_of_app by done.
    intros [->%bool_decide_eq_true|Hk]%orb_true_iff Hkj.
    + destruct Hkj as (l' & Hl' & Hj). simplify_eq. auto.
    + destruct (H6 k j Hk Hkj) as [->|[->|?]%elem_of_cons]; [|left; by rewrite bool_decide_eq_true_2|auto].
      left. by rewrite orb_true_r.
Qed.

(** What visiting one task does to its record. *)
Lemma skip_visit visited i s t :
  tasks_effect (skip_if (marked visited) at_) s0 s -> visited !! i = Some false ->
  reachable_from i -> Tasks (Run s) !! i = Some t ->
  exists s1, (if isTaskTerminal (Status t) then mret tt
              else transitionTask i TaskSkipped at_ "upstream task failed") s = (s1, Ok tt) /\
    tasks_effect (skip_if (marked (<[i := true]> visited)) at_) s0 s1.
Proof.
  intros He Hi Hr Ht. pose proof (lookup_lt_Some _ _ _ Hi) as Hlt.
  assert (Hm : marked visited i = false) by (unfold marked; by rewrite Hi).
  assert (Ht0 : Tasks (Run s0) !! i = Some t).
  { rewrite (tse_tasks _ _ _ He), list_lookup_imap in Ht.
    destruct (Tasks (Run s0) !! i) as [t0|]; [|done]. cbn in Ht. unfold skip_if in Ht.
    by rewrite Hm in Ht. }
  destruct (isTaskTerminal (Status t)) eqn:Hterm.
  - exists s. split; [done|]. eapply tasks_effect_ext; [|exact He]. intros j u Hu. unfold skip_if.
    rewrite marked_insert by done. case_bool_decide; [|done]. simplify_eq. by rewrite Hterm, Hm.
  - destruct (transitionTask_effect i TaskSkipped at_ "upstream task failed" s t Ht) as (s1 & Hrun & E1).
    { by eapply Hlegal. }
    exists s1. split; [done|]. eapply tasks_effect_step; [done|done|]. intros j u Hu. unfold skip_if.
    rewrite marked_insert by done. case_bool_decide; [|done]. simplify_eq. by rewrite Hterm.
Qed.

Lemma skip_loop_run fuel visited queue s :
  skip_inv visited queue s -> length queue + unvisited_edges visited succs <= fuel ->
  exists s' visited', skip_loop fuel succs visited queue at_ s = (s', Ok tt) /\ skip_inv visited' [] s'.
Proof.
  revert visited queue s. induction fuel as [|fuel IH]; intros visited queue s Hinv Hfuel.
  { destruct queue; [by exists s, visited|simpl in Hfuel; lia]. }
  destruct queue as [|i queue]; [by exists s, visited|]. cbn [skip_loop].
  assert (Hri : reachable_from i) by (apply (sk_queue _ _ _ Hinv); by left).
  pose proof (reachable_lt i Hri) as Hlt. pose proof (sk_length _ _ _ Hinv) as Hvl.
  destruct (lookup_lt_is_Some_2 visited i) as [b Hb]; [lia|]. rewrite Hb. go_step.
  destruct b.
  - apply (IH _ _ _ (skip_inv_seen _ _ _ _ Hinv Hb)). simpl in Hfuel. lia.
  - go_step. pose proof (sk_effect _ _ _ Hinv) as He.
    destruct (lookup_lt_is_Some_2 (Tasks (Run s)) i) as [t Ht].
    { rewrite (tse_tasks _ _ _ He), length_imap. lia. }
    rewrite Ht. go_step. destruct (skip_visit _ _ _ _ He Hb Hri Ht) as (s1 & Hrun & He1).
    go_step by exact Hrun. destruct (lookup_lt_is_Some_2 succs i Hlt) as [l Hl]. rewrite Hl. go_step.
    apply (IH _ _ _ (skip_inv_visit _ _ _ _ _ _ Hinv Hb Hl He1)).
    rewrite (unvisited_edges_visit _ _ _ _ Hb Hl) in Hfuel. rewrite length_app. simpl in Hfuel. lia.
Qed.

Lemma successors_of_run l s :
  (forall f, f ∈ l -> f < length succs) ->
  exists q, successors_of succs l s = (s, Ok q) /\
    (forall j, j ∈ q <-> exists f, f ∈ l /\ edge succs f j).
Proof.
  induction l as [|f l IH]; intros Hl; cbn [successors_of].
  { exists []. split; [done|]. intros j. split; [by intros ?%not_elem_of_nil|].
    intros (f & ?%not_elem_of_nil & _). done. }
  destruct (lookup_lt_is_Some_2 succs f) as [lf Hlf]; [apply Hl; by left|].
  destruct IH as (q & Hq & Hin); [intros; apply Hl; by right|].
  exists (lf ++ q). split.
  - rewrite Hlf. go_step. go_step by exact Hq. done.
  - intros j. rewrite elem_of_app, Hin. split.
    + intros [Hj|(f' & ? & ?)]; [exists f; split; [by left|by exists lf]|].
      exists f'. split; [by right|done].
    + intros (f' & [->|?]%elem_of_cons & Hj); [|right; by exists f'].
      destruct Hj as (l' & ? & ?). simplify_eq. by left.
Qed.

Lemma skip_run c : successors c = succs ->
  (forall f, f ∈ failed -> f < length succs) ->
  exists s' reached, skipDescendantsFrom c failed at_ s0 = (s', Ok tt) /\
    (forall j, reached j = true <-> reachable_from j) /\ tasks_effect (skip_if reached at_) s0 s'.
Proof.
  intros Hsc Hf. unfold skipDescendantsFrom. rewrite Hsc.
  destruct (successors_of_run failed s0 Hf) as (q & Hq & Hin).
  assert (Hfresh : forall j, marked (replicate (length (Tasks (Run s0))) false) j = false).
  { intros j. unfold marked. destruct (_ !! j) as [b|] eqn:E; [|done].
    by apply lookup_replicate in E as [-> _]. }
  destruct (skip_loop_run (length q + edge_count succs) (replicate (length (Tasks (Run s0))) false) q s0)
    as (s' & visited & Hrun & Hinv).
  - split.
    + by rewrite length_replicate.
    + apply tasks_effect_id. intros j t _. unfold skip_if. by rewrite Hfresh.
    + intros j (f & Hff & Hfj)%Hin. exists f. split; [done|by apply tc_once].
    + intros j. by rewrite Hfresh.
    + intros f j Hff Hfj. right. apply Hin. by exists f.
    + intros i j. by rewrite Hfresh.
  - by rewrite <-Hlen, unvisited_edges_fresh.
  - exists s', (marked visited). split; [go_step by exact Hq; by go_step|].
    split; [|by apply Hinv]. intros j. split; [by apply Hinv|]. intros (f & Hff & Htc).
    assert (Hnil : forall k, marked visited k = true \/ k ∈ [] -> marked visited k = true)
      by (intros k [?|?%not_elem_of_nil]; done).
    assert (Hsrc : forall i k, tc (edge succs) i k -> (i ∈ failed \/ marked visited i = true) ->
      marked visited k = true).
    { induction 1 as [i k Hik|i m k Him _ IH]; intros Hi.
      - destruct Hi as [Hi|Hi]; apply Hnil; [by eapply (sk_sources _ _ _ Hinv)|by eapply (sk_closed _ _ _ Hinv)].
      - apply IH. right.
        destruct Hi as [Hi|Hi]; apply Hnil; [by eapply (sk_sources _ _ _ Hinv)|by eapply (sk_closed _ _ _ Hinv)]. }
    eapply Hsrc; eauto.
Qed.
End skip.

(** ** Releasing the successors of a succeeded task *)
Definition release_task (rem : list Z) (next : list nat) (at_ : time) (j : nat) (t : TaskRun) : TaskRun :=
  if bool_decide (j ∈ next) && bool_decide (rem !! j = Some 1%Z) then task_after TaskReady at_ t else t.
Definition release_count (next : list nat) (j : nat) (r : Z) : Z :=
  if bool_decide (j ∈ next) then (r - 1)%Z else r.

Record release_effect (next : list nat) (at_ : time) (s s' : RunSnapshot) : Prop := {
  re_frame : frame s s';
  re_tasks : Tasks (Run s') = imap (release_task (RemainingDependencies (Run s)) next at_) (Tasks (Run s));
  re_remaining : RemainingDependencies (Run s') = imap (release_count next) (RemainingDependencies (Run s));
  re_workflow : workflow_fields s' = workflow_fields s;
}.

Lemma release_nil at_ s : release_effect [] at_ s s.
Proof.
  split; [auto| | |done]; apply list_eq; intros j; rewrite list_lookup_imap.
  - by destruct (Tasks (Run s) !! j).
  - by destruct (RemainingDependencies (Run s) !! j).
Qed.

Lemma release_cons i next at_ s s1 s2 :
  i ∉ next -> release_effect [i] at_ s s1 -> release_effect next at_ s1 s2 ->
  release_effect (i :: next) at_ s s2.
Proof.
  intros Hi [F1 T1 R1 W1] [F2 T2 R2 W2]. split; [by etrans| | |congruence].
  - rewrite T2, T1, R1. apply list_eq. intros j. rewrite !list_lookup_imap.
    destruct (Tasks (Run s) !! j) as [t|]; [|done]. cbn. f_equal. unfold release_task, release_count.
    rewrite list_lookup_imap.
    rewrite !(bool_decide_ext (j ∈ [i]) (j = i)) by apply list_elem_of_singleton.
    rewrite (bool_decide_ext (j ∈ i :: next) (j = i \/ j ∈ next)) by apply elem_of_cons.
    destruct (decide (j = i)) as [->|Hne].
    + rewrite (bool_decide_eq_false_2 (i ∈ next)) by done.
      rewrite (bool_decide_eq_true_2 (i = i)), (bool_decide_eq_true_2 (i = i \/ _)) by auto. done.
    + rewrite (bool_decide_eq_false_2 (j = i)) by done. cbn.
      rewrite (bool_decide_ext (j = i \/ j ∈ next) (j ∈ next)) by tauto.
      destruct (RemainingDependencies (Run s) !! j); done.
  - rewrite R2, R1. apply list_eq. intros j. rewrite !list_lookup_imap.
    destruct (RemainingDependencies (Run s) !! j) as [r|]; [|done]. cbn. f_equal. unfold release_count.
    rewrite (bool_decide_ext (j ∈ [i]) (j = i)) by apply list_elem_of_singleton.
    rewrite (bool_decide_ext (j ∈ i :: next) (j = i \/ j ∈ next)) by apply elem_of_cons.
    repeat case_bool_decide; naive_solver.
Qed.

Lemma releaseSuccessor_run i at_ s r :
  RemainingDependencies (Run s) !! i = Some r -> (0 < r)%Z ->
  (r = 1%Z -> exists t, Tasks (Run s) !! i = Some t /\ taskTransitions (Status t) TaskReady = true) ->
  exists s', releaseSuccessor at_ i s = (s', Ok tt) /\ release_effect [i] at_ s s'.
Proof.
  intros Hr Hpos Hready. unfold releaseSuccessor. go_step. rewrite Hr. do 2 go_step.
  rewrite (proj2 (Z.ltb_ge (r - 1) 0)) by lia. go_step.
  set (s1 := upd_Remaining _ s).
  assert (Hcount : RemainingDependencies (Run s1) =
    imap (release_count [i]) (RemainingDependencies (Run s))).
  { apply list_eq. intros j. rewrite list_lookup_imap. cbn.
    unfold release_count. destruct (decide (i = j)) as [->|Hne].
    - rewrite list_lookup_insert_eq, Hr by (by eapply lookup_lt_Some). cbn.
      by rewrite bool_decide_eq_true_2 by (by left).
    - rewrite list_lookup_insert_ne by done.
      destruct (RemainingDependencies (Run s) !! j); [|done]. cbn.
      rewrite bool_decide_eq_false_2; [done|]. intros E%list_elem_of_singleton. congruence. }
  destruct (Z.eqb_spec (r - 1) 0) as [Hz|Hz].
  - destruct Hready as (t & Ht & Hl); [lia|].
    destruct (transitionTask_effect i TaskReady at_ "dependencies succeeded" s1 t Ht Hl)
      as (s2 & Hrun & [F T R W]).
    exists s2. split; [done|]. split; [|rewrite T|by rewrite R|done].
    + etrans; [|exact F]. apply touch_frame, touch_remaining.
    + apply list_eq. intros j. rewrite list_lookup_imap. unfold release_task.
      rewrite (bool_decide_ext (j ∈ [i]) (j = i)) by apply list_elem_of_singleton.
      destruct (decide (i = j)) as [->|Hne].
      * rewrite list_lookup_insert_eq by (by eapply lookup_lt_Some). cbn in Ht. rewrite Ht. cbn.
        rewrite !bool_decide_eq_true_2; [done| |done]. rewrite Hr. f_equal. lia.
      * rewrite list_lookup_insert_ne by done. rewrite bool_decide_eq_false_2 by congruence.
        change (Tasks (Run s1)) with (Tasks (Run s)). by destruct (Tasks (Run s) !! j).
  - exists s1. split; [done|]. split; [apply touch_frame, touch_remaining| |done|done].
    apply list_eq. intros j. rewrite list_lookup_imap. unfold release_task.
    change (Tasks (Run s1)) with (Tasks (Run s)). destruct (Tasks (Run s) !! j); [|done]. cbn.
    rewrite (bool_decide_ext (j ∈ [i]) (j = i)) by apply list_elem_of_singleton.
    case_bool_decide; [|done]. subst. rewrite bool_decide_eq_false_2; [done|]. rewrite Hr.
    intros [= ->]. lia.
Qed.

Lemma release_run next at_ s :
  NoDup next ->
  (forall j, j ∈ next -> exists r, RemainingDependencies (Run s) !! j = Some r /\ (0 < r)%Z /\
     (r = 1%Z -> exists t, Tasks (Run s) !! j = Some t /\ taskTransitions (Status t) TaskReady = true)) ->
  exists s', for_each next (releaseSuccessor at_) s = (s', Ok tt) /\ release_effect next at_ s s'.
Proof.
  revert s. induction next as [|i next IH]; intros s Hnd Hpre; cbn [for_each].
  { exists s. split; [done|apply release_nil]. }
  apply NoDup_cons in Hnd as [Hi Hnd].
  destruct (Hpre i) as (r & Hr & Hpos & Hready); [by left|].
  destruct (releaseSuccessor_run i at_ s r Hr Hpos Hready) as (s1 & Hrun & He). go_step by exact Hrun.
  destruct (IH s1 Hnd) as (s2 & Hrun2 & He2).
  - intros j Hj. destruct (Hpre j) as (rj & Hrj & Hposj & Hreadyj); [by right|].
    assert (Hne : j ≠ i) by (by intros ->). exists rj.
    rewrite (re_remaining _ _ _ _ He), list_lookup_imap, Hrj. cbn. unfold release_count.
    rewrite bool_decide_eq_false_2 by (by intros ?%list_elem_of_singleton).
    split_and!; [done|done|]. intros E. destruct (Hreadyj E) as (t & Ht & Hl). exists t.
    rewrite (re_tasks _ _ _ _ He), list_lookup_imap, Ht. cbn. unfold release_task.
    by rewrite bool_decide_eq_false_2 by (by intros ?%list_elem_of_singleton).
  - exists s2. split; [done|]. by eapply release_cons.
Qed.

(** ** Canceling every unfinished task *)
Definition canceled_result : ExecutionResult := mkExecutionResult "" "canceled" "execution canceled".
Definition cancel_after (at_ : time) (t : TaskRun) : TaskRun :=
  if isTaskTerminal (Status t) then t
  else task_after TaskCanceled at_
         (match Status t, last (Attempts t) with
          | TaskRunning, Some a =>
            if bool_decide (att_Status a = AttemptRunning)
            then close_last canceled_result AttemptCanceled at_ t else t
          | _, _ => t
          end).

Definition known_status (st : TaskStatus) : bool :=
  match st with TaskOther _ => false | _ => true end.

Lemma cancelTask_run i at_ s t :
  Tasks (Run s) !! i = Some t -> known_status (Status t) = true ->
  exists s', cancelTask at_ i s = (s', Ok tt) /\ task_effect i (cancel_after at_ t) s s'.
Proof.
  intros Ht Hk. unfold cancelTask, cancel_after. go_step. rewrite Ht. go_step.
  destruct (isTaskTerminal (Status t)) eqn:Hterm.
  { exists s. split; [done|]. split; [auto| |done|done]. by rewrite list_insert_id. }
  assert (Hlegal : taskTransitions (Status t) TaskCanceled = true) by (by destruct (Status t)).
  assert (Hplain : exists s', (_ ← mret tt; transitionTask i TaskCanceled at_ "workflow canceled") s
    = (s', Ok tt) /\ task_effect i (task_after TaskCanceled at_ t) s s').
  { destruct (transitionTask_effect i TaskCanceled at_ "workflow canceled" s t Ht Hlegal) as (s' & H1 & H2).
    exists s'. split; [|done]. by go_step. }
  destruct (Status t) eqn:Hst; try exact Hplain.
  destruct (last (Attempts t)) as [a|] eqn:Ha; [|exact Hplain].
  case_bool_decide as Hrun; [|exact Hplain].
  destruct (closeAttempt_effect i canceled_result AttemptCanceled at_ "workflow canceled" s t a)
    as (s1 & H1 & E1); [done..|].
  go_step by exact H1.
  destruct (transitionTask_effect i TaskCanceled at_ "workflow canceled" s1
    (close_last canceled_result AttemptCanceled at_ t)) as (s2 & H2 & E2).
  - by eapply task_effect_lookup.
  - cbn. by rewrite Hst.
  - exists s2. split; [done|]. by eapply task_effect_trans.
Qed.

Definition cancel_below (m : nat) (at_ : time) (j : nat) (t : TaskRun) : TaskRun :=
  if bool_decide (j < m) then cancel_after at_ t else t.

Lemma cancel_loop_run m at_ s :
  m <= length (Tasks (Run s)) ->
  (forall t, t ∈ Tasks (Run s) -> known_status (Status t) = true) ->
  exists s', for_each (seq 0 m) (cancelTask at_) s = (s', Ok tt) /\
    tasks_effect (cancel_below m at_) s s'.
Proof.
  intros Hm Hk. induction m as [|m IH].
  { exists s. split; [done|]. by apply tasks_effect_id. }
  destruct IH as (s1 & Hrun & He); [lia|]. rewrite seq_S, for_each_app. go_step by exact Hrun.
  destruct (lookup_lt_is_Some_2 (Tasks (Run s)) m) as [t Ht]; [lia|].
  destruct (cancelTask_run m at_ s1 t) as (s2 & Hrun2 & He2).
  - rewrite (tse_tasks _ _ _ He), list_lookup_imap, Ht. cbn. unfold cancel_below.
    by rewrite bool_decide_eq_false_2 by lia.
  - apply Hk. by eapply list_elem_of_lookup_2.
  - exists s2. split.
    + cbn. by go_step by exact Hrun2.
    + eapply tasks_effect_step; [exact He|exact He2|]. intros j u Hu. unfold cancel_below.
      repeat case_bool_decide; try lia; by simplify_eq.
Qed.

Lemma cloneRunSnapshot_id s : cloneRunSnapshot s = s.
Proof.
  destruct s as [v d [] e]. unfold cloneRunSnapshot, set_run_Remaining, set_run_Tasks. cbn.
  do 2 f_equal. rewrite <-(list_fmap_id Tasks) at 2. apply list_fmap_ext.
  intros ? [] _. done.
Qed.

(** Canceling a run that is not finished. *)
Record cancel_effect (at_ : time) (s s' : RunSnapshot) : Prop := {
  ce_frame : frame s s';
  ce_tasks : Tasks (Run s') = cancel_after at_ <$> Tasks (Run s);
  ce_remaining : RemainingDependencies (Run s') = RemainingDependencies (Run s);
  ce_status : run_Status (Run s') = WorkflowCanceled;
  ce_finished : run_FinishedAt (Run s') = Some at_;
  ce_started : run_StartedAt (Run s') = run_StartedAt (Run s);
}.

Lemma CancelRunSnapshot_run at_ s :
  (forall t, t ∈ Tasks (Run s) -> known_status (Status t) = true) ->
  workflowTransitions (run_Status (Run s)) WorkflowCanceled = true ->
  exists s', CancelRunSnapshot s at_ = Ok s' /\ cancel_effect at_ s s'.
Proof.
  intros Hk Hl. unfold CancelRunSnapshot. rewrite cloneRunSnapshot_id. cbv zeta.
  destruct (cancel_loop_run (length (Tasks (Run s))) at_ s (le_n _) Hk) as (s1 & Hrun & [F T R W]).
  injection W as W1 W2 W3.
  destruct (transitionWorkflow_effect WorkflowCanceled at_ "cancellation requested" s1)
    as (s2 & Hrun2 & [F2 T2 R2 S2 Fin St]); [by rewrite W1|].
  exists s2. split; [go_step by exact Hrun; by rewrite Hrun2|].
  split; [by etrans| |congruence|done|done|].
  - rewrite T2, T. apply list_eq. intros j. rewrite list_lookup_imap, list_lookup_fmap.
    destruct (Tasks (Run s) !! j) as [t|] eqn:Ht; [|done]. cbn. unfold cancel_below.
    apply lookup_lt_Some in Ht. by rewrite bool_decide_eq_true_2.
  - rewrite St, W2. by destruct (run_StartedAt (Run s)).
Qed.
