(* ===== verification/RunInvariant.v ===== *)
(** * The run invariant

    [run_wf c s]: the snapshot [s] is a state a run of the compiled workflow
    [c] can be in.  It covers each task record with its attempt history
    ([task_ok]), the scheduling state (Scheduling.v), the run row and the audit
    log.  [newRunSnapshot] establishes it, every operation of Distributed.v
    preserves it, and in such a state the operations do not fail: the internal
    error branches of the source are dead. *)
From S2P Require Import Prelude GoStrings Json Model State Graph Compiler Scheduling Distributed Effects.
From stdpp Require Import relations.

(** ** Attempt histories *)

(** An attempt that ended without settling its task for good. *)
Definition retryable (st : AttemptStatus) : bool :=
  match st with AttemptFailed | AttemptTimedOut | AttemptInterrupted => true | _ => false end.

(** How the last attempt goes with the status of its task. *)
Definition last_ok (max : Z) (st : TaskStatus) (atts : list Attempt) : Prop :=
  let len := Z.of_nat (length atts) in
  match st with
  | TaskWaitingDependencies | TaskSkipped => atts = []
  | TaskReady | TaskQueued => (len < max)%Z /\ forall a, last atts = Some a -> retryable (att_Status a) = true
  | TaskWaitingRetry =>
    (len < max)%Z /\ exists a, last atts = Some a /\ retryable (att_Status a) = true
  | TaskRunning => exists a, last atts = Some a /\ att_Status a = AttemptRunning
  | TaskSucceeded => exists a, last atts = Some a /\ att_Status a = AttemptSucceeded
  | TaskFailed => exists a, last atts = Some a /\ retryable (att_Status a) = true /\
      (att_Status a = AttemptFailed \/ (max <= len)%Z)
  | TaskCanceled => forall a, last atts = Some a ->
      retryable (att_Status a) = true \/ att_Status a = AttemptCanceled
  | TaskOther _ => False
  end.

(** Attempts are numbered from 1, all but the last ended retryably, and an
    attempt has a finish time exactly when it is not running. *)
Record attempts_wf (max : Z) (atts : list Attempt) : Prop := {
  aw_numbers : forall k a, atts !! k = Some a -> Number a = (Z.of_nat k + 1)%Z;
  aw_past : forall k a, atts !! k = Some a -> S k < length atts -> retryable (att_Status a) = true;
  aw_times : forall k a, atts !! k = Some a -> is_Some (att_FinishedAt a) <-> att_Status a ≠ AttemptRunning;
  aw_limit : (Z.of_nat (length atts) <= max)%Z;
}.

Record task_ok (d : TaskDefinition) (t : TaskRun) : Prop := {
  tk_key : Key t = def_Key d;
  tk_attempts : attempts_wf (MaxAttempts (Retry d)) (Attempts t);
  tk_last : last_ok (MaxAttempts (Retry d)) (Status t) (Attempts t);
  tk_ready_at : is_Some (ReadyAt t) <-> Status t = TaskWaitingRetry;
  tk_finished : is_Some (FinishedAt t) <-> isTaskTerminal (Status t) = true;
}.

(** ** The invariant *)
Definition tasks_ok (c : CompiledWorkflow) (s : RunSnapshot) : Prop :=
  forall i t d, Tasks (Run s) !! i = Some t -> def_Tasks (definition c) !! i = Some d -> task_ok d t.

Record run_core (c : CompiledWorkflow) (s : RunSnapshot) : Prop := {
  rc_tasks : tasks_ok c s;
  rc_sched : sched_core c (run_Status (Run s)) (statuses s) (RemainingDependencies (Run s));
  rc_audit : audit_ok s;
  rc_definition : DefinitionID (Run s) = wf_ID (definition c);
  rc_finished : is_Some (run_FinishedAt (Run s)) <-> isWorkflowTerminal (run_Status (Run s)) = true;
  rc_started : run_Status (Run s) ∈ [WorkflowRunning; WorkflowSucceeded; WorkflowFailed] ->
    is_Some (run_StartedAt (Run s));
}.

Record run_wf (c : CompiledWorkflow) (s : RunSnapshot) : Prop := {
  rw_core : run_core c s;
  rw_agrees : workflow_agrees (run_Status (Run s)) (statuses s);
}.

(** ** Attempt lists *)
Lemma attempts_append max atts a :
  attempts_wf max atts -> (Z.of_nat (length atts) < max)%Z ->
  (forall b, last atts = Some b -> retryable (att_Status b) = true) ->
  Number a = (Z.of_nat (length atts) + 1)%Z -> att_Status a = AttemptRunning -> att_FinishedAt a = None ->
  attempts_wf max (atts ++ [a]).
Proof.
  intros [H1 H2 H3 H4] Hlt Hlast Hn Hs Hf. split.
  - intros k b [Hk|[Hge Hk]]%lookup_app_Some; [by apply H1|].
    apply list_lookup_singleton_Some in Hk as [Hz <-]. rewrite Hn. lia.
  - intros k b [Hk|[Hge Hk]]%lookup_app_Some; rewrite length_app; cbn; intros Hlt'.
    + destruct (decide (S k < length atts)); [by eapply H2|]. apply Hlast. rewrite last_lookup.
      pose proof (lookup_lt_Some _ _ _ Hk). by replace (pred (length atts)) with k by lia.
    + lia.
  - intros k b [Hk|[Hge Hk]]%lookup_app_Some; [by eapply H3|].
    apply list_lookup_singleton_Some in Hk as [_ <-]. rewrite Hf, Hs. split; [by intros []|done].
  - rewrite length_app. cbn. lia.
Qed.

(** Closing the last attempt. *)
Definition close_attempts (result : ExecutionResult) (to : AttemptStatus) (at_ : time)
    (atts : list Attempt) : list Attempt :=
  alter (fun a => attempt_after to at_ (set_att_Result result a)) (pred (length atts)) atts.

Lemma close_last_attempts result to at_ t :
  Attempts (close_last result to at_ t) = close_attempts result to at_ (Attempts t).
Proof. done. Qed.

Lemma close_attempts_last result to at_ atts a :
  last atts = Some a ->
  last (close_attempts result to at_ atts) = Some (attempt_after to at_ (set_att_Result result a)).
Proof.
  intros Ha. rewrite last_lookup in Ha. rewrite last_lookup. unfold close_attempts.
  by rewrite length_alter, list_lookup_alter_eq, Ha.
Qed.

Lemma close_attempts_wf max result to at_ atts a :
  attempts_wf max atts -> last atts = Some a -> to ≠ AttemptRunning ->
  attempts_wf max (close_attempts result to at_ atts).
Proof.
  intros [H1 H2 H3 H4] Ha Hto. rewrite last_lookup in Ha. unfold close_attempts.
  assert (Hlook : forall k b, alter (fun a => attempt_after to at_ (set_att_Result result a))
      (pred (length atts)) atts !! k = Some b ->
    (k = pred (length atts) /\ b = attempt_after to at_ (set_att_Result result a)) \/
    (k ≠ pred (length atts) /\ atts !! k = Some b)).
  { intros k b. destruct (decide (k = pred (length atts))) as [->|Hne].
    - rewrite list_lookup_alter_eq, Ha. intros [= <-]. by left.
    - rewrite list_lookup_alter_ne by done. by right. }
  split.
  - intros k b [[-> ->]|[_ Hk]]%Hlook; [|by apply H1]. cbn. by apply H1.
  - intros k b [[-> ->]|[Hne Hk]]%Hlook; rewrite length_alter; intros Hlt; [lia|by eapply H2].
  - intros k b [[-> ->]|[Hne Hk]]%Hlook; [|by eapply H3]. cbn. split; [done|by eexists].
  - by rewrite length_alter.
Qed.

(** ** Task records *)

(** [task_ok] without the clause on the last attempt: the state between
    closing or appending an attempt and moving its task. *)
Record task_mid (d : TaskDefinition) (t : TaskRun) : Prop := {
  tm_key : Key t = def_Key d;
  tm_attempts : attempts_wf (MaxAttempts (Retry d)) (Attempts t);
  tm_ready_at : is_Some (ReadyAt t) <-> Status t = TaskWaitingRetry;
  tm_finished : is_Some (FinishedAt t) <-> isTaskTerminal (Status t) = true;
}.

Lemma task_ok_mid d t : task_ok d t -> task_mid d t.
Proof. intros []. by split. Qed.

Lemma task_mid_transition d t to at_ :
  task_mid d t -> isTaskTerminal (Status t) = false -> to ≠ TaskWaitingRetry ->
  last_ok (MaxAttempts (Retry d)) to (Attempts t) -> task_ok d (task_after to at_ t).
Proof.
  intros [H1 H2 H4 H5] Hnt Hne Hl. unfold task_after. rewrite bool_decide_eq_true_2 by done.
  split; cbn; try done.
  destruct (isTaskTerminal to) eqn:Ht; [split; [done|by eexists]|]. rewrite H5. split; congruence.
Qed.

Lemma task_mid_retry d t at_ ready_at :
  task_mid d t -> isTaskTerminal (Status t) = false ->
  last_ok (MaxAttempts (Retry d)) TaskWaitingRetry (Attempts t) ->
  task_ok d (set_task_ReadyAt (Some ready_at) (task_after TaskWaitingRetry at_ t)).
Proof.
  intros [H1 H2 H4 H5] Hnt Hl. split; cbn; try done. rewrite H5. split; congruence.
Qed.

Lemma close_last_mid d t result to at_ a :
  task_mid d t -> last (Attempts t) = Some a -> to ≠ AttemptRunning ->
  task_mid d (close_last result to at_ t).
Proof. intros [H1 H2 H4 H5] Ha Hto. split; try done. by eapply close_attempts_wf. Qed.

(** Starting an attempt. *)
Lemma task_ok_start d t at_ a :
  task_ok d t -> Status t = TaskReady \/ Status t = TaskQueued ->
  Number a = (Z.of_nat (length (Attempts t)) + 1)%Z -> att_Status a = AttemptRunning ->
  att_FinishedAt a = None ->
  task_ok d (append_attempt a (task_after TaskRunning at_ t)).
Proof.
  intros [H1 H2 H3 H4 H5] Hst Hn Hs Hf.
  assert (Hlast : (Z.of_nat (length (Attempts t)) < MaxAttempts (Retry d))%Z /\
    forall b, last (Attempts t) = Some b -> retryable (att_Status b) = true).
  { by destruct Hst as [E|E]; rewrite E in H3. }
  destruct Hlast as [Hlt Hlast]. split; cbn.
  - done.
  - by apply attempts_append.
  - exists a. by rewrite last_snoc.
  - split; [by intros [? [=]]|done].
  - rewrite H5. destruct Hst as [-> | ->]; done.
Qed.

(** Moving between working states that put the same demand on the attempts. *)
Lemma task_ok_move d t to at_ :
  task_ok d t -> to = TaskReady \/ to = TaskQueued ->
  Status t ∈ [TaskReady; TaskQueued; TaskWaitingRetry] -> task_ok d (task_after to at_ t).
Proof.
  intros Hok Hto Hst. pose proof (tk_last _ _ Hok) as Hl.
  rewrite !elem_of_cons, elem_of_nil in Hst.
  apply task_mid_transition; [by apply task_ok_mid|by destruct Hst as [-> |[-> |[-> |[]]]]| |].
  - by destruct Hto as [-> | ->].
  - destruct Hst as [E|[E|[E|[]]]]; rewrite E in Hl; destruct Hto as [-> | ->]; try done;
      destruct Hl as (? & a & Ha & Hr); split; try done; intros b Hb; by simplify_eq.
Qed.

Lemma task_ok_first d t at_ to :
  task_ok d t -> (1 <= MaxAttempts (Retry d))%Z -> Status t = TaskWaitingDependencies ->
  to = TaskReady \/ to = TaskSkipped -> task_ok d (task_after to at_ t).
Proof.
  intros Hok Hmax Hst Hto. pose proof (tk_last _ _ Hok) as Hl. rewrite Hst in Hl. cbn in Hl.
  apply task_mid_transition; [by apply task_ok_mid|by rewrite Hst|by destruct Hto as [-> | ->]|].
  rewrite Hl. destruct Hto as [-> | ->]; cbn; [split; [lia|done]|done].
Qed.

Lemma task_ok_cancel d t at_ : task_ok d t -> task_ok d (cancel_after at_ t).
Proof.
  intros Hok. pose proof (tk_last _ _ Hok) as Hl. pose proof (task_ok_mid _ _ Hok) as Hmid.
  unfold cancel_after. destruct (isTaskTerminal (Status t)) eqn:Hterm; [done|].
  destruct (Status t) eqn:Hst; try done; cbn in Hl.
  - apply task_mid_transition; [done|by rewrite Hst|done|]. cbn. rewrite Hl. done.
  - apply task_mid_transition; [done|by rewrite Hst|done|]. cbn. intros a Ha. left. by apply Hl.
  - apply task_mid_transition; [done|by rewrite Hst|done|]. cbn. intros a Ha. left. by apply Hl.
  - destruct Hl as (a & Ha & Hr). rewrite Ha, bool_decide_eq_true_2 by done.
    apply task_mid_transition; [by eapply close_last_mid|by cbn; rewrite Hst|done|].
    rewrite close_last_attempts. intros b Hb. rewrite (close_attempts_last _ _ _ _ _ Ha) in Hb.
    injection Hb as <-. by right.
  - apply task_mid_transition; [done|by rewrite Hst|done|]. cbn. destruct Hl as (_ & a & Ha & Hr).
    intros b Hb. simplify_eq. by left.
Qed.

(** ** Consequences of the invariant *)
Section invariant.
Context (c : CompiledWorkflow) (Hc : compiled_wf c).
#[local] Abbreviation n := (length (def_Tasks (definition c))).

Lemma run_core_length s : run_core c s -> length (Tasks (Run s)) = n.
Proof. intros H. rewrite <-(sc_length _ _ _ _ (rc_sched _ _ H)). unfold statuses. by rewrite length_fmap. Qed.

Lemma status_lookup s i t : Tasks (Run s) !! i = Some t -> statuses s !! i = Some (Status t).
Proof. intros H. unfold statuses. by rewrite list_lookup_fmap, H. Qed.

Lemma task_definition s i t :
  run_core c s -> Tasks (Run s) !! i = Some t ->
  exists d, def_Tasks (definition c) !! i = Some d /\ task_ok d t /\ (1 <= MaxAttempts (Retry d))%Z.
Proof.
  intros H Ht. destruct (lookup_lt_is_Some_2 (def_Tasks (definition c)) i) as [d Hd].
  { rewrite <-(run_core_length _ H). by eapply lookup_lt_Some. }
  exists d. split_and!; [done|by eapply (rc_tasks _ _ H)|].
  pose proof (cw_tasks c Hc) as Hall. rewrite Forall_lookup in Hall.
  by destruct (Hall i d Hd) as (_&_&_&_&?&_).
Qed.

Lemma core_known_status s t :
  run_core c s -> t ∈ Tasks (Run s) -> known_status (Status t) = true.
Proof.
  intros H [i Hi]%list_elem_of_lookup.
  pose proof (sc_status _ _ _ _ (rc_sched _ _ H) i _ (status_lookup _ _ _ Hi)).
  by destruct (Status t).
Qed.

(** An active task means the run is not over. *)
Lemma active_run s i t :
  run_wf c s -> Tasks (Run s) !! i = Some t -> active (Status t) = true ->
  run_Status (Run s) = WorkflowRunning \/
  (run_Status (Run s) = WorkflowPending /\ Status t = TaskReady).
Proof.
  intros [H Ha] Ht Hact. assert (Hin : Status t ∈ statuses s)
    by (eapply list_elem_of_lookup_2, status_lookup, Ht).
  destruct (run_Status (Run s)); cbn in Ha; [|by left|..].
  - destruct (Ha _ Hin) as [E|E]; rewrite E in Hact |- *; [done|by right].
  - rewrite (Ha _ Hin) in Hact. done.
  - destruct Ha as [_ Ha]. specialize (Ha _ Hin). by destruct (Status t).
  - specialize (Ha _ Hin). by destruct (Status t).
  - done.
Qed.

Lemma running_run s i t :
  run_wf c s -> Tasks (Run s) !! i = Some t -> active (Status t) = true -> Status t ≠ TaskReady ->
  run_Status (Run s) = WorkflowRunning.
Proof. intros H Ht Hact Hne. by destruct (active_run s i t H Ht Hact) as [|[_ ?]]. Qed.

(** ** Preservation along effects *)
Lemma tasks_ok_effect s s' f :
  tasks_ok c s -> Tasks (Run s') = imap f (Tasks (Run s)) ->
  (forall i t d, Tasks (Run s) !! i = Some t -> def_Tasks (definition c) !! i = Some d ->
     task_ok d t -> task_ok d (f i t)) -> tasks_ok c s'.
Proof.
  intros H E Hf i t d Ht Hd. rewrite E, list_lookup_imap in Ht.
  destruct (Tasks (Run s) !! i) as [t0|] eqn:Ht0; [|done]. injection Ht as <-. by eapply Hf, H.
Qed.

Lemma tasks_ok_task_effect s s' i t' d :
  tasks_ok c s -> task_effect i t' s s' -> def_Tasks (definition c) !! i = Some d -> task_ok d t' ->
  tasks_ok c s'.
Proof.
  intros H [_ Hts _ _] Hd Hok j u e Hu He. rewrite Hts in Hu.
  apply list_lookup_insert_Some in Hu as [(<- & <- & _)|(_ & Hu)]; [by simplify_eq|by eapply H].
Qed.

Lemma run_fields_effect s s' :
  frame s s' -> workflow_fields s' = workflow_fields s -> tasks_ok c s' ->
  sched_core c (run_Status (Run s)) (statuses s') (RemainingDependencies (Run s')) ->
  run_core c s -> run_core c s'.
Proof.
  intros [Hid _ Haud] Hw Ht Hsc [_ _ Ha Hd Hf Hs]. injection Hw as W1 W2 W3. injection Hid as ? ? ? Hdef ? ? ? ?.
  split; rewrite ?W1, ?W2, ?W3; auto; congruence.
Qed.

(** Moving one task between working states of a running workflow. *)
Lemma run_wf_move s s' i t t' d :
  run_wf c s -> run_Status (Run s) = WorkflowRunning -> Tasks (Run s) !! i = Some t ->
  active (Status t) = true -> active (Status t') = true ->
  def_Tasks (definition c) !! i = Some d -> task_ok d t' -> task_effect i t' s s' -> run_wf c s'.
Proof.
  intros [Hcore Hag] Hws Ht Ha Ha' Hd Hok He. pose proof He as [F T R W].
  pose proof (task_effect_statuses _ _ _ _ _ Ht He) as Hst.
  pose proof (status_lookup _ _ _ Ht) as Hsti. split.
  - eapply run_fields_effect; [done|done| | |done].
    + by eapply tasks_ok_task_effect; [apply Hcore|..].
    + rewrite Hst, R. eapply core_move; [apply Hcore|done..].
  - injection W as W1 _ _. rewrite W1, Hws, Hst. exists (Status t'). split.
    + eapply list_elem_of_lookup_2, list_lookup_insert_eq. by eapply lookup_lt_Some.
    + by destruct (Status t').
Qed.

(** What the settling step makes of the run status. *)
Definition settled_status (sts : list TaskStatus) : WorkflowStatus :=
  if forallb isTaskTerminal sts
  then if bool_decide (TaskFailed ∈ sts) then WorkflowFailed else WorkflowSucceeded
  else WorkflowRunning.

Lemma forallb_terminal_false sts :
  forallb isTaskTerminal sts = false -> exists st, st ∈ sts /\ isTaskTerminal st = false.
Proof.
  induction sts as [|st sts IH]; [done|]. cbn. destruct (isTaskTerminal st) eqn:E; cbn; intros H.
  - destruct (IH H) as (st' & ? & ?). exists st'. split; [by right|done].
  - exists st. split; [by left|done].
Qed.

Lemma terminal_tasks_statuses s :
  forallb (fun t => isTaskTerminal (Status t)) (Tasks (Run s)) = forallb isTaskTerminal (statuses s).
Proof. unfold statuses. induction (Tasks (Run s)) as [|t l IH]; [done|]. cbn. by rewrite <-IH. Qed.

(** What a settling step promises. *)
Definition settles (s s' : RunSnapshot) (to : WorkflowStatus) : Prop :=
  run_wf c s' /\ frame s s' /\ Tasks (Run s') = Tasks (Run s) /\
  RemainingDependencies (Run s') = RemainingDependencies (Run s) /\ run_Status (Run s') = to.

Lemma settle_transition to reason at_ s :
  run_core c s -> run_Status (Run s) = WorkflowRunning ->
  workflowTransitions WorkflowRunning to = true -> isWorkflowTerminal to = true ->
  to ≠ WorkflowCanceled -> workflow_agrees to (statuses s) ->
  exists s', transitionWorkflow to at_ reason s = (s', Ok tt) /\ settles s s' to.
Proof.
  intros Hcore Hws Hl Ht Hnc Hag. rewrite <-Hws in Hl.
  destruct (transitionWorkflow_effect to at_ reason s Hl) as (s' & Hrun & [F T R S Fin St]).
  assert (Hsts : statuses s' = statuses s) by (unfold statuses; by rewrite T).
  exists s'. split; [done|]. split_and!; try done. split; [|by rewrite S, Hsts].
  destruct Hcore as [Hc1 Hc2 Hc3 Hc4 Hc5 Hc6].
  destruct F as [Hid _ Haud]. injection Hid as ? ? ? Hdef ? ? ? ?.
  split; [|rewrite S, Hsts, R|auto|congruence|rewrite Fin, S, Ht; split; [done|by eexists]|].
  - intros i t d. rewrite T. apply Hc1.
  - eapply core_status_change; [exact Hc2|by rewrite Hws].
  - intros _. rewrite St. assert (Hsome : is_Some (run_StartedAt (Run s))).
    { apply Hc6. rewrite Hws. by left. }
    by destruct Hsome as [a ->].
Qed.

Lemma settle_run at_ s :
  run_core c s -> run_Status (Run s) = WorkflowRunning ->
  exists s', settleWorkflowIfComplete at_ s = (s', Ok tt) /\ settles s s' (settled_status (statuses s)).
Proof.
  intros Hcore Hws. unfold settled_status, settleWorkflowIfComplete. go_step. cbv zeta.
  rewrite terminal_tasks_statuses. destruct (forallb _ _) eqn:Hall; cbn [negb].
  2:{ exists s. split; [done|]. split_and!; [|auto|done..]. split; [done|]. rewrite Hws.
      by apply forallb_terminal_false. }
  assert (Hterminal : forall st, st ∈ statuses s -> isTaskTerminal st = true).
  { rewrite forallb_forall in Hall. intros st Hst. by apply Hall, list_elem_of_In. }
  destruct (hasFailedTask (Tasks (Run s))) eqn:Hf.
  - apply hasFailedTask_true in Hf. rewrite bool_decide_eq_true_2 by done. by apply settle_transition.
  - assert (Hnf : TaskFailed ∉ statuses s).
    { intros Hin. apply hasFailedTask_true in Hin. congruence. }
    assert (Hsucc : forall st, st ∈ statuses s -> st = TaskSucceeded).
    { eapply finished_without_failure; [done|apply Hcore|by rewrite Hws|done|done]. }
    rewrite bool_decide_eq_false_2 by done. rewrite allTasksSucceeded_true by done. go_step.
    by apply settle_transition.
Qed.

(** No deadlock: an unfinished run has a task that can be worked on. *)
Lemma unfinished_active s :
  run_wf c s -> isWorkflowTerminal (run_Status (Run s)) = false ->
  exists i t, Tasks (Run s) !! i = Some t /\ active (Status t) = true.
Proof.
  intros [Hcore Hag] Hnt.
  assert (Hopen : exists st, st ∈ statuses s /\ isTaskTerminal st = false).
  { destruct (run_Status (Run s)); try done. cbn in Hag.
    pose proof (sc_length _ _ _ _ (rc_sched _ _ Hcore)) as Hlen. pose proof (cw_nonempty c Hc).
    destruct (statuses s) as [|st sts] eqn:E; [rewrite <-Hlen in *; simpl in *; lia|].
    exists st. split; [by left|]. by destruct (Hag st (list_elem_of_here _ _)) as [-> | ->]. }
  destruct Hopen as (st & [j Hj]%list_elem_of_lookup & Hst).
  destruct (sched_progress c Hc _ _ _ j st (rc_sched _ _ Hcore)) as (k & st' & Hk & Hact); [by intros E; rewrite E in Hnt|done|done|].
  unfold statuses in Hk. rewrite list_lookup_fmap in Hk.
  destruct (Tasks (Run s) !! k) as [t|] eqn:Ht; [|done]. injection Hk as <-. by exists k, t.
Qed.
End invariant.
