(* ===== verification/RunOperations.v ===== *)
(** * Correctness of the operations on a run

    For every operation of Distributed.v: in a state that satisfies the run
    invariant and in which the operation is meant to be called, it returns,
    the invariant still holds, and the resulting task records, dependency
    counters and run status are given exactly. *)
From S2P Require Import Prelude GoStrings Json Model State Graph Compiler Scheduling Distributed Effects RunInvariant.
From stdpp Require Import relations.

(** Nothing but the progress of the run changed, and the invariant holds. *)
Definition advances (c : CompiledWorkflow) (s s' : RunSnapshot) : Prop := run_wf c s' /\ frame s s'.

(** Only task [i] changed. *)
Definition only_task (i : nat) (t' : TaskRun) (s s' : RunSnapshot) : Prop :=
  Tasks (Run s') = <[i := t']> (Tasks (Run s)) /\
  RemainingDependencies (Run s') = RemainingDependencies (Run s).

(** The new attempt of a started task. *)
Definition started_task (at_ : time) (a : Attempt) (t : TaskRun) : TaskRun :=
  append_attempt a (task_after TaskRunning at_ t).
Definition new_attempt (t : TaskRun) (worker dispatch : string) (at_ : time) : Attempt :=
  mkAttempt (Z.of_nat (length (Attempts t)) + 1) AttemptRunning worker dispatch at_ None
    (mkExecutionResult "" "" "").

(** The task records after the success of [i] ([t1] is the finished record of
    [i]) and after its failure. *)
Definition tasks_after_success (c : CompiledWorkflow) (i : nat) (t1 : TaskRun) (at_ : time)
    (s : RunSnapshot) : list TaskRun :=
  imap (release_task (RemainingDependencies (Run s)) (default [] (successors c !! i)) at_)
    (<[i := t1]> (Tasks (Run s))).
Definition remaining_after_success (c : CompiledWorkflow) (i : nat) (s : RunSnapshot) : list Z :=
  imap (release_count (default [] (successors c !! i))) (RemainingDependencies (Run s)).

Section operations.
Context (c : CompiledWorkflow) (Hc : compiled_wf c).
#[local] Abbreviation n := (length (def_Tasks (definition c))).

Lemma in_range s i t :
  Tasks (Run s) !! i = Some t -> out_of_range (Z.of_nat i) s = false.
Proof.
  intros H. apply lookup_lt_Some in H. unfold out_of_range.
  rewrite orb_false_iff, Z.ltb_ge, Z.leb_gt. lia.
Qed.

Lemma effect_advances s s' i t t' d :
  run_wf c s -> run_Status (Run s) = WorkflowRunning -> Tasks (Run s) !! i = Some t ->
  active (Status t) = true -> active (Status t') = true ->
  def_Tasks (definition c) !! i = Some d -> task_ok d t' -> task_effect i t' s s' ->
  advances c s s' /\ only_task i t' s s' /\ run_Status (Run s') = WorkflowRunning.
Proof.
  intros H Hws Ht Ha Ha' Hd Hok He. split; [split; [by eapply run_wf_move|by apply He]|].
  destruct He as [_ T R W]. injection W as W _ _. split; [done|congruence].
Qed.

(** ** Starting the run and queueing *)
Lemma start_run reason at_ s :
  run_wf c s -> run_Status (Run s) = WorkflowPending ->
  exists s', transitionWorkflow WorkflowRunning at_ reason s = (s', Ok tt) /\ advances c s s' /\
    Tasks (Run s') = Tasks (Run s) /\ RemainingDependencies (Run s') = RemainingDependencies (Run s) /\
    run_Status (Run s') = WorkflowRunning.
Proof.
  intros [Hcore Hag] Hws.
  destruct (transitionWorkflow_effect WorkflowRunning at_ reason s) as (s' & Hrun & [F T R S Fin St]);
    [by rewrite Hws|].
  exists s'. split; [done|]. split_and!; [|done..]. split; [|done].
  assert (Hsts : statuses s' = statuses s) by (unfold statuses; by rewrite T).
  destruct Hcore as [Hc1 Hc2 Hc3 Hc4 Hc5 Hc6]. rewrite Hws in *. cbn in Hag, Fin.
  destruct F as [Hid _ Haud]. injection Hid as ? ? ? Hdef ? ? ? ?. split.
  - split; [|rewrite S, Hsts, R|auto|congruence|by rewrite Fin, S|].
    + intros i t d. rewrite T. apply Hc1.
    + by eapply core_status_change; [exact Hc2|].
    + intros _. rewrite St. destruct (run_StartedAt (Run s)); by eexists.
  - rewrite S, Hsts. destruct (statuses s) as [|st sts] eqn:E.
    + pose proof (sc_length _ _ _ _ Hc2) as Hl. pose proof (cw_nonempty c Hc). rewrite <-Hl in *.
      simpl in *. lia.
    + exists st. split; [by left|]. by destruct (Hag st (list_elem_of_here _ _)) as [-> | ->].
Qed.

Lemma QueueTask_run i t at_ s :
  run_wf c s -> Tasks (Run s) !! i = Some t -> Status t = TaskReady ->
  exists s', QueueTask (Z.of_nat i) at_ s = (s', Ok tt) /\ advances c s s' /\
    only_task i (task_after TaskQueued at_ t) s s' /\ run_Status (Run s') = WorkflowRunning.
Proof.
  intros H Ht Hst. unfold QueueTask. go_step. rewrite (in_range _ _ _ Ht). go_step.
  assert (Hstart : exists s1, (if bool_decide (run_Status (Run s) = WorkflowPending)
      then transitionWorkflow WorkflowRunning at_ "distributed execution started" else mret tt) s
      = (s1, Ok tt) /\ advances c s s1 /\ Tasks (Run s1) = Tasks (Run s) /\
      RemainingDependencies (Run s1) = RemainingDependencies (Run s) /\
      run_Status (Run s1) = WorkflowRunning).
  { case_bool_decide as E; [by apply start_run|]. exists s. split_and!; try done.
    by destruct (active_run c s i t H Ht) as [?|[? _]]; [by rewrite Hst|..]. }
  destruct Hstart as (s1 & Hrun & [H1 F1] & T1 & R1 & W1). go_step by exact Hrun. go_step.
  rewrite W1. rewrite bool_decide_eq_false_2 by auto. go_step. rewrite Nat2Z.id.
  rewrite <-T1 in Ht.
  destruct (transitionTask_effect i TaskQueued at_ "dispatch created" s1 t Ht) as (s2 & Hrun2 & He);
    [by rewrite Hst|].
  destruct (task_definition c Hc s1 i t (rw_core _ _ H1) Ht) as (d & Hd & Hok & _).
  destruct (effect_advances s1 s2 i t (task_after TaskQueued at_ t) d H1 W1 Ht) as ([H2 F2] & [Ho1 Ho2] & W2);
    [by rewrite Hst|done|done| |done|].
  - apply task_ok_move; [done|by right|]. rewrite Hst. by left.
  - exists s2. split_and!; [done|split; [done|by etrans]|split; congruence|done].
Qed.

Lemma ReturnQueued_run i t at_ reason s :
  run_wf c s -> Tasks (Run s) !! i = Some t -> Status t = TaskQueued ->
  exists s', ReturnQueuedTaskToReady (Z.of_nat i) at_ reason s = (s', Ok tt) /\ advances c s s' /\
    only_task i (task_after TaskReady at_ t) s s' /\ run_Status (Run s') = WorkflowRunning.
Proof.
  intros H Ht Hst. unfold ReturnQueuedTaskToReady. go_step. rewrite (in_range _ _ _ Ht). go_step.
  rewrite Nat2Z.id.
  destruct (transitionTask_effect i TaskReady at_ reason s t Ht) as (s' & Hrun & He); [by rewrite Hst|].
  destruct (task_definition c Hc s i t (rw_core _ _ H) Ht) as (d & Hd & Hok & _).
  exists s'. split; [done|]. eapply effect_advances; try done.
  - eapply running_run; [done|done|by rewrite Hst|by rewrite Hst].
  - by rewrite Hst.
  - apply task_ok_move; [done|by left|]. rewrite Hst. right. by left.
Qed.

(** ** Starting an attempt *)
Lemma start_attempt i t d a at_ reason s :
  run_wf c s -> run_Status (Run s) = WorkflowRunning -> Tasks (Run s) !! i = Some t ->
  Status t = TaskReady \/ Status t = TaskQueued ->
  def_Tasks (definition c) !! i = Some d ->
  Number a = (Z.of_nat (length (Attempts t)) + 1)%Z -> att_Status a = AttemptRunning ->
  att_FinishedAt a = None ->
  exists s1 s2, transitionTask i TaskRunning at_ reason s = (s1, Ok tt) /\
    appendAttempt i a s1 = (s2, Ok tt) /\ advances c s s2 /\
    only_task i (started_task at_ a t) s s2 /\ run_Status (Run s2) = WorkflowRunning.
Proof.
  intros H Hws Ht Hst Hd Hn Hr Hf.
  destruct (transitionTask_effect i TaskRunning at_ reason s t Ht) as (s1 & Hrun & He);
    [by destruct Hst as [-> | ->]|].
  pose proof (task_effect_lookup _ _ _ _ _ Ht He) as Ht1.
  destruct (appendAttempt_effect i a s1 _ Ht1) as (s2 & Hrun2 & He2).
  pose proof (task_effect_trans _ _ _ _ _ _ He He2) as He3.
  exists s1, s2. split; [done|]. split; [done|]. eapply effect_advances; try done.
  - by destruct Hst as [-> | ->].
  - apply task_ok_start; try done. by eapply (rc_tasks _ _ (rw_core _ _ H)).
Qed.

(** The definitions' inputs can be cloned, which every compiled workflow of
    valid inputs satisfies. *)
Definition cloneable : Prop :=
  forall i d, def_Tasks (definition c) !! i = Some d -> exists input, cloneTaskInput (def_Input d) = Ok input.

Lemma executionRequest_run i d number s :
  cloneable -> def_Tasks (definition c) !! i = Some d ->
  exists input, cloneTaskInput (def_Input d) = Ok input /\
    executionRequest c i number s = (s, Ok (mkExecutionRequest (DefinitionID (Run s)) (ID (Run s))
      (def_Key d) (def_Action d) input number)).
Proof.
  intros Hcl Hd. destruct (Hcl i d Hd) as [input Hin]. exists input. split; [done|].
  unfold executionRequest. rewrite Hd. go_step. rewrite Hin. by repeat go_step.
Qed.

Lemma StartQueued_run i t d at_ worker dispatch s :
  run_wf c s -> cloneable -> Tasks (Run s) !! i = Some t -> Status t = TaskQueued ->
  def_Tasks (definition c) !! i = Some d -> worker ≠ "" -> dispatch ≠ "" ->
  exists s' input, cloneTaskInput (def_Input d) = Ok input /\
    StartQueuedAttempt (Some c) (Z.of_nat i) at_ worker dispatch s =
      (s', Ok (mkExecutionRequest (DefinitionID (Run s)) (ID (Run s)) (def_Key d) (def_Action d) input
                 (Z.of_nat (length (Attempts t)) + 1))) /\
    advances c s s' /\ only_task i (started_task at_ (new_attempt t worker dispatch at_) t) s s' /\
    run_Status (Run s') = WorkflowRunning.
Proof.
  intros H Hcl Ht Hst Hd Hw Hdi.
  assert (Hws : run_Status (Run s) = WorkflowRunning).
  { eapply running_run; [done|done|by rewrite Hst|by rewrite Hst]. }
  destruct (start_attempt i t d (new_attempt t worker dispatch at_) at_ "lease claimed" s)
    as (s1 & s2 & Hrun1 & Hrun2 & Hadv & Honly & Hws2); auto.
  assert (Hids : DefinitionID (Run s2) = DefinitionID (Run s) /\ ID (Run s2) = ID (Run s)).
  { destruct Hadv as [_ [Hid _ _]]. by injection Hid. }
  destruct (executionRequest_run i d (Z.of_nat (length (Attempts t)) + 1) s2 Hcl Hd) as (input & Hin & Hreq).
  exists s2, input. split; [done|]. split; [|done].
  pose proof (rc_tasks _ _ (rw_core _ _ H) i t d Ht Hd) as Hok.
  unfold StartQueuedAttempt. go_step. rewrite (in_range _ _ _ Ht). cbn [orb].
  rewrite (proj2 (Z.leb_gt _ _)) by (apply lookup_lt_Some in Hd; lia). go_step.
  unfold is_empty. rewrite !bool_decide_eq_false_2 by done. go_step. cbv zeta. rewrite Nat2Z.id, Ht. go_step.
  rewrite Hd. go_step. rewrite bool_decide_eq_false_2 by (intros Hne; by apply Hne, Hok). go_step.
  go_step by exact Hrun1. go_step by exact Hrun2. rewrite Hreq. by destruct Hids as [-> ->].
Qed.

Lemma prepareTask_run i t d now1 now2 s :
  run_wf c s -> cloneable -> run_Status (Run s) = WorkflowRunning ->
  Tasks (Run s) !! i = Some t -> Status t = TaskReady -> def_Tasks (definition c) !! i = Some d ->
  exists s' input, cloneTaskInput (def_Input d) = Ok input /\
    prepareTask c i now1 now2 s =
      (s', Ok (mkExecutionRequest (DefinitionID (Run s)) (ID (Run s)) (def_Key d) (def_Action d) input
                 (Z.of_nat (length (Attempts t)) + 1), (Z.of_nat (length (Attempts t)) + 1)%Z)) /\
    advances c s s' /\ only_task i (started_task now1 (new_attempt t "" "" now2) t) s s' /\
    run_Status (Run s') = WorkflowRunning.
Proof.
  intros H Hcl Hws Ht Hst Hd.
  destruct (start_attempt i t d (new_attempt t "" "" now2) now1 "execution started" s)
    as (s1 & s2 & Hrun1 & Hrun2 & Hadv & Honly & Hws2); auto.
  assert (Hids : DefinitionID (Run s2) = DefinitionID (Run s) /\ ID (Run s2) = ID (Run s)).
  { destruct Hadv as [_ [Hid _ _]]. by injection Hid. }
  destruct (executionRequest_run i d (Z.of_nat (length (Attempts t)) + 1) s2 Hcl Hd) as (input & Hin & Hreq).
  exists s2, input. split; [done|]. split; [|done].
  unfold prepareTask. go_step. rewrite Ht. go_step. go_step by exact Hrun1. cbv zeta.
  go_step by exact Hrun2. go_step by exact Hreq. by destruct Hids as [-> ->].
Qed.
(** ** Finishing an attempt *)

(** The running attempt of a running task. *)
Lemma running_attempt s i t :
  run_wf c s -> Tasks (Run s) !! i = Some t -> Status t = TaskRunning ->
  exists a, last (Attempts t) = Some a /\ att_Status a = AttemptRunning /\
    Number a = Z.of_nat (length (Attempts t)).
Proof.
  intros H Ht Hst. destruct (task_definition c Hc s i t (rw_core _ _ H) Ht) as (d & _ & Hok & _).
  pose proof (tk_last _ _ Hok) as Hl. rewrite Hst in Hl. destruct Hl as (a & Ha & Hr).
  exists a. split_and!; [done|done|]. rewrite last_lookup in Ha.
  rewrite (aw_numbers _ _ (tk_attempts _ _ Hok) _ _ Ha). apply lookup_lt_Some in Ha. lia.
Qed.

Lemma activeAttempt_run s i t a :
  Tasks (Run s) !! i = Some t -> Status t = TaskRunning -> last (Attempts t) = Some a ->
  att_Status a = AttemptRunning ->
  activeAttempt (Z.of_nat i) (Number a) s = (s, Ok (Some (t, a))).
Proof.
  intros Ht Hst Ha Hr. unfold activeAttempt. go_step. rewrite (in_range _ _ _ Ht). go_step.
  rewrite Nat2Z.id, Ht. go_step. by rewrite Hst, Ha, Hr, !bool_decide_eq_false_2 by auto.
Qed.

(** A result for anything but the running attempt is stale. *)
Lemma activeAttempt_stale s i t number :
  Tasks (Run s) !! i = Some t ->
  ~ (Status t = TaskRunning /\ exists a, last (Attempts t) = Some a /\ Number a = number /\
       att_Status a = AttemptRunning) ->
  activeAttempt (Z.of_nat i) number s = (s, Ok None).
Proof.
  intros Ht Hno. unfold activeAttempt. go_step. rewrite (in_range _ _ _ Ht). go_step.
  rewrite Nat2Z.id, Ht. go_step. case_bool_decide as Hst; [done|].
  destruct (last (Attempts t)) as [a|] eqn:Ha; [|done].
  repeat case_bool_decide; try done. destruct Hno. split; [done|]. exists a.
  by split_and!.
Qed.

(** The closed record of the running task. *)
Lemma close_running s i t a d result to at_ reason :
  run_wf c s -> Tasks (Run s) !! i = Some t -> Status t = TaskRunning ->
  last (Attempts t) = Some a -> att_Status a = AttemptRunning ->
  def_Tasks (definition c) !! i = Some d -> attemptTransitions AttemptRunning to = true ->
  exists s1, closeAttempt i t result to at_ reason s = (s1, Ok tt) /\
    task_effect i (close_last result to at_ t) s s1 /\ task_mid d (close_last result to at_ t).
Proof.
  intros H Ht Hst Ha Hr Hd Hl.
  destruct (closeAttempt_effect i result to at_ reason s t a Ht Ha Hr Hl) as (s1 & Hrun & He).
  exists s1. split_and!; [done|done|]. eapply close_last_mid; [|done|by destruct to].
  apply task_ok_mid. by eapply (rc_tasks _ _ (rw_core _ _ H)).
Qed.

Lemma close_attempts_length result to at_ atts :
  length (close_attempts result to at_ atts) = length atts.
Proof. apply length_alter. Qed.

(** *** Failure for good *)
Definition failed_task (result : ExecutionResult) (to : AttemptStatus) (at_ : time) (t : TaskRun) : TaskRun :=
  task_after TaskFailed at_ (close_last result to at_ t).

(** What a final failure of task [i] does: the task fails, every unfinished
    descendant is skipped, the run settles when nothing is left. *)
Definition fails (i : nat) (t' : TaskRun) (at_ : time) (s s' : RunSnapshot) : Prop :=
  advances c s s' /\
  (exists reached, (forall j, reached j = true <-> tc (edge (successors c)) i j) /\
     Tasks (Run s') = imap (skip_if reached at_) (<[i := t']> (Tasks (Run s))) /\
     statuses s' = after_failure reached i (statuses s)) /\
  RemainingDependencies (Run s') = RemainingDependencies (Run s) /\
  run_Status (Run s') = settled_status (statuses s').

Lemma skip_legal s j st t :
  run_core c s -> run_Status (Run s) ≠ WorkflowCanceled ->
  (exists i, tc (edge (successors c)) i j /\ statuses s !! i = Some st /\ st ≠ TaskSucceeded) ->
  Tasks (Run s) !! j = Some t -> isTaskTerminal (Status t) = false ->
  Status t = TaskWaitingDependencies.
Proof.
  intros H Hws (i & Htc & Hi & Hne) Ht Hnt.
  destruct (descendants_idle c Hc _ _ _ _ _ _ (rc_sched _ _ H) Hws Htc Hi Hne) as [E|E];
    rewrite (status_lookup _ _ _ Ht) in E; injection E as E; [done|by rewrite E in Hnt].
Qed.

(** The failed record, before its descendants are skipped. *)
Lemma fail_task_run i t result to at_ reason d s s1 :
  run_wf c s -> Tasks (Run s) !! i = Some t -> Status t = TaskRunning ->
  retryable to = true -> (to = AttemptFailed \/ MaxAttempts (Retry d) <= Z.of_nat (length (Attempts t)))%Z ->
  (exists a, last (Attempts t) = Some a) ->
  task_mid d (close_last result to at_ t) -> task_effect i (close_last result to at_ t) s s1 ->
  exists s2, transitionTask i TaskFailed at_ reason s1 = (s2, Ok tt) /\
    task_effect i (failed_task result to at_ t) s s2 /\ task_ok d (failed_task result to at_ t).
Proof.
  intros H Ht Hst Hto Hlast [a Ha] Hmid He.
  pose proof (task_effect_lookup _ _ _ _ _ Ht He) as Ht1.
  destruct (transitionTask_effect i TaskFailed at_ reason s1 _ Ht1) as (s2 & Hrun2 & He2);
    [by cbn; rewrite Hst|].
  exists s2. split; [done|]. split; [by eapply task_effect_trans|].
  apply task_mid_transition; [done|by cbn; rewrite Hst|done|]. rewrite close_last_attempts.
  eexists. split; [by eapply close_attempts_last|]. split; [by destruct to|].
  by rewrite close_attempts_length.
Qed.

(** Propagating the failure of task [i], whose record is now [t']. *)
Lemma propagate_failure i t t' d at_ s s2 :
  run_wf c s -> Tasks (Run s) !! i = Some t -> Status t = TaskRunning -> Status t' = TaskFailed ->
  def_Tasks (definition c) !! i = Some d -> task_ok d t' -> task_effect i t' s s2 ->
  exists s3 reached, skipDescendants c i at_ s2 = (s3, Ok tt) /\
    (forall j, reached j = true <-> tc (edge (successors c)) i j) /\
    tasks_effect (skip_if reached at_) s2 s3 /\
    statuses s3 = after_failure reached i (statuses s) /\ run_core c s3 /\
    run_Status (Run s3) = WorkflowRunning.
Proof.
  intros H Ht Hst Hst' Hd Hok He3. pose proof H as [Hcore _].
  assert (Hws : run_Status (Run s) = WorkflowRunning).
  { eapply running_run; [done|done|by rewrite Hst|by rewrite Hst]. }
  pose proof (status_lookup _ _ _ Ht) as Hsti. rewrite Hst in Hsti.
  assert (Hlen2 : length (successors c) = length (Tasks (Run s2))).
  { rewrite (te_tasks _ _ _ _ He3), length_insert, (cw_succ_length c Hc). symmetry.
    by apply run_core_length. }
  assert (Hidle : forall j u, tc (edge (successors c)) i j -> Tasks (Run s2) !! j = Some u ->
    isTaskTerminal (Status u) = false -> Tasks (Run s) !! j = Some u /\ Status u = TaskWaitingDependencies).
  { intros j u Htc Hu Hnt. rewrite (te_tasks _ _ _ _ He3), list_lookup_insert_ne in Hu
      by (intros ->; by destruct (cw_acyclic c Hc j)).
    split; [done|]. eapply (skip_legal s j TaskRunning); [done|by rewrite Hws|by exists i|done|done]. }
  destruct (skip_run (successors c) [i] at_ s2 (cw_adjacency c Hc) Hlen2) with (c := c)
    as (s3 & reached & Hrun3 & Hreach & He4).
  { intros j u (f & ->%list_elem_of_singleton & Htc) Hu Hnt.
    by destruct (Hidle j u Htc Hu Hnt) as [_ ->]. }
  { done. }
  { intros f ->%list_elem_of_singleton. rewrite Hlen2, (te_tasks _ _ _ _ He3), length_insert.
    by eapply lookup_lt_Some. }
  assert (Hreach' : forall j, reached j = true <-> tc (edge (successors c)) i j).
  { intros j. rewrite Hreach. split; [by intros (f & ->%list_elem_of_singleton & ?)|].
    intros ?. exists i. split; [by left|done]. }
  assert (Hsts : statuses s3 = after_failure reached i (statuses s)).
  { unfold statuses, after_failure. rewrite (tse_tasks _ _ _ He4), (te_tasks _ _ _ _ He3).
    rewrite <-Hst', <-list_fmap_insert. apply list_eq. intros j.
    rewrite list_lookup_fmap, !list_lookup_imap, list_lookup_fmap.
    destruct (<[i:=t']> (Tasks (Run s)) !! j); [|done]. cbn. unfold skip_if. by case_match. }
  exists s3, reached. split_and!; try done.
  - eapply (run_fields_effect c s); [by etrans; [apply He3|apply He4]| | | |done].
    + rewrite (tse_workflow _ _ _ He4). apply He3.
    + eapply tasks_ok_effect; [|apply He4|]. { by eapply tasks_ok_task_effect; [apply Hcore|..]. }
      intros j u e Hu He Hoku. unfold skip_if. destruct (reached j) eqn:Hr; cbn; [|done].
      destruct (isTaskTerminal (Status u)) eqn:Hterm; cbn; [done|].
      destruct (Hidle j u) as [Hu0 Hw]; [by apply Hreach'|done|done|].
      destruct (task_definition c Hc s j u Hcore Hu0) as (e' & He' & _ & Hmax). simplify_eq.
      apply task_ok_first; auto.
    + rewrite Hsts, (tse_remaining _ _ _ He4), (te_remaining _ _ _ _ He3).
      apply core_fail; [done|apply Hcore|by rewrite Hws|done|done].
  - pose proof (tse_workflow _ _ _ He4) as W4. pose proof (te_workflow _ _ _ _ He3) as W3.
    injection W4 as W4 _ _. injection W3 as W3 _ _. congruence.
Qed.

(** From a closed attempt to the settled run. *)
Lemma fail_run i t result to at_ reason d s s1 :
  run_wf c s -> Tasks (Run s) !! i = Some t -> Status t = TaskRunning ->
  def_Tasks (definition c) !! i = Some d -> retryable to = true ->
  (to = AttemptFailed \/ MaxAttempts (Retry d) <= Z.of_nat (length (Attempts t)))%Z ->
  (exists a, last (Attempts t) = Some a) ->
  task_mid d (close_last result to at_ t) -> task_effect i (close_last result to at_ t) s s1 ->
  exists s', (_ ← transitionTask i TaskFailed at_ reason;
              _ ← skipDescendants c i at_;
              _ ← settleWorkflowIfComplete at_; mret true) s1 = (s', Ok true) /\
    fails i (failed_task result to at_ t) at_ s s'.
Proof.
  intros H Ht Hst Hd Hto Hlast Ha Hmid He.
  destruct (fail_task_run i t result to at_ reason d s s1) as (s2 & Hrun2 & He2 & Hok); try done.
  destruct (propagate_failure i t _ d at_ s s2 H Ht Hst (eq_refl : Status (failed_task result to at_ t) = _)
    Hd Hok He2) as (s3 & reached & Hrun3 & Hreach & He3 & Hsts & Hcore3 & Hws3).
  destruct (settle_run c Hc at_ s3 Hcore3 Hws3) as (s4 & Hrun4 & Hwf & F4 & T4 & R4 & S4).
  assert (Hsts4 : statuses s4 = statuses s3) by (unfold statuses; by rewrite T4).
  exists s4. split.
  { go_step by exact Hrun2. go_step by exact Hrun3. by go_step by exact Hrun4. }
  split_and!.
  - split; [done|]. etrans; [apply He2|]. etrans; [apply He3|done].
  - exists reached. split; [done|]. rewrite Hsts4, T4, (tse_tasks _ _ _ He3), (te_tasks _ _ _ _ He2).
    done.
  - by rewrite R4, (tse_remaining _ _ _ He3), (te_remaining _ _ _ _ He2).
  - by rewrite S4, Hsts4.
Qed.

(** *** Retry or final failure *)
Definition retried_task (result : ExecutionResult) (to : AttemptStatus) (at_ : time) (interval : Z)
    (t : TaskRun) : TaskRun :=
  set_task_ReadyAt (Some (time_add at_ (millis interval)))
    (task_after TaskWaitingRetry at_ (close_last result to at_ t)).

Definition retries_or_fails (i : nat) (t : TaskRun) (d : TaskDefinition) (result : ExecutionResult)
    (to : AttemptStatus) (at_ : time) (s s' : RunSnapshot) : Prop :=
  if (Z.of_nat (length (Attempts t)) <? MaxAttempts (Retry d))%Z
  then advances c s s' /\
    only_task i (retried_task result to at_ (IntervalMillis (Retry d)) t) s s' /\
    run_Status (Run s') = WorkflowRunning
  else fails i (failed_task result to at_ t) at_ s s'.

Lemma applyRetryDecision_run i t result to at_ reason d s s1 :
  run_wf c s -> Tasks (Run s) !! i = Some t -> Status t = TaskRunning ->
  def_Tasks (definition c) !! i = Some d -> retryable to = true ->
  (exists a, last (Attempts t) = Some a) ->
  task_mid d (close_last result to at_ t) -> task_effect i (close_last result to at_ t) s s1 ->
  exists s', applyRetryDecision (Some c) i (Z.of_nat (length (Attempts t))) at_ reason s1 = (s', Ok true) /\
    retries_or_fails i t d result to at_ s s'.
Proof.
  intros H Ht Hst Hd Hto [a Ha] Hmid He. unfold applyRetryDecision, retries_or_fails.
  cbn [deref]. go_step. rewrite Hd. go_step. destruct (Z.ltb_spec (Z.of_nat (length (Attempts t))) (MaxAttempts (Retry d))).
  - pose proof (task_effect_lookup _ _ _ _ _ Ht He) as Ht1.
    destruct (transitionTask_effect i TaskWaitingRetry at_ reason s1 _ Ht1) as (s2 & Hrun2 & He2);
      [by cbn; rewrite Hst|].
    pose proof (task_effect_trans _ _ _ _ _ _ He He2) as He3.
    pose proof (task_effect_lookup _ _ _ _ _ Ht He3) as Ht3.
    pose proof (upd_task_effect i (set_task_ReadyAt (Some (time_add at_ (millis (IntervalMillis (Retry d))))))
      s2 _ Ht3) as He4.
    pose proof (task_effect_trans _ _ _ _ _ _ He3 He4) as He5.
    eexists. split; [go_step by exact Hrun2; cbv zeta; go_step; reflexivity|].
    eapply effect_advances; [done| |done| | |done| |exact He5].
    + eapply running_run; [done|done|by rewrite Hst|by rewrite Hst].
    + by rewrite Hst.
    + done.
    + apply task_mid_retry; [done|by cbn; rewrite Hst|]. rewrite close_last_attempts. cbn.
      rewrite close_attempts_length. split; [done|]. eexists.
      split; [by eapply close_attempts_last|by destruct to].
  - eapply fail_run; eauto.
Qed.
(** *** Success *)
Definition succeeded_task (result : ExecutionResult) (at_ : time) (t : TaskRun) : TaskRun :=
  task_after TaskSucceeded at_ (close_last result AttemptSucceeded at_ t).

Definition succeeds (i : nat) (t' : TaskRun) (at_ : time) (s s' : RunSnapshot) : Prop :=
  advances c s s' /\
  Tasks (Run s') = tasks_after_success c i t' at_ s /\
  RemainingDependencies (Run s') = remaining_after_success c i s /\
  statuses s' = after_success c i (statuses s) /\
  run_Status (Run s') = settled_status (statuses s').

Lemma next_upstream i l j : successors c !! i = Some l -> j ∈ l <-> edge (successors c) i j.
Proof. intros Hl. split; [intros Hj; by exists l|intros (l' & ? & ?); by simplify_eq]. Qed.

(** A successor whose counter is one is waiting for [i] only. *)
Lemma release_ready i j s r u :
  run_core c s -> run_Status (Run s) ≠ WorkflowCanceled -> statuses s !! i = Some TaskRunning ->
  edge (successors c) i j -> RemainingDependencies (Run s) !! j = Some r ->
  Tasks (Run s) !! j = Some u ->
  (0 < r)%Z /\ (r = 1%Z -> Status u = TaskWaitingDependencies) /\
  r = dep_count c (statuses s) j /\
  dep_count c (<[i := TaskSucceeded]> (statuses s)) j = (r - 1)%Z.
Proof.
  intros Hcore Hws Hi Hij Hr Hu. pose proof (rc_sched _ _ Hcore) as Hs.
  pose proof (sc_rem _ _ _ _ Hs _ _ Hr) as ->. pose proof (status_lookup _ _ _ Hu) as Hj.
  assert (Hcount : dep_count c (<[i := TaskSucceeded]> (statuses s)) j =
    (dep_count c (statuses s) j - 1)%Z).
  { rewrite (dep_count_succeed c Hc _ i j TaskRunning) by done. by rewrite bool_decide_eq_true_2. }
  split_and!; [eapply dep_count_pos_of; [done|done|by rewrite Hi]| |done|done].
  intros H1. rewrite H1, Z.sub_diag, (dep_count_zero c Hc) in Hcount.
  destruct (downstream_idle c Hc _ _ _ _ _ _ _ Hs Hws Hij Hi ltac:(intros E0; discriminate E0) Hj) as [|E]; [done|].
  pose proof (sc_status _ _ _ _ Hs j _ Hj) as Hok. rewrite E in Hok.
  destruct Hok as (k & st & Hkj & Hk & Hb).
  exfalso. assert (Hks : <[i:=TaskSucceeded]> (statuses s) !! k = Some TaskSucceeded) by by apply Hcount.
  rewrite list_lookup_insert_ne in Hks by (intros <-; rewrite Hi in Hk; by simplify_eq).
  by simplify_eq.
Qed.

Lemma succeed_statuses i l t' at_ s s2 s3 :
  run_core c s -> run_Status (Run s) ≠ WorkflowCanceled -> statuses s !! i = Some TaskRunning ->
  successors c !! i = Some l -> Status t' = TaskSucceeded ->
  task_effect i t' s s2 -> release_effect l at_ s2 s3 ->
  statuses s3 = after_success c i (statuses s).
Proof.
  intros Hcore Hws Hi Hl Ht' He2 He3. unfold statuses, after_success.
  rewrite (re_tasks _ _ _ _ He3), (te_tasks _ _ _ _ He2), (te_remaining _ _ _ _ He2).
  rewrite <-Ht', <-list_fmap_insert. apply list_eq. intros j.
  rewrite list_lookup_fmap, !list_lookup_imap, list_lookup_fmap.
  destruct (<[i:=t']> (Tasks (Run s)) !! j) as [u|] eqn:Hu; [|done]. cbn. f_equal.
  unfold release_task. rewrite (bool_decide_ext (j ∈ l) (edge (successors c) i j)) by by apply next_upstream.
  case_bool_decide as Hij; cbn; [|done].
  assert (Hne : j ≠ i) by (intros ->; by apply (cw_acyclic c Hc i), tc_once).
  rewrite list_lookup_insert_ne in Hu by done.
  destruct (lookup_lt_is_Some_2 (RemainingDependencies (Run s)) j) as [r Hr].
  { rewrite (sc_rem_length _ _ _ _ (rc_sched _ _ Hcore)), <-(run_core_length c s Hcore).
    by eapply lookup_lt_Some. }
  destruct (release_ready i j s r u Hcore Hws Hi Hij Hr Hu) as (_ & _ & _ & Hcount).
  rewrite list_fmap_insert, Ht'. fold (statuses s). rewrite Hcount, Hr.
  rewrite (bool_decide_ext (Some r = Some 1%Z) (r - 1 = 0)%Z); [by case_bool_decide|].
  split; [intros [= ->]; done|intros; f_equal; lia].
Qed.

Lemma success_core i t t' l d at_ s s2 s3 :
  run_wf c s -> Tasks (Run s) !! i = Some t -> Status t = TaskRunning ->
  run_Status (Run s) = WorkflowRunning -> successors c !! i = Some l ->
  def_Tasks (definition c) !! i = Some d -> task_ok d t' -> Status t' = TaskSucceeded ->
  task_effect i t' s s2 -> release_effect l at_ s2 s3 -> run_core c s3.
Proof.
  intros [Hcore _] Ht Hst Hws Hl Hd Hok Ht' He2 He3.
  pose proof (status_lookup _ _ _ Ht) as Hsti. rewrite Hst in Hsti.
  assert (Hnc : run_Status (Run s) ≠ WorkflowCanceled) by by rewrite Hws.
  eapply (run_fields_effect c s); [by etrans; [apply He2|apply He3]| | | |done].
  - rewrite (re_workflow _ _ _ _ He3). apply He2.
  - eapply tasks_ok_effect; [|apply He3|].
    { eapply tasks_ok_task_effect; [apply Hcore|exact He2|exact Hd|exact Hok]. }
    intros j u e Hu He Hoku. unfold release_task. case_bool_decide as Hj; cbn; [|done].
    case_bool_decide as Hr; [|done]. apply (next_upstream i l j Hl) in Hj.
    rewrite (te_remaining _ _ _ _ He2) in Hr. rewrite (te_tasks _ _ _ _ He2) in Hu.
    rewrite list_lookup_insert_ne in Hu by (intros ->; by apply (cw_acyclic c Hc j), tc_once).
    destruct (release_ready i j s _ u Hcore Hnc Hsti Hj Hr Hu) as (_ & Hw & _).
    destruct (task_definition c Hc s j u Hcore Hu) as (e' & He' & _ & Hmax). simplify_eq.
    apply task_ok_first; auto.
  - rewrite (succeed_statuses i l t' at_ s s2 s3) by done.
    eapply core_succeed; [done|apply Hcore|done|done| |].
    + rewrite (re_remaining _ _ _ _ He3), length_imap, (te_remaining _ _ _ _ He2). apply Hcore.
    + intros j r Hr. rewrite (re_remaining _ _ _ _ He3), (te_remaining _ _ _ _ He2), list_lookup_imap, Hr.
      cbn. unfold release_count.
      rewrite (bool_decide_ext (j ∈ l) (edge (successors c) i j)) by by apply next_upstream.
      f_equal. case_bool_decide; lia.
Qed.

Lemma succeed_run i t result at_ d s s1 :
  run_wf c s -> Tasks (Run s) !! i = Some t -> Status t = TaskRunning ->
  def_Tasks (definition c) !! i = Some d -> (exists a, last (Attempts t) = Some a) ->
  task_mid d (close_last result AttemptSucceeded at_ t) ->
  task_effect i (close_last result AttemptSucceeded at_ t) s s1 ->
  exists s', (_ ← transitionTask i TaskSucceeded at_ "execution succeeded";
              next ← deref (successors c !! i);
              _ ← for_each next (releaseSuccessor at_);
              _ ← settleWorkflowIfComplete at_; mret true) s1 = (s', Ok true) /\
    succeeds i (succeeded_task result at_ t) at_ s s'.
Proof.
  intros H Ht Hst Hd [a Ha] Hmid He.
  assert (Hws : run_Status (Run s) = WorkflowRunning).
  { eapply running_run; [done|done|by rewrite Hst|by rewrite Hst]. }
  assert (Hnc : run_Status (Run s) ≠ WorkflowCanceled) by by rewrite Hws.
  pose proof H as [Hcore _].
  pose proof (status_lookup _ _ _ Ht) as Hsti. rewrite Hst in Hsti.
  pose proof (task_effect_lookup _ _ _ _ _ Ht He) as Ht1.
  destruct (transitionTask_effect i TaskSucceeded at_ "execution succeeded" s1 _ Ht1) as (s2 & Hrun2 & He2);
    [by cbn; rewrite Hst|].
  pose proof (task_effect_trans _ _ _ _ _ _ He He2) as He3. fold (succeeded_task result at_ t) in He3.
  assert (Hok : task_ok d (succeeded_task result at_ t)).
  { apply task_mid_transition; [done|by cbn; rewrite Hst|done|]. rewrite close_last_attempts.
    eexists. by split; [by eapply close_attempts_last|]. }
  destruct (lookup_lt_is_Some_2 (successors c) i) as [l Hl].
  { rewrite (cw_succ_length c Hc), <-(run_core_length c s Hcore). by eapply lookup_lt_Some. }
  destruct (cw_adjacency c Hc i l Hl) as [Hnd Hrange].
  destruct (release_run l at_ s2 Hnd) as (s3 & Hrun3 & He4).
  { intros j Hj. apply (next_upstream i l j Hl) in Hj as Hij.
    destruct (upstream_range c Hc _ _ Hij) as [_ Hjn].
    destruct (lookup_lt_is_Some_2 (RemainingDependencies (Run s)) j) as [r Hr].
    { by rewrite (sc_rem_length _ _ _ _ (rc_sched _ _ Hcore)). }
    destruct (lookup_lt_is_Some_2 (Tasks (Run s)) j) as [u Hu]; [by rewrite (run_core_length c s Hcore)|].
    destruct (release_ready i j s r u Hcore Hnc Hsti Hij Hr Hu) as (Hpos & Hw & _).
    exists r. rewrite (te_remaining _ _ _ _ He3). split_and!; [done|done|]. intros E.
    exists u. rewrite (te_tasks _ _ _ _ He3), list_lookup_insert_ne
      by (intros ->; by apply (cw_acyclic c Hc j), tc_once).
    split; [done|]. by rewrite (Hw E). }
  assert (Hcore3 : run_core c s3).
  { by eapply (success_core i t (succeeded_task result at_ t) l d at_ s s2 s3). }
  assert (Hws3 : run_Status (Run s3) = WorkflowRunning).
  { pose proof (re_workflow _ _ _ _ He4) as W4. pose proof (te_workflow _ _ _ _ He3) as W3.
    injection W4 as W4 _ _. injection W3 as W3 _ _. congruence. }
  destruct (settle_run c Hc at_ s3 Hcore3 Hws3) as (s4 & Hrun4 & Hwf & F4 & T4 & R4 & S4).
  assert (Hsts4 : statuses s4 = statuses s3) by (unfold statuses; by rewrite T4).
  exists s4. split.
  { go_step by exact Hrun2. rewrite Hl. go_step. go_step by exact Hrun3. by go_step by exact Hrun4. }
  split_and!.
  - split; [done|]. etrans; [apply He3|]. etrans; [apply He4|done].
  - unfold tasks_after_success. rewrite Hl. cbn.
    by rewrite T4, (re_tasks _ _ _ _ He4), (te_remaining _ _ _ _ He3), (te_tasks _ _ _ _ He3).
  - unfold remaining_after_success. rewrite Hl. cbn.
    by rewrite R4, (re_remaining _ _ _ _ He4), (te_remaining _ _ _ _ He3).
  - rewrite Hsts4. by apply (succeed_statuses i l (succeeded_task result at_ t) at_ s s2 s3).
  - by rewrite S4, Hsts4.
Qed.
End operations.
