(* ===== verification/RunResults.v ===== *)
(** * Results, retries and cancellation: total correctness

    The entry points of src/workflow/distributed_state.go that finish an
    attempt, from the caller's point of view: a result for the running attempt
    is applied and has exactly the specified effect, any other result is
    ignored without touching the snapshot. *)
From S2P Require Import Prelude GoStrings Json Model State Graph Compiler Scheduling Distributed Effects RunInvariant RunOperations.
From stdpp Require Import relations.

(** A task record only moves forward: its key stays, a terminal record never
    changes, and a closed attempt is never rewritten. *)
Record task_evolves (t t' : TaskRun) : Prop := {
  ev_key_same : Key t' = Key t;
  ev_terminal : isTaskTerminal (Status t) = true -> t' = t;
  ev_closed : forall k a, Attempts t !! k = Some a -> att_Status a ≠ AttemptRunning ->
    Attempts t' !! k = Some a;
  ev_length : length (Attempts t) <= length (Attempts t');
}.

Definition evolves (s s' : RunSnapshot) : Prop :=
  length (Tasks (Run s')) = length (Tasks (Run s)) /\
  forall i t, Tasks (Run s) !! i = Some t -> exists t', Tasks (Run s') !! i = Some t' /\ task_evolves t t'.

#[export] Instance task_evolves_refl : Reflexive task_evolves.
Proof. by split. Qed.

Lemma task_evolves_after t t1 to at_ :
  task_evolves t t1 -> isTaskTerminal (Status t1) = false -> task_evolves t (task_after to at_ t1).
Proof.
  intros [H1 H2 H3 H4] Hnt. split; [done| |done|done]. intros Ht. rewrite (H2 Ht) in Hnt. congruence.
Qed.

Lemma task_evolves_close t result to at_ a :
  isTaskTerminal (Status t) = false -> last (Attempts t) = Some a -> att_Status a = AttemptRunning ->
  task_evolves t (close_last result to at_ t).
Proof.
  intros Hnt Ha Hr. split; [done|congruence| |cbn; by rewrite length_alter].
  intros k b Hk Hb. rewrite close_last_attempts.
  unfold close_attempts. rewrite list_lookup_alter_ne; [done|]. intros <-.
  rewrite last_lookup in Ha. by simplify_eq.
Qed.

Lemma task_evolves_append t a : isTaskTerminal (Status t) = false -> forall t0, task_evolves t0 t ->
  task_evolves t0 (append_attempt a t).
Proof.
  intros Hnt t0 [H1 H2 H3 H4].
  split; [done|intros Ht; rewrite (H2 Ht) in Hnt; congruence| |cbn; rewrite length_app; lia].
  intros k b Hk Hb. cbn. rewrite lookup_app_l; [by apply H3|]. eapply lookup_lt_Some. by apply H3.
Qed.

Lemma evolves_one i t' s s' t :
  Tasks (Run s) !! i = Some t -> Tasks (Run s') = <[i := t']> (Tasks (Run s)) -> task_evolves t t' ->
  evolves s s'.
Proof.
  intros Ht E Hev. split; [by rewrite E, length_insert|]. intros j u Hu. rewrite E.
  destruct (decide (j = i)) as [->|Hne].
  - simplify_eq. exists t'. split; [apply list_lookup_insert_eq; by eapply lookup_lt_Some|done].
  - exists u. by rewrite list_lookup_insert_ne.
Qed.

Lemma evolves_imap f s s' :
  Tasks (Run s') = imap f (Tasks (Run s)) ->
  (forall i t, Tasks (Run s) !! i = Some t -> task_evolves t (f i t)) -> evolves s s'.
Proof.
  intros E H. split; [by rewrite E, length_imap|]. intros i t Ht. exists (f i t).
  rewrite E, list_lookup_imap, Ht. split; [done|by apply H].
Qed.

Lemma evolves_imap_one f i t t' s s' :
  Tasks (Run s) !! i = Some t -> Tasks (Run s') = imap f (<[i := t']> (Tasks (Run s))) ->
  task_evolves t (f i t') ->
  (forall j u, j ≠ i -> Tasks (Run s) !! j = Some u -> task_evolves u (f j u)) -> evolves s s'.
Proof.
  intros Ht E Hi Hj. split; [by rewrite E, length_imap, length_insert|]. intros j u Hu.
  rewrite E, list_lookup_imap. destruct (decide (j = i)) as [->|Hne].
  - rewrite list_lookup_insert_eq by (by eapply lookup_lt_Some). simplify_eq. by exists (f i t').
  - rewrite list_lookup_insert_ne, Hu by done. exists (f j u). split; [done|by apply Hj].
Qed.

Lemma evolves_same s s' : Tasks (Run s') = Tasks (Run s) -> evolves s s'.
Proof. intros E. split; [by rewrite E|]. intros i t Ht. exists t. by rewrite E. Qed.

Section results.
Context (c : CompiledWorkflow) (Hc : compiled_wf c).

Lemma succeeds_evolves i t result at_ s s' :
  run_wf c s -> Tasks (Run s) !! i = Some t -> Status t = TaskRunning ->
  succeeds c i (succeeded_task result at_ t) at_ s s' -> evolves s s'.
Proof.
  intros H Ht Hst (_ & HT & _). destruct (running_attempt c Hc s i t H Ht Hst) as (a & Ha & Hr & _).
  assert (Hws : run_Status (Run s) = WorkflowRunning).
  { eapply running_run; [done|done|by rewrite Hst|by rewrite Hst]. }
  pose proof (status_lookup _ _ _ Ht) as Hsti. rewrite Hst in Hsti. unfold tasks_after_success in HT.
  destruct (lookup_lt_is_Some_2 (successors c) i) as [l Hl].
  { rewrite (cw_succ_length c Hc), <-(run_core_length c s (rw_core _ _ H)). by eapply lookup_lt_Some. }
  rewrite Hl in HT. cbn in HT. eapply (evolves_imap_one _ _ _ _ _ _ Ht HT).
  - unfold release_task. rewrite bool_decide_eq_false_2.
    + apply task_evolves_after; [|by cbn; rewrite Hst]. eapply task_evolves_close; [by rewrite Hst|done..].
    + intros Hi. apply (next_upstream c i l i Hl) in Hi. by apply (cw_acyclic c Hc i), tc_once.
  - intros j u Hne Hu. unfold release_task. case_bool_decide as Hj; cbn; [|done].
    case_bool_decide as Hr1; [|done]. apply (next_upstream c i l j Hl) in Hj.
    assert (Hnc : run_Status (Run s) ≠ WorkflowCanceled) by by rewrite Hws.
    destruct (release_ready c Hc i j s 1%Z u (rw_core _ _ H) Hnc Hsti Hj Hr1 Hu) as (_ & Hw & _).
    apply task_evolves_after; [done|]. by rewrite Hw.
Qed.

Lemma fails_evolves i t result to at_ s s' :
  run_wf c s -> Tasks (Run s) !! i = Some t -> Status t = TaskRunning ->
  fails c i (failed_task result to at_ t) at_ s s' -> evolves s s'.
Proof.
  intros H Ht Hst (_ & (reached & Hreach & HT & _) & _).
  destruct (running_attempt c Hc s i t H Ht Hst) as (a & Ha & Hr & _).
  eapply (evolves_imap_one _ _ _ _ _ _ Ht HT).
  - unfold skip_if. cbn. rewrite andb_false_r. apply task_evolves_after; [|by cbn; rewrite Hst].
    eapply task_evolves_close; [by rewrite Hst|done..].
  - intros j u Hne Hu. unfold skip_if. destruct (reached j); cbn; [|done].
    destruct (isTaskTerminal (Status u)) eqn:E; cbn; [done|]. by apply task_evolves_after.
Qed.

Lemma retries_or_fails_evolves i t d result to at_ s s' :
  run_wf c s -> Tasks (Run s) !! i = Some t -> Status t = TaskRunning ->
  retries_or_fails c i t d result to at_ s s' -> advances c s s' /\ evolves s s'.
Proof.
  intros H Ht Hst. unfold retries_or_fails. case_match.
  - intros (Hadv & [HT _] & _). split; [done|]. eapply evolves_one; [done|done|].
    destruct (running_attempt c Hc s i t H Ht Hst) as (a & Ha & Hr & _).
    assert (Hev : task_evolves t (task_after TaskWaitingRetry at_ (close_last result to at_ t))).
    { apply task_evolves_after; [|by cbn; rewrite Hst].
      eapply task_evolves_close; [by rewrite Hst|done..]. }
    destruct Hev as [H1 H2 H3 H4]. split; [done|by rewrite Hst|done|done].
  - intros Hf. split; [by apply Hf|]. by eapply fails_evolves.
Qed.

(** ** Applying a result *)
Definition applied (i : nat) (t : TaskRun) (d : TaskDefinition) (response : ExecutionResponse)
    (at_ : time) (s s' : RunSnapshot) : Prop :=
  let result := response_result response in
  match Kind response with
  | ResultSuccess => succeeds c i (succeeded_task result at_ t) at_ s s'
  | ResultTemporaryFailure => retries_or_fails c i t d result AttemptFailed at_ s s'
  | ResultPermanentFailure => fails c i (failed_task result AttemptFailed at_ t) at_ s s'
  | _ => False
  end.

Lemma apply_active i t d response at_ s :
  run_wf c s -> Tasks (Run s) !! i = Some t -> Status t = TaskRunning ->
  def_Tasks (definition c) !! i = Some d -> known_result (Kind response) = true ->
  exists s', ApplyAttemptResult (Some c) (Z.of_nat i) (Z.of_nat (length (Attempts t))) response at_ s
    = (s', Ok true) /\ applied i t d response at_ s s'.
Proof.
  intros H Ht Hst Hd Hk. destruct (running_attempt c Hc s i t H Ht Hst) as (a & Ha & Hr & Hn).
  pose proof (activeAttempt_run s i t a Ht Hst Ha Hr) as Hact.
  unfold ApplyAttemptResult. rewrite <-Hn. go_step by exact Hact. cbv zeta. rewrite Nat2Z.id, Hk. go_step.
  unfold applied. destruct (Kind response); try done.
  - destruct (close_running c s i t a d (response_result response) AttemptSucceeded at_ "execution succeeded"
      H Ht Hst Ha Hr Hd eq_refl) as (s1 & Hrun & He & Hmid).
    go_step by exact Hrun. eapply succeed_run; eauto.
  - destruct (close_running c s i t a d (response_result response) AttemptFailed at_
      "temporary execution failure" H Ht Hst Ha Hr Hd eq_refl) as (s1 & Hrun & He & Hmid).
    go_step by exact Hrun. rewrite Hn. eapply applyRetryDecision_run; eauto.
  - destruct (close_running c s i t a d (response_result response) AttemptFailed at_
      "permanent execution failure" H Ht Hst Ha Hr Hd eq_refl) as (s1 & Hrun & He & Hmid).
    go_step by exact Hrun. eapply fail_run; eauto.
Qed.

Lemma apply_stale i t number response at_ s :
  Tasks (Run s) !! i = Some t ->
  ~ (Status t = TaskRunning /\ exists a, last (Attempts t) = Some a /\ Number a = number /\
       att_Status a = AttemptRunning) ->
  ApplyAttemptResult (Some c) (Z.of_nat i) number response at_ s = (s, Ok false).
Proof.
  intros Ht Hno. unfold ApplyAttemptResult. go_step by exact (activeAttempt_stale _ _ _ _ Ht Hno). done.
Qed.

Lemma interrupt_active i t d at_ reason s :
  run_wf c s -> Tasks (Run s) !! i = Some t -> Status t = TaskRunning ->
  def_Tasks (definition c) !! i = Some d ->
  exists s', InterruptAttempt (Some c) (Z.of_nat i) (Z.of_nat (length (Attempts t))) at_ reason s
    = (s', Ok true) /\
    retries_or_fails c i t d (mkExecutionResult "" "interrupted" reason) AttemptInterrupted at_ s s'.
Proof.
  intros H Ht Hst Hd. destruct (running_attempt c Hc s i t H Ht Hst) as (a & Ha & Hr & Hn).
  pose proof (activeAttempt_run s i t a Ht Hst Ha Hr) as Hact.
  unfold InterruptAttempt. rewrite <-Hn. go_step by exact Hact. cbv zeta. rewrite Nat2Z.id.
  destruct (close_running c s i t a d (mkExecutionResult "" "interrupted" reason) AttemptInterrupted at_
    reason H Ht Hst Ha Hr Hd eq_refl) as (s1 & Hrun & He & Hmid).
  go_step by exact Hrun. rewrite Hn. eapply applyRetryDecision_run; eauto.
Qed.

Lemma timeout_active i t d at_ s :
  run_wf c s -> Tasks (Run s) !! i = Some t -> Status t = TaskRunning ->
  def_Tasks (definition c) !! i = Some d ->
  exists s', TimeoutAttempt (Some c) (Z.of_nat i) (Z.of_nat (length (Attempts t))) at_ s = (s', Ok true) /\
    retries_or_fails c i t d (mkExecutionResult "" "timeout" "execution timed out") AttemptTimedOut at_ s s'.
Proof.
  intros H Ht Hst Hd. destruct (running_attempt c Hc s i t H Ht Hst) as (a & Ha & Hr & Hn).
  pose proof (activeAttempt_run s i t a Ht Hst Ha Hr) as Hact.
  unfold TimeoutAttempt. rewrite <-Hn. go_step by exact Hact. cbv zeta. rewrite Nat2Z.id.
  destruct (close_running c s i t a d (mkExecutionResult "" "timeout" "execution timed out") AttemptTimedOut
    at_ "execution timed out" H Ht Hst Ha Hr Hd eq_refl) as (s1 & Hrun & He & Hmid).
  go_step by exact Hrun. rewrite Hn. eapply applyRetryDecision_run; eauto.
Qed.

(** ** Waking up a retry *)
Lemma retry_ready_run i t at_ ready_at a s :
  run_wf c s -> Tasks (Run s) !! i = Some t -> Status t = TaskWaitingRetry ->
  ReadyAt t = Some ready_at -> (ready_at <= at_)%Z -> last (Attempts t) = Some a ->
  exists s', MakeRetryReady (Z.of_nat i) (Number a) at_ s = (s', Ok true) /\ advances c s s' /\
    only_task i (task_after TaskReady at_ t) s s' /\ run_Status (Run s') = WorkflowRunning.
Proof.
  intros H Ht Hst Hra Hle Ha.
  destruct (transitionTask_effect i TaskReady at_ "retry interval elapsed" s t Ht) as (s' & Hrun & He);
    [by rewrite Hst|].
  destruct (task_definition c Hc s i t (rw_core _ _ H) Ht) as (d & Hd & Hok & _).
  exists s'. split.
  - unfold MakeRetryReady. go_step. rewrite (in_range _ _ _ Ht). go_step. rewrite Nat2Z.id, Ht. go_step.
    rewrite Hst, Hra, Ha. rewrite bool_decide_eq_false_2 by auto. cbn [orb]. unfold before.
    rewrite (proj2 (Z.ltb_ge _ _) Hle). by go_step by exact Hrun.
  - eapply effect_advances; [done|eapply running_run; [done|done|by rewrite Hst|by rewrite Hst]|done|
      by rewrite Hst|done|done| |done].
    apply task_ok_move; [done|by left|]. rewrite Hst. right; right. by left.
Qed.

(** ** Canceling the run *)
Lemma cancel_run at_ s :
  run_wf c s -> isWorkflowTerminal (run_Status (Run s)) = false ->
  exists s', CancelRunSnapshot s at_ = Ok s' /\ advances c s s' /\
    Tasks (Run s') = cancel_after at_ <$> Tasks (Run s) /\
    RemainingDependencies (Run s') = RemainingDependencies (Run s) /\
    run_Status (Run s') = WorkflowCanceled.
Proof.
  intros H Hnt. pose proof H as [Hcore Hag].
  destruct (CancelRunSnapshot_run at_ s) as (s' & Hrun & [F T R S Fin St]).
  { intros t Hin. by eapply core_known_status. }
  { destruct (run_Status (Run s)); done. }
  exists s'. split; [done|]. split_and!; [|done..]. split; [|done].
  assert (Hsts : statuses s' = after_cancel (statuses s)).
  { unfold statuses, after_cancel. rewrite T, <-!list_fmap_compose. apply list_fmap_ext.
    intros j u Hu. cbn. unfold cancel_after. by destruct (isTaskTerminal (Status u)) eqn:E; rewrite ?E. }
  destruct F as [Hid _ Haud]. injection Hid as ? ? ? Hdef ? ? ? ?.
  split.
  - split; [|rewrite S, Hsts, R|by apply Haud, Hcore|rewrite Hdef; apply Hcore|rewrite Fin, S; by split; [done|eexists]|].
    + intros i t d Ht Hd. rewrite T, list_lookup_fmap in Ht.
      destruct (Tasks (Run s) !! i) as [t0|] eqn:Ht0; [|done]. injection Ht as <-.
      apply task_ok_cancel. by eapply (rc_tasks _ _ Hcore).
    + eapply core_cancel; [apply Hcore|]. by intros E; rewrite E in Hnt.
    + rewrite S. rewrite !elem_of_cons, elem_of_nil. naive_solver.
  - rewrite S, Hsts. cbn. intros st (st' & -> & _)%list_elem_of_fmap. by destruct (isTaskTerminal st') eqn:E.
Qed.

Lemma cancel_evolves at_ s s' :
  run_wf c s -> Tasks (Run s') = cancel_after at_ <$> Tasks (Run s) -> evolves s s'.
Proof.
  intros H E. apply (evolves_imap (fun _ => cancel_after at_)).
  - rewrite E. apply list_eq. intros j. by rewrite list_lookup_imap, list_lookup_fmap.
  - intros i t Ht. unfold cancel_after. destruct (isTaskTerminal (Status t)) eqn:Hterm; [done|].
    destruct (Status t) eqn:Hst; try (by apply task_evolves_after; [|rewrite Hst]).
    destruct (running_attempt c Hc s i t H Ht Hst) as (a & Ha & Hr & _).
    rewrite Ha, bool_decide_eq_true_2 by done. apply task_evolves_after; [|by cbn; rewrite Hst].
    eapply task_evolves_close; [by rewrite Hst|done..].
Qed.
End results.
