(* ===== verification/RunProperties.v ===== *)
(** * Runs as a transition system

    [exec] gives every operation on a run snapshot as a transition, [step] is
    the transition relation of the callers (a snapshot is only replaced when
    the operation returned without error), and [reachable] are the snapshots a
    run can go through.  The theorems about all runs are at the end. *)
From S2P Require Import Prelude GoStrings Json Model State Graph Compiler Scheduling Distributed Effects RunInvariant RunOperations RunResults.
From stdpp Require Import relations.

Inductive run_op : Type :=
| OpStartRun (at_ : time)
| OpQueue (i : Z) (at_ : time)
| OpReturn (i : Z) (at_ : time) (reason : string)
| OpStart (i : Z) (at_ : time) (worker dispatch : string)
| OpPrepare (i : nat) (now1 now2 : time)
| OpApply (i number : Z) (response : ExecutionResponse) (at_ : time)
| OpInterrupt (i number : Z) (at_ : time) (reason : string)
| OpTimeout (i number : Z) (at_ : time)
| OpRetryReady (i number : Z) (at_ : time)
| OpCancel (at_ : time).

Definition exec (c : CompiledWorkflow) (op : run_op) : go RunSnapshot unit :=
  match op with
  | OpStartRun at_ => transitionWorkflow WorkflowRunning at_ "execution started"
  | OpQueue i at_ => QueueTask i at_
  | OpReturn i at_ reason => ReturnQueuedTaskToReady i at_ reason
  | OpStart i at_ worker dispatch => _ ← StartQueuedAttempt (Some c) i at_ worker dispatch; mret tt
  | OpPrepare i now1 now2 => _ ← prepareTask c i now1 now2; mret tt
  | OpApply i number response at_ => _ ← ApplyAttemptResult (Some c) i number response at_; mret tt
  | OpInterrupt i number at_ reason => _ ← InterruptAttempt (Some c) i number at_ reason; mret tt
  | OpTimeout i number at_ => _ ← TimeoutAttempt (Some c) i number at_; mret tt
  | OpRetryReady i number at_ => _ ← MakeRetryReady i number at_; mret tt
  | OpCancel at_ => fun s =>
    match CancelRunSnapshot s at_ with
    | Ok s' => (s', Ok tt)
    | Err e => (s, Err e)
    | Panic => (s, Panic)
    | Diverge => (s, Diverge)
    end
  end.

(** What the callers have checked: attempts are only started in a running run,
    only a queued task is returned to the ready state. *)
Definition enabled (op : run_op) (s : RunSnapshot) : Prop :=
  match op with
  | OpStart _ _ _ _ | OpPrepare _ _ _ => run_Status (Run s) = WorkflowRunning
  | OpReturn i _ _ => forall t, Tasks (Run s) !! Z.to_nat i = Some t -> Status t = TaskQueued
  | _ => True
  end.

Definition step (c : CompiledWorkflow) (s s' : RunSnapshot) : Prop :=
  exists op, enabled op s /\ exec c op s = (s', Ok tt).

Inductive reachable (c : CompiledWorkflow) : RunSnapshot -> Prop :=
| reachable_new id version now s :
  NewRunSnapshotForVersion id (Some c) version now = Ok s -> reachable c s
| reachable_step s s' : reachable c s -> step c s s' -> reachable c s'.

(** ** New runs *)
Lemma filter_all {A} (P : A -> Prop) `{!forall x, Decision (P x)} (l : list A) :
  (forall x, x ∈ l -> P x) -> filter P l = l.
Proof.
  induction l as [|x l IH]; intros Hall; [done|]. rewrite filter_cons, decide_True by (apply Hall; by left).
  by rewrite IH by (intros; apply Hall; by right).
Qed.

Definition initial_task (d : TaskDefinition) (ds : list nat) : TaskRun :=
  mkTaskRun (def_Key d)
    (if (Z.of_nat (length ds) =? 0)%Z then TaskReady else TaskWaitingDependencies) [] None None.

Lemma initTasks_run i tasks deps :
  (forall k, k < length tasks -> is_Some (deps !! (i + k))) ->
  exists ts rs, initTasks i tasks deps = Ok (ts, rs) /\ length ts = length tasks /\
    length rs = length tasks /\
    forall k d, tasks !! k = Some d -> exists ds, deps !! (i + k) = Some ds /\
      ts !! k = Some (initial_task d ds) /\ rs !! k = Some (Z.of_nat (length ds)).
Proof.
  revert i. induction tasks as [|d tasks IH]; intros i Hdeps; cbn [initTasks].
  { by exists [], []. }
  destruct (Hdeps 0) as [ds Hds]; [simpl; lia|]. rewrite Nat.add_0_r in Hds.
  destruct (IH (S i)) as (ts & rs & Hrun & Hl1 & Hl2 & Hin).
  { intros k Hk. specialize (Hdeps (S k)). rewrite Nat.add_succ_comm. apply Hdeps. simpl. lia. }
  rewrite Hds, Hrun. cbn. eexists _, _. split; [done|]. split_and!; [cbn; lia|cbn; lia|].
  intros [|k] e Hk; simplify_eq/=.
  - exists ds. by rewrite Nat.add_0_r.
  - rewrite <-Nat.add_succ_comm. by apply Hin.
Qed.

Section new_run.
Context (c : CompiledWorkflow) (Hc : compiled_wf c).

Lemma dep_count_initial sts j :
  TaskSucceeded ∉ sts -> dep_count c sts j = Z.of_nat (length (default [] (dependencies c !! j))).
Proof.
  intros Hno. unfold dep_count. do 2 f_equal. apply filter_all. intros i _ Hi.
  apply Hno. by eapply list_elem_of_lookup_2.
Qed.

Lemma newRunSnapshot_run id now :
  exists s, newRunSnapshot id c now = Ok s /\ run_wf c s /\ Events s = [] /\
    run_Status (Run s) = WorkflowPending /\ Revision (Run s) = 0%Z.
Proof.
  destruct (initTasks_run 0 (def_Tasks (definition c)) (dependencies c)) as (ts & rs & Hrun & Hl1 & Hl2 & Hin).
  { intros k Hk. apply lookup_lt_is_Some_2. by rewrite (cw_dep_length c Hc). }
  unfold newRunSnapshot. rewrite Hrun. eexists. split; [reflexivity|]. split_and!; [|done..].
  assert (Hlook : forall k t, ts !! k = Some t -> exists d ds, def_Tasks (definition c) !! k = Some d /\
    dependencies c !! k = Some ds /\ t = initial_task d ds /\ rs !! k = Some (Z.of_nat (length ds))).
  { intros k t Ht. destruct (lookup_lt_is_Some_2 (def_Tasks (definition c)) k) as [d Hd].
    { rewrite <-Hl1. by eapply lookup_lt_Some. }
    destruct (Hin k d Hd) as (ds & Hds & Ht' & Hr). cbn [Nat.add] in Hds.
    exists d, ds. split_and!; congruence. }
  assert (Hst : forall st, st ∈ Status <$> ts -> st = TaskWaitingDependencies \/ st = TaskReady).
  { intros st (t & -> & [k Hk]%list_elem_of_lookup)%list_elem_of_fmap.
    destruct (Hlook k t Hk) as (d & ds & _ & _ & -> & _). cbn. case_match; auto. }
  assert (Hns : TaskSucceeded ∉ Status <$> ts) by (intros Hin'; by destruct (Hst _ Hin')).
  split; [split; cbn|done].
  - intros k t d Ht Hd. destruct (Hlook k t Ht) as (d' & ds & Hd' & _ & -> & _). simplify_eq.
    pose proof (cw_tasks c Hc) as Hall. rewrite Forall_lookup in Hall.
    destruct (Hall k d Hd) as (_&_&_&_&Hm&_).
    split; cbn; [done|split; [done..|cbn; lia]| | |].
    + case_match; cbn; [split; [lia|done]|done].
    + case_match; (split; [by intros [? [=]]|done]).
    + case_match; (split; [by intros [? [=]]|done]).
  - split; unfold statuses; cbn; [by rewrite length_fmap|done| | |].
    + intros j r Hj. destruct (lookup_lt_is_Some_2 ts j) as [t Ht].
      { rewrite Hl1, <-Hl2. by eapply lookup_lt_Some. }
      destruct (Hlook j t Ht) as (d & ds & _ & Hds & _ & Hr). simplify_eq.
      rewrite dep_count_initial by done. by rewrite Hds.
    + intros j st Hj. rewrite list_lookup_fmap in Hj. destruct (ts !! j) as [t|] eqn:Ht; [|done].
      destruct (Hlook j t Ht) as (d & ds & _ & Hds & -> & _). injection Hj as <-. cbn.
      destruct (Z.eqb_spec (Z.of_nat (length ds)) 0); cbn; rewrite dep_count_initial, Hds by done; cbn; lia.
    + intros i j st Hi Hb. apply list_elem_of_lookup_2 in Hi. by destruct (Hst st Hi) as [-> | ->].
  - split; cbn; [intros [] ? [=]|done].
  - done.
  - split; [by intros [? [=]]|done].
  - rewrite !elem_of_cons, elem_of_nil. intros [|[|[|[]]]]; done.
Qed.

Lemma NewRun_wf id version now s :
  NewRunSnapshotForVersion id (Some c) version now = Ok s -> run_wf c s.
Proof.
  unfold NewRunSnapshotForVersion. intros H. go_inv.
  destruct (newRunSnapshot_run id now) as (s0 & Hs0 & [[H1 H2 H3 H4 H5 H6] Hag] & _). rewrite Hs0 in Hm. injection Hm as <-.
  split; [|exact Hag]. split; try assumption. by eapply audit_ok_ext; [..|exact H3].
Qed.
End new_run.

(** ** Every transition keeps the invariant *)
Section steps.
Context (c : CompiledWorkflow) (Hc : compiled_wf c) (Hcl : cloneable c).

Definition good_step (s s' : RunSnapshot) : Prop := run_wf c s' /\ frame s s' /\ evolves s s'.

Lemma good_refl s : run_wf c s -> good_step s s.
Proof. intros H. split_and!; [done|auto|by apply evolves_same]. Qed.

Lemma index_cases i s :
  out_of_range i s = true \/
  exists k t, i = Z.of_nat k /\ Tasks (Run s) !! k = Some t /\ out_of_range i s = false.
Proof.
  destruct (out_of_range i s) eqn:E; [by left|]. right. unfold out_of_range in E.
  rewrite orb_false_iff, Z.ltb_ge, Z.leb_gt in E.
  destruct (lookup_lt_is_Some_2 (Tasks (Run s)) (Z.to_nat i)) as [t Ht]; [lia|].
  exists (Z.to_nat i), t. split_and!; [lia|done|done].
Qed.

Lemma advances_one s s' i t t' :
  advances c s s' -> only_task i t' s s' -> Tasks (Run s) !! i = Some t -> task_evolves t t' ->
  good_step s s'.
Proof. intros [H F] [T _] Ht Hev. split_and!; [done|done|by eapply evolves_one]. Qed.

Lemma step_start s s' at_ reason :
  run_wf c s -> transitionWorkflow WorkflowRunning at_ reason s = (s', Ok tt) -> good_step s s'.
Proof.
  intros H Hrun. destruct (workflowTransitions (run_Status (Run s)) WorkflowRunning) eqn:Hl.
  - destruct (start_run c Hc reason at_ s H) as (s1 & Hrun1 & [H1 F1] & T1 & _).
    { by destruct (run_Status (Run s)). }
    rewrite Hrun in Hrun1. injection Hrun1 as <-. split_and!; [done|done|by apply evolves_same].
  - by rewrite (transitionWorkflow_illegal _ _ _ _ Hl) in Hrun.
Qed.

Lemma queue_ready s s' k t at_ :
  Tasks (Run s) !! k = Some t -> QueueTask (Z.of_nat k) at_ s = (s', Ok tt) -> Status t = TaskReady.
Proof.
  intros Ht Hrun. unfold QueueTask in Hrun. go_inv. apply transitionTask_inv in Hrun as (u & Hu & Hl & _).
  rewrite Nat2Z.id in Hu.
  assert (Hu' : Tasks (Run s) !! k = Some u); [|simplify_eq; by destruct (Status t)].
  match goal with Hx : (if bool_decide _ then _ else _) s = _ |- _ => revert Hx end.
  destruct (bool_decide (run_Status (Run s) = WorkflowPending)) eqn:E.
  - apply bool_decide_eq_true in E. rewrite transitionWorkflow_run by by rewrite E.
    intros [= E2]. subst s2. revert Hu. rewrite push_event_Tasks.
    unfold upd_Run, set_Run. cbn [Run]. by rewrite workflow_after_Tasks.
  - intros [= E2]. by subst s2.
Qed.

Lemma step_queue s s' i at_ :
  run_wf c s -> QueueTask i at_ s = (s', Ok tt) -> good_step s s'.
Proof.
  intros H Hrun. destruct (index_cases i s) as [Hr|(k & t & -> & Ht & Hr)].
  { unfold QueueTask in Hrun. go_inv. congruence. }
  pose proof (queue_ready _ _ _ _ _ Ht Hrun) as Hst.
  destruct (QueueTask_run c Hc k t at_ s H Ht Hst) as (s1 & Hrun1 & Hadv & Honly & _).
  rewrite Hrun in Hrun1. injection Hrun1 as <-. eapply advances_one; [done|done|done|].
  apply task_evolves_after; [done|by rewrite Hst].
Qed.

Lemma step_return s s' i at_ reason :
  run_wf c s -> enabled (OpReturn i at_ reason) s ->
  ReturnQueuedTaskToReady i at_ reason s = (s', Ok tt) -> good_step s s'.
Proof.
  intros H Hen Hrun. destruct (index_cases i s) as [Hr|(k & t & -> & Ht & Hr)].
  { unfold ReturnQueuedTaskToReady in Hrun. go_inv. congruence. }
  cbn in Hen. rewrite Nat2Z.id in Hen. pose proof (Hen t Ht) as Hst.
  destruct (ReturnQueued_run c Hc k t at_ reason s H Ht Hst) as (s1 & Hrun1 & Hadv & Honly & _).
  rewrite Hrun in Hrun1. injection Hrun1 as <-. eapply advances_one; [done|done|done|].
  apply task_evolves_after; [done|by rewrite Hst].
Qed.

(** Starting an attempt, both paths. *)
Lemma step_begin s s1 s2 k t a at_ reason :
  run_wf c s -> run_Status (Run s) = WorkflowRunning -> Tasks (Run s) !! k = Some t ->
  transitionTask k TaskRunning at_ reason s = (s1, Ok tt) -> appendAttempt k a s1 = (s2, Ok tt) ->
  Number a = (Z.of_nat (length (Attempts t)) + 1)%Z -> att_Status a = AttemptRunning ->
  att_FinishedAt a = None -> good_step s s2.
Proof.
  intros H Hws Ht Hrun1 Hrun2 Hn Hr Hf. pose proof Hrun1 as (u & Hu & Hl & _)%transitionTask_inv.
  simplify_eq. assert (Hst : Status t = TaskReady \/ Status t = TaskQueued)
    by (destruct (Status t); auto; done).
  destruct (task_definition c Hc s k t (rw_core _ _ H) Ht) as (d & Hd & _ & _).
  destruct (start_attempt c k t d a at_ reason s H Hws Ht Hst Hd Hn Hr Hf)
    as (s1' & s2' & Hr1 & Hr2 & Hadv & Honly & _).
  rewrite Hrun1 in Hr1. injection Hr1 as <-. rewrite Hrun2 in Hr2. injection Hr2 as <-.
  eapply advances_one; [done|done|done|]. apply task_evolves_append; [done|].
  apply task_evolves_after; [done|]. by destruct Hst as [-> | ->].
Qed.

Lemma executionRequest_same d k number s s' r :
  executionRequest d k number s = (s', Ok r) -> s' = s.
Proof.
  unfold executionRequest. intros H. go_inv. unfold lift in Hm0. by injection Hm0.
Qed.

Lemma step_claim s s' i at_ worker dispatch r :
  run_wf c s -> run_Status (Run s) = WorkflowRunning ->
  StartQueuedAttempt (Some c) i at_ worker dispatch s = (s', Ok r) -> good_step s s'.
Proof.
  intros H Hws Hrun. unfold StartQueuedAttempt in Hrun. go_inv.
  apply executionRequest_same in Hrun as ->.
  repeat match goal with u : unit |- _ => destruct u end.
  eapply step_begin; [exact H|exact Hws|eassumption|eassumption|eassumption|done..].
Qed.

Lemma step_prepare s s' k now1 now2 r :
  run_wf c s -> run_Status (Run s) = WorkflowRunning ->
  prepareTask c k now1 now2 s = (s', Ok r) -> good_step s s'.
Proof.
  intros H Hws Hrun. unfold prepareTask in Hrun. go_inv.
  repeat match goal with
    | u : unit |- _ => destruct u
    | E : executionRequest _ _ _ _ = _ |- _ => apply executionRequest_same in E as ->
    end.
  eapply step_begin; [exact H|exact Hws|eassumption|eassumption|eassumption|done..].
Qed.
(** Operations that finish an attempt: either stale, or applied. *)
Lemma running_cases s k t number :
  run_wf c s -> Tasks (Run s) !! k = Some t ->
  (Status t = TaskRunning /\ number = Z.of_nat (length (Attempts t))) \/
  ~ (Status t = TaskRunning /\ exists a, last (Attempts t) = Some a /\ Number a = number /\
       att_Status a = AttemptRunning).
Proof.
  intros H Ht. destruct (decide (Status t = TaskRunning)) as [Hst|]; [|right; naive_solver].
  destruct (running_attempt c Hc s k t H Ht Hst) as (a & Ha & Hr & Hn).
  destruct (decide (number = Z.of_nat (length (Attempts t)))); [by left|right].
  intros (_ & b & Hb & Hnb & _). by simplify_eq.
Qed.

Lemma applied_good k t d response at_ s s' :
  run_wf c s -> Tasks (Run s) !! k = Some t -> Status t = TaskRunning ->
  applied c k t d response at_ s s' -> good_step s s'.
Proof.
  intros H Ht Hst. unfold applied. destruct (Kind response); try done.
  - intros Hs. pose proof (succeeds_evolves c Hc _ _ _ _ _ _ H Ht Hst Hs).
    destruct Hs as [[? ?] _]. by split_and!.
  - intros Hs. by destruct (retries_or_fails_evolves c Hc _ _ _ _ _ _ _ _ H Ht Hst Hs) as [[? ?] ?].
  - intros Hs. pose proof (fails_evolves c Hc _ _ _ _ _ _ _ H Ht Hst Hs).
    destruct Hs as [[? ?] _]. by split_and!.
Qed.

Lemma step_apply s s' i number response at_ b :
  run_wf c s -> ApplyAttemptResult (Some c) i number response at_ s = (s', Ok b) -> good_step s s'.
Proof.
  intros H Hrun. destruct (index_cases i s) as [Hr|(k & t & -> & Ht & _)].
  { unfold ApplyAttemptResult, activeAttempt in Hrun. go_inv. congruence. }
  destruct (running_cases s k t number H Ht) as [[Hst ->]|Hno].
  - destruct (known_result (Kind response)) eqn:Hk.
    + destruct (task_definition c Hc s k t (rw_core _ _ H) Ht) as (d & Hd & _ & _).
      destruct (apply_active c Hc k t d response at_ s H Ht Hst Hd Hk) as (s1 & Hrun1 & Happ).
      rewrite Hrun in Hrun1. injection Hrun1 as <- _. by eapply applied_good.
    + destruct (running_attempt c Hc s k t H Ht Hst) as (a & Ha & Hr & Hn).
      unfold ApplyAttemptResult in Hrun. rewrite <-Hn in Hrun.
      erewrite bind_run in Hrun by (by eapply activeAttempt_run). cbv zeta in Hrun. rewrite Hk in Hrun.
      by go_inv.
  - rewrite (apply_stale c k t) in Hrun by done. injection Hrun as <- _. by apply good_refl.
Qed.

Lemma step_interrupt s s' i number at_ reason b :
  run_wf c s -> InterruptAttempt (Some c) i number at_ reason s = (s', Ok b) -> good_step s s'.
Proof.
  intros H Hrun. destruct (index_cases i s) as [Hr|(k & t & -> & Ht & _)].
  { unfold InterruptAttempt, activeAttempt in Hrun. go_inv. congruence. }
  destruct (running_cases s k t number H Ht) as [[Hst ->]|Hno].
  - destruct (task_definition c Hc s k t (rw_core _ _ H) Ht) as (d & Hd & _ & _).
    destruct (interrupt_active c Hc k t d at_ reason s H Ht Hst Hd) as (s1 & Hrun1 & Happ).
    rewrite Hrun in Hrun1. injection Hrun1 as <- _.
    by destruct (retries_or_fails_evolves c Hc _ _ _ _ _ _ _ _ H Ht Hst Happ) as [[? ?] ?].
  - unfold InterruptAttempt in Hrun. erewrite bind_run in Hrun by (by eapply activeAttempt_stale).
    injection Hrun as <- _. by apply good_refl.
Qed.

Lemma step_timeout s s' i number at_ b :
  run_wf c s -> TimeoutAttempt (Some c) i number at_ s = (s', Ok b) -> good_step s s'.
Proof.
  intros H Hrun. destruct (index_cases i s) as [Hr|(k & t & -> & Ht & _)].
  { unfold TimeoutAttempt, activeAttempt in Hrun. go_inv. congruence. }
  destruct (running_cases s k t number H Ht) as [[Hst ->]|Hno].
  - destruct (task_definition c Hc s k t (rw_core _ _ H) Ht) as (d & Hd & _ & _).
    destruct (timeout_active c Hc k t d at_ s H Ht Hst Hd) as (s1 & Hrun1 & Happ).
    rewrite Hrun in Hrun1. injection Hrun1 as <- _.
    by destruct (retries_or_fails_evolves c Hc _ _ _ _ _ _ _ _ H Ht Hst Happ) as [[? ?] ?].
  - unfold TimeoutAttempt in Hrun. erewrite bind_run in Hrun by (by eapply activeAttempt_stale).
    injection Hrun as <- _. by apply good_refl.
Qed.

Lemma step_retry s s' i number at_ b :
  run_wf c s -> MakeRetryReady i number at_ s = (s', Ok b) -> good_step s s'.
Proof.
  intros H Hrun. pose proof Hrun as Hrun0.
  destruct (index_cases i s) as [Hr|(k & t & -> & Ht & Hr)].
  { unfold MakeRetryReady in Hrun. go_inv. congruence. }
  unfold MakeRetryReady in Hrun. erewrite bind_run in Hrun by reflexivity. rewrite Hr in Hrun.
  do 2 (erewrite bind_run in Hrun by (rewrite ?Nat2Z.id, ?Ht; reflexivity)).
  destruct (Status t) eqn:Hst; try (injection Hrun as <- _; by apply good_refl).
  destruct (ReadyAt t) as [ra|] eqn:Hra; [|injection Hrun as <- _; by apply good_refl].
  destruct (last (Attempts t)) as [a|] eqn:Ha; [|injection Hrun as <- _; by apply good_refl].
  destruct (bool_decide (Number a ≠ number) || before at_ ra) eqn:E;
    [injection Hrun as <- _; by apply good_refl|].
  rewrite orb_false_iff, bool_decide_eq_false in E. destruct E as [E1 E2].
  apply dec_stable in E1. subst number. unfold before in E2. rewrite Z.ltb_ge in E2.
  destruct (retry_ready_run c Hc k t at_ ra a s H Ht Hst Hra E2 Ha) as (s1 & Hrun1 & Hadv & Honly & _).
  rewrite Hrun0 in Hrun1. injection Hrun1 as <- _. eapply advances_one; [done|done|done|].
  apply task_evolves_after; [done|by rewrite Hst].
Qed.

Lemma finished_not_canceled s at_ s' :
  run_wf c s -> isWorkflowTerminal (run_Status (Run s)) = true -> CancelRunSnapshot s at_ ≠ Ok s'.
Proof.
  intros H Hterm Hrun. unfold CancelRunSnapshot in Hrun. rewrite cloneRunSnapshot_id in Hrun. cbv zeta in Hrun.
  destruct (cancel_loop_run (length (Tasks (Run s))) at_ s (le_n _)) as (s1 & Hrun1 & [F T R W]).
  { intros t Hin. by eapply core_known_status; [apply H|]. }
  erewrite bind_run in Hrun by exact Hrun1. injection W as W _ _.
  rewrite transitionWorkflow_illegal in Hrun; [done|]. rewrite W. by destruct (run_Status (Run s)).
Qed.

Lemma step_cancel s s' at_ :
  run_wf c s -> CancelRunSnapshot s at_ = Ok s' -> good_step s s'.
Proof.
  intros H Hrun. destruct (isWorkflowTerminal (run_Status (Run s))) eqn:Hterm; [by destruct (finished_not_canceled s at_ s')|].
  destruct (cancel_run c at_ s H Hterm) as (s1 & Hrun1 & [? ?] & HT & _).
  rewrite Hrun in Hrun1. injection Hrun1 as <-. split_and!; [done|done|by eapply cancel_evolves].
Qed.

Lemma step_good s s' : run_wf c s -> step c s s' -> good_step s s'.
Proof.
  intros H (op & Hen & Hrun). destruct op; cbn [exec] in Hrun.
  - by eapply step_start.
  - by eapply step_queue.
  - by eapply step_return.
  - go_inv. by eapply step_claim.
  - go_inv. by eapply step_prepare.
  - go_inv. by eapply step_apply.
  - go_inv. by eapply step_interrupt.
  - go_inv. by eapply step_timeout.
  - go_inv. by eapply step_retry.
  - destruct (CancelRunSnapshot s at_) eqn:E; simplify_eq. by eapply step_cancel.
Qed.

Lemma reachable_run_wf s : reachable c s -> run_wf c s.
Proof.
  induction 1 as [id version now s Hnew|s s' _ IH Hstep]; [by eapply NewRun_wf|].
  by destruct (step_good s s' IH Hstep).
Qed.
End steps.

(** ** Executable runs *)
Definition enabledb (op : run_op) (s : RunSnapshot) : bool :=
  match op with
  | OpStart _ _ _ _ | OpPrepare _ _ _ => bool_decide (run_Status (Run s) = WorkflowRunning)
  | OpReturn i _ _ =>
    match Tasks (Run s) !! Z.to_nat i with
    | Some t => bool_decide (Status t = TaskQueued)
    | None => true
    end
  | _ => true
  end.

Lemma enabledb_ok op s : enabledb op s = true -> enabled op s.
Proof.
  destruct op; cbn; try done; try (by intros ?%bool_decide_eq_true).
  destruct (Tasks (Run s) !! Z.to_nat i); [|done]. intros Ht%bool_decide_eq_true u [= <-]. done.
Qed.

(** Runs a list of operations; [None] when one is refused. *)
Fixpoint run_ops (c : CompiledWorkflow) (ops : list run_op) (s : RunSnapshot) : option RunSnapshot :=
  match ops with
  | [] => Some s
  | op :: ops' =>
    if enabledb op s
    then match exec c op s with (s', Ok tt) => run_ops c ops' s' | _ => None end
    else None
  end.

Definition run_from_start (c : CompiledWorkflow) (ops : list run_op) : option RunSnapshot :=
  match NewRunSnapshotForVersion "run" (Some c) 1 1000 with
  | Ok s => run_ops c ops s
  | _ => None
  end.

Lemma run_ops_steps c ops s s' : run_ops c ops s = Some s' -> rtc (step c) s s'.
Proof.
  revert s. induction ops as [|op ops IH]; intros s H; cbn in H; [by injection H as <-|].
  destruct (enabledb op s) eqn:Hen; [|done]. destruct (exec c op s) as [s1 [[]| | |]] eqn:Hx; try done.
  eapply rtc_l; [exists op; split; [by apply enabledb_ok|exact Hx]|by apply IH].
Qed.

Lemma steps_reachable c s s' : reachable c s -> rtc (step c) s s' -> reachable c s'.
Proof. intros H Hr. induction Hr; [done|]. apply IHHr. by eapply reachable_step. Qed.

Lemma run_from_start_reachable c ops s : run_from_start c ops = Some s -> reachable c s.
Proof.
  unfold run_from_start. destruct (NewRunSnapshotForVersion _ _ _ _) as [s0| | |] eqn:E; try done.
  intros H%run_ops_steps. eapply steps_reachable; [|done]. by eapply reachable_new.
Qed.

Section many_steps.
Context (c : CompiledWorkflow) (Hc : compiled_wf c).

#[export] Instance evolves_preorder : PreOrder evolves.
Proof.
  split; [intros s; by apply evolves_same|]. intros s1 s2 s3 [L1 H1] [L2 H2]. split; [lia|].
  intros i t Ht. destruct (H1 i t Ht) as (t2 & Ht2 & [K1 T1 C1 N1]).
  destruct (H2 i t2 Ht2) as (t3 & Ht3 & [K2 T2 C2 N2]). exists t3. split; [done|].
  split; [congruence| | |lia].
  - intros Hterm. rewrite (T1 Hterm) in *. by apply T2.
  - intros k a Hk Hr. by apply C2; [apply C1|].
Qed.

Lemma steps_good s s' : run_wf c s -> rtc (step c) s s' -> good_step c s s'.
Proof.
  intros H Hr. induction Hr as [s|s s1 s2 Hstep _ IH]; [by apply good_refl|].
  destruct (step_good c Hc s s1 H Hstep) as (H1 & F1 & E1).
  destruct (IH H1) as (H2 & F2 & E2). split_and!; [done|by etrans|by etrans].
Qed.
End many_steps.
