(* ===== verification/RunTheorems.v ===== *)
(** * Theorems about runs

    What holds of every snapshot a run of a compiled workflow can reach, and
    what each operation does in such a snapshot.  The operations are those of
    src/workflow/distributed_state.go; the transition system is that of
    RunProperties.v. *)
From S2P Require Import Prelude GoStrings Json Model State Graph Compiler Scheduling Distributed Effects RunInvariant RunOperations RunResults RunProperties.
From stdpp Require Import relations.

(** ** Sample runs of the diamond workflow *)
Definition success_response : ExecutionResponse := mkExecutionResponse ResultSuccess "done" "" "".
Definition temporary_response : ExecutionResponse := mkExecutionResponse ResultTemporaryFailure "" "busy" "try later".
Definition permanent_response : ExecutionResponse := mkExecutionResponse ResultPermanentFailure "" "bad" "broken".

Definition sample_run (ops : list run_op) : RunSnapshot :=
  default zero_RunSnapshot (run_from_start compiled_diamond ops).
Definition ops_a_running : list run_op := [OpQueue 0 1001; OpStart 0 1002 "w" "d1"].
Definition ops_b_running : list run_op :=
  ops_a_running ++ [OpApply 0 1 success_response 1003; OpQueue 1 1004; OpStart 1 1005 "w" "d2"].
Definition ops_b_failed : list run_op :=
  ops_b_running ++ [OpApply 1 1 permanent_response 1006].
Definition ops_b_waiting : list run_op :=
  ops_b_running ++ [OpApply 1 1 temporary_response 1006].
Definition ops_done : list run_op :=
  ops_b_running ++ [OpApply 1 1 success_response 1006; OpQueue 2 1007; OpStart 2 1008 "w" "d3";
    OpApply 2 1 success_response 1009; OpQueue 3 1010; OpStart 3 1011 "w" "d4"; OpApply 3 1 success_response 1012].

Definition nth_task (s : RunSnapshot) (i : nat) : TaskRun := default zero_TaskRun (Tasks (Run s) !! i).
Definition nth_definition (c : CompiledWorkflow) (i : nat) : TaskDefinition :=
  default (sample_task "" [] 1) (def_Tasks (definition c) !! i).

Ltac sample_reachable ops :=
  apply (run_from_start_reachable compiled_diamond ops); vm_compute; reflexivity.

Lemma compiled_inputs def c : Compile def = Ok c -> cloneable c.
Proof. intros H i d Hd. by eapply Compile_inputs. Qed.

Lemma compiled_ok def c : Compile def = Ok c -> compiled_wf c.
Proof. intros H. by apply Compile_sound in H as (_ & ? & _). Qed.

(** ** Lemmas behind the theorems *)
Section facts.
Context (c : CompiledWorkflow) (Hc : compiled_wf c).

Lemma skipped_has_failed_ancestor s j :
  run_wf c s -> statuses s !! j = Some TaskSkipped ->
  exists i, tc (edge (successors c)) i j /\ statuses s !! i = Some TaskFailed.
Proof.
  intros [Hcore _]. pose proof (rc_sched _ _ Hcore) as Hs.
  destruct (acyclic_rank _ (cw_adjacency c Hc) (cw_acyclic c Hc)) as [rank Hrank].
  revert j. assert (Hind : forall m j, rank j < m -> statuses s !! j = Some TaskSkipped ->
    exists i, tc (edge (successors c)) i j /\ statuses s !! i = Some TaskFailed).
  { induction m as [|m IH]; intros j Hm Hj; [lia|].
    pose proof (sc_status _ _ _ _ Hs j _ Hj) as (i & st & Hij & Hi & Hb).
    destruct st; try done; [exists i; split; [by apply tc_once|done]|].
    pose proof (Hrank i j Hij). destruct (IH i) as (k & Htc & Hk); [lia|done|].
    exists k. split; [by eapply tc_r|done]. }
  intros j. apply (Hind (S (rank j))). lia.
Qed.

Lemma broken_propagates s i j st :
  run_wf c s -> statuses s !! i = Some st -> broken st = true -> tc (edge (successors c)) i j ->
  statuses s !! j = Some TaskSkipped.
Proof.
  intros [Hcore _] Hi Hb Htc. pose proof (rc_sched _ _ Hcore) as Hs. revert st Hi Hb.
  induction Htc as [i j Hij|i k j Hik _ IH]; intros st Hi Hb.
  - by eapply (sc_propagated _ _ _ _ Hs).
  - eapply IH; [by eapply (sc_propagated _ _ _ _ Hs)|done].
Qed.

Lemma started_deps s i t :
  run_wf c s -> Tasks (Run s) !! i = Some t -> active (Status t) = true \/ Status t = TaskSucceeded \/ Status t = TaskFailed ->
  forall j, edge (successors c) j i -> statuses s !! j = Some TaskSucceeded.
Proof.
  intros [Hcore _] Ht Hst j Hji. pose proof (rc_sched _ _ Hcore) as Hs.
  pose proof (sc_status _ _ _ _ Hs i _ (status_lookup _ _ _ Ht)) as Hok.
  assert (Hz : dep_count c (statuses s) i = 0%Z).
  { destruct (Status t); cbn in Hok; try done; by destruct Hst as [?|[?|?]]. }
  rewrite (dep_count_zero c Hc) in Hz. by apply Hz.
Qed.

(** Applying a result closes the attempt, in every branch. *)
Lemma applied_closes i t d response at_ s s' :
  run_wf c s -> Tasks (Run s) !! i = Some t -> Status t = TaskRunning ->
  applied c i t d response at_ s s' ->
  exists t' a, Tasks (Run s') !! i = Some t' /\
    Attempts t' !! pred (length (Attempts t)) = Some a /\ att_Status a ≠ AttemptRunning.
Proof.
  intros H Ht Hst Happ. destruct (running_attempt c Hc s i t H Ht Hst) as (a & Ha & Hr & Hn).
  assert (Hclosed : forall result to, to ≠ AttemptRunning ->
    exists b, close_attempts result to at_ (Attempts t) !! pred (length (Attempts t)) = Some b /\
      att_Status b ≠ AttemptRunning).
  { intros result to Hto. pose proof (close_attempts_last result to at_ _ _ Ha) as Hl.
    rewrite last_lookup, close_attempts_length in Hl. by eexists. }
  pose proof (lookup_lt_Some _ _ _ Ht) as Hlt. unfold applied in Happ.
  destruct (Kind response); try done.
  - destruct Happ as (_ & HT & _). unfold tasks_after_success in HT.
    destruct (Hclosed (response_result response) AttemptSucceeded ltac:(intros E0; discriminate E0)) as (b & Hb & Hbs).
    eexists _, b. rewrite HT, list_lookup_imap, list_lookup_insert_eq by done. cbn.
    split; [reflexivity|]. unfold release_task. by case_match.
  - destruct (Hclosed (response_result response) AttemptFailed ltac:(intros E0; discriminate E0)) as (b & Hb & Hbs).
    unfold retries_or_fails in Happ. case_match.
    + destruct Happ as (_ & [HT _] & _). eexists _, b.
      rewrite HT, list_lookup_insert_eq by done. by split_and!.
    + destruct Happ as (_ & (reached & _ & HT & _) & _). eexists _, b.
      rewrite HT, list_lookup_imap, list_lookup_insert_eq by done. cbn. split; [reflexivity|].
      unfold skip_if. by case_match.
  - destruct (Hclosed (response_result response) AttemptFailed ltac:(intros E0; discriminate E0)) as (b & Hb & Hbs).
    destruct Happ as (_ & (reached & _ & HT & _) & _). eexists _, b.
    rewrite HT, list_lookup_imap, list_lookup_insert_eq by done. cbn. split; [reflexivity|].
    unfold skip_if. by case_match.
Qed.

(** Attempt [number] of a task whose record at that position is closed is stale. *)
Lemma closed_is_stale s i t a k :
  run_wf c s -> Tasks (Run s) !! i = Some t -> Attempts t !! k = Some a -> att_Status a ≠ AttemptRunning ->
  ~ (Status t = TaskRunning /\ exists b, last (Attempts t) = Some b /\
       Number b = (Z.of_nat k + 1)%Z /\ att_Status b = AttemptRunning).
Proof.
  intros H Ht Hk Hr (Hst & b & Hb & Hn & Hrb).
  destruct (task_definition c Hc s i t (rw_core _ _ H) Ht) as (d & _ & Hok & _).
  rewrite last_lookup in Hb. rewrite (aw_numbers _ _ (tk_attempts _ _ Hok) _ _ Hb) in Hn.
  assert (E : pred (length (Attempts t)) = k) by lia. rewrite E in Hb. by simplify_eq.
Qed.

Lemma terminal_no_active s i t :
  run_wf c s -> isWorkflowTerminal (run_Status (Run s)) = true -> Tasks (Run s) !! i = Some t ->
  active (Status t) = false.
Proof.
  intros H Hterm Ht. destruct (active (Status t)) eqn:E; [|done].
  destruct (active_run c s i t H Ht E) as [E'|[E' _]]; by rewrite E' in Hterm.
Qed.

Lemma terminal_stale s i t number :
  run_wf c s -> isWorkflowTerminal (run_Status (Run s)) = true -> Tasks (Run s) !! i = Some t ->
  activeAttempt (Z.of_nat i) number s = (s, Ok None).
Proof.
  intros H Hterm Ht. pose proof (terminal_no_active s i t H Hterm Ht) as Hna.
  apply (activeAttempt_stale s i t); [done|]. intros [E _]. by rewrite E in Hna.
Qed.

Lemma terminal_step s s' :
  run_wf c s -> isWorkflowTerminal (run_Status (Run s)) = true -> step c s s' -> s' = s.
Proof.
  intros H Hterm (op & Hen & Hrun).
  assert (Hact : forall i b, activeAttempt i b s = (s, Ok None) \/ out_of_range i s = true).
  { intros i b. destruct (index_cases i s) as [?|(k & t & -> & Ht & _)]; [by right|left].
    by eapply terminal_stale. }
  destruct op; cbn [exec] in Hrun.
  - rewrite transitionWorkflow_illegal in Hrun; [done|]. by destruct (run_Status (Run s)).
  - unfold QueueTask in Hrun. go_inv.
    match goal with Hx : (if bool_decide _ then _ else _) s = (?s1, _), Hy : bool_decide _ = false |- _ =>
      rewrite bool_decide_eq_false_2 in Hx by (intros E; by rewrite E in Hterm);
      assert (s1 = s) as -> by (by injection Hx);
      rewrite bool_decide_eq_false in Hy; destruct Hy; intros E; by rewrite E in Hterm
    end.
  - cbn in Hen. unfold ReturnQueuedTaskToReady in Hrun. go_inv.
    destruct (index_cases i s) as [?|(k & t & -> & Ht & _)]; [congruence|]. rewrite Nat2Z.id in Hen.
    pose proof (terminal_no_active s k t H Hterm Ht) as Hna. by rewrite (Hen t Ht) in Hna.
  - cbn in Hen. by rewrite Hen in Hterm.
  - cbn in Hen. by rewrite Hen in Hterm.
  - go_inv. unfold ApplyAttemptResult in Hm. destruct (Hact i number) as [E|E].
    + erewrite bind_run in Hm by exact E. by injection Hm.
    + unfold activeAttempt in Hm. go_inv. congruence.
  - go_inv. unfold InterruptAttempt in Hm. destruct (Hact i number) as [E|E].
    + erewrite bind_run in Hm by exact E. by injection Hm.
    + unfold activeAttempt in Hm. go_inv. congruence.
  - go_inv. unfold TimeoutAttempt in Hm. destruct (Hact i number) as [E|E].
    + erewrite bind_run in Hm by exact E. by injection Hm.
    + unfold activeAttempt in Hm. go_inv. congruence.
  - go_inv. unfold MakeRetryReady in Hm. go_inv.
    destruct (index_cases i s) as [?|(k & t & -> & Ht & _)]; [congruence|]. rewrite Nat2Z.id in *.
    pose proof (terminal_no_active s k t H Hterm Ht) as Hna. simplify_eq.
    match goal with E : active (Status ?u) = false |- _ => destruct (Status u); try done end; by injection Hm.
  - destruct (CancelRunSnapshot s at_) eqn:E; simplify_eq. exfalso.
    unfold CancelRunSnapshot in E. rewrite cloneRunSnapshot_id in E. cbv zeta in E.
    destruct (cancel_loop_run (length (Tasks (Run s))) at_ s (le_n _)) as (s1 & Hrun1 & [F T R W]).
    { intros t Hin. by eapply core_known_status; [apply H|]. }
    erewrite bind_run in E by exact Hrun1. injection W as W _ _.
    rewrite transitionWorkflow_illegal in E; [done|]. rewrite W. by destruct (run_Status (Run s)).
Qed.
End facts.

(** ** Properties *)







(** dependencies come first.  A task that was ever made ready or started
    (and not canceled) has all its direct dependencies succeeded. *)
Theorem dependencies_first def c s i t j :
  Compile def = Ok c -> reachable c s -> Tasks (Run s) !! i = Some t ->
  active (Status t) = true \/ Status t = TaskSucceeded \/ Status t = TaskFailed ->
  edge (successors c) j i -> statuses s !! j = Some TaskSucceeded.
Proof.
  intros Hcomp Hreach Ht Hst. pose proof (compiled_ok _ _ Hcomp) as Hc.
  by eapply (started_deps c Hc s i t (reachable_run_wf c Hc s Hreach)).
Qed.

Lemma dependencies_first_witness : statuses (sample_run ops_b_running) !! 0 = Some TaskSucceeded.
Proof.
  apply (dependencies_first diamond_workflow compiled_diamond (sample_run ops_b_running) 1
    (nth_task (sample_run ops_b_running) 1)).
  - apply compile_diamond.
  - sample_reachable ops_b_running.
  - vm_compute; reflexivity.
  - left; vm_compute; reflexivity.
  - exists [1; 2]. split; [vm_compute; reflexivity|]. left.
Defined.

(** failure isolation.  The skipped tasks are exactly those downstream of a
    failed task: every descendant of a failed task is skipped, and a skipped
    task has a failed ancestor. *)
Theorem failure_isolation def c s j :
  Compile def = Ok c -> reachable c s ->
  statuses s !! j = Some TaskSkipped <->
  exists i, tc (edge (successors c)) i j /\ statuses s !! i = Some TaskFailed.
Proof.
  intros Hcomp Hreach. pose proof (compiled_ok _ _ Hcomp) as Hc.
  pose proof (reachable_run_wf c Hc s Hreach) as H. split.
  - by apply skipped_has_failed_ancestor.
  - intros (i & Htc & Hi). by eapply broken_propagates.
Qed.

Lemma failure_isolation_witness :
  exists i, tc (edge (successors compiled_diamond)) i 3 /\
    statuses (sample_run ops_b_failed) !! i = Some TaskFailed.
Proof.
  apply (failure_isolation diamond_workflow compiled_diamond (sample_run ops_b_failed) 3).
  - apply compile_diamond.
  - sample_reachable ops_b_failed.
  - vm_compute; reflexivity.
Defined.

(** C34: no deadlock.  As long as a reachable run is not over, some task is
    ready, queued, running or waiting for a retry timer; a run whose tasks are
    all finished is over. *)
Theorem run_progress def c s :
  Compile def = Ok c -> reachable c s -> isWorkflowTerminal (run_Status (Run s)) = false ->
  exists i t, Tasks (Run s) !! i = Some t /\ active (Status t) = true.
Proof.
  intros Hcomp Hreach Hnt. pose proof (compiled_ok _ _ Hcomp) as Hc.
  apply (unfinished_active c Hc s); [by apply reachable_run_wf|done].
Qed.

Lemma run_progress_witness :
  exists i t, Tasks (Run (sample_run ops_b_failed)) !! i = Some t /\ active (Status t) = true.
Proof.
  apply (run_progress diamond_workflow compiled_diamond).
  - apply compile_diamond.
  - sample_reachable ops_b_failed.
  - vm_compute; reflexivity.
Defined.

(** attempts are bounded and numbered.  A task never has more attempts than
    its retry policy allows, they are numbered 1, 2, 3, ..., at most the last
    one is running, and it is running only while the task is. *)
Theorem attempts_bounded def c s i t d :
  Compile def = Ok c -> reachable c s -> Tasks (Run s) !! i = Some t ->
  def_Tasks (definition c) !! i = Some d ->
  (Z.of_nat (length (Attempts t)) <= MaxAttempts (Retry d))%Z /\
  forall k a, Attempts t !! k = Some a ->
    Number a = (Z.of_nat k + 1)%Z /\
    (att_Status a = AttemptRunning -> S k = length (Attempts t) /\ Status t = TaskRunning).
Proof.
  intros Hcomp Hreach Ht Hd. pose proof (compiled_ok _ _ Hcomp) as Hc.
  pose proof (rc_tasks _ _ (rw_core _ _ (reachable_run_wf c Hc s Hreach)) i t d Ht Hd) as [_ [Hn Hp _ Hl] Hlast _ _].
  split; [done|]. intros k a Hk. split; [by apply Hn|]. intros Hr.
  assert (E : S k = length (Attempts t)).
  { pose proof (lookup_lt_Some _ _ _ Hk). destruct (decide (S k < length (Attempts t))); [|lia].
    pose proof (Hp k a Hk l) as Hret. by rewrite Hr in Hret. }
  split; [done|]. assert (Ha : last (Attempts t) = Some a).
  { rewrite last_lookup, <-E. done. }
  destruct (Status t); cbn in Hlast; try done.
  - by rewrite Hlast in Hk.
  - destruct Hlast as [_ Hx]. specialize (Hx a Ha). by rewrite Hr in Hx.
  - destruct Hlast as [_ Hx]. specialize (Hx a Ha). by rewrite Hr in Hx.
  - destruct Hlast as (_ & b & Hb & Hx). simplify_eq. by rewrite Hr in Hx.
  - destruct Hlast as (b & Hb & Hx). simplify_eq. congruence.
  - destruct Hlast as (b & Hb & Hx & _). simplify_eq. by rewrite Hr in Hx.
  - destruct (Hlast a Ha) as [Hx|Hx]; [by rewrite Hr in Hx|congruence].
  - by rewrite Hlast in Hk.
Qed.

Lemma attempts_bounded_witness :
  (Z.of_nat (length (Attempts (nth_task (sample_run ops_b_waiting) 1))) <= 2)%Z.
Proof.
  apply (attempts_bounded diamond_workflow compiled_diamond (sample_run ops_b_waiting) 1
    (nth_task (sample_run ops_b_waiting) 1) (nth_definition compiled_diamond 1)).
  - apply compile_diamond.
  - sample_reachable ops_b_waiting.
  - vm_compute; reflexivity.
  - vm_compute; reflexivity.
Defined.

(** C38: history is append-only.  Along any steps of a run the audit log only
    grows and stays numbered 1, 2, 3, ..., a finished task record never changes
    again, a closed attempt is never rewritten, and the identity of the run
    stays the same. *)
Theorem history_append_only def c s s' :
  Compile def = Ok c -> reachable c s -> rtc (step c) s s' ->
  (exists evs, Events s' = Events s ++ evs) /\ audit_ok s' /\
  identity_fields s' = identity_fields s /\ evolves s s'.
Proof.
  intros Hcomp Hreach Hsteps. pose proof (compiled_ok _ _ Hcomp) as Hc.
  destruct (steps_good c Hc s s' (reachable_run_wf c Hc s Hreach) Hsteps) as (H' & [Hid Hev Ha] & He).
  split_and!; [done| |done|done]. apply H'.
Qed.

Lemma history_append_only_witness :
  exists evs, Events (sample_run ops_done) = Events (sample_run ops_b_running) ++ evs.
Proof.
  apply (history_append_only diamond_workflow compiled_diamond (sample_run ops_b_running) (sample_run ops_done)).
  - apply compile_diamond.
  - sample_reachable ops_b_running.
  - apply (run_ops_steps compiled_diamond [OpApply 1 1 success_response 1006; OpQueue 2 1007;
      OpStart 2 1008 "w" "d3"; OpApply 2 1 success_response 1009; OpQueue 3 1010;
      OpStart 3 1011 "w" "d4"; OpApply 3 1 success_response 1012]).
    vm_compute; reflexivity.
Defined.

(** ownership loss and timeouts.  Interrupting or timing out the running
    attempt is always accepted; the attempt is closed as interrupted or timed
    out and the task is retried while attempts are left, and fails (skipping
    its descendants) otherwise. *)
Theorem lost_attempt_correct def c s i t d at_ reason :
  Compile def = Ok c -> reachable c s -> Tasks (Run s) !! i = Some t -> Status t = TaskRunning ->
  def_Tasks (definition c) !! i = Some d ->
  (exists s', InterruptAttempt (Some c) (Z.of_nat i) (Z.of_nat (length (Attempts t))) at_ reason s
     = (s', Ok true) /\ run_wf c s' /\
     retries_or_fails c i t d (mkExecutionResult "" "interrupted" reason) AttemptInterrupted at_ s s') /\
  (exists s', TimeoutAttempt (Some c) (Z.of_nat i) (Z.of_nat (length (Attempts t))) at_ s
     = (s', Ok true) /\ run_wf c s' /\
     retries_or_fails c i t d (mkExecutionResult "" "timeout" "execution timed out") AttemptTimedOut at_ s s').
Proof.
  intros Hcomp Hreach Ht Hst Hd. pose proof (compiled_ok _ _ Hcomp) as Hc.
  pose proof (reachable_run_wf c Hc s Hreach) as H. split.
  - destruct (interrupt_active c Hc i t d at_ reason s H Ht Hst Hd) as (s' & Hrun & Hr).
    destruct (retries_or_fails_evolves c Hc _ _ _ _ _ _ _ _ H Ht Hst Hr) as [[? ?] _]. by exists s'.
  - destruct (timeout_active c Hc i t d at_ s H Ht Hst Hd) as (s' & Hrun & Hr).
    destruct (retries_or_fails_evolves c Hc _ _ _ _ _ _ _ _ H Ht Hst Hr) as [[? ?] _]. by exists s'.
Qed.

Lemma lost_attempt_correct_witness :
  exists s', TimeoutAttempt (Some compiled_diamond) 1 1 1010 (sample_run ops_b_running) = (s', Ok true) /\
    run_wf compiled_diamond s' /\
    retries_or_fails compiled_diamond 1 (nth_task (sample_run ops_b_running) 1) (nth_definition compiled_diamond 1)
      (mkExecutionResult "" "timeout" "execution timed out") AttemptTimedOut 1010 (sample_run ops_b_running) s'.
Proof.
  apply (lost_attempt_correct diamond_workflow compiled_diamond (sample_run ops_b_running) 1
    (nth_task (sample_run ops_b_running) 1) (nth_definition compiled_diamond 1) 1010 "").
  - apply compile_diamond.
  - sample_reachable ops_b_running.
  - vm_compute; reflexivity.
  - vm_compute; reflexivity.
  - vm_compute; reflexivity.
Defined.

(** claiming.  Starting a queued task with named worker and dispatch always
    succeeds: the task is running with a fresh attempt, numbered after the
    earlier ones and tagged with the worker and the dispatch, nothing else
    changes, and the returned request carries the task's action, a private
    copy of its input and the attempt number. *)
Theorem StartQueuedAttempt_correct def c s i t d at_ worker dispatch :
  Compile def = Ok c -> reachable c s -> Tasks (Run s) !! i = Some t -> Status t = TaskQueued ->
  def_Tasks (definition c) !! i = Some d -> worker ≠ "" -> dispatch ≠ "" ->
  exists s' input, cloneTaskInput (def_Input d) = Ok input /\
    StartQueuedAttempt (Some c) (Z.of_nat i) at_ worker dispatch s =
      (s', Ok (mkExecutionRequest (DefinitionID (Run s)) (ID (Run s)) (def_Key d) (def_Action d) input
                 (Z.of_nat (length (Attempts t)) + 1))) /\
    advances c s s' /\ only_task i (started_task at_ (new_attempt t worker dispatch at_) t) s s' /\
    run_Status (Run s') = WorkflowRunning.
Proof.
  intros Hcomp Hreach Ht Hst Hd Hw Hdi. pose proof (compiled_ok _ _ Hcomp) as Hc.
  apply StartQueued_run; try done.
  - by apply reachable_run_wf.
  - by eapply compiled_inputs.
Qed.

Lemma StartQueuedAttempt_correct_witness :
  exists s' input, cloneTaskInput (def_Input (nth_definition compiled_diamond 0)) = Ok input /\
    StartQueuedAttempt (Some compiled_diamond) 0 1002 "w" "d" (sample_run [OpQueue 0 1001]) =
      (s', Ok (mkExecutionRequest "diamond" "run" "a" "echo" input 1)) /\
    advances compiled_diamond (sample_run [OpQueue 0 1001]) s' /\
    only_task 0 (started_task 1002 (new_attempt (nth_task (sample_run [OpQueue 0 1001]) 0) "w" "d" 1002)
      (nth_task (sample_run [OpQueue 0 1001]) 0)) (sample_run [OpQueue 0 1001]) s' /\
    run_Status (Run s') = WorkflowRunning.
Proof.
  apply (StartQueuedAttempt_correct diamond_workflow compiled_diamond (sample_run [OpQueue 0 1001]) 0
    (nth_task (sample_run [OpQueue 0 1001]) 0) (nth_definition compiled_diamond 0) 1002 "w" "d").
  - apply compile_diamond.
  - sample_reachable [OpQueue 0 1001].
  - vm_compute; reflexivity.
  - vm_compute; reflexivity.
  - vm_compute; reflexivity.
  - intros E; discriminate E.
  - intros E; discriminate E.
Defined.

(** retry timers.  [MakeRetryReady] wakes a task exactly when it is waiting
    for its retry, the timer belongs to its last attempt and the persisted
    retry time has been reached; in every other case it returns false and
    leaves the snapshot unchanged.  So stale or early timers have no effect. *)
Theorem MakeRetryReady_exact def c s i t number at_ :
  Compile def = Ok c -> reachable c s -> Tasks (Run s) !! i = Some t ->
  let due := exists ready_at a, Status t = TaskWaitingRetry /\ ReadyAt t = Some ready_at /\
    (ready_at <= at_)%Z /\ last (Attempts t) = Some a /\ Number a = number in
  (due -> exists s', MakeRetryReady (Z.of_nat i) number at_ s = (s', Ok true) /\
     advances c s s' /\ only_task i (task_after TaskReady at_ t) s s') /\
  (~ due -> MakeRetryReady (Z.of_nat i) number at_ s = (s, Ok false)).
Proof.
  intros Hcomp Hreach Ht due. pose proof (compiled_ok _ _ Hcomp) as Hc.
  pose proof (reachable_run_wf c Hc s Hreach) as H. split.
  - intros (ra & a & Hst & Hra & Hle & Ha & <-).
    destruct (retry_ready_run c Hc i t at_ ra a s H Ht Hst Hra Hle Ha) as (s' & ? & ? & ? & _). by exists s'.
  - intros Hno. unfold MakeRetryReady. go_step. rewrite (in_range _ _ _ Ht). go_step.
    rewrite Nat2Z.id, Ht. go_step. destruct (Status t) eqn:Hst; try done.
    destruct (ReadyAt t) as [ra|] eqn:Hra; [|done]. destruct (last (Attempts t)) as [a|] eqn:Ha; [|done].
    destruct (bool_decide (Number a ≠ number) || before at_ ra) eqn:E; [done|].
    rewrite orb_false_iff, bool_decide_eq_false in E. destruct E as [E1 E2]. apply dec_stable in E1.
    unfold before in E2. rewrite Z.ltb_ge in E2. destruct Hno. exists ra, a. by split_and!.
Qed.

Lemma MakeRetryReady_exact_witness :
  exists s', MakeRetryReady 1 1 50001006 (sample_run ops_b_waiting) = (s', Ok true) /\
    advances compiled_diamond (sample_run ops_b_waiting) s' /\
    only_task 1 (task_after TaskReady 50001006 (nth_task (sample_run ops_b_waiting) 1))
      (sample_run ops_b_waiting) s'.
Proof.
  apply (MakeRetryReady_exact diamond_workflow compiled_diamond (sample_run ops_b_waiting) 1
    (nth_task (sample_run ops_b_waiting) 1) 1 50001006).
  - apply compile_diamond.
  - sample_reachable ops_b_waiting.
  - vm_compute; reflexivity.
  - exists 50001006%Z. eexists. split; [vm_compute; reflexivity|]. split; [vm_compute; reflexivity|].
    split; [lia|]. split; vm_compute; reflexivity.
Defined.

(** cancellation.  Canceling an unfinished run always succeeds: every
    unfinished task is canceled (its running attempt with it), finished tasks
    keep their records, the run is canceled.  Canceling a finished run is
    refused. *)
Theorem CancelRunSnapshot_correct def c s at_ :
  Compile def = Ok c -> reachable c s ->
  (isWorkflowTerminal (run_Status (Run s)) = false ->
   exists s', CancelRunSnapshot s at_ = Ok s' /\ advances c s s' /\
     Tasks (Run s') = cancel_after at_ <$> Tasks (Run s) /\
     run_Status (Run s') = WorkflowCanceled) /\
  (isWorkflowTerminal (run_Status (Run s)) = true ->
   CancelRunSnapshot s at_ = Err (Errorf "illegal workflow transition %s -> %s")).
Proof.
  intros Hcomp Hreach. pose proof (compiled_ok _ _ Hcomp) as Hc.
  pose proof (reachable_run_wf c Hc s Hreach) as H. split.
  - intros Hnt. destruct (cancel_run c at_ s H Hnt) as (s' & ? & ? & ? & _ & ?). by exists s'.
  - intros Hterm. unfold CancelRunSnapshot. rewrite cloneRunSnapshot_id. cbv zeta.
    destruct (cancel_loop_run (length (Tasks (Run s))) at_ s (le_n _)) as (s1 & Hrun1 & [F T R W]).
    { intros t Hin. by eapply core_known_status; [apply H|]. }
    go_step by exact Hrun1. injection W as W _ _.
    rewrite transitionWorkflow_illegal; [done|]. rewrite W. by destruct (run_Status (Run s)).
Qed.

Lemma CancelRunSnapshot_correct_witness :
  exists s', CancelRunSnapshot (sample_run ops_b_running) 1010 = Ok s' /\
    advances compiled_diamond (sample_run ops_b_running) s' /\
    Tasks (Run s') = cancel_after 1010 <$> Tasks (Run (sample_run ops_b_running)) /\
    run_Status (Run s') = WorkflowCanceled.
Proof.
  apply (CancelRunSnapshot_correct diamond_workflow compiled_diamond).
  - apply compile_diamond.
  - sample_reachable ops_b_running.
  - vm_compute; reflexivity.
Defined.

(** a finished run is final.  No operation changes a run that has succeeded,
    failed or been canceled. *)
Theorem finished_run_final def c s s' :
  Compile def = Ok c -> reachable c s -> isWorkflowTerminal (run_Status (Run s)) = true ->
  rtc (step c) s s' -> s' = s.
Proof.
  intros Hcomp Hreach Hterm Hsteps. pose proof (compiled_ok _ _ Hcomp) as Hc.
  pose proof (reachable_run_wf c Hc s Hreach) as H.
  induction Hsteps as [s|s s1 s2 Hstep _ IH]; [done|].
  assert (s1 = s) as ->; [|by apply IH].
  by eapply (terminal_step c s s1).
Qed.

Lemma finished_run_final_witness :
  sample_run (ops_done ++ [OpApply 3 1 success_response 2000]) = sample_run ops_done.
Proof.
  apply (finished_run_final diamond_workflow compiled_diamond).
  - apply compile_diamond.
  - sample_reachable ops_done.
  - vm_compute; reflexivity.
  - apply (run_ops_steps compiled_diamond [OpApply 3 1 success_response 2000]). vm_compute; reflexivity.
Defined.

(** ** The length of a retry interval

    [Compile] bounds the retry interval and the timeout from below only. *)
Definition long_retry_definition : WorkflowDefinition :=
  mkWorkflowDefinition "long" 1
    [mkTaskDefinition "a" ExecutorMock "echo" (Some []) [] (mkRetryPolicy 2 9223372036855) 1000].
Definition compiled_long_retry : CompiledWorkflow :=
  match Compile long_retry_definition with Ok c => c | _ => mkCompiledWorkflow long_retry_definition ∅ [] [] end.
Definition long_retry_running : RunSnapshot :=
  default zero_RunSnapshot (run_from_start compiled_long_retry [OpQueue 0 1001; OpStart 0 1002 "w" "d"]).

Lemma wrap64_small z : (- 2 ^ 63 <= z < 2 ^ 63)%Z -> wrap64 z = z.
Proof. intros H. unfold wrap64. rewrite Z.mod_small by lia. lia. Qed.

