(* ===== verification/RunTermination.v ===== *)
(** * Runs terminate

    Every operation that changes a run brings it closer to its end, except
    returning a queued task: [run_measure] counts what each task can still go
    through under its retry policy, plus the phases of the run.  So a run makes
    a bounded number of moves, whatever the results, timeouts and clocks. *)
From S2P Require Import Prelude Preserves GoStrings Json Model State Graph Compiler Scheduling Distributed Effects RunInvariant RunOperations RunResults RunProperties RunTheorems.
From stdpp Require Import relations.

(** ** The measure *)
Definition phase (st : WorkflowStatus) : nat :=
  match st with WorkflowPending => 2 | WorkflowRunning => 1 | _ => 0 end.
(** With [max] attempts allowed. *)
Definition rank (max : Z) (t : TaskRun) : nat :=
  let left := Z.to_nat (max - Z.of_nat (length (Attempts t))) in
  match Status t with
  | TaskWaitingDependencies => 4 * left + 3
  | TaskReady => 4 * left + 2
  | TaskQueued => 4 * left + 1
  | TaskWaitingRetry => 4 * left + 3
  | TaskRunning => 4 * left + 4
  | _ => 0
  end.
Definition limits (c : CompiledWorkflow) : list Z := (fun d => MaxAttempts (Retry d)) <$> def_Tasks (definition c).
Definition run_measure (c : CompiledWorkflow) (s : RunSnapshot) : nat :=
  sum_list (zip_with rank (limits c) (Tasks (Run s))) + phase (run_Status (Run s)).

(** An operation other than a withdrawal that changed the run. *)
Definition advance (c : CompiledWorkflow) (s s' : RunSnapshot) : Prop :=
  exists op, enabled op s /\ (forall i at_ reason, op ≠ OpReturn i at_ reason) /\ exec c op s = (s', Ok tt) /\ s' ≠ s.

(** ** The phase of a run never goes back *)
Definition phase_kept (s s' : RunSnapshot) : Prop := phase (run_Status (Run s')) <= phase (run_Status (Run s)).
#[export] Instance phase_kept_preorder : PreOrder phase_kept.
Proof. split; unfold phase_kept; [intros s; lia|intros ???; lia]. Qed.

Lemma phase_transition from to : workflowTransitions from to = true -> phase to < phase from.
Proof. destruct from, to; cbn; try done; lia. Qed.

Lemma transitionWorkflow_phase to at_ reason : preserves phase_kept (transitionWorkflow to at_ reason).
Proof.
  intros s s' u H. unfold phase_kept. destruct (workflowTransitions (run_Status (Run s)) to) eqn:E.
  - rewrite transitionWorkflow_run in H by done. injection H as <- _. apply phase_transition in E. cbn.
    assert (Hto : run_Status (workflow_after to at_ (Run s)) = to) by (unfold workflow_after; by repeat case_match). rewrite Hto. lia.
  - by rewrite (transitionWorkflow_illegal _ _ _ _ E) in H.
Qed.

Lemma modify_phase (f : RunSnapshot -> RunSnapshot) :
  (forall s, run_Status (Run (f s)) = run_Status (Run s)) -> preserves phase_kept (modify f).
Proof. intros Hf s s' u H. go_inv. unfold phase_kept. by rewrite Hf. Qed.
#[local] Hint Extern 1 (preserves phase_kept (modify _)) => (apply modify_phase; done) : keeps.
#[local] Hint Resolve transitionWorkflow_phase : keeps.

Lemma transitionTask_phase i to at_ reason : preserves phase_kept (transitionTask i to at_ reason).
Proof. unfold transitionTask, appendEvent. keep. Qed.
Lemma transitionAttempt_phase key i k to at_ reason : preserves phase_kept (transitionAttempt key i k to at_ reason).
Proof. unfold transitionAttempt, appendEvent. keep. Qed.
#[local] Hint Resolve transitionTask_phase transitionAttempt_phase : keeps.

Lemma closeAttempt_phase i t result to at_ reason : preserves phase_kept (closeAttempt i t result to at_ reason).
Proof. unfold closeAttempt. keep. Qed.
Lemma skip_loop_phase fuel succs at_ : forall visited queue, preserves phase_kept (skip_loop fuel succs visited queue at_).
Proof.
  induction fuel as [|fuel IH]; intros visited [|i queue]; cbn [skip_loop]; [keep|by intros s s' u H|keep|keep].
Qed.
Lemma successors_of_phase succs l : preserves phase_kept (successors_of succs l).
Proof. induction l; cbn [successors_of]; keep. Qed.
#[local] Hint Resolve closeAttempt_phase skip_loop_phase successors_of_phase : keeps.
Lemma skipDescendants_phase c i at_ : preserves phase_kept (skipDescendants c i at_).
Proof. unfold skipDescendants, skipDescendantsFrom. keep. Qed.
Lemma settle_phase at_ : preserves phase_kept (settleWorkflowIfComplete at_).
Proof. unfold settleWorkflowIfComplete. keep. Qed.
#[local] Hint Resolve skipDescendants_phase settle_phase : keeps.
Lemma applyRetryDecision_phase c i n at_ reason : preserves phase_kept (applyRetryDecision c i n at_ reason).
Proof. unfold applyRetryDecision. keep. Qed.
#[local] Hint Resolve applyRetryDecision_phase : keeps.

Lemma exec_phase c op : preserves phase_kept (exec c op).
Proof.
  destruct op; cbn [exec];
    unfold QueueTask, ReturnQueuedTaskToReady, StartQueuedAttempt, prepareTask, executionRequest, appendAttempt,
      ApplyAttemptResult, InterruptAttempt, TimeoutAttempt, activeAttempt, releaseSuccessor, MakeRetryReady; try keep.
  intros s s' [] H. unfold CancelRunSnapshot in H. rewrite cloneRunSnapshot_id in H. cbv zeta in H.
  match type of H with context [?m s] =>
    lazymatch type of m with go RunSnapshot unit => assert (Hp : preserves phase_kept m) by (unfold cancelTask; keep); destruct (m s) as [s1 [u| | |]] eqn:E end
  end; simplify_eq. by apply Hp in E.
Qed.

(** ** What the operations do to the tasks *)

(** Every task is at most as far from its end as before. *)
Definition closer (max : Z) (t t' : TaskRun) : Prop := t' = t \/ rank max t' < rank max t.

Lemma closer_rank max t t' : closer max t t' -> rank max t' <= rank max t.
Proof. intros [->|?]; lia. Qed.

Lemma sum_closer ms ts ts' :
  length ts' = length ts -> (forall i m t t', ms !! i = Some m -> ts !! i = Some t -> ts' !! i = Some t' -> rank m t' <= rank m t) ->
  sum_list (zip_with rank ms ts') <= sum_list (zip_with rank ms ts).
Proof.
  revert ts ts'. induction ms as [|m ms IH]; intros ts ts' Hl H; [done|]. destruct ts as [|t ts], ts' as [|t' ts']; try done. cbn.
  pose proof (H 0 m t t' eq_refl eq_refl eq_refl). assert (sum_list (zip_with rank ms ts') <= sum_list (zip_with rank ms ts)); [|lia].
  apply IH; [by injection Hl|]. intros i. exact (H (S i)).
Qed.

Lemma sum_strictly_closer ms ts ts' i m t t' :
  length ts' = length ts -> (forall i m t t', ms !! i = Some m -> ts !! i = Some t -> ts' !! i = Some t' -> rank m t' <= rank m t) ->
  ms !! i = Some m -> ts !! i = Some t -> ts' !! i = Some t' -> rank m t' < rank m t ->
  sum_list (zip_with rank ms ts') < sum_list (zip_with rank ms ts).
Proof.
  revert i ts ts'. induction ms as [|m0 ms IH]; intros i ts ts' Hl H Hm Ht Ht' Hlt; [done|]. destruct ts as [|u ts], ts' as [|u' ts']; try done.
  cbn. pose proof (H 0 m0 u u' eq_refl eq_refl eq_refl) as H0. injection Hl as Hl. destruct i as [|i].
  - cbn in Hm, Ht, Ht'. simplify_eq. assert (sum_list (zip_with rank ms ts') <= sum_list (zip_with rank ms ts)); [|lia].
    apply sum_closer; [done|]. intros j. exact (H (S j)).
  - specialize (IH i ts ts' Hl (fun j => H (S j)) Hm Ht Ht' Hlt). lia.
Qed.

(** Either nothing happened, or the run is strictly closer to its end. *)
Definition descends (c : CompiledWorkflow) (s s' : RunSnapshot) : Prop :=
  s' = s \/ run_measure c s' < run_measure c s.

Section moves.
Context (c : CompiledWorkflow) (Hc : compiled_wf c).

Definition never_farther (u u' : TaskRun) : Prop := forall m, rank m u' <= rank m u.

Lemma never_farther_terminal u u' : isTaskTerminal (Status u') = true -> never_farther u u'.
Proof. intros H m. unfold rank. destruct (Status u'); try done; lia. Qed.
Lemma never_farther_ready u at_ : Status u = TaskWaitingDependencies -> never_farther u (task_after TaskReady at_ u).
Proof. intros H m. unfold rank. rewrite H. cbn. lia. Qed.

(** One task comes strictly closer, the others no farther. *)
Lemma descends_one s s' i d t t' :
  phase_kept s s' -> length (Tasks (Run s')) = length (Tasks (Run s)) -> def_Tasks (definition c) !! i = Some d ->
  Tasks (Run s) !! i = Some t -> Tasks (Run s') !! i = Some t' -> rank (MaxAttempts (Retry d)) t' < rank (MaxAttempts (Retry d)) t ->
  (forall j u u', j ≠ i -> Tasks (Run s) !! j = Some u -> Tasks (Run s') !! j = Some u' -> never_farther u u') ->
  descends c s s'.
Proof.
  intros Hph Hlen Hd Ht Ht' Hlt Hrest. right. unfold run_measure. unfold phase_kept in Hph.
  assert (Hm : limits c !! i = Some (MaxAttempts (Retry d))) by (unfold limits; by rewrite list_lookup_fmap, Hd).
  assert (Hsum : sum_list (zip_with rank (limits c) (Tasks (Run s'))) < sum_list (zip_with rank (limits c) (Tasks (Run s)))); [|lia].
  apply (sum_strictly_closer _ _ _ i (MaxAttempts (Retry d)) t t'); [done| |done..]. intros j m u u' Hj Hu Hu'. destruct (decide (j = i)) as [->|Hne]; [|by apply (Hrest j)]. simplify_eq. lia.
Qed.

Lemma descends_only s s' i d t t' :
  phase_kept s s' -> only_task i t' s s' -> def_Tasks (definition c) !! i = Some d -> Tasks (Run s) !! i = Some t ->
  rank (MaxAttempts (Retry d)) t' < rank (MaxAttempts (Retry d)) t -> descends c s s'.
Proof.
  intros Hph [T _] Hd Ht Hlt. eapply (descends_one _ _ i d t t'); [done| |done|done| |done|].
  - by rewrite T, length_insert.
  - rewrite T. apply list_lookup_insert_eq. by eapply lookup_lt_Some.
  - intros j u u' Hne Hu. rewrite T, list_lookup_insert_ne by done. rewrite Hu. intros [= <-] m. lia.
Qed.

Lemma descends_imap f s s' i d t t0 :
  phase_kept s s' -> Tasks (Run s') = imap f (<[i := t0]> (Tasks (Run s))) -> def_Tasks (definition c) !! i = Some d ->
  Tasks (Run s) !! i = Some t -> rank (MaxAttempts (Retry d)) (f i t0) < rank (MaxAttempts (Retry d)) t ->
  (forall j u, j ≠ i -> Tasks (Run s) !! j = Some u -> never_farther u (f j u)) -> descends c s s'.
Proof.
  intros Hph T Hd Ht Hlt Hrest. eapply (descends_one _ _ i d t (f i t0)); [done| |done|done| |done|].
  - by rewrite T, length_imap, length_insert.
  - rewrite T, list_lookup_imap, list_lookup_insert_eq by (by eapply lookup_lt_Some). done.
  - intros j u u' Hne Hu. rewrite T, list_lookup_imap, list_lookup_insert_ne, Hu by done. intros [= <-]. by apply Hrest.
Qed.

Lemma rank_running m t : Status t = TaskRunning -> rank m t = 4 * Z.to_nat (m - Z.of_nat (length (Attempts t))) + 4.
Proof. unfold rank. by intros ->. Qed.

Lemma succeeds_descends s s' i d t t0 at_ :
  run_wf c s -> phase_kept s s' -> def_Tasks (definition c) !! i = Some d -> Tasks (Run s) !! i = Some t -> Status t = TaskRunning ->
  Status t0 = TaskSucceeded -> length (Attempts t0) = length (Attempts t) -> succeeds c i t0 at_ s s' -> descends c s s'.
Proof.
  intros H Hph Hd Ht Hr H0 Hlen (_ & T & _).
  assert (Hws : run_Status (Run s) = WorkflowRunning).
  { eapply running_run; [exact H|exact Ht|by rewrite Hr|by rewrite Hr]. }
  pose proof (status_lookup _ _ _ Ht) as Hsti. rewrite Hr in Hsti.
  eapply (descends_imap _ _ _ i d t t0 Hph T Hd Ht).
  - rewrite (rank_running _ t Hr). unfold release_task. destruct (_ && _); unfold rank; cbn; [rewrite Hlen|rewrite H0]; lia.
  - intros j u Hj Hu. unfold release_task.
    destruct (bool_decide (j ∈ default [] (successors c !! i)) && bool_decide (RemainingDependencies (Run s) !! j = Some 1%Z))
      eqn:E; [|by intros m]. apply andb_true_iff in E as [E1%bool_decide_eq_true E2%bool_decide_eq_true].
    destruct (successors c !! i) as [l|] eqn:Hl; [|by apply not_elem_of_nil in E1].
    destruct (release_ready c Hc i j s 1 u (rw_core _ _ H)) as (_ & Hw & _); try done; [by rewrite Hws|by exists l|].
    by apply never_farther_ready, Hw.
Qed.

Lemma fails_descends s s' i d t t0 at_ :
  phase_kept s s' -> def_Tasks (definition c) !! i = Some d -> Tasks (Run s) !! i = Some t -> Status t = TaskRunning ->
  Status t0 = TaskFailed -> fails c i t0 at_ s s' -> descends c s s'.
Proof.
  intros Hph Hd Ht Hr H0 (_ & (reached & _ & T & _) & _). eapply (descends_imap _ _ _ i d t t0 Hph T Hd Ht).
  - rewrite (rank_running _ t Hr). unfold skip_if. destruct (_ && _); unfold rank; cbn; [|rewrite H0]; lia.
  - intros j u Hj Hu. unfold skip_if. destruct (_ && _); [by apply never_farther_terminal|by intros m].
Qed.

Lemma retries_or_fails_descends s s' i d t result to at_ :
  phase_kept s s' -> def_Tasks (definition c) !! i = Some d -> Tasks (Run s) !! i = Some t -> Status t = TaskRunning ->
  retries_or_fails c i t d result to at_ s s' -> descends c s s'.
Proof.
  intros Hph Hd Ht Hr H. unfold retries_or_fails in H. case_match; [|by eapply fails_descends; [..|exact H]].
  destruct H as (_ & Ho & _). eapply descends_only; [done|exact Ho|done|done|].
  rewrite (rank_running _ t Hr). unfold rank. cbn. rewrite length_alter. lia.
Qed.

(** ** Operation by operation *)
Lemma begin_descends s s1 s2 k t a at_ reason :
  run_wf c s -> phase_kept s s2 -> run_Status (Run s) = WorkflowRunning -> Tasks (Run s) !! k = Some t ->
  transitionTask k TaskRunning at_ reason s = (s1, Ok tt) -> appendAttempt k a s1 = (s2, Ok tt) ->
  Number a = (Z.of_nat (length (Attempts t)) + 1)%Z -> att_Status a = AttemptRunning ->
  att_FinishedAt a = None -> descends c s s2.
Proof.
  intros H Hph Hws Ht Hrun1 Hrun2 Hn Hr Hf. pose proof Hrun1 as (u & Hu & Hl & _)%transitionTask_inv.
  simplify_eq. assert (Hst : Status t = TaskReady \/ Status t = TaskQueued) by (destruct (Status t); auto; done).
  destruct (task_definition c Hc s k t (rw_core _ _ H) Ht) as (d & Hd & Hok & _).
  destruct (start_attempt c k t d a at_ reason s H Hws Ht Hst Hd Hn Hr Hf) as (s1' & s2' & Hr1 & Hr2 & _ & Honly & _).
  rewrite Hrun1 in Hr1. injection Hr1 as <-. rewrite Hrun2 in Hr2. injection Hr2 as <-.
  eapply descends_only; [done|exact Honly|done|done|]. pose proof (tk_last _ _ Hok) as Hlast. unfold last_ok in Hlast.
  unfold rank. cbn. rewrite length_app. cbn. destruct Hst as [E|E]; rewrite E in *; destruct Hlast as [Hlt _]; lia.
Qed.

Lemma queue_descends s s' i at_ : run_wf c s -> phase_kept s s' -> QueueTask i at_ s = (s', Ok tt) -> descends c s s'.
Proof.
  intros H Hph Hrun. destruct (index_cases i s) as [Hr|(k & t & -> & Ht & Hr)].
  { unfold QueueTask in Hrun. go_inv. congruence. }
  pose proof (queue_ready _ _ _ _ _ Ht Hrun) as Hst.
  destruct (QueueTask_run c Hc k t at_ s H Ht Hst) as (s1 & Hrun1 & _ & Honly & _).
  rewrite Hrun in Hrun1. injection Hrun1 as <-. destruct (task_definition c Hc s k t (rw_core _ _ H) Ht) as (d & Hd & _ & _).
  eapply descends_only; [done|exact Honly|done|done|]. unfold rank. rewrite Hst. cbn. lia.
Qed.

Lemma claim_descends s s' i at_ worker dispatch r :
  run_wf c s -> phase_kept s s' -> run_Status (Run s) = WorkflowRunning ->
  StartQueuedAttempt (Some c) i at_ worker dispatch s = (s', Ok r) -> descends c s s'.
Proof.
  intros H Hph Hws Hrun. unfold StartQueuedAttempt in Hrun. go_inv. apply executionRequest_same in Hrun as ->.
  repeat match goal with u : unit |- _ => destruct u end.
  eapply begin_descends; [exact H|exact Hph|exact Hws|eassumption|eassumption|eassumption|done..].
Qed.

Lemma prepare_descends s s' k now1 now2 r :
  run_wf c s -> phase_kept s s' -> run_Status (Run s) = WorkflowRunning ->
  prepareTask c k now1 now2 s = (s', Ok r) -> descends c s s'.
Proof.
  intros H Hph Hws Hrun. unfold prepareTask in Hrun. go_inv.
  repeat match goal with
    | u : unit |- _ => destruct u
    | E : executionRequest _ _ _ _ = _ |- _ => apply executionRequest_same in E as ->
    end.
  eapply begin_descends; [exact H|exact Hph|exact Hws|eassumption|eassumption|eassumption|done..].
Qed.

Lemma applied_descends s s' k d t response at_ :
  run_wf c s -> phase_kept s s' -> def_Tasks (definition c) !! k = Some d -> Tasks (Run s) !! k = Some t -> Status t = TaskRunning ->
  applied c k t d response at_ s s' -> descends c s s'.
Proof.
  intros H Hph Hd Ht Hr. unfold applied. destruct (Kind response); try done.
  - intros Hs. refine (succeeds_descends s s' k d t _ at_ H Hph Hd Ht Hr _ _ Hs); [done|cbn; by rewrite length_alter].
  - intros Hs. by eapply retries_or_fails_descends.
  - intros Hs. by eapply fails_descends; [..|exact Hs].
Qed.

Lemma apply_descends s s' i number response at_ b :
  run_wf c s -> phase_kept s s' -> ApplyAttemptResult (Some c) i number response at_ s = (s', Ok b) -> descends c s s'.
Proof.
  intros H Hph Hrun. destruct (index_cases i s) as [Hr|(k & t & -> & Ht & _)].
  { unfold ApplyAttemptResult, activeAttempt in Hrun. go_inv. congruence. }
  destruct (running_cases c Hc s k t number H Ht) as [[Hst ->]|Hno].
  - destruct (task_definition c Hc s k t (rw_core _ _ H) Ht) as (d & Hd & _ & _). destruct (known_result (Kind response)) eqn:Hk.
    + destruct (apply_active c Hc k t d response at_ s H Ht Hst Hd Hk) as (s1 & Hrun1 & Happ).
      rewrite Hrun in Hrun1. injection Hrun1 as <- _. by eapply applied_descends.
    + destruct (running_attempt c Hc s k t H Ht Hst) as (a & Ha & Hr & Hn).
      unfold ApplyAttemptResult in Hrun. rewrite <-Hn in Hrun.
      erewrite bind_run in Hrun by (by eapply activeAttempt_run). cbv zeta in Hrun. rewrite Hk in Hrun. by go_inv.
  - rewrite (apply_stale c k t) in Hrun by done. injection Hrun as <- _. by left.
Qed.

Lemma interrupt_descends s s' i number at_ reason b :
  run_wf c s -> phase_kept s s' -> InterruptAttempt (Some c) i number at_ reason s = (s', Ok b) -> descends c s s'.
Proof.
  intros H Hph Hrun. destruct (index_cases i s) as [Hr|(k & t & -> & Ht & _)].
  { unfold InterruptAttempt, activeAttempt in Hrun. go_inv. congruence. }
  destruct (running_cases c Hc s k t number H Ht) as [[Hst ->]|Hno].
  - destruct (task_definition c Hc s k t (rw_core _ _ H) Ht) as (d & Hd & _ & _).
    destruct (interrupt_active c Hc k t d at_ reason s H Ht Hst Hd) as (s1 & Hrun1 & Happ).
    rewrite Hrun in Hrun1. injection Hrun1 as <- _. by eapply retries_or_fails_descends.
  - unfold InterruptAttempt in Hrun. erewrite bind_run in Hrun by (by eapply activeAttempt_stale). injection Hrun as <- _. by left.
Qed.

Lemma timeout_descends s s' i number at_ b :
  run_wf c s -> phase_kept s s' -> TimeoutAttempt (Some c) i number at_ s = (s', Ok b) -> descends c s s'.
Proof.
  intros H Hph Hrun. destruct (index_cases i s) as [Hr|(k & t & -> & Ht & _)].
  { unfold TimeoutAttempt, activeAttempt in Hrun. go_inv. congruence. }
  destruct (running_cases c Hc s k t number H Ht) as [[Hst ->]|Hno].
  - destruct (task_definition c Hc s k t (rw_core _ _ H) Ht) as (d & Hd & _ & _).
    destruct (timeout_active c Hc k t d at_ s H Ht Hst Hd) as (s1 & Hrun1 & Happ).
    rewrite Hrun in Hrun1. injection Hrun1 as <- _. by eapply retries_or_fails_descends.
  - unfold TimeoutAttempt in Hrun. erewrite bind_run in Hrun by (by eapply activeAttempt_stale). injection Hrun as <- _. by left.
Qed.

(** Waking a task changes nothing, or makes it ready. *)
Lemma retry_cases s s' i number at_ b : run_wf c s -> MakeRetryReady i number at_ s = (s', Ok b) ->
  s' = s \/ exists k t, Tasks (Run s) !! k = Some t /\ Status t = TaskWaitingRetry /\ only_task k (task_after TaskReady at_ t) s s'.
Proof.
  intros H Hrun. destruct b.
  - right. destruct (index_cases i s) as [Hr|(k & t & -> & Ht & _)].
    { unfold MakeRetryReady in Hrun. go_inv. congruence. }
    pose proof Hrun as Hrun0. unfold MakeRetryReady in Hrun. go_inv. rewrite Nat2Z.id in *. simplify_eq.
    match goal with Hx : Tasks (Run ?s0) !! k = Some ?t0 |- _ => rename s0 into s; rename t0 into t; rename Hx into Htk end.
    destruct (Status t) eqn:Hst; try done. destruct (ReadyAt t) as [ra|] eqn:Hra; [|done]. destruct (last (Attempts t)) as [a|] eqn:Ha; [|done].
    destruct (bool_decide (Number a ≠ number) || before at_ ra) eqn:E; [done|].
    rewrite orb_false_iff, bool_decide_eq_false in E. destruct E as [E1 E2]. apply dec_stable in E1. subst number.
    unfold before in E2. rewrite Z.ltb_ge in E2.
    destruct (retry_ready_run c Hc k t at_ ra a s H Htk Hst Hra E2 Ha) as (s1 & Hrun1 & _ & Honly & _).
    rewrite Hrun0 in Hrun1. injection Hrun1 as <-. by exists k, t.
  - left. unfold MakeRetryReady in Hrun. go_inv. repeat case_match; by go_inv.
Qed.

Lemma advance_descends s s' : run_wf c s -> advance c s s' -> run_measure c s' < run_measure c s.
Proof.
  intros H (op & Hen & Hno & Hrun & Hne). pose proof (exec_phase c op _ _ _ Hrun) as Hph.
  assert (Hd : descends c s s'); [|by destruct Hd]. destruct op; cbn [exec] in Hrun.
  - right. destruct (workflowTransitions (run_Status (Run s)) WorkflowRunning) eqn:Hl;
      [|by rewrite (transitionWorkflow_illegal _ _ _ _ Hl) in Hrun].
    destruct (start_run c Hc "execution started" at_ s H) as (s1 & Hrun1 & _ & T1 & Hws); [by destruct (run_Status (Run s))|].
    rewrite Hrun in Hrun1. injection Hrun1 as <-. unfold run_measure. rewrite T1. apply phase_transition in Hl.
    destruct Hws as [_ ->]. cbn in Hl |- *. lia.
  - by eapply queue_descends.
  - by destruct (Hno i at_ reason).
  - go_inv. by eapply claim_descends.
  - go_inv. by eapply prepare_descends.
  - go_inv. by eapply apply_descends.
  - go_inv. by eapply interrupt_descends.
  - go_inv. by eapply timeout_descends.
  - go_inv. match goal with Hx : MakeRetryReady _ _ _ _ = _ |- _ => destruct (retry_cases _ _ _ _ _ _ H Hx) as [->|(k & t & Ht & Hst & Ho)] end; [by left|].
    destruct (task_definition c Hc s k t (rw_core _ _ H) Ht) as (d & Hd & _ & _).
    eapply descends_only; [done|exact Ho|done|done|]. unfold rank. rewrite Hst. cbn. lia.
  - destruct (CancelRunSnapshot s at_) as [s1| | |] eqn:E; simplify_eq. right.
    destruct (isWorkflowTerminal (run_Status (Run s))) eqn:Hterm; [by destruct (finished_not_canceled c s at_ s')|].
    destruct (cancel_run c at_ s H Hterm) as (s1 & Hrun1 & _ & T & _ & Hws). rewrite E in Hrun1. injection Hrun1 as <-.
    unfold run_measure. rewrite Hws. assert (Hp : 1 <= phase (run_Status (Run s))).
    { pose proof (rw_agrees _ _ H) as Hag. destruct (run_Status (Run s)); try done; cbn; lia. }
    assert (sum_list (zip_with rank (limits c) (Tasks (Run s'))) <= sum_list (zip_with rank (limits c) (Tasks (Run s)))); [|cbn; lia].
    apply sum_closer; [by rewrite T, length_fmap|]. intros k m t t' _ Ht. rewrite T, list_lookup_fmap, Ht. intros [= <-].
    unfold cancel_after. destruct (isTaskTerminal (Status t)); [done|].
    apply never_farther_terminal. by repeat case_match.
Qed.

Lemma advance_wf s s' : run_wf c s -> advance c s s' -> run_wf c s'.
Proof. intros H (op & Hen & _ & Hrun & _). by destruct (step_good c Hc s s' H) as [H' _]; [exists op|]. Qed.

Lemma nsteps_measure k s s' : run_wf c s -> nsteps (advance c) k s s' -> k + run_measure c s' <= run_measure c s.
Proof.
  intros H Hn. induction Hn as [s|k s1 s2 s3 Hs Hn IH]; [lia|].
  pose proof (advance_descends _ _ H Hs). pose proof (IH (advance_wf _ _ H Hs)). lia.
Qed.
End moves.

(** C7: A run terminates: from any state it can reach, at most [run_measure] more
    operations change it, withdrawals of queued tasks aside; that is never more
    than four for each allowed attempt, four for each task and two for the run. *)
Theorem run_terminates def c s s' k :
  Compile def = Ok c -> reachable c s -> nsteps (advance c) k s s' ->
  k <= run_measure c s /\
  run_measure c s <= sum_list ((fun d => 4 * Z.to_nat (MaxAttempts (Retry d)) + 4) <$> def_Tasks (definition c)) + 2.
Proof.
  intros Hcomp Hr Hn. pose proof (compiled_ok _ _ Hcomp) as Hc. pose proof (reachable_run_wf c Hc s Hr) as Hwf. split.
  - pose proof (nsteps_measure c Hc k s s' Hwf Hn). lia.
  - unfold run_measure. assert (Hp : phase (run_Status (Run s)) <= 2) by (destruct (run_Status (Run s)); cbn; lia).
    assert (Hsum : forall ds ts, sum_list (zip_with rank ((fun d => MaxAttempts (Retry d)) <$> ds) ts) <=
      sum_list ((fun d => 4 * Z.to_nat (MaxAttempts (Retry d)) + 4) <$> ds)); [|specialize (Hsum (def_Tasks (definition c)) (Tasks (Run s))); unfold limits; lia].
    clear. induction ds as [|d ds IH]; intros ts; [done|]. rewrite !fmap_cons. destruct ts as [|t ts]; cbn [zip_with sum_list_with id]; [lia|].
    specialize (IH ts).
    assert (rank (MaxAttempts (Retry d)) t <= 4 * Z.to_nat (MaxAttempts (Retry d)) + 4); [|lia].
    unfold rank. destruct (Status t); lia.
Qed.

Lemma run_terminates_witness :
  let s := sample_run [] in let s' := sample_run [OpQueue 0 1001; OpStart 0 1002 "w" "d1"] in
  nsteps (advance compiled_diamond) 2 s s' /\ 2 <= run_measure compiled_diamond s /\ run_measure compiled_diamond s <= 38.
Proof.
  intros s s'. assert (Hn : nsteps (advance compiled_diamond) 2 s s').
  { eapply (nsteps_l _ _ _ (sample_run [OpQueue 0 1001])); [|eapply (nsteps_l _ _ _ s'); [|apply nsteps_O]].
    - exists (OpQueue 0 1001). split_and!; [done|done|by vm_compute|]. intros E. apply (f_equal (fun s => run_Status (Run s))) in E. by vm_compute in E.
    - exists (OpStart 0 1002 "w" "d1"). split_and!; [by vm_compute|done|by vm_compute|].
      intros E. apply (f_equal (fun s => length (Events s))) in E. by vm_compute in E. }
  split; [exact Hn|]. apply (run_terminates diamond_workflow compiled_diamond s s' 2); [apply compile_diamond| |exact Hn].
  apply (run_from_start_reachable compiled_diamond []). by vm_compute.
Defined.
