(* ===== verification/ChangeSet.v ===== *)
(** * Change sets

    src/workflow/change.go: the difference of two snapshots as rows
    ([changeSetFromSnapshots]) and its validated application
    ([applyChangeSet]).  A local engine keeps whole snapshots, the PostgreSQL
    repository only ever sees these rows: the round trip below is what makes
    the two agree. *)
From S2P Require Import Prelude GoStrings Json Model State Graph Compiler Scheduling Distributed Effects RunInvariant RunOperations RunResults RunProperties.
From stdpp Require Import relations.

Definition ErrRevisionConflict : error := Sentinel "ErrRevisionConflict".
Definition ErrInvalidChangeSet : error := Sentinel "ErrInvalidChangeSet".
Definition invalidChangeSet (format : string) : error := Wrapf format ErrInvalidChangeSet.

(** ** The difference of two snapshots *)
Definition diffTask (runID : RunID) (i : nat) (beforeTask : TaskRun) (beforeRemaining : Z)
    (afterTask : TaskRun) (afterRemaining : Z) : list TaskRunChange :=
  if bool_decide (Key beforeTask ≠ Key afterTask) || bool_decide (Status beforeTask ≠ Status afterTask)
     || bool_decide (beforeRemaining ≠ afterRemaining)
     || bool_decide (ReadyAt beforeTask ≠ ReadyAt afterTask)
     || bool_decide (FinishedAt beforeTask ≠ FinishedAt afterTask)
  then [mkTaskRunChange runID (Z.of_nat i) (set_task_Attempts [] afterTask) afterRemaining]
  else [].

Fixpoint diffAttempts (runID : RunID) (key : TaskKey) (i attemptIndex : nat)
    (beforeAttempts afterAttempts : list Attempt) : list AttemptChange :=
  match afterAttempts with
  | [] => []
  | attempt :: rest =>
    let changes := diffAttempts runID key i (S attemptIndex) beforeAttempts rest in
    match beforeAttempts !! attemptIndex with
    | None => mkAttemptChange runID key (Z.of_nat i) attempt ChangeInsert :: changes
    | Some old =>
      if bool_decide (old = attempt) then changes
      else mkAttemptChange runID key (Z.of_nat i) attempt ChangeUpdate :: changes
    end
  end.

Fixpoint diffTasks (before after : RunSnapshot) (i : nat) (afterTasks : list TaskRun)
    : list TaskRunChange * list AttemptChange :=
  match afterTasks with
  | [] => ([], [])
  | afterTask :: rest =>
    let beforeTask := default zero_TaskRun (Tasks (Run before) !! i) in
    let beforeRemaining := default 0%Z (RemainingDependencies (Run before) !! i) in
    let afterRemaining := default 0%Z (RemainingDependencies (Run after) !! i) in
    let runID := ID (Run after) in
    let '(ts, ats) := diffTasks before after (S i) rest in
    (diffTask runID i beforeTask beforeRemaining afterTask afterRemaining ++ ts,
     diffAttempts runID (Key afterTask) i 0 (Attempts beforeTask) (Attempts afterTask) ++ ats)
  end.

(** Slicing the events panics when the log got shorter. *)
Definition changeSetFromSnapshots (before after : RunSnapshot) : outcome ChangeSet :=
  if bool_decide (length (Events after) < length (Events before)) then Panic else
  let run := set_run_Remaining [] (set_run_Tasks []
               (set_run_LastEventSequence (snapshotLastEventSequence after) (Run after))) in
  let '(ts, ats) := diffTasks before after 0 (Tasks (Run after)) in
  Ok (mkChangeSet (ID (Run after)) (Revision (Run before)) (Some run) ts ats
        (drop (length (Events before)) (Events after))).

(** [ChangeSetBetween] of src/workflow/distributed_state.go. *)
Definition ChangeSetBetween (before after : RunSnapshot) : outcome ChangeSet :=
  check (is_empty (ID (Run before)) || bool_decide (ID (Run before) ≠ ID (Run after)))
    (Errorf "before and after snapshots must identify the same Run") $
  check (bool_decide (Revision (Run after) ≠ u64 (Revision (Run before) + 1)))
    (Errorf "after revision %d must follow before revision %d") $
  changeSetFromSnapshots before after.

(** ** Applying a change set *)
Fixpoint applyTaskChanges (runID : RunID) (changes : list TaskRunChange) (changedTasks : gset Z)
    (tasks : list TaskRun) (remaining : list Z) : outcome (list TaskRun * list Z) :=
  match changes with
  | [] => Ok (tasks, remaining)
  | taskChange :: rest =>
    check (bool_decide (tc_RunID taskChange ≠ runID))
      (invalidChangeSet "task RunID %q does not match ChangeSet RunID %q") $
    check ((tc_Index taskChange <? 0) || (Z.of_nat (length tasks) <=? tc_Index taskChange))%Z
      (invalidChangeSet "task index %d is out of range") $
    check (bool_decide (tc_Index taskChange ∈ changedTasks))
      (invalidChangeSet "task index %d is changed more than once") $
    let i := Z.to_nat (tc_Index taskChange) in
    old ← or_panic (tasks !! i);
    check (bool_decide (Key (tc_Task taskChange) ≠ Key old))
      (invalidChangeSet "task key %q does not match index %d") $
    check (bool_decide (Attempts (tc_Task taskChange) ≠ []))
      (invalidChangeSet "task %q embeds attempt rows") $
    check (tc_RemainingDependencies taskChange <? 0)%Z
      (invalidChangeSet "task %q has negative remaining dependencies") $
    applyTaskChanges runID rest ({[tc_Index taskChange]} ∪ changedTasks)
      (<[i := set_task_Attempts (Attempts old) (tc_Task taskChange)]> tasks)
      (<[i := tc_RemainingDependencies taskChange]> remaining)
  end.

Definition applyAttemptChange (task : TaskRun) (attemptChange : AttemptChange) : outcome TaskRun :=
  let attempt := ac_Attempt attemptChange in
  match ac_Operation attemptChange with
  | ChangeInsert =>
    check (bool_decide (Number attempt ≠ (Z.of_nat (length (Attempts task)) + 1)%Z))
      (invalidChangeSet "inserted attempt number %d must follow existing history length %d") $
    Ok (set_task_Attempts (Attempts task ++ [attempt]) task)
  | ChangeUpdate =>
    let index := (Number attempt - 1)%Z in
    check (index <? 0)%Z (invalidChangeSet "updated attempt number %d does not exist") $
    match Attempts task !! Z.to_nat index with
    | None => Err (invalidChangeSet "updated attempt number %d does not exist")
    | Some old =>
      check (bool_decide (Number old ≠ Number attempt))
        (invalidChangeSet "updated attempt number %d does not exist") $
      Ok (set_task_Attempts (<[Z.to_nat index := attempt]> (Attempts task)) task)
    end
  | ChangeOther _ => Err (invalidChangeSet "unknown attempt operation %q")
  end.

Fixpoint applyAttemptChanges (runID : RunID) (changes : list AttemptChange)
    (changedAttempts : gset (Z * Z)) (tasks : list TaskRun) : outcome (list TaskRun) :=
  match changes with
  | [] => Ok tasks
  | attemptChange :: rest =>
    check (bool_decide (ac_RunID attemptChange ≠ runID))
      (invalidChangeSet "attempt RunID %q does not match ChangeSet RunID %q") $
    check ((ac_TaskIndex attemptChange <? 0) || (Z.of_nat (length tasks) <=? ac_TaskIndex attemptChange))%Z
      (invalidChangeSet "attempt task index %d is out of range") $
    let i := Z.to_nat (ac_TaskIndex attemptChange) in
    task ← or_panic (tasks !! i);
    check (bool_decide (ac_TaskKey attemptChange ≠ Key task))
      (invalidChangeSet "attempt task key %q does not match index %d") $
    let attemptKey := (ac_TaskIndex attemptChange, Number (ac_Attempt attemptChange)) in
    check (bool_decide (attemptKey ∈ changedAttempts))
      (invalidChangeSet "attempt %q/%d is changed more than once") $
    task' ← applyAttemptChange task attemptChange;
    applyAttemptChanges runID rest ({[attemptKey]} ∪ changedAttempts) (<[i := task']> tasks)
  end.

Fixpoint checkEventSequences (nextSequence : Z) (events : list StateEvent) : outcome unit :=
  match events with
  | [] => Ok tt
  | event :: rest =>
    check (bool_decide (Sequence event ≠ nextSequence)) (invalidChangeSet "event sequence %d must be %d") $
    checkEventSequences (u64 (nextSequence + 1)) rest
  end.

Definition applyChangeSet (snapshot : RunSnapshot) (change : ChangeSet) : outcome RunSnapshot :=
  check (bool_decide (cs_RunID change ≠ ID (Run snapshot)))
    (invalidChangeSet "change RunID %q does not match snapshot RunID %q") $
  check (bool_decide (ExpectedRevision change ≠ Revision (Run snapshot))) ErrRevisionConflict $
  match cs_Run change with
  | None => Err (invalidChangeSet "run row is required")
  | Some row =>
    check (bool_decide (ID row ≠ cs_RunID change))
      (invalidChangeSet "run row ID %q does not match ChangeSet RunID %q") $
    check (bool_decide (Revision row ≠ u64 (ExpectedRevision change + 1)))
      (invalidChangeSet "run revision %d must follow expected revision %d") $
    check (bool_decide (Tasks row ≠ []) || bool_decide (RemainingDependencies row ≠ []))
      (invalidChangeSet "run row must not embed task rows") $
    check (bool_decide (length (Tasks (Run snapshot)) ≠ length (RemainingDependencies (Run snapshot))))
      (invalidChangeSet "snapshot task and dependency counts differ") $
    let updated := cloneRunSnapshot snapshot in
    '(tasks, remaining) ← applyTaskChanges (cs_RunID change) (cs_Tasks change) ∅
       (Tasks (Run updated)) (RemainingDependencies (Run updated));
    tasks' ← applyAttemptChanges (cs_RunID change) (cs_Attempts change) ∅ tasks;
    let persistedLastSequence := snapshotLastEventSequence snapshot in
    _ ← checkEventSequences (u64 (persistedLastSequence + 1)) (cs_Events change);
    let wantLastSequence :=
      match last (cs_Events change) with Some e => Sequence e | None => persistedLastSequence end in
    check (bool_decide (LastEventSequence row ≠ wantLastSequence))
      (invalidChangeSet "run last event sequence %d must be %d") $
    Ok (mkRunSnapshot (Version updated) (Definition_ updated)
          (set_run_Remaining remaining (set_run_Tasks tasks' row))
          (Events updated ++ cs_Events change))
  end.

Definition ApplyChangeSetForStore (snapshot : RunSnapshot) (change : ChangeSet) : outcome RunSnapshot :=
  applyChangeSet snapshot change.

(** [Engine.saveSnapshot]: the candidate gets the next revision. *)
Definition nextRevision (before after : RunSnapshot) : RunSnapshot :=
  upd_Run (fun r => set_run_LastEventSequence (snapshotLastEventSequence after)
                      (set_run_Revision (u64 (Revision (Run before) + 1)) r)) after.

(** ** The round trip, row by row *)
Definition merge_task (b a : TaskRun) : TaskRun := set_task_Attempts (Attempts b) a.

Lemma insert_middle {A} (l1 l2 : list A) x y i : length l1 = i -> <[i := y]> (l1 ++ x :: l2) = l1 ++ y :: l2.
Proof. intros <-. by rewrite insert_app_r_alt, Nat.sub_diag by lia. Qed.

Lemma lookup_middle {A} (l1 l2 : list A) x i : length l1 = i -> (l1 ++ x :: l2) !! i = Some x.
Proof. intros <-. by apply list_lookup_middle. Qed.

Lemma in_range_middle {A} (l1 l2 : list A) x i :
  length l1 = i ->
  ((Z.of_nat i <? 0) || (Z.of_nat (length (l1 ++ x :: l2)) <=? Z.of_nat i))%Z = false.
Proof. intros <-. rewrite length_app. cbn. rewrite orb_false_iff, Z.ltb_ge, Z.leb_gt. lia. Qed.

Lemma merge_task_unchanged b a :
  Key b = Key a -> Status b = Status a -> ReadyAt b = ReadyAt a -> FinishedAt b = FinishedAt a ->
  merge_task b a = b.
Proof. destruct a, b. cbn. by intros -> -> -> ->. Qed.

Lemma apply_task_row id i b a rb ra T0 bt R0 br rest seen :
  Key b = Key a -> (0 <= ra)%Z -> length T0 = i -> length R0 = i -> (forall z, z ∈ seen -> z < Z.of_nat i)%Z ->
  exists seen', (forall z, z ∈ seen' -> z < Z.of_nat (S i))%Z /\
    applyTaskChanges id (diffTask id i b rb a ra ++ rest) seen (T0 ++ b :: bt) (R0 ++ rb :: br) =
    applyTaskChanges id rest seen' ((T0 ++ [merge_task b a]) ++ bt) ((R0 ++ [ra]) ++ br).
Proof.
  intros Hk Hra HT HR Hseen. unfold diffTask. rewrite (bool_decide_eq_false_2 (Key b ≠ Key a)) by auto.
  cbn [orb]. destruct (_ || _) eqn:E.
  - exists ({[Z.of_nat i]} ∪ seen). split.
    { intros z [->%elem_of_singleton|Hz]%elem_of_union; [lia|]. specialize (Hseen z Hz). lia. }
    cbn [app applyTaskChanges tc_RunID tc_Index tc_Task tc_RemainingDependencies].
    rewrite bool_decide_eq_false_2, check_false by auto.
    rewrite (in_range_middle T0 bt b i HT), check_false.
    rewrite bool_decide_eq_false_2, check_false by (intros Hin; specialize (Hseen _ Hin); lia).
    cbv zeta. rewrite Nat2Z.id, (lookup_middle T0 bt b i HT). cbn [or_panic].
    unfold mbind at 1, outcome_bind. cbn [Key set_task_Attempts Attempts].
    rewrite !bool_decide_eq_false_2, !check_false by auto.
    rewrite (proj2 (Z.ltb_ge ra 0)), check_false by done.
    rewrite (insert_middle T0 bt _ _ i HT), (insert_middle R0 br _ _ i HR), <-!app_assoc. done.
  - exists seen. split; [intros z Hz; specialize (Hseen z Hz); lia|].
    rewrite !orb_false_iff, !bool_decide_eq_false in E. destruct E as [[[E1 E2] E3] E4].
    apply dec_stable in E1, E2, E3, E4. rewrite <-!app_assoc. cbn [app].
    by rewrite merge_task_unchanged, E2 by done.
Qed.

Lemma apply_diff_tasks before after at_ : forall i Pb bt Qb br Qa ar T0 R0 seen,
  Tasks (Run before) = Pb ++ bt -> RemainingDependencies (Run before) = Qb ++ br ->
  RemainingDependencies (Run after) = Qa ++ ar ->
  length Pb = i -> length Qb = i -> length Qa = i -> length T0 = i -> length R0 = i ->
  length br = length at_ -> length ar = length at_ ->
  Forall2 (fun b a => Key b = Key a) bt at_ -> Forall (fun r => 0 <= r)%Z ar ->
  (forall z, z ∈ seen -> z < Z.of_nat i)%Z ->
  applyTaskChanges (ID (Run after)) (diffTasks before after i at_).1 seen (T0 ++ bt) (R0 ++ br) =
  Ok (T0 ++ zip_with merge_task bt at_, R0 ++ ar).
Proof.
  induction at_ as [|a at_ IH]; intros i Pb bt Qb br Qa ar T0 R0 seen HP HQb HQa L1 L2 L3 L4 L5 L6 L7 Hk Hr Hseen.
  - apply Forall2_nil_inv_r in Hk as ->. destruct br, ar; try done.
  - apply Forall2_cons_inv_r in Hk as (b & bt' & Hkb & Hk & ->).
    destruct br as [|rb br]; [done|]. destruct ar as [|ra ar]; [done|].
    apply Forall_cons in Hr as [Hra Hr]. cbn [diffTasks].
    rewrite HP, HQb, HQa, (lookup_middle _ _ _ i L1), (lookup_middle _ _ _ i L2), (lookup_middle _ _ _ i L3).
    cbn [default from_option].
    destruct (diffTasks before after (S i) at_) as [ts ats] eqn:E. cbn [fst].
    destruct (apply_task_row (ID (Run after)) i b a rb ra T0 bt' R0 br ts seen Hkb Hra L4 L5 Hseen)
      as (seen' & Hseen' & Hrow).
    unfold id. rewrite Hrow.
    replace ts with (diffTasks before after (S i) at_).1 by by rewrite E.
    rewrite (IH (S i) (Pb ++ [b]) bt' (Qb ++ [rb]) br (Qa ++ [ra]) ar (T0 ++ [merge_task b a]) (R0 ++ [ra]) seen').
    + by rewrite <-!app_assoc.
    + by rewrite HP, <-app_assoc.
    + by rewrite HQb, <-app_assoc.
    + by rewrite HQa, <-app_assoc.
    + rewrite length_app. simpl. lia.
    + rewrite length_app. simpl. lia.
    + rewrite length_app. simpl. lia.
    + rewrite length_app. simpl. lia.
    + rewrite length_app. simpl. lia.
    + simpl in L6. lia.
    + simpl in L7. lia.
    + done.
    + done.
    + done.
Qed.

(** Attempt rows of one task.  [A0] is the part already brought up to date,
    [bs] what is left of the old history. *)
Section attempt_rows.
Context (id : RunID) (key : TaskKey) (i : nat) (B : list Attempt).

Definition seen_below (k : nat) (seen : gset (Z * Z)) : Prop :=
  forall x y, (x, y) ∈ seen -> (x < Z.of_nat i \/ (x = Z.of_nat i /\ y <= Z.of_nat k))%Z.

Lemma apply_attempt_row op t t' a T0 bt rest seen k :
  applyAttemptChange t (mkAttemptChange id key (Z.of_nat i) a op) = Ok t' ->
  Key t = key -> length T0 = i -> seen_below k seen -> Number a = (Z.of_nat k + 1)%Z ->
  applyAttemptChanges id (mkAttemptChange id key (Z.of_nat i) a op :: rest) seen (T0 ++ t :: bt) =
  applyAttemptChanges id rest ({[(Z.of_nat i, Number a)]} ∪ seen) (T0 ++ t' :: bt) /\
  seen_below (S k) ({[(Z.of_nat i, Number a)]} ∪ seen).
Proof.
  intros Happ Hkey HT Hseen Hn. split.
  - cbn [app applyAttemptChanges ac_RunID ac_TaskIndex ac_TaskKey ac_Attempt].
    rewrite bool_decide_eq_false_2, check_false by auto.
    rewrite (in_range_middle T0 bt t i HT), check_false. cbv zeta.
    rewrite Nat2Z.id, (lookup_middle T0 bt t i HT). cbn [or_panic]. unfold mbind at 1, outcome_bind.
    rewrite bool_decide_eq_false_2, check_false by auto.
    rewrite bool_decide_eq_false_2, check_false by (intros Hin; destruct (Hseen _ _ Hin); lia).
    rewrite Happ. unfold mbind, outcome_bind. by rewrite (insert_middle T0 bt _ _ i HT).
  - intros x y [[= -> ->]%elem_of_singleton|Hin]%elem_of_union; [right; lia|].
    destruct (Hseen x y Hin); lia.
Qed.

Lemma set_attempts_again l1 l2 t : set_task_Attempts l1 (set_task_Attempts l2 t) = set_task_Attempts l1 t.
Proof. done. Qed.

Lemma apply_diff_attempts as_ : forall k bs A0 t T0 bt rest seen,
  (forall m, B !! (k + m) = bs !! m) -> length A0 = k -> length bs <= length as_ ->
  (forall m a, as_ !! m = Some a -> Number a = (Z.of_nat (k + m) + 1)%Z) ->
  (forall m b, bs !! m = Some b -> Number b = (Z.of_nat (k + m) + 1)%Z) ->
  Key t = key -> Attempts t = A0 ++ bs -> length T0 = i -> seen_below k seen ->
  exists seen', seen_below (k + length as_) seen' /\
    applyAttemptChanges id (diffAttempts id key i k B as_ ++ rest) seen (T0 ++ t :: bt) =
    applyAttemptChanges id rest seen' (T0 ++ set_task_Attempts (A0 ++ as_) t :: bt).
Proof.
  induction as_ as [|a as_ IH]; intros k bs A0 t T0 bt rest seen HB LA Hle Hna Hnb Hkey Hatt HT Hseen.
  { destruct bs; [|simpl in Hle; lia]. exists seen. split; [by rewrite Nat.add_0_r|].
    cbn [diffAttempts app]. do 2 f_equal. rewrite <-Hatt. by destruct t. }
  pose proof (Hna 0 a eq_refl) as Hn0. rewrite Nat.add_0_r in Hn0.
  assert (Hna' : forall m a0, as_ !! m = Some a0 -> Number a0 = (Z.of_nat (S k + m) + 1)%Z).
  { intros m a0 Hm. rewrite (Hna (S m) a0 Hm). lia. }
  assert (HBs : forall m, B !! (S k + m) = tail bs !! m).
  { intros m. rewrite Nat.add_succ_comm, HB. by destruct bs. }
  assert (Hnb' : forall m b, tail bs !! m = Some b -> Number b = (Z.of_nat (S k + m) + 1)%Z).
  { intros m b0 Hm. rewrite (Hnb (S m) b0); [lia|by destruct bs]. }
  assert (Hle' : length (tail bs) <= length as_) by (destruct bs; simpl in *; lia).
  assert (Hcont : forall t' seen', Key t' = key -> Attempts t' = (A0 ++ [a]) ++ tail bs ->
    set_task_Attempts (A0 ++ a :: as_) t' = set_task_Attempts (A0 ++ a :: as_) t -> seen_below (S k) seen' ->
    exists seen'', seen_below (k + length (a :: as_)) seen'' /\
      applyAttemptChanges id (diffAttempts id key i (S k) B as_ ++ rest) seen' (T0 ++ t' :: bt) =
      applyAttemptChanges id rest seen'' (T0 ++ set_task_Attempts (A0 ++ a :: as_) t :: bt)).
  { intros t' seen' Hk' Ha' Hset Hs'.
    destruct (IH (S k) (tail bs) (A0 ++ [a]) t' T0 bt rest seen') as (seen'' & Hs'' & E);
      [done|rewrite length_app; simpl; lia|done|done|done|done|done|done|done|].
    exists seen''. split; [by replace (k + length (a :: as_)) with (S k + length as_) by (simpl; lia)|]. rewrite E, <-app_assoc. cbn [app]. by rewrite Hset. }
  cbn [diffAttempts]. specialize (HB 0). rewrite Nat.add_0_r in HB. rewrite HB.
  destruct bs as [|b bs]; cbn [lookup list_lookup tail app] in *.
  - assert (Happ : applyAttemptChange t (mkAttemptChange id key (Z.of_nat i) a ChangeInsert) =
      Ok (set_task_Attempts (A0 ++ [a]) t)).
    { rewrite app_nil_r in Hatt. cbn. by rewrite Hatt, LA, bool_decide_eq_false_2, check_false by auto. }
    destruct (apply_attempt_row ChangeInsert t _ a T0 bt (diffAttempts id key i (S k) B as_ ++ rest) seen k
      Happ Hkey HT Hseen Hn0) as [-> Hs]. apply Hcont; try done. by rewrite app_nil_r.
  - case_bool_decide as E; [subst b|].
    + apply Hcont; [done|by rewrite <-app_assoc|done|]. intros x y Hin. destruct (Hseen x y Hin); lia.
    + cbn [app]. pose proof (Hnb 0 b eq_refl) as Hnb0. rewrite Nat.add_0_r in Hnb0.
      assert (Happ : applyAttemptChange t (mkAttemptChange id key (Z.of_nat i) a ChangeUpdate) =
        Ok (set_task_Attempts ((A0 ++ [a]) ++ bs) t)).
      { cbn. rewrite (proj2 (Z.ltb_ge _ 0)), check_false by lia.
        replace (Z.to_nat (Number a - 1)) with k by lia. rewrite Hatt, (lookup_middle A0 bs b k LA).
        rewrite bool_decide_eq_false_2, check_false by (rewrite Hnb0, Hn0; auto).
        by rewrite (insert_middle A0 bs b a k LA), <-app_assoc. }
      destruct (apply_attempt_row ChangeUpdate t _ a T0 bt (diffAttempts id key i (S k) B as_ ++ rest) seen k
        Happ Hkey HT Hseen Hn0) as [-> Hs]. by apply Hcont.
Qed.
End attempt_rows.

(** Histories of one task before and after, as the engine makes them. *)
Definition history_grows (b a : TaskRun) : Prop :=
  Key b = Key a /\ length (Attempts b) <= length (Attempts a) /\
  (forall m x, Attempts a !! m = Some x -> Number x = (Z.of_nat m + 1)%Z) /\
  (forall m x, Attempts b !! m = Some x -> Number x = (Z.of_nat m + 1)%Z).

Lemma apply_diff_all_attempts before after at_ : forall i Pb bt T0 seen,
  Tasks (Run before) = Pb ++ bt -> length Pb = i -> length T0 = i ->
  Forall2 history_grows bt at_ -> (forall x y, (x, y) ∈ seen -> x < Z.of_nat i)%Z ->
  applyAttemptChanges (ID (Run after)) (diffTasks before after i at_).2 seen
    (T0 ++ zip_with merge_task bt at_) = Ok (T0 ++ at_).
Proof.
  induction at_ as [|a at_ IH]; intros i Pb bt T0 seen HP L1 L2 Hf Hseen.
  { by apply Forall2_nil_inv_r in Hf as ->. }
  apply Forall2_cons_inv_r in Hf as (b & bt' & (Hk & Hle & Hna & Hnb) & Hf & ->). cbn [diffTasks].
  rewrite HP, (lookup_middle _ _ _ i L1). cbn [default from_option].
  destruct (diffTasks before after (S i) at_) as [ts ats] eqn:E. cbn [snd zip_with]. unfold Datatypes.id.
  destruct (apply_diff_attempts (ID (Run after)) (Key a) i (Attempts b) (Attempts a) 0 (Attempts b) []
    (merge_task b a) T0 (zip_with merge_task bt' at_) ats seen) as (seen' & Hs & Hrun); try done.
  { intros x y Hin. left. by eapply Hseen. }
  rewrite Hrun. cbn [app]. replace ats with (diffTasks before after (S i) at_).2 by by rewrite E.
  replace (set_task_Attempts (Attempts a) (merge_task b a)) with a by by destruct a.
  change (T0 ++ a :: zip_with merge_task bt' at_) with (T0 ++ [a] ++ zip_with merge_task bt' at_).
  rewrite app_assoc, (IH (S i) (Pb ++ [b]) bt' (T0 ++ [a]) seen').
  - by rewrite <-app_assoc.
  - by rewrite HP, <-app_assoc.
  - rewrite length_app. simpl. lia.
  - rewrite length_app. simpl. lia.
  - done.
  - intros x y Hin. destruct (Hs x y Hin); lia.
Qed.

Lemma checkEventSequences_ok evs : forall next,
  (forall k e, evs !! k = Some e -> Sequence e = u64 (next + Z.of_nat k)) ->
  checkEventSequences (u64 next) evs = Ok tt.
Proof.
  induction evs as [|e evs IH]; intros next H; [done|]. cbn [checkEventSequences].
  pose proof (H 0 e eq_refl) as He. rewrite Z.add_0_r in He.
  rewrite bool_decide_eq_false_2, check_false by auto. rewrite u64_succ. apply IH.
  intros k e' Hk. rewrite (H (S k) e' Hk). f_equal. lia.
Qed.

(** ** The round trip *)
Record saveable (before after : RunSnapshot) : Prop := {
  sv_version : Version after = Version before;
  sv_definition : Definition_ after = Definition_ before;
  sv_id : ID (Run after) = ID (Run before);
  sv_revision : Revision (Run after) = u64 (Revision (Run before) + 1);
  sv_tasks : Forall2 history_grows (Tasks (Run before)) (Tasks (Run after));
  sv_remaining_before : length (RemainingDependencies (Run before)) = length (Tasks (Run before));
  sv_remaining_after : length (RemainingDependencies (Run after)) = length (Tasks (Run after));
  sv_nonneg : Forall (fun r => 0 <= r)%Z (RemainingDependencies (Run after));
  sv_events : exists evs, Events after = Events before ++ evs;
  sv_audit_before : audit_ok before;
  sv_audit_after : audit_ok after;
}.

Lemma saveable_events before after evs :
  audit_ok before -> audit_ok after -> Events after = Events before ++ evs ->
  checkEventSequences (u64 (snapshotLastEventSequence before + 1)) evs = Ok tt /\
  match last evs with Some e => Sequence e | None => snapshotLastEventSequence before end =
    LastEventSequence (Run after).
Proof.
  intros Hb [Hseq Hlast] He. rewrite (audit_last_sequence _ Hb), u64_succ. rewrite He in Hseq, Hlast.
  assert (Hk : forall k e, evs !! k = Some e ->
    Sequence e = u64 (Z.of_nat (length (Events before)) + 1 + Z.of_nat k)).
  { intros k e Hk. rewrite (Hseq (length (Events before) + k) e) by (by rewrite lookup_app_r, Nat.add_sub_swap, Nat.sub_diag by lia).
    f_equal. lia. }
  split; [by apply checkEventSequences_ok|]. rewrite Hlast, length_app.
  destruct evs as [|e evs _] using rev_ind; [f_equal; simpl; lia|].
  rewrite last_snoc, (Hk (length evs) e) by (by apply list_lookup_middle).
  rewrite length_app. f_equal. simpl. lia.
Qed.

Lemma changeSet_roundtrip before after :
  saveable before after ->
  exists cs, changeSetFromSnapshots before after = Ok cs /\ cs_RunID cs = ID (Run before) /\
    ExpectedRevision cs = Revision (Run before) /\ applyChangeSet before cs = Ok after.
Proof.
  intros [Hv Hd Hid Hrev Ht Hrb Hra Hnn [evs He] Hab Haa].
  assert (Hsl : snapshotLastEventSequence after = LastEventSequence (Run after)).
  { by rewrite (audit_last_sequence _ Haa), (audit_last _ Haa). }
  unfold changeSetFromSnapshots. rewrite He, length_app, bool_decide_eq_false_2, Hsl by lia. cbv zeta.
  pose proof (Forall2_length _ _ _ Ht) as Hlen.
  pose proof (apply_diff_tasks before after (Tasks (Run after)) 0 [] (Tasks (Run before)) []
    (RemainingDependencies (Run before)) [] (RemainingDependencies (Run after)) [] [] ∅) as Htasks.
  pose proof (apply_diff_all_attempts before after (Tasks (Run after)) 0 [] (Tasks (Run before)) [] ∅) as Hatts.
  destruct (diffTasks before after 0 (Tasks (Run after))) as [ts ats]. cbn [fst snd app] in Htasks, Hatts.
  rewrite drop_app_length. eexists. split; [reflexivity|]. cbn [cs_RunID ExpectedRevision].
  split_and!; [done|done|]. unfold applyChangeSet. cbn [cs_RunID ExpectedRevision cs_Run cs_Tasks cs_Attempts cs_Events].
  pass_check by (by apply differs_false). pass_check by (by apply differs_false).
  pass_check by (by apply differs_false). pass_check by (by apply differs_false).
  pass_check by done. pass_check by (by apply differs_false).
  rewrite cloneRunSnapshot_id.
  rewrite Htasks; [|done|done|done|done|done|done|done|done|lia|lia| |done|by intros z ?%not_elem_of_empty].
  2:{ eapply Forall2_impl; [exact Ht|]. by intros ?? [? _]. }
  cbn. rewrite Hatts; [|done..|by intros x y ?%not_elem_of_empty]. cbn.
  destruct (saveable_events before after evs Hab Haa He) as [-> ->]. cbn.
  pass_check by (by apply differs_false).
  f_equal. rewrite <-Hv, <-Hd, <-He. destruct after as [v d [] e]. done.
Qed.

(** ** What an accepted change set guarantees *)
Lemma applyTaskChanges_keys id changes : forall seen tasks rem tasks' rem',
  applyTaskChanges id changes seen tasks rem = Ok (tasks', rem') ->
  Key <$> tasks' = Key <$> tasks /\ Attempts <$> tasks' = Attempts <$> tasks /\ length rem' = length rem.
Proof.
  induction changes as [|ch changes IH]; intros seen tasks rem tasks' rem' H; cbn [applyTaskChanges] in H.
  { by simplify_eq. }
  go_inv. destruct (tasks !! Z.to_nat (tc_Index ch)) as [old|] eqn:Hold; [|done]. cbn in Hm. simplify_eq.
  destruct (IH _ _ _ _ _ H) as (K & A & L). rewrite bool_decide_eq_false in Hc2. apply dec_stable in Hc2.
  rewrite length_insert in L. split_and!; [| |done].
  - rewrite K, list_fmap_insert. cbn. rewrite Hc2. apply list_insert_id. by rewrite list_lookup_fmap, Hold.
  - rewrite A, list_fmap_insert. cbn. apply list_insert_id. by rewrite list_lookup_fmap, Hold.
Qed.

Lemma applyAttemptChange_grows task ch task' :
  applyAttemptChange task ch = Ok task' ->
  Key task' = Key task /\ length (Attempts task) <= length (Attempts task').
Proof.
  unfold applyAttemptChange. destruct (ac_Operation ch); intros H; [| |done].
  - go_inv. cbn. rewrite length_app. split; [done|lia].
  - cbv zeta in H. go_inv. destruct (Attempts task !! _); [|done]. go_inv. cbn.
    by rewrite length_insert.
Qed.

Lemma applyAttemptChanges_keys id changes : forall seen tasks tasks',
  applyAttemptChanges id changes seen tasks = Ok tasks' ->
  Key <$> tasks' = Key <$> tasks /\
  Forall2 (fun t t' => length (Attempts t) <= length (Attempts t')) tasks tasks'.
Proof.
  induction changes as [|ch changes IH]; intros seen tasks tasks' H; cbn [applyAttemptChanges] in H.
  { simplify_eq. split; [done|]. apply Forall2_same_length_lookup_2; [done|]. intros k t t' H1 H2. by simplify_eq. }
  go_inv. destruct (tasks !! Z.to_nat (ac_TaskIndex ch)) as [old|] eqn:Hold; [|done]. cbn in Hm. simplify_eq.
  destruct (IH _ _ _ H) as (K & L).
  match goal with Hx : applyAttemptChange _ _ = Ok ?x |- _ =>
    destruct (applyAttemptChange_grows _ _ _ Hx) as [Ko Lo]; rename x into new end. split.
  - rewrite K, list_fmap_insert, Ko. apply list_insert_id. by rewrite list_lookup_fmap, Hold.
  - apply Forall2_same_length_lookup_2; [by rewrite <-(Forall2_length _ _ _ L), length_insert|].
    intros k t t' Ht Ht'. rewrite Forall2_lookup in L. specialize (L k).
    destruct (decide (k = Z.to_nat (ac_TaskIndex ch))) as [->|Hne].
    + rewrite list_lookup_insert_eq, Ht' in L by (by eapply lookup_lt_Some). inversion L. simplify_eq. lia.
    + rewrite list_lookup_insert_ne, Ht, Ht' in L by done. by inversion L.
Qed.

Lemma checkEventSequences_inv evs : forall next,
  checkEventSequences (u64 next) evs = Ok tt ->
  forall k e, evs !! k = Some e -> Sequence e = u64 (next + Z.of_nat k).
Proof.
  induction evs as [|e evs IH]; intros next H k e' Hk; [done|]. cbn in H. go_inv.
  rewrite bool_decide_eq_false in Hc. apply dec_stable in Hc. rewrite u64_succ in H.
  destruct k as [|k]; simplify_eq/=; [by rewrite Z.add_0_r|]. rewrite (IH _ H k e' Hk). f_equal. lia.
Qed.

(** ** Every step can be persisted as its change set *)
Lemma nextRevision_audit s s' : audit_ok s' -> audit_ok (nextRevision s s').
Proof. intros H. pose proof (audit_last_sequence _ H). destruct H. by split. Qed.

Lemma step_saveable c s s' :
  compiled_wf c -> run_wf c s -> good_step c s s' -> saveable s (nextRevision s s').
Proof.
  intros Hc H (H' & [Hid Hev Haud] & Hevo). injection Hid as ? ? ? ? ? ? ? ?.
  pose proof (run_core_length c s (rw_core _ _ H)) as L.
  pose proof (run_core_length c s' (rw_core _ _ H')) as L'.
  split; try done.
  - apply Forall2_same_length_lookup_2; [cbn; lia|]. intros i t t' Ht Ht'.
    destruct (proj2 Hevo i t Ht) as (u & Hu & [Hk _ _ Hl]). change (Tasks (Run s') !! i = Some t') in Ht'.
    rewrite Hu in Ht'. injection Ht' as <-.
    destruct (task_definition c Hc s i t (rw_core _ _ H) Ht) as (d & _ & Hok & _).
    destruct (task_definition c Hc s' i _ (rw_core _ _ H') Hu) as (d' & _ & Hok' & _).
    split_and!; [done|done|apply Hok'|apply Hok].
  - rewrite L. apply (sc_rem_length _ _ _ _ (rc_sched _ _ (rw_core _ _ H))).
  - cbn. rewrite L'. apply (sc_rem_length _ _ _ _ (rc_sched _ _ (rw_core _ _ H'))).
  - apply Forall_lookup. intros j r Hr.
    rewrite (sc_rem _ _ _ _ (rc_sched _ _ (rw_core _ _ H')) j r Hr). apply dep_count_nonneg.
  - apply H.
  - apply nextRevision_audit, H'.
Qed.

(** ** Properties *)



(** what an accepted change set guarantees.  It was computed from the stored
    revision (optimistic concurrency), advances it by exactly one, belongs to
    the run, keeps the identity and number of the tasks, never shortens an
    attempt history, and appends events that continue the stored log without
    gap. *)
Theorem applyChangeSet_integrity snapshot change updated :
  applyChangeSet snapshot change = Ok updated ->
  ExpectedRevision change = Revision (Run snapshot) /\
  Revision (Run updated) = u64 (Revision (Run snapshot) + 1) /\
  ID (Run updated) = ID (Run snapshot) /\
  Key <$> Tasks (Run updated) = Key <$> Tasks (Run snapshot) /\
  Forall2 (fun t t' => length (Attempts t) <= length (Attempts t')) (Tasks (Run snapshot)) (Tasks (Run updated)) /\
  Events updated = Events snapshot ++ cs_Events change /\
  (forall k e, cs_Events change !! k = Some e ->
     Sequence e = u64 (snapshotLastEventSequence snapshot + 1 + Z.of_nat k)).
Proof.
  intros H. unfold applyChangeSet in H. go_inv. destruct (cs_Run change) as [row|]; [|done].
  rewrite cloneRunSnapshot_id in H. go_inv. destruct a as [tasks rem]. go_inv. cbn in *.
  rewrite !bool_decide_eq_false in *.
  repeat match goal with Hx : ¬ _ ≠ _ |- _ => apply dec_stable in Hx end.
  match goal with Hx : applyTaskChanges _ _ _ _ _ = _ |- _ => apply applyTaskChanges_keys in Hx as (K1 & A1 & L1) end.
  match goal with Hx : applyAttemptChanges _ _ _ _ = _ |- _ => apply applyAttemptChanges_keys in Hx as (K2 & L2) end.
  split_and!; try congruence.
  - rewrite Forall2_lookup in *. intros k. specialize (L2 k).
    assert (E : (Attempts <$> tasks) !! k = (Attempts <$> Tasks (Run snapshot)) !! k) by by rewrite A1.
    rewrite !list_lookup_fmap in E.
    destruct (tasks !! k), (Tasks (Run snapshot) !! k); inversion L2; simplify_eq/=; constructor. congruence.
  - repeat match goal with u : unit |- _ => destruct u end.
    match goal with Hx : checkEventSequences _ _ = Ok _ |- _ => exact (checkEventSequences_inv _ _ Hx) end.
Qed.

Lemma applyChangeSet_integrity_witness :
  let s := default zero_RunSnapshot (run_from_start compiled_diamond []) in
  let s' := default zero_RunSnapshot (run_from_start compiled_diamond [OpQueue 0 1001]) in
  Revision (Run (nextRevision s s')) = u64 (Revision (Run s) + 1).
Proof.
  intros s s'. apply (applyChangeSet_integrity s (match changeSetFromSnapshots s (nextRevision s s') with
    Ok cs => cs | _ => mkChangeSet "" 0 None [] [] [] end) (nextRevision s s')).
  vm_compute; reflexivity.
Defined.
