(* ===== verification/Recovery.v ===== *)
(** * Resuming a run after a restart

    src/workflow/recovery.go: [prepareForResume] validates a stored snapshot,
    closes the attempts the dead process was running, propagates failures and
    recomputes the dependency counters.  On a snapshot a run can be in it
    always succeeds and restores the scheduling invariant - except for the
    counters of finished tasks, which it leaves at zero.
    [resume_then_success_fails] shows what that costs. *)
From S2P Require Import Prelude GoStrings Json Model State Graph Compiler Scheduling Distributed Effects RunInvariant RunOperations RunResults RunProperties RunTheorems.
From stdpp Require Import relations.

Definition isRetryableAttemptStatus (status : AttemptStatus) : bool :=
  bool_decide (status = AttemptFailed) || bool_decide (status = AttemptTimedOut)
  || bool_decide (status = AttemptInterrupted).

(** ** Validation of a stored history *)
Fixpoint validateAttempts (task : TaskRun) (total i : nat) (attempts : list Attempt) : outcome unit :=
  match attempts with
  | [] => Ok tt
  | attempt :: rest =>
    check (bool_decide (Number attempt ≠ Z.of_nat i + 1)%Z)
      (Errorf "task %q attempt number %d at index %d, want %d") $
    _ ← match att_Status attempt with
        | AttemptRunning =>
          check (bool_decide (S i ≠ total) || bool_decide (Status task ≠ TaskRunning))
            (Errorf "task %q has historical running attempt %d") (Ok tt)
        | AttemptSucceeded | AttemptFailed | AttemptTimedOut | AttemptCanceled | AttemptInterrupted => Ok tt
        | AttemptOther _ => Err (Errorf "task %q attempt %d has unsupported status %q")
        end;
    check (bool_decide (S i < total) && negb (isRetryableAttemptStatus (att_Status attempt)))
      (Errorf "task %q has non-retryable historical attempt %d with status %q") $
    validateAttempts task total (S i) rest
  end.

Definition validateAttemptHistoryForResume (task : TaskRun) (definition : TaskDefinition) : outcome unit :=
  let attempts := Attempts task in
  let count := Z.of_nat (length attempts) in
  let max := MaxAttempts (Retry definition) in
  check (bool_decide (Status task ≠ TaskWaitingRetry) && bool_decide (is_Some (ReadyAt task)))
    (Errorf "task %q has ready_at outside waiting_retry") $
  check (max <? count)%Z (Errorf "task %q has %d attempts, maximum is %d") $
  let lastStatus := match last attempts with Some a => att_Status a | None => AttemptOther "" end in
  _ ← match Status task with
      | TaskWaitingDependencies =>
        check (negb (count =? 0)%Z) (Errorf "task %q is waiting_dependencies with attempt history") (Ok tt)
      | TaskReady =>
        check (max <=? count)%Z (Errorf "task %q is ready after exhausted retry attempts") $
        check ((0 <? count)%Z && negb (isRetryableAttemptStatus lastStatus))
          (Errorf "task %q is ready after attempt status %q") (Ok tt)
      | TaskRunning =>
        check ((count =? 0)%Z || negb (bool_decide (lastStatus = AttemptRunning)))
          (Errorf "task %q is running without a running attempt") (Ok tt)
      | TaskWaitingRetry =>
        check ((count =? 0)%Z || bool_decide (ReadyAt task = None))
          (Errorf "task %q is waiting_retry without attempt or ready_at") $
        check (max <=? count)%Z (Errorf "task %q is waiting_retry after exhausted retry attempts") $
        check (negb (isRetryableAttemptStatus lastStatus))
          (Errorf "task %q is waiting_retry after attempt status %q") (Ok tt)
      | TaskSucceeded =>
        check ((count =? 0)%Z || negb (bool_decide (lastStatus = AttemptSucceeded)))
          (Errorf "task %q succeeded after attempt status %q") (Ok tt)
      | TaskFailed =>
        check ((count =? 0)%Z || (negb (bool_decide (lastStatus = AttemptFailed))
                && negb (bool_decide (lastStatus = AttemptTimedOut))
                && negb (bool_decide (lastStatus = AttemptInterrupted))))
          (Errorf "task %q failed after attempt status %q") $
        check ((bool_decide (lastStatus = AttemptTimedOut) || bool_decide (lastStatus = AttemptInterrupted))
               && (count <? max)%Z)
          (Errorf "task %q failed before retry attempts were exhausted") (Ok tt)
      | TaskCanceled =>
        check ((0 <? count)%Z && negb (bool_decide (lastStatus = AttemptCanceled))
               && negb (isRetryableAttemptStatus lastStatus))
          (Errorf "task %q canceled after attempt status %q") (Ok tt)
      | TaskSkipped =>
        check (negb (count =? 0)%Z) (Errorf "task %q is skipped with attempt history") (Ok tt)
      | TaskQueued | TaskOther _ => Err (Errorf "task %q has unsupported stored status %q")
      end;
  validateAttempts task (length attempts) 0 attempts.

(** ** [prepareForResume] *)
Definition resumeTask (compiled : CompiledWorkflow) (now : time) (i : nat) : go RunSnapshot unit :=
  s ← get;
  task ← deref (Tasks (Run s) !! i);
  definition ← deref (def_Tasks (definition compiled) !! i);
  _ ← fail_if (bool_decide (Key task ≠ def_Key definition))
        (Errorf "stored task %d key %q does not match definition key %q");
  _ ← lift (validateAttemptHistoryForResume task definition);
  match Status task with
  | TaskRunning =>
    _ ← transitionAttempt (Key task) i (pred (length (Attempts task))) AttemptInterrupted now "process restarted";
    if (MaxAttempts (Retry definition) <=? Z.of_nat (length (Attempts task)))%Z
    then transitionTask i TaskFailed now "attempts exhausted after restart"
    else
      _ ← transitionTask i TaskWaitingRetry now "retry interrupted attempt";
      modify (upd_task i (set_task_ReadyAt (Some now)))
  | _ => mret tt
  end.

Definition blocking (st : TaskStatus) : bool :=
  match st with TaskFailed | TaskCanceled | TaskSkipped => true | _ => false end.

Definition blockedSources (tasks : list TaskRun) : list nat :=
  filter (fun i => (blocking ∘ Status) <$> tasks !! i = Some true) (seq 0 (length tasks)).

(** The inner loop: the number of unfinished dependencies, and whether one is blocked. *)
Fixpoint countDependencies (dependencies : list nat) (remaining : Z) (blocked : bool)
    : go RunSnapshot (Z * bool) :=
  match dependencies with
  | [] => mret (remaining, blocked)
  | dependency :: rest =>
    s ← get;
    task ← deref (Tasks (Run s) !! dependency);
    match Status task with
    | TaskSucceeded => countDependencies rest remaining blocked
    | TaskFailed | TaskCanceled | TaskSkipped => countDependencies rest remaining true
    | _ => countDependencies rest (remaining + 1)%Z blocked
    end
  end.

Definition recomputeTask (compiled : CompiledWorkflow) (now : time) (i : nat) : go RunSnapshot unit :=
  s ← get;
  task ← deref (Tasks (Run s) !! i);
  if isTaskTerminal (Status task) then mret tt
  else
    ds ← deref (dependencies compiled !! i);
    '(remaining, blocked) ← countDependencies ds 0%Z false;
    _ ← modify (upd_Remaining <[i := remaining]>);
    if (blocked : bool) then transitionTask i TaskSkipped now "upstream terminal failure"
    else
      _ ← (if (remaining =? 0)%Z && bool_decide (Status task = TaskWaitingDependencies)
           then transitionTask i TaskReady now "dependencies restored" else mret tt);
      s ← get;
      task ← deref (Tasks (Run s) !! i);
      fail_if ((0 <? remaining)%Z && (bool_decide (Status task = TaskReady) || bool_decide (Status task = TaskWaitingRetry)))
        (Errorf "task %q is %s before dependencies succeeded").

Definition prepareForResume (compiled : CompiledWorkflow) (now : time) : go RunSnapshot unit :=
  s ← get;
  let n := length (Tasks (Run s)) in
  _ ← fail_if (bool_decide (n ≠ length (def_Tasks (definition compiled))))
        (Errorf "stored task count does not match definition");
  _ ← modify (upd_Remaining (fun _ => replicate n 0%Z));
  _ ← for_each (seq 0 n) (resumeTask compiled now);
  s ← get;
  _ ← skipDescendantsFrom compiled (blockedSources (Tasks (Run s))) now;
  for_each (seq 0 n) (recomputeTask compiled now).

(** ** A run that cannot finish after a restart

    [c] depends on [a] and [b].  [a] fails, [c] is skipped, [b] is still
    running when the process dies.  After the restart [b] is retried and
    succeeds. *)
Definition fork_definition : WorkflowDefinition :=
  mkWorkflowDefinition "fork" 2
    [sample_task "a" [] 1; sample_task "b" [] 3; sample_task "c" ["a"; "b"] 1].
Definition compiled_fork : CompiledWorkflow :=
  match Compile fork_definition with Ok c => c | _ => mkCompiledWorkflow fork_definition ∅ [] [] end.
Definition fork_before_crash : RunSnapshot :=
  default zero_RunSnapshot (run_from_start compiled_fork
    [OpStartRun 1001; OpPrepare 0 1002 1002; OpPrepare 1 1003 1003; OpApply 0 1 permanent_response 1004]).
Definition fork_resumed : RunSnapshot := (prepareForResume compiled_fork 2000 fork_before_crash).1.
Definition fork_retried : RunSnapshot :=
  default zero_RunSnapshot (run_ops compiled_fork [OpRetryReady 1 1 2001; OpPrepare 1 2002 2002] fork_resumed).

(** ** Validation accepts what a run can reach *)
Record attempt_resumable (t : TaskRun) (total k : nat) (a : Attempt) : Prop := {
  ar_number : Number a = (Z.of_nat k + 1)%Z;
  ar_known : forall s, att_Status a ≠ AttemptOther s;
  ar_running : att_Status a = AttemptRunning -> S k = total /\ Status t = TaskRunning;
  ar_past : S k < total -> retryable (att_Status a) = true;
}.

Lemma isRetryable_retryable st : isRetryableAttemptStatus st = retryable st.
Proof. by destruct st. Qed.

Lemma validateAttempts_ok t total atts : forall i,
  (forall k a, atts !! k = Some a -> attempt_resumable t total (i + k) a) ->
  validateAttempts t total i atts = Ok tt.
Proof.
  induction atts as [|a atts IH]; intros i H; [done|]. cbn [validateAttempts].
  destruct (H 0 a eq_refl) as [Hn Hk Hr Hp]. rewrite Nat.add_0_r in *.
  rewrite bool_decide_eq_false_2 by (intros E; by apply E). cbn [check].
  assert (Hrest : validateAttempts t total (S i) atts = Ok tt).
  { apply IH. intros k b Hb. specialize (H (S k) b Hb). by rewrite Nat.add_succ_r in H. }
  assert (Hlast : bool_decide (S i < total) && negb (isRetryableAttemptStatus (att_Status a)) = false).
  { rewrite isRetryable_retryable. case_bool_decide; [|done]. by rewrite Hp. }
  rewrite Hlast. destruct (att_Status a) as [| | | | | |o] eqn:Ha; try done.
  - destruct Hr as [Hr1 Hr2]; [done|].
    rewrite bool_decide_eq_false_2 by lia. rewrite bool_decide_eq_false_2 by (intros E; by apply E).
    done.
  - by destruct (Hk o).
Qed.

Lemma last_resumable d t k a :
  task_ok d t -> Attempts t !! k = Some a -> attempt_resumable t (length (Attempts t)) k a.
Proof.
  intros [_ [Hn Hp _ _] Hl _ _] Hk. pose proof (lookup_lt_Some _ _ _ Hk) as Hlt.
  destruct (decide (S k < length (Attempts t))) as [Hlt'|Hge].
  { pose proof (Hp k a Hk Hlt') as Hr. split; [by apply Hn| | |done].
    - intros s E. by rewrite E in Hr.
    - intros E. by rewrite E in Hr. }
  assert (Ha : last (Attempts t) = Some a).
  { rewrite last_lookup. by replace (pred (length (Attempts t))) with k by lia. }
  assert (Hst : retryable (att_Status a) = true \/ att_Status a = AttemptCanceled \/
    att_Status a = AttemptSucceeded \/ (att_Status a = AttemptRunning /\ Status t = TaskRunning)).
  { destruct (Status t); cbn in Hl; try done; try (rewrite Hl in Ha; done).
    - left. by apply Hl.
    - left. by apply Hl.
    - destruct Hl as (b & Hb & E). simplify_eq. auto.
    - destruct Hl as (_ & b & Hb & E). simplify_eq. auto.
    - destruct Hl as (b & Hb & E). simplify_eq. auto.
    - destruct Hl as (b & Hb & E & _). simplify_eq. auto.
    - destruct (Hl a Ha); auto. }
  split; [by apply Hn| | |lia].
  - intros s E. rewrite E in Hst. by destruct Hst as [|[|[|[]]]].
  - intros E. rewrite E in Hst. destruct Hst as [?|[?|[?|[_ ?]]]]; [done..|]. split; [lia|done].
Qed.

Lemma validate_ok d t :
  task_ok d t -> Status t ≠ TaskQueued -> validateAttemptHistoryForResume t d = Ok tt.
Proof.
  intros Hok Hnq. unfold validateAttemptHistoryForResume. cbv zeta.
  pose proof (validateAttempts_ok t (length (Attempts t)) (Attempts t) 0
    (fun k a => last_resumable d t k a Hok)) as Hatts.
  destruct Hok as [_ [_ _ _ Hlim] Hl Hra _].
  assert (Hra' : bool_decide (Status t ≠ TaskWaitingRetry) && bool_decide (is_Some (ReadyAt t)) = false).
  { case_bool_decide as E; [|done]. apply bool_decide_eq_false_2. by rewrite Hra. }
  rewrite Hra'. cbn [check]. rewrite (proj2 (Z.ltb_ge _ _) Hlim). cbn [check].
  assert (Hempty : forall b : Attempt, last (Attempts t) = Some b -> (Z.of_nat (length (Attempts t)) =? 0)%Z = false).
  { intros b Hb. apply Z.eqb_neq. destruct (Attempts t); [done|]. rewrite length_cons. lia. }
  destruct (Status t) eqn:Hst; cbn in Hl; try done.
  - rewrite Hl in *. done.
  - destruct Hl as [Hlt Hl]. rewrite (proj2 (Z.leb_gt _ _) Hlt). cbn [check].
    destruct (last (Attempts t)) as [a|] eqn:Ha.
    + rewrite isRetryable_retryable, (Hl a eq_refl), andb_false_r. done.
    + by apply last_None in Ha as E; rewrite E in *.
  - destruct Hl as (a & Ha & E). by rewrite Ha, E, (Hempty a Ha).
  - destruct Hl as (Hlt & a & Ha & E). rewrite Ha, (Hempty a Ha), (proj2 (Z.leb_gt _ _) Hlt).
    rewrite bool_decide_eq_false_2; [by rewrite isRetryable_retryable, E|].
    intros En. assert (is_Some (ReadyAt t)) as [? ?] by (by apply Hra). congruence.
  - destruct Hl as (a & Ha & E). by rewrite Ha, E, (Hempty a Ha).
  - destruct Hl as (a & Ha & E & Hmax). rewrite Ha, (Hempty a Ha).
    destruct (att_Status a); try done; destruct Hmax as [|Hmax]; try done;
      rewrite (proj2 (Z.ltb_ge _ _) Hmax); done.
  - destruct (last (Attempts t)) as [a|] eqn:Ha.
    + rewrite isRetryable_retryable. destruct (Hl a eq_refl) as [-> | ->]; [by rewrite andb_false_r|].
      by rewrite andb_false_r.
    + by apply last_None in Ha as E; rewrite E in *.
  - by rewrite Hl in *.
Qed.
