(* ===== verification/Resume.v ===== *)
(** * Restart recovery restores the run

    The correctness of [prepareForResume] (src/workflow/recovery.go): on every
    snapshot the local engine can have persisted for an unfinished run it
    succeeds; attempts of the dead process are closed as interrupted and
    retried or failed, failures are propagated to all descendants, and the
    dependency counters of unfinished tasks are exact.  The second part is the
    run it leaves stuck. *)
From S2P Require Import Prelude GoStrings Json Model State Graph Compiler Scheduling Distributed Effects RunInvariant RunOperations RunResults RunProperties RunTheorems Recovery.
From stdpp Require Import relations.

(** ** Loops over the positions of the tasks *)
Lemma task_effect_same i t s : Tasks (Run s) !! i = Some t -> task_effect i t s s.
Proof. intros Ht. split; [auto| |done|done]. by rewrite list_insert_id. Qed.

Definition below (m : nat) (f : nat -> TaskRun -> TaskRun) (j : nat) (t : TaskRun) : TaskRun :=
  if bool_decide (j < m) then f j t else t.

Lemma each_task_run f (body : nat -> go RunSnapshot unit) s m :
  m <= length (Tasks (Run s)) ->
  (forall i t s1, Tasks (Run s) !! i = Some t -> Tasks (Run s1) !! i = Some t ->
     exists s2, body i s1 = (s2, Ok tt) /\ task_effect i (f i t) s1 s2) ->
  exists s', for_each (seq 0 m) body s = (s', Ok tt) /\ tasks_effect (below m f) s s'.
Proof.
  intros Hm Hbody. induction m as [|m IH]; [exists s; split; [done|by apply tasks_effect_id]|].
  destruct IH as (s1 & Hrun & He); [lia|]. rewrite seq_S, for_each_app. go_step by exact Hrun.
  destruct (lookup_lt_is_Some_2 (Tasks (Run s)) m) as [t Ht]; [lia|].
  destruct (Hbody m t s1 Ht) as (s2 & Hrun2 & He2).
  { rewrite (tse_tasks _ _ _ He), list_lookup_imap, Ht. cbn. unfold below.
    by rewrite bool_decide_eq_false_2 by lia. }
  exists s2. split; [cbn; by go_step by exact Hrun2|]. eapply tasks_effect_step; [exact He|exact He2|].
  intros j u Hu. unfold below. destruct (decide (j = m)) as [->|Hne].
  - rewrite bool_decide_eq_true_2 by lia. rewrite (bool_decide_eq_true_2 (m = m)) by done.
    by simplify_eq.
  - rewrite (bool_decide_eq_false_2 (j = m)) by done.
    by rewrite (bool_decide_ext (j < S m) (j < m)) by lia.
Qed.

(** ** The first pass: attempts of the dead process *)
Definition exhausted (d : TaskDefinition) (t : TaskRun) : bool :=
  (MaxAttempts (Retry d) <=? Z.of_nat (length (Attempts t)))%Z.

Definition resumed_task (d : TaskDefinition) (now : time) (t : TaskRun) : TaskRun :=
  match Status t, last (Attempts t) with
  | TaskRunning, Some a =>
    let closed := close_last (Result a) AttemptInterrupted now t in
    if exhausted d t then task_after TaskFailed now closed
    else set_task_ReadyAt (Some now) (task_after TaskWaitingRetry now closed)
  | _, _ => t
  end.

Definition resume_at (c : CompiledWorkflow) (now : time) (i : nat) (t : TaskRun) : TaskRun :=
  match def_Tasks (definition c) !! i with Some d => resumed_task d now t | None => t end.

Section resume.
Context (c : CompiledWorkflow) (Hc : compiled_wf c) (now : time).

Lemma interrupt_effect key i s t a :
  Tasks (Run s) !! i = Some t -> last (Attempts t) = Some a -> att_Status a = AttemptRunning ->
  exists s', transitionAttempt key i (pred (length (Attempts t))) AttemptInterrupted now
      "process restarted" s = (s', Ok tt) /\
    task_effect i (close_last (Result a) AttemptInterrupted now t) s s'.
Proof.
  intros Ht Ha Hr. rewrite last_lookup in Ha. set (k := pred (length (Attempts t))) in *. eexists. split.
  { eapply transitionAttempt_run; [exact Ht|exact Ha|by rewrite Hr]. }
  assert (E : close_last (Result a) AttemptInterrupted now t =
    set_task_Attempts (alter (attempt_after AttemptInterrupted now) k (Attempts t)) t).
  { unfold close_last. apply (f_equal (fun l => set_task_Attempts l t)), list_eq. intros j. destruct (decide (j = k)) as [->|Hne].
    - rewrite !list_lookup_alter_eq. fold k. rewrite Ha. by destruct a.
    - by rewrite !list_lookup_alter_ne. }
  rewrite E. split; [auto| |done|done]. rewrite push_event_Tasks.
  apply (te_tasks _ _ _ _ (upd_attempt_effect i k (attempt_after AttemptInterrupted now) s t Ht)).
Qed.

Lemma resumeTask_run i t d s :
  Tasks (Run s) !! i = Some t -> def_Tasks (definition c) !! i = Some d -> task_ok d t ->
  Status t ≠ TaskQueued ->
  exists s', resumeTask c now i s = (s', Ok tt) /\ task_effect i (resumed_task d now t) s s'.
Proof.
  intros Ht Hd Hok Hnq. unfold resumeTask, resumed_task. go_step. rewrite Ht. go_step. rewrite Hd. go_step.
  rewrite (tk_key _ _ Hok), bool_decide_eq_false_2 by (intros E; by apply E). go_step.
  rewrite (validate_ok d t Hok Hnq). go_step.
  destruct (Status t) eqn:Hst; try (exists s; split; [done|by apply task_effect_same]).
  pose proof (tk_last _ _ Hok) as Hl. rewrite Hst in Hl. destruct Hl as (a & Ha & Hr).
  destruct (interrupt_effect (def_Key d) i s t a Ht Ha Hr) as (s1 & Hrun1 & He1). go_step by exact Hrun1.
  rewrite Ha. cbv zeta. unfold exhausted.
  pose proof (task_effect_lookup _ _ _ _ _ Ht He1) as Ht1.
  destruct (MaxAttempts (Retry d) <=? Z.of_nat (length (Attempts t)))%Z.
  - destruct (transitionTask_effect i TaskFailed now "attempts exhausted after restart" s1 _ Ht1)
      as (s2 & Hrun2 & He2); [cbn; by rewrite Hst|].
    exists s2. split; [done|by eapply task_effect_trans].
  - destruct (transitionTask_effect i TaskWaitingRetry now "retry interrupted attempt" s1 _ Ht1)
      as (s2 & Hrun2 & He2); [cbn; by rewrite Hst|].
    go_step by exact Hrun2. eexists. split; [reflexivity|].
    pose proof (task_effect_lookup _ _ _ _ _ Ht1 He2) as Ht2.
    eapply task_effect_trans; [exact He1|]. eapply task_effect_trans; [exact He2|].
    by apply upd_task_effect.
Qed.

Lemma resumed_task_ok d t : task_ok d t -> task_ok d (resumed_task d now t).
Proof.
  intros Hok. unfold resumed_task. destruct (Status t) eqn:Hst; try done.
  pose proof (tk_last _ _ Hok) as Hl. rewrite Hst in Hl. destruct Hl as (a & Ha & Hr). rewrite Ha.
  pose proof (close_last_mid d t (Result a) AttemptInterrupted now a (task_ok_mid _ _ Hok) Ha) as Hmid.
  specialize (Hmid ltac:(done)). cbv zeta. unfold exhausted.
  assert (Hlast : last (Attempts (close_last (Result a) AttemptInterrupted now t)) =
    Some (attempt_after AttemptInterrupted now (set_att_Result (Result a) a)))
    by by apply close_attempts_last.
  destruct (MaxAttempts (Retry d) <=? Z.of_nat (length (Attempts t)))%Z eqn:E.
  - apply Z.leb_le in E. apply task_mid_transition; [done|by cbn; rewrite Hst|done|].
    cbn [last_ok]. eexists. split_and!; [exact Hlast|done|].
    right. rewrite close_last_attempts, close_attempts_length. done.
  - apply Z.leb_gt in E. apply task_mid_retry; [done|by cbn; rewrite Hst|].
    cbn [last_ok]. rewrite close_last_attempts, close_attempts_length in *. split; [done|].
    eexists. split; [exact Hlast|done].
Qed.

Lemma resumed_task_evolves d t : task_ok d t -> task_evolves t (resumed_task d now t).
Proof.
  intros Hok. unfold resumed_task. destruct (Status t) eqn:Hst; try done.
  pose proof (tk_last _ _ Hok) as Hl. rewrite Hst in Hl. destruct Hl as (a & Ha & Hr). rewrite Ha.
  assert (He : task_evolves t (close_last (Result a) AttemptInterrupted now t))
    by (eapply task_evolves_close; [by rewrite Hst|done..]).
  cbv zeta. destruct (exhausted d t).
  - apply task_evolves_after; [done|by cbn; rewrite Hst].
  - assert (Ht : task_evolves t (task_after TaskWaitingRetry now (close_last (Result a) AttemptInterrupted now t)))
      by (apply task_evolves_after; [done|by cbn; rewrite Hst]).
    destruct Ht as [H1 H2 H3 H4]. split; [done| |done|done]. intros E. by rewrite Hst in E.
Qed.

(** ** The second pass: failures are propagated *)
Lemma resumed_status d t :
  task_ok d t ->
  (Status t ≠ TaskRunning /\ Status (resumed_task d now t) = Status t) \/
  (Status t = TaskRunning /\ Status (resumed_task d now t) = if exhausted d t then TaskFailed else TaskWaitingRetry).
Proof.
  intros Hok. unfold resumed_task. destruct (Status t) eqn:Hst; try (by left).
  pose proof (tk_last _ _ Hok) as Hl. rewrite Hst in Hl. destruct Hl as (a & Ha & _). rewrite Ha.
  right. split; [done|]. cbv zeta. by destruct (exhausted d t).
Qed.

Definition resumed_from (s s1 : RunSnapshot) : Prop :=
  Tasks (Run s1) = imap (resume_at c now) (Tasks (Run s)).

Lemma resumed_lookup s s1 j t :
  run_core c s -> resumed_from s s1 -> Tasks (Run s) !! j = Some t ->
  exists d, def_Tasks (definition c) !! j = Some d /\ task_ok d t /\ (1 <= MaxAttempts (Retry d))%Z /\
    Tasks (Run s1) !! j = Some (resumed_task d now t).
Proof.
  intros Hcore He Ht. destruct (task_definition c Hc s j t Hcore Ht) as (d & Hd & Hok & Hmax).
  exists d. split_and!; [done..|]. rewrite He, list_lookup_imap, Ht. cbn.
  unfold resume_at. by rewrite Hd.
Qed.

(** The tasks whose last attempt was lost. *)
Definition lost (s s1 : RunSnapshot) : list nat :=
  filter (fun i => statuses s !! i = Some TaskRunning /\ statuses s1 !! i = Some TaskFailed)
    (seq 0 (length (Tasks (Run s)))).
(** The statuses without those failures. *)
Definition spared (s s1 : RunSnapshot) : list TaskStatus :=
  imap (fun j st => if bool_decide (j ∈ lost s s1) then TaskRunning else st) (statuses s1).

Lemma elem_of_lost s s1 i :
  i ∈ lost s s1 <-> statuses s !! i = Some TaskRunning /\ statuses s1 !! i = Some TaskFailed.
Proof.
  unfold lost. rewrite list_elem_of_filter, elem_of_seq. split; [by intros []|].
  intros [H1 H2]. split; [done|]. apply lookup_lt_Some in H1. unfold statuses in H1.
  rewrite length_fmap in H1. lia.
Qed.

Lemma resumed_statuses s s1 j :
  run_core c s -> resumed_from s s1 ->
  statuses s1 !! j = statuses s !! j \/
  (statuses s !! j = Some TaskRunning /\
   (statuses s1 !! j = Some TaskFailed \/ statuses s1 !! j = Some TaskWaitingRetry)).
Proof.
  intros Hcore He. unfold statuses. rewrite !list_lookup_fmap.
  destruct (Tasks (Run s) !! j) as [t|] eqn:Ht.
  - destruct (resumed_lookup s s1 j t Hcore He Ht) as (d & Hd & Hok & _ & ->). cbn.
    destruct (resumed_status d t Hok) as [[_ ->]|[-> ->]]; [by left|right]. split; [done|].
    destruct (exhausted d t); auto.
  - left. by rewrite He, list_lookup_imap, Ht.
Qed.

Lemma spared_moves s s1 : run_core c s -> resumed_from s s1 -> moves (statuses s) (spared s s1).
Proof.
  intros Hcore He. unfold spared. split.
  { rewrite length_imap. unfold statuses. by rewrite !length_fmap, He, length_imap. }
  intros i st Hi. rewrite list_lookup_imap.
  destruct (resumed_statuses s s1 i Hcore He) as [E|(Hr & [E|E])]; rewrite E.
  - rewrite Hi. cbn. left. rewrite bool_decide_eq_false_2; [done|]. rewrite elem_of_lost. intros []. congruence.
  - cbn. rewrite bool_decide_eq_true_2 by by apply elem_of_lost. left. by simplify_eq.
  - cbn. rewrite bool_decide_eq_false_2 by (rewrite elem_of_lost; intros []; congruence).
    right. eexists. split; [done|]. by simplify_eq.
Qed.

Lemma elem_of_blockedSources s i :
  i ∈ blockedSources (Tasks (Run s)) <-> exists st, statuses s !! i = Some st /\ blocking st = true.
Proof.
  unfold blockedSources, statuses. rewrite list_elem_of_filter, elem_of_seq, list_lookup_fmap.
  destruct (Tasks (Run s) !! i) as [t|] eqn:Ht; cbn.
  - split; [intros [[= E] _]; by exists (Status t)|]. intros (st & [= <-] & ->). split; [done|].
    apply lookup_lt_Some in Ht. lia.
  - split; [by intros []|by intros (? & ? & _)].
Qed.

Lemma broken_downstream ws sts rem i j st :
  sched_core c ws sts rem -> tc (edge (successors c)) i j -> sts !! i = Some st -> broken st = true ->
  sts !! j = Some TaskSkipped.
Proof.
  intros Hs Htc. revert st. induction Htc as [i j Hij|i k j Hik Hkj IH]; intros st Hi Hb.
  - by eapply (sc_propagated _ _ _ _ Hs).
  - eapply IH; [by eapply (sc_propagated _ _ _ _ Hs)|done].
Qed.

Definition downstream_of_blocked (s1 : RunSnapshot) (j : nat) : Prop :=
  exists f, f ∈ blockedSources (Tasks (Run s1)) /\ tc (edge (successors c)) f j.

Lemma blocked_not_succeeded s s1 f :
  run_core c s -> resumed_from s s1 -> f ∈ blockedSources (Tasks (Run s1)) ->
  exists st, statuses s !! f = Some st /\ st ≠ TaskSucceeded.
Proof.
  intros Hcore He (st & Hst & Hb)%elem_of_blockedSources.
  destruct (resumed_statuses s s1 f Hcore He) as [E|[E _]].
  - exists st. split; [congruence|]. by intros ->.
  - by exists TaskRunning.
Qed.

Lemma blocked_idle s s1 j u :
  run_core c s -> run_Status (Run s) ≠ WorkflowCanceled -> resumed_from s s1 ->
  downstream_of_blocked s1 j -> Tasks (Run s1) !! j = Some u -> isTaskTerminal (Status u) = false ->
  Status u = TaskWaitingDependencies.
Proof.
  intros Hcore Hws He (f & Hf & Htc) Hu Hnt.
  destruct (blocked_not_succeeded s s1 f Hcore He Hf) as (st & Hst & Hne).
  apply status_lookup in Hu.
  destruct (descendants_idle c Hc _ _ _ f j st (rc_sched _ _ Hcore) Hws Htc Hst Hne) as [E|E];
    destruct (resumed_statuses s s1 j Hcore He) as [E1|[E1 _]]; rewrite E in E1; try done;
    rewrite Hu in E1; injection E1 as E1; by rewrite E1 in *.
Qed.

Lemma spared_skipped s s1 j :
  run_core c s -> resumed_from s s1 -> statuses s !! j = Some TaskSkipped ->
  spared s s1 !! j = Some TaskSkipped.
Proof.
  intros Hcore He Hj. destruct (spared_moves s s1 Hcore He) as [_ Hm].
  by destruct (Hm j _ Hj) as [|(st' & _ & [=] & _)].
Qed.

Lemma propagated_statuses s s1 s2 reached :
  tasks_effect (skip_if reached now) s1 s2 ->
  statuses s2 = after_failures reached (lost s s1) (spared s s1).
Proof.
  intros He. unfold after_failures, spared. apply list_eq. intros j.
  rewrite !list_lookup_imap. assert (E : forall s, statuses s !! j = Status <$> Tasks (Run s) !! j)
    by (intros; apply list_lookup_fmap).
  rewrite !E, (tse_tasks _ _ _ He), list_lookup_imap.
  destruct (Tasks (Run s1) !! j) as [t|] eqn:Ht; [|done]. cbn. f_equal. unfold skip_if. case_bool_decide as Hl.
  - apply elem_of_lost in Hl as [_ Hf]. rewrite (status_lookup _ _ _ Ht) in Hf. injection Hf as E'.
    by rewrite E', andb_false_r.
  - by destruct (reached j && negb (isTaskTerminal (Status t))).
Qed.

Lemma propagate_run s s1 :
  run_core c s -> run_Status (Run s) ≠ WorkflowCanceled -> resumed_from s s1 ->
  exists s2 reached, skipDescendantsFrom c (blockedSources (Tasks (Run s1))) now s1 = (s2, Ok tt) /\
    (forall j, reached j = true <-> downstream_of_blocked s1 j) /\
    tasks_effect (skip_if reached now) s1 s2 /\
    sched_core c (run_Status (Run s)) (statuses s2) (RemainingDependencies (Run s)).
Proof.
  intros Hcore Hws He.
  assert (Hlen : length (successors c) = length (Tasks (Run s1))).
  { rewrite (cw_succ_length c Hc), He, length_imap. symmetry. by apply run_core_length. }
  destruct (skip_run (successors c) (blockedSources (Tasks (Run s1))) now s1 (cw_adjacency c Hc) Hlen)
    with (c := c) as (s2 & reached & Hrun & Hreach & He2).
  { intros j u Hr Hu Hnt. by rewrite (blocked_idle s s1 j u Hcore Hws He Hr Hu Hnt). }
  { done. }
  { intros f (st & Hst & _)%elem_of_blockedSources. rewrite Hlen. apply lookup_lt_Some in Hst.
    unfold statuses in Hst. by rewrite length_fmap in Hst. }
  exists s2, reached. split_and!; try done. rewrite (propagated_statuses s s1 s2 reached He2).
  pose proof (core_moves c _ _ _ _ (rc_sched _ _ Hcore) (spared_moves s s1 Hcore He)) as Hsp.
  apply core_failures; try done.
  - intros i Hi. pose proof Hi as Hi'. apply elem_of_lost in Hi' as [_ Hi']. unfold spared.
    rewrite list_lookup_imap, Hi'. cbn. by rewrite bool_decide_eq_true_2.
  - intros j (f & Hf & Htc)%Hreach. destruct (decide (f ∈ lost s s1)) as [Hl|Hnl]; [left; by exists f|right].
    apply spared_skipped; try done. pose proof Hf as Hf'.
    apply elem_of_blockedSources in Hf' as (st & Hst & Hb).
    destruct (resumed_statuses s s1 f Hcore He) as [E|(E & [E'|E'])].
    + rewrite Hst in E. symmetry in E. eapply (broken_downstream _ _ _ f j st); [apply Hcore|done|done|].
      destruct st; try done. by apply (core_canceled_free c _ _ _ f (rc_sched _ _ Hcore)) in Hws.
    + destruct Hnl. by apply elem_of_lost.
    + rewrite Hst in E'. injection E' as ->. done.
  - intros i j Hi Htc. apply Hreach. exists i. split; [|done]. apply elem_of_blockedSources.
    apply elem_of_lost in Hi as [_ Hi]. by exists TaskFailed.
Qed.

(** ** The third pass: the counters *)
Lemma countDependencies_run ds s remaining :
  (forall i, i ∈ ds -> exists st, statuses s !! i = Some st /\ blocking st = false) ->
  countDependencies ds remaining false s =
  (s, Ok (remaining + Z.of_nat (length (filter (fun i => statuses s !! i ≠ Some TaskSucceeded) ds)), false)%Z).
Proof.
  revert remaining. induction ds as [|i ds IH]; intros remaining H; cbn [countDependencies].
  { cbn. by rewrite Z.add_0_r. }
  destruct (H i (list_elem_of_here _ _)) as (st & Hi & Hb). go_step.
  unfold statuses in Hi. rewrite list_lookup_fmap in Hi.
  destruct (Tasks (Run s) !! i) as [t|] eqn:Ht; [|done]. injection Hi as <-. go_step.
  pose proof (status_lookup _ _ _ Ht) as Hst.
  assert (IH' : forall r, countDependencies ds r false s = (s, Ok (r +
    Z.of_nat (length (filter (fun i => statuses s !! i ≠ Some TaskSucceeded) ds)), false)%Z)).
  { intros r. apply IH. intros k Hk. apply H. by right. }
  rewrite filter_cons. destruct (decide (statuses s !! i ≠ Some TaskSucceeded)) as [Hne|Heq].
  - rewrite length_cons. replace (remaining + Z.of_nat (S _))%Z with (remaining + 1 +
      Z.of_nat (length (filter (fun i => statuses s !! i ≠ Some TaskSucceeded) ds)))%Z by lia.
    rewrite Hst in Hne. destruct (Status t); try done; apply IH'.
  - apply dec_stable in Heq. rewrite Hst in Heq. injection Heq as ->. apply IH'.
Qed.

Lemma unblocked ws s rem i j st :
  sched_core c ws (statuses s) rem -> ws ≠ WorkflowCanceled -> statuses s !! j = Some st ->
  isTaskTerminal st = false -> edge (successors c) i j ->
  exists st', statuses s !! i = Some st' /\ blocking st' = false.
Proof.
  intros Hs Hws Hj Hnt Hij.
  destruct (lookup_lt_is_Some_2 (statuses s) i) as [st' Hi].
  { rewrite (sc_length _ _ _ _ Hs). by destruct (upstream_range c Hc i j Hij). }
  exists st'. split; [done|]. destruct (broken st') eqn:Hb.
  - pose proof (sc_propagated _ _ _ _ Hs i j st' Hi Hb Hij) as E. rewrite Hj in E. injection E as ->. done.
  - destruct st'; try done. by apply (core_canceled_free c _ _ _ i Hs) in Hws.
Qed.

Definition recount (sts : list TaskStatus) (m : nat) (rem : list Z) : list Z :=
  imap (fun j r => match sts !! j with
                   | Some st => if bool_decide (j < m) && negb (isTaskTerminal st) then dep_count c sts j else r
                   | None => r
                   end) rem.

Lemma recomputeTask_run ws rem i t s :
  sched_core c ws (statuses s) rem -> ws ≠ WorkflowCanceled -> Tasks (Run s) !! i = Some t ->
  recomputeTask c now i s =
  (if isTaskTerminal (Status t) then s else upd_Remaining <[i := dep_count c (statuses s) i]> s, Ok tt).
Proof.
  intros Hs Hws Ht. unfold recomputeTask. go_step. rewrite Ht. go_step.
  pose proof (status_lookup _ _ _ Ht) as Hst.
  destruct (isTaskTerminal (Status t)) eqn:Hterm; [done|].
  destruct (lookup_lt_is_Some_2 (dependencies c) i) as [ds Hds].
  { rewrite (cw_dep_length c Hc), <-(sc_length _ _ _ _ Hs). by eapply lookup_lt_Some. }
  rewrite Hds. go_step. go_step by (apply countDependencies_run; intros k Hk;
    eapply unblocked; [exact Hs|done|exact Hst|done|apply (in_dependencies c Hc); by rewrite Hds]).
  assert (Hcount : (0 + Z.of_nat (length (filter (fun k => statuses s !! k ≠ Some TaskSucceeded) ds)))%Z
    = dep_count c (statuses s) i) by (unfold dep_count; by rewrite Hds).
  rewrite Hcount. pose proof (sc_status _ _ _ _ Hs i _ Hst) as Hok. go_step.
  assert (Hready : (dep_count c (statuses s) i =? 0)%Z && bool_decide (Status t = TaskWaitingDependencies) = false).
  { case_bool_decide as E; [|by rewrite andb_false_r]. rewrite E in Hok. cbn in Hok.
    rewrite (proj2 (Z.eqb_neq _ _)) by lia. done. }
  rewrite Hready. go_step. go_step. cbn. rewrite Ht. go_step.
  assert (Hearly : (0 <? dep_count c (statuses s) i)%Z &&
    (bool_decide (Status t = TaskReady) || bool_decide (Status t = TaskWaitingRetry)) = false).
  { destruct (0 <? dep_count c (statuses s) i)%Z eqn:E; [|done]. apply Z.ltb_lt in E.
    destruct (Status t); cbn in Hok; try done; lia. }
  by rewrite Hearly.
Qed.

Lemma upd_Remaining_compose f g s : upd_Remaining f (upd_Remaining g s) = upd_Remaining (f ∘ g) s.
Proof. by destruct s as [? ? [] ?]. Qed.

Lemma upd_Remaining_ext f g s :
  f (RemainingDependencies (Run s)) = g (RemainingDependencies (Run s)) -> upd_Remaining f s = upd_Remaining g s.
Proof. intros E. unfold upd_Remaining, upd_Run. by rewrite E. Qed.

Lemma upd_Remaining_id f s :
  f (RemainingDependencies (Run s)) = RemainingDependencies (Run s) -> upd_Remaining f s = s.
Proof. intros E. destruct s as [? ? [] ?]. unfold upd_Remaining, upd_Run, set_Run. cbn in *. by rewrite E. Qed.

Lemma recompute_loop ws rem s m :
  sched_core c ws (statuses s) rem -> ws ≠ WorkflowCanceled -> m <= length (Tasks (Run s)) ->
  for_each (seq 0 m) (recomputeTask c now) s = (upd_Remaining (recount (statuses s) m) s, Ok tt).
Proof.
  intros Hs Hws. induction m as [|m IH]; intros Hm.
  { rewrite upd_Remaining_id; [done|]. unfold recount. apply list_eq. intros j. rewrite list_lookup_imap.
    destruct (RemainingDependencies (Run s) !! j); [|done]. cbn. by destruct (statuses s !! j). }
  rewrite seq_S, for_each_app. go_step by (apply IH; lia).
  destruct (lookup_lt_is_Some_2 (Tasks (Run s)) m) as [t Ht]; [lia|]. cbn [for_each Nat.add].
  set (s1 := upd_Remaining (recount (statuses s) m) s).
  go_step by (apply (recomputeTask_run ws rem m t s1); done).
  pose proof (status_lookup _ _ _ Ht) as Hst.
  assert (E : forall l, recount (statuses s) (S m) l =
    (if isTaskTerminal (Status t) then recount (statuses s) m l
     else <[m := dep_count c (statuses s) m]> (recount (statuses s) m l))).
  { intros l. apply list_eq. intros j. unfold recount. destruct (decide (j = m)) as [->|Hne].
    - destruct (isTaskTerminal (Status t)) eqn:Hterm.
      + rewrite !list_lookup_imap. destruct (l !! m); [|done]. cbn. by rewrite Hst, Hterm, !andb_false_r.
      + destruct (l !! m) as [r|] eqn:Hl.
        * rewrite list_lookup_insert_eq by (rewrite length_imap; by eapply lookup_lt_Some).
          rewrite list_lookup_imap, Hl. cbn. rewrite Hst, Hterm. by rewrite bool_decide_eq_true_2 by lia.
        * rewrite list_insert_ge by (rewrite length_imap; by apply lookup_ge_None).
          by rewrite !list_lookup_imap, Hl.
    - assert (E : forall r, match statuses s !! j with
        | Some st => if bool_decide (j < S m) && negb (isTaskTerminal st) then dep_count c (statuses s) j else r
        | None => r end = match statuses s !! j with
        | Some st => if bool_decide (j < m) && negb (isTaskTerminal st) then dep_count c (statuses s) j else r
        | None => r end).
      { intros r. by rewrite (bool_decide_ext (j < S m) (j < m)) by lia. }
      destruct (isTaskTerminal (Status t)); rewrite ?list_lookup_insert_ne by done;
        rewrite !list_lookup_imap; destruct (l !! j); cbn; try done; by rewrite E. }
  transitivity (upd_Remaining (recount (statuses s) (S m)) s, @Ok unit tt); [|done].
  unfold s1. destruct (isTaskTerminal (Status t)); rewrite ?upd_Remaining_compose; cbv [mret go_ret]; f_equal;
    apply upd_Remaining_ext; cbn; by rewrite E.
Qed.

(** ** The whole of [prepareForResume] *)
Definition dep_counts (sts : list TaskStatus) : list Z := imap (fun j _ => dep_count c sts j) sts.
Definition resume_counts (sts : list TaskStatus) : list Z :=
  imap (fun j st => if isTaskTerminal st then 0%Z else dep_count c sts j) sts.

Lemma recount_fresh sts :
  recount sts (length sts) (replicate (length sts) 0%Z) = resume_counts sts.
Proof.
  unfold recount, resume_counts. apply list_eq. intros j. rewrite !list_lookup_imap.
  destruct (sts !! j) as [st|] eqn:Hj.
  - pose proof (lookup_lt_Some _ _ _ Hj). rewrite lookup_replicate_2 by done. cbn.
    rewrite bool_decide_eq_true_2 by done. by destruct (isTaskTerminal st).
  - apply lookup_ge_None in Hj. by rewrite lookup_ge_None_2 by by rewrite length_replicate.
Qed.

Record resumes (s s' : RunSnapshot) (reached : nat -> bool) : Prop := {
  rs_frame : frame s s';
  rs_workflow : workflow_fields s' = workflow_fields s;
  rs_tasks : Tasks (Run s') = imap (fun j t => skip_if reached now j (resume_at c now j t)) (Tasks (Run s));
  rs_idle : forall j t, reached j = true -> Tasks (Run s) !! j = Some t ->
    isTaskTerminal (Status (resume_at c now j t)) = false -> Status t = TaskWaitingDependencies;
  rs_remaining : RemainingDependencies (Run s') = resume_counts (statuses s');
  rs_sched : sched_core c (run_Status (Run s)) (statuses s') (RemainingDependencies (Run s));
}.

Lemma prepareForResume_run s :
  run_core c s -> run_Status (Run s) ≠ WorkflowCanceled ->
  (forall t, t ∈ Tasks (Run s) -> Status t ≠ TaskQueued) ->
  exists s' reached, prepareForResume c now s = (s', Ok tt) /\ resumes s s' reached.
Proof.
  intros Hcore Hws Hnq. unfold prepareForResume. go_step. cbv zeta.
  rewrite bool_decide_eq_false_2 by (rewrite (run_core_length c s Hcore); intros E; by apply E).
  go_step. go_step. set (s0 := upd_Remaining _ s).
  destruct (each_task_run (resume_at c now) (resumeTask c now) s0 (length (Tasks (Run s)))) as (s1 & Hrun1 & He1).
  { done. }
  { intros i t s1 Ht Ht1. destruct (task_definition c Hc s i t Hcore Ht) as (d & Hd & Hok & _).
    destruct (resumeTask_run i t d s1 Ht1 Hd Hok) as (s2 & Hrun & He).
    { eapply Hnq, list_elem_of_lookup_2, Ht. }
    exists s2. split; [done|]. unfold resume_at. by rewrite Hd. }
  go_step by exact Hrun1. go_step.
  assert (Hfrom : resumed_from s s1).
  { unfold resumed_from. rewrite (tse_tasks _ _ _ He1). apply list_eq. intros j. rewrite !list_lookup_imap.
    change (Tasks (Run s0)) with (Tasks (Run s)). destruct (Tasks (Run s) !! j) eqn:Hj; [|done]. cbn.
    unfold below. rewrite bool_decide_eq_true_2; [done|]. by eapply lookup_lt_Some. }
  destruct (propagate_run s s1 Hcore Hws Hfrom) as (s2 & reached & Hrun2 & Hreach & He2 & Hs2).
  go_step by exact Hrun2.
  assert (Hlen : length (Tasks (Run s)) = length (Tasks (Run s2)))
    by by rewrite (tse_tasks _ _ _ He2), Hfrom, !length_imap.
  rewrite (recompute_loop _ _ _ _ Hs2 Hws) by by rewrite Hlen.
  assert (Hrem : RemainingDependencies (Run s2) = replicate (length (Tasks (Run s))) 0%Z)
    by by rewrite (tse_remaining _ _ _ He2), (tse_remaining _ _ _ He1).
  eexists _, reached. split; [done|]. split; try done.
  - etrans; [|etrans; [apply (tse_frame _ _ _ He1)|etrans; [apply (tse_frame _ _ _ He2)|auto]]].
    apply touch_frame, touch_remaining.
  - etransitivity; [exact (tse_workflow _ _ _ He2)|]. by rewrite (tse_workflow _ _ _ He1).
  - etransitivity; [exact (tse_tasks _ _ _ He2)|]. rewrite Hfrom. apply list_eq. intros j.
    rewrite !list_lookup_imap. by destruct (Tasks (Run s) !! j).
  - intros j t Hr Ht Hnt. apply Hreach in Hr.
    assert (Hu : Tasks (Run s1) !! j = Some (resume_at c now j t)) by by rewrite Hfrom, list_lookup_imap, Ht.
    pose proof (blocked_idle s s1 j _ Hcore Hws Hfrom Hr Hu Hnt) as E.
    destruct (task_definition c Hc s j t Hcore Ht) as (d & Hd & Hok & _).
    unfold resume_at in E. rewrite Hd in E. destruct (resumed_status d t Hok) as [[_ E']|[_ E']]; [congruence|].
    rewrite E in E'. by destruct (exhausted d t).
  - transitivity (recount (statuses s2) (length (Tasks (Run s))) (RemainingDependencies (Run s2))); [done|].
    rewrite Hrem. assert (E : length (Tasks (Run s)) = length (statuses s2))
      by (unfold statuses; by rewrite length_fmap). rewrite E. apply recount_fresh.
Qed.
End resume.

(** ** The theorems *)
Lemma resumes_core c s s' reached now :
  compiled_wf c -> run_core c s -> resumes c now s s' reached ->
  run_core c (upd_Remaining (fun _ => dep_counts c (statuses s')) s').
Proof.
  intros Hc Hcore [F W T Hidle R Hs].
  eapply (run_fields_effect c s); [etrans; [exact F|auto]|exact W| | |done].
  - eapply (tasks_ok_effect c s _ (fun j t => skip_if reached now j (resume_at c now j t)));
      [apply Hcore|exact T|].
    intros i t d Ht Hd Hok. unfold skip_if.
    destruct (reached i && negb (isTaskTerminal (Status (resume_at c now i t)))) eqn:E.
    + apply andb_true_iff in E as [Hr Hnt%negb_true_iff]. pose proof (Hidle i t Hr Ht Hnt) as Hw.
      destruct (task_definition c Hc s i t Hcore Ht) as (d' & Hd' & _ & Hmax). simplify_eq.
      assert (E : resume_at c now i t = t) by (unfold resume_at, resumed_task; by rewrite Hd, Hw).
      rewrite E. apply task_ok_first; auto.
    + unfold resume_at. rewrite Hd. by apply resumed_task_ok.
  - change (statuses (upd_Remaining _ s')) with (statuses s'). cbn.
    destruct Hs as [H1 H2 H3 H4 H5]. split; [done|by unfold dep_counts; rewrite length_imap| |done|done].
    intros j r. unfold dep_counts. rewrite list_lookup_imap. destruct (statuses s' !! j); [|done].
    by intros [= <-].
Qed.


Lemma compile_fork : Compile fork_definition = Ok compiled_fork.
Proof. vm_compute; reflexivity. Qed.

Lemma fork_reachable : reachable compiled_fork fork_before_crash.
Proof.
  apply (run_from_start_reachable compiled_fork
    [OpStartRun 1001; OpPrepare 0 1002 1002; OpPrepare 1 1003 1003; OpApply 0 1 permanent_response 1004]).
  vm_compute; reflexivity.
Qed.

Lemma none_queued tasks :
  existsb (fun t => bool_decide (Status t = TaskQueued)) tasks = false ->
  forall t, t ∈ tasks -> Status t ≠ TaskQueued.
Proof.
  intros H t Ht E. assert (Hex : existsb (fun t => bool_decide (Status t = TaskQueued)) tasks = true); [|congruence].
  apply existsb_exists. exists t. split; [by apply list_elem_of_In|by apply bool_decide_eq_true].
Qed.


