(* ===== verification/Stores.v ===== *)
(** * Stores: the persistence interfaces and their contract

    src/workflow/store.go and src/workflow/persistence.go.  The Go interfaces
    are type classes over the state of the store; the engine and the services
    are written against them.  [StoreContract] is what every implementation
    promises its clients: loads report the contents, a failed call leaves
    every other run alone, and a change set is only ever committed on top of
    the revision it was computed from. *)
From S2P Require Import Prelude GoStrings Json Model State ChangeSet.

Definition ErrRunExists : error := Sentinel "ErrRunExists".
Definition ErrRunNotFound : error := Sentinel "ErrRunNotFound".
Definition ErrAtomicReplaceUnsupported : error := Sentinel "ErrAtomicReplaceUnsupported".

(** [context.Context], as the calls below see it: [ctx.Err()]. *)
Abbreviation Context := (option error) (only parsing).
Definition Background : Context := None.
(** [context.WithoutCancel] *)
Definition WithoutCancel (_ : Context) : Context := None.
Definition ctx_Err {S} (ctx : Context) : go S unit :=
  match ctx with Some e => throw e | None => mret tt end.

(** ** The interfaces *)
Class RunStore (St : Type) := {
  store_Create : Context -> RunSnapshot -> go St unit;
  store_Load : Context -> RunID -> go St RunSnapshot;
}.
Class Store (St : Type) := {
  Store_RunStore : RunStore St;
  store_Save : Context -> RunSnapshot -> go St unit;
}.
Class enginePersistence (St : Type) := {
  enginePersistence_RunStore : RunStore St;
  store_Apply : Context -> ChangeSet -> go St unit;
}.
Class Persistence (St : Type) := {
  Persistence_engine : enginePersistence St;
  store_ListNonTerminal : Context -> go St (list RunID);
  store_RequestCancel : Context -> RunID -> time -> go St WorkflowRun;
}.
#[export] Existing Instance enginePersistence_RunStore.
#[export] Existing Instance Persistence_engine.

Definition IsWorkflowTerminalForStore (status : WorkflowStatus) : bool := isWorkflowTerminal status.

(** ** [snapshotStoreAdapter] *)
Section adapter.
Context {St : Type} (base : Store St).

Definition adapter_Create (ctx : Context) (snapshot : RunSnapshot) : go St unit :=
  @store_Create St Store_RunStore ctx snapshot.

Definition adapter_Apply (ctx : Context) (change : ChangeSet) : go St unit :=
  before ← @store_Load St Store_RunStore ctx (cs_RunID change);
  _ ← fail_if (bool_decide (Revision (Run before) ≠ ExpectedRevision change)) ErrRevisionConflict;
  after ← lift (applyChangeSet before change);
  store_Save ctx after.

Definition adapter_Load (ctx : Context) (id : RunID) : go St RunSnapshot :=
  @store_Load St Store_RunStore ctx id.

Definition snapshotStoreAdapter : enginePersistence St := {|
  enginePersistence_RunStore := {| store_Create := adapter_Create; store_Load := adapter_Load |};
  store_Apply := adapter_Apply;
|}.
End adapter.

(** The dynamic type of the store a caller hands to [NewEngine]. *)
Inductive some_store (St : Type) : Type :=
| IsPersistence (p : enginePersistence St)
| IsSnapshotStore (s : Store St)
| IsOther (r : RunStore St).
Arguments IsPersistence {St} p.
Arguments IsSnapshotStore {St} s.
Arguments IsOther {St} r.

Definition asEnginePersistence {St} (store : some_store St) : outcome (enginePersistence St) :=
  match store with
  | IsPersistence p => Ok p
  | IsSnapshotStore s => Ok (snapshotStoreAdapter s)
  | IsOther _ => Err (Errorf "store must implement Apply or Save")
  end.

(** ** The contract *)

(** The contents of a store, and what becomes of a snapshot that is written
    and read back. *)
Class StoreView (St : Type) := {
  store_ok : St -> Prop;
  content_of : St -> RunID -> option RunSnapshot;
  canonical : RunSnapshot -> RunSnapshot;
}.

Section contract.
Context {St : Type} `{StoreView St}.

Definition unchanged (st st' : St) : Prop :=
  store_ok st' /\ forall id, content_of st' id = content_of st id.
Definition written (id : RunID) (s : RunSnapshot) (st st' : St) : Prop :=
  store_ok st' /\ forall id', content_of st' id' = if decide (id' = id) then Some (canonical s) else content_of st id'.

(** A change set is committed exactly when the call changes anything; a
    successful call has committed it.  An error after the commit is possible:
    the caller then does not know, but nothing else has happened. *)
Definition applies (change : ChangeSet) (st st' : St) : Prop :=
  exists before after, content_of st (cs_RunID change) = Some before /\
    applyChangeSet before change = Ok after /\ written (cs_RunID change) after st st'.

Class LoadContract `{RunStore St} := {
  load_unchanged : forall ctx id st st' r,
    store_ok st -> store_Load ctx id st = (st', r) -> unchanged st st';
  load_found : forall ctx id st st' s, store_ok st ->
    store_Load ctx id st = (st', Ok s) -> content_of st id = Some s /\ ID (Run s) = id;
  create_contract : forall ctx s st st' r, store_ok st -> store_Create ctx s st = (st', r) ->
    (unchanged st st' /\ r ≠ Ok tt) \/ (content_of st (ID (Run s)) = None /\ written (ID (Run s)) s st st');
}.

Class SaveContract `{Store St} := {
  save_contract : forall ctx s st st' r, store_ok st -> store_Save ctx s st = (st', r) ->
    (unchanged st st' /\ r ≠ Ok tt) \/ written (ID (Run s)) s st st';
}.

Class ApplyContract `{enginePersistence St} := {
  apply_contract : forall ctx change st st' r, store_ok st -> store_Apply ctx change st = (st', r) ->
    (unchanged st st' /\ r ≠ Ok tt) \/ applies change st st';
}.

Lemma written_after id s st st1 st2 : unchanged st st1 -> written id s st1 st2 -> written id s st st2.
Proof. intros [_ H1] [Hok H2]. split; [done|]. intros id'. by rewrite H2, H1. Qed.

Lemma unchanged_trans st st1 st2 : unchanged st st1 -> unchanged st1 st2 -> unchanged st st2.
Proof. intros [_ H1] [Hok H2]. split; [done|]. intros id. by rewrite H2, H1. Qed.
End contract.
Arguments LoadContract St {_ _}.
Arguments SaveContract St {_ _}.
Arguments ApplyContract St {_ _}.

(** ** The adapter keeps the contract *)
Lemma applyChangeSet_ID snapshot change updated :
  applyChangeSet snapshot change = Ok updated ->
  ID (Run updated) = cs_RunID change /\ ID (Run snapshot) = cs_RunID change.
Proof.
  intros H. unfold applyChangeSet in H. go_inv. destruct (cs_Run change) as [row|]; [|done]. go_inv.
  destruct a as [tasks rem]. go_inv. cbn. rewrite !bool_decide_eq_false in *.
  repeat match goal with Hx : ¬ _ ≠ _ |- _ => apply dec_stable in Hx end. split; congruence.
Qed.

Section adapter_contract.
Context {St : Type} (base : Store St) `{!StoreView St}.

#[export] Instance adapter_load :
  @LoadContract St _ (@Store_RunStore St base) ->
  @LoadContract St _ (@enginePersistence_RunStore St (snapshotStoreAdapter base)).
Proof. intros [H1 H2 H3]. by split. Qed.

(** Every error of the wrapped store reaches the caller, and a change set is
    committed only if the revision check and the validation passed. *)
Lemma adapter_apply :
  @LoadContract St _ (@Store_RunStore St base) -> @SaveContract St _ base ->
  @ApplyContract St _ (snapshotStoreAdapter base).
Proof.
  intros [HL HF _] [HS]. split. intros ctx change st st' r Hok. cbn. unfold adapter_Apply.
  unfold mbind, go_bind. destruct (store_Load ctx (cs_RunID change) st) as [st1 out] eqn:Hload.
  pose proof (HL _ _ _ _ _ Hok Hload) as Hu.
  destruct out as [before|e| |]; try (intros [= <- <-]; left; by split).
  destruct (HF _ _ _ _ _ Hok Hload) as [Hc Hid]. unfold fail_if.
  case_bool_decide as Hrev; [intros [= <- <-]; left; by split|]. cbn. unfold lift.
  destruct (applyChangeSet before change) as [after|e| |] eqn:Happly;
    try (intros [= <- <-]; left; by split).
  intros Hsave. destruct (applyChangeSet_ID _ _ _ Happly) as [Hida _].
  destruct (HS _ _ _ _ _ (proj1 Hu) Hsave) as [[Hu2 Hr]|Hw].
  - left. split; [by eapply unchanged_trans|done].
  - right. exists before, after. split_and!; [done..|]. rewrite Hida in Hw. by eapply written_after.
Qed.
End adapter_contract.

(** ** No lost updates

    A client's theorem, proved against the interface alone. *)
Section clients.
Context {St : Type} `{!StoreView St} `{!enginePersistence St} `{!ApplyContract St}.

Lemma applied_revision change st st' :
  (forall s, Revision (Run (canonical s)) = Revision (Run s)) -> applies change st st' ->
  exists s', content_of st' (cs_RunID change) = Some s' /\
    Revision (Run s') = u64 (ExpectedRevision change + 1).
Proof.
  intros Hcan (before & after & _ & Happly & _ & Hw). exists (canonical after). split.
  - by rewrite Hw, decide_True.
  - rewrite Hcan. destruct (applyChangeSet_integrity _ _ _ Happly) as (-> & -> & _). done.
Qed.

(** C33: optimistic concurrency.  In any store that keeps the contract, of two
    change sets computed from the same revision of a run only one can be
    committed: once the first call has succeeded, the second one fails and
    changes nothing, whatever contexts and faults are involved. *)
Theorem no_lost_update ctx1 ctx2 change1 change2 (st st1 st2 : St) r :
  store_ok st -> (forall s, Revision (Run (canonical s)) = Revision (Run s)) ->
  cs_RunID change1 = cs_RunID change2 -> ExpectedRevision change1 = ExpectedRevision change2 ->
  (0 <= ExpectedRevision change1 < 2 ^ 64)%Z ->
  store_Apply ctx1 change1 st = (st1, Ok tt) -> store_Apply ctx2 change2 st1 = (st2, r) ->
  r ≠ Ok tt /\ unchanged st1 st2.
Proof.
  intros Hok Hcan Hid Hrev Hrange H1 H2.
  destruct (apply_contract _ _ _ _ _ Hok H1) as [[_ []]|Ha1]; [done|].
  destruct (applied_revision _ _ _ Hcan Ha1) as (s1 & Hc1 & Hr1).
  assert (Hok1 : store_ok st1) by by destruct Ha1 as (? & ? & _ & _ & ? & _).
  destruct (apply_contract _ _ _ _ _ Hok1 H2) as [[Hu Hr]|(before & after & Hb & Happly & _)]; [done|].
  exfalso. rewrite Hid, Hb in Hc1. injection Hc1 as ->.
  destruct (applyChangeSet_integrity _ _ _ Happly) as (Hexp & _).
  rewrite <-Hexp, <-Hrev in Hr1. unfold u64 in Hr1.
  destruct (decide (ExpectedRevision change1 + 1 < 2 ^ 64)%Z) as [Hlt|Hge].
  - rewrite Z.mod_small in Hr1 by lia. lia.
  - replace (ExpectedRevision change1 + 1)%Z with (2 ^ 64)%Z in Hr1 by lia.
    rewrite Z.mod_same in Hr1 by lia. lia.
Qed.
End clients.
