(* ===== verification/Coordinator.v ===== *)
(** * The local coordinator

    src/internal/runtime/coordinator.go: one process takes the coordinator lock,
    resumes the unfinished runs, takes up new ones, and stops all of them when
    anything fails.  The state is the [Coordinator] with the goroutines and
    calls in progress ([thread]); each event is one critical section, or one
    return from the store, the engine or the lock. *)
From S2P Require Import Prelude GoStrings Model State ChangeSet Stores.

(** Where a goroutine or a call is. *)
Inductive thread : Type :=
(** [Start], before it has the lock, and while it reads the unfinished runs *)
| Acquiring
| Listing
| Recovering (ids todo : list RunID)
(** the goroutine of a run: in the engine, before [fail], before the end *)
| Executing (id : RunID) (resume : bool)
| ExecutionFailed (id : RunID) (err : error)
| ExecutionDone (id : RunID)
(** [discoverRuns] *)
| Discovering
| DiscoverRest (ids : list RunID)
| Reserved (id : RunID) (rest : list RunID)
| Loaded (id : RunID) (resume : bool) (rest : list RunID)
| DiscoverFailed (err : error)
(** [checkLock] *)
| CheckingLock
| LockFailed (err : error)
(** [finishClose], with the lock it was given *)
| FinishingClose (lock : bool).
#[export] Instance thread_eq_dec : EqDecision thread.
Proof. solve_decision. Defined.

Record Coordinator := mkCoordinator {
  co_ready : bool;
  co_started : bool;
  co_closing : bool;
  (** the field [lock] is set *)
  co_lock : bool;
  (** [runCtx], and whether it was cancelled *)
  co_runCtx : option bool;
  (** [closeErr], once [closeDone] is closed *)
  co_closed : option (option error);
  co_active : gset RunID;
  (** what was sent to [errors]; [fatal] was used *)
  co_errors : option error;
  co_fatal : bool;
  co_threads : list thread;
  (** the context given to [Start] was cancelled *)
  co_parent : bool;
  (** the lock was acquired and not released *)
  co_owned : bool;
}.
Definition NewCoordinator : Coordinator := mkCoordinator false false false false None None ∅ None false [] false false.

Definition set_threads (threads : list thread) (c : Coordinator) : Coordinator :=
  mkCoordinator (co_ready c) (co_started c) (co_closing c) (co_lock c) (co_runCtx c) (co_closed c) (co_active c) (co_errors c) (co_fatal c) threads (co_parent c) (co_owned c).
Definition set_active (active : gset RunID) (c : Coordinator) : Coordinator :=
  mkCoordinator (co_ready c) (co_started c) (co_closing c) (co_lock c) (co_runCtx c) (co_closed c) active (co_errors c) (co_fatal c) (co_threads c) (co_parent c) (co_owned c).
Definition set_owned (owned : bool) (c : Coordinator) : Coordinator :=
  mkCoordinator (co_ready c) (co_started c) (co_closing c) (co_lock c) (co_runCtx c) (co_closed c) (co_active c) (co_errors c) (co_fatal c) (co_threads c) (co_parent c) owned.
Definition spawn (t : thread) (c : Coordinator) : Coordinator := set_threads (t :: co_threads c) c.
Fixpoint take_thread (t : thread) (l : list thread) : option (list thread) :=
  match l with [] => None | x :: l => if decide (x = t) then Some l else cons x <$> take_thread t l end.
(** The thread goes on as [ts]: another point, or none when it ends. *)
Definition becomes (t : thread) (ts : list thread) (c : Coordinator) : option Coordinator :=
  rest ← take_thread t (co_threads c); Some (set_threads (ts ++ rest) c).

Definition accepting (c : Coordinator) : bool := co_ready c && negb (co_closing c).
(** [ctx.Err() != nil] *)
Definition canceled (c : Coordinator) : bool := co_parent c || bool_decide (co_runCtx c = Some true).
Definition cancel_ctx (ctx : option bool) : option bool := (fun _ => true) <$> ctx.

(** ** Runs *)
Definition startReservedRunLocked (id : RunID) (resume : bool) (c : Coordinator) : Coordinator := spawn (Executing id resume) c.
Definition startRunLocked (id : RunID) (resume : bool) (c : Coordinator) : Coordinator :=
  if bool_decide (id ∈ co_active c) then c
  else startReservedRunLocked id resume (set_active ({[id]} ∪ co_active c) c).
Definition releaseRunReservation (id : RunID) (c : Coordinator) : Coordinator := set_active (co_active c ∖ {[id]}) c.

(** The first call closes the coordinator to new runs, cancels the running ones
    and sends its error. *)
Definition fail (err : error) (c : Coordinator) : Coordinator :=
  if co_fatal c then c
  else mkCoordinator false (co_started c) (co_closing c) (co_lock c) (cancel_ctx (co_runCtx c)) (co_closed c) (co_active c)
    (Some err) true (co_threads c) (co_parent c) (co_owned c).

(** ** [Start] *)
Definition Start (dependencies : bool) (c : Coordinator) : Coordinator * outcome unit :=
  if co_started c || co_closing c then (c, Err (Errorf "coordinator has already been started or closed"))
  else if negb dependencies then (c, Err (Errorf "coordinator dependencies are required"))
  else (spawn Acquiring (mkCoordinator (co_ready c) true (co_closing c) (co_lock c) (co_runCtx c) (co_closed c) (co_active c)
    (co_errors c) (co_fatal c) (co_threads c) (co_parent c) (co_owned c)), Ok tt).
Definition start_acquired (r : outcome unit) (c : Coordinator) : option Coordinator :=
  match r with
  | Ok _ => set_owned true <$> becomes Acquiring [Listing] c
  | _ => becomes Acquiring [] c
  end.
Definition start_listed (r : outcome (list RunID)) (c : Coordinator) : option Coordinator :=
  match r with
  | Ok ids => becomes Listing [Recovering ids ids] c
  | _ => set_owned false <$> becomes Listing [] c
  end.
Definition start_loaded (ids : list RunID) (id : RunID) (todo : list RunID) (r : outcome unit) (c : Coordinator) : option Coordinator :=
  match r with
  | Ok _ => becomes (Recovering ids (id :: todo)) [Recovering ids todo] c
  | _ => set_owned false <$> becomes (Recovering ids (id :: todo)) [] c
  end.
(** The last critical section: the coordinator is ready, the runs and the check
    of the lock are started. *)
Definition start_ready (ids : list RunID) (c : Coordinator) : option Coordinator :=
  c ← becomes (Recovering ids []) [] c;
  let c := mkCoordinator true (co_started c) (co_closing c) true (Some false) (co_closed c) (co_active c)
    (co_errors c) (co_fatal c) (co_threads c) (co_parent c) (co_owned c) in
  let c := foldl (fun c id => startRunLocked id true c) c ids in
  Some (spawn CheckingLock c).

(** ** Taking up runs *)
Definition Enqueue (id : RunID) (c : Coordinator) : Coordinator :=
  if accepting c then startRunLocked id false c else c.
Definition Wake (c : Coordinator) : Coordinator := if accepting c then spawn Discovering c else c.
Definition discover_listed (r : outcome (list RunID)) (c : Coordinator) : option Coordinator :=
  match r with
  | Ok ids => becomes Discovering [DiscoverRest ids] c
  | Err err => becomes Discovering (if canceled c then [] else [DiscoverFailed (Wrapf "discover non-terminal Runs: %w" err)]) c
  | _ => None
  end.
(** The next identifier is reserved before its run is loaded. *)
Definition discover_next (ids : list RunID) (c : Coordinator) : option Coordinator :=
  match ids with
  | [] => becomes (DiscoverRest []) [] c
  | id :: rest =>
    if negb (accepting c) then becomes (DiscoverRest (id :: rest)) [] c
    else if bool_decide (id ∈ co_active c) then becomes (DiscoverRest (id :: rest)) [DiscoverRest rest] c
    else set_active ({[id]} ∪ co_active c) <$> becomes (DiscoverRest (id :: rest)) [Reserved id rest] c
  end.
Definition discover_loaded (id : RunID) (rest : list RunID) (r : outcome RunSnapshot) (c : Coordinator) : option Coordinator :=
  match r with
  | Ok snapshot =>
    if IsWorkflowTerminalForStore (run_Status (Run snapshot))
    then releaseRunReservation id <$> becomes (Reserved id rest) [DiscoverRest rest] c
    else
      let resume := bool_decide (run_Status (Run snapshot) ≠ WorkflowPending) || (0 <? Revision (Run snapshot))%Z in
      becomes (Reserved id rest) [Loaded id resume rest] c
  | Err err =>
    releaseRunReservation id <$>
      becomes (Reserved id rest) (if canceled c then [] else [DiscoverFailed (Wrapf "load discovered Run %s: %w" err)]) c
  | _ => None
  end.
Definition discover_start (id : RunID) (resume : bool) (rest : list RunID) (c : Coordinator) : option Coordinator :=
  c ← becomes (Loaded id resume rest) [DiscoverRest rest] c;
  Some (if accepting c then startReservedRunLocked id resume c else set_active (co_active c ∖ {[id]}) c).
Definition discover_failed (err : error) (c : Coordinator) : option Coordinator := fail err <$> becomes (DiscoverFailed err) [] c.

(** [cancel] is the engine's. *)
Definition Cancel (cancel : RunID -> outcome unit) (id : RunID) (c : Coordinator) : outcome unit :=
  if accepting c then cancel id else Err (Errorf "coordinator is not ready").

(** ** The goroutine of a run *)
Definition run_returned (id : RunID) (resume : bool) (r : outcome WorkflowRun) (c : Coordinator) : option Coordinator :=
  match r with
  | Ok _ => becomes (Executing id resume) [ExecutionDone id] c
  | Err err =>
    becomes (Executing id resume)
      [if canceled c then ExecutionDone id else ExecutionFailed id (Wrapf (if resume then "resume Run %s: %w" else "execute Run %s: %w") err)] c
  | _ => None
  end.
Definition run_failed (id : RunID) (err : error) (c : Coordinator) : option Coordinator :=
  fail err <$> becomes (ExecutionFailed id err) [ExecutionDone id] c.
(** The deferred function. *)
Definition run_done (id : RunID) (c : Coordinator) : option Coordinator :=
  set_active (co_active c ∖ {[id]}) <$> becomes (ExecutionDone id) [] c.

(** ** The lock *)
Definition lock_checked (r : outcome unit) (c : Coordinator) : option Coordinator :=
  match r with
  | Ok _ => becomes CheckingLock [CheckingLock] c
  | Err err => becomes CheckingLock (if canceled c then [] else [LockFailed (Wrapf "check coordinator lock: %w" err)]) c
  | _ => None
  end.
Definition lock_stopped (c : Coordinator) : option Coordinator := if canceled c then becomes CheckingLock [] c else None.
Definition lock_failed (err : error) (c : Coordinator) : option Coordinator := fail err <$> becomes (LockFailed err) [] c.

(** ** Closing *)
Definition Ready (c : Coordinator) : bool := co_ready c.
Definition Close (c : Coordinator) : Coordinator :=
  if co_closing c then c
  else spawn (FinishingClose (co_lock c))
    (mkCoordinator false (co_started c) true (co_lock c) (cancel_ctx (co_runCtx c)) (co_closed c) (co_active c)
      (co_errors c) (co_fatal c) (co_threads c) (co_parent c) (co_owned c)).
(** What [wg] counts. *)
Definition counted (t : thread) : bool :=
  match t with Acquiring | Listing | Recovering _ _ | FinishingClose _ => false | _ => true end.
Definition waited (c : Coordinator) : bool := forallb (fun t => negb (counted t)) (co_threads c).
(** [wg.Wait] returned; [r] is what closing the lock returns. *)
Definition finishClose (lock : bool) (r : option error) (c : Coordinator) : option Coordinator :=
  if waited c then
    c ← becomes (FinishingClose lock) [] c;
    Some (mkCoordinator (co_ready c) (co_started c) (co_closing c) false (co_runCtx c) (Some (if lock then r else None)) (co_active c)
      (co_errors c) (co_fatal c) (co_threads c) (co_parent c) (if lock then false else co_owned c))
  else None.

(** ** Events *)
Inductive event : Type :=
| EStart (dependencies : bool) | EAcquired (r : outcome unit) | EListed (r : outcome (list RunID))
| ELoaded (ids : list RunID) (id : RunID) (todo : list RunID) (r : outcome unit) | EReady (ids : list RunID)
| EEnqueue (id : RunID) | EWake | EDiscoverListed (r : outcome (list RunID)) | EDiscoverNext (ids : list RunID)
| EDiscoverLoaded (id : RunID) (rest : list RunID) (r : outcome RunSnapshot) | EDiscoverStart (id : RunID) (resume : bool) (rest : list RunID)
| EDiscoverFailed (err : error)
| ERunReturned (id : RunID) (resume : bool) (r : outcome WorkflowRun) | ERunFailed (id : RunID) (err : error) | ERunDone (id : RunID)
| ELockChecked (r : outcome unit) | ELockStopped | ELockFailed (err : error)
| EClose | EFinishClose (lock : bool) (r : option error) | EParentCanceled.

Definition exec (e : event) (c : Coordinator) : option Coordinator :=
  match e with
  | EStart dependencies => Some (Start dependencies c).1
  | EAcquired r => start_acquired r c
  | EListed r => start_listed r c
  | ELoaded ids id todo r => start_loaded ids id todo r c
  | EReady ids => start_ready ids c
  | EEnqueue id => Some (Enqueue id c)
  | EWake => Some (Wake c)
  | EDiscoverListed r => discover_listed r c
  | EDiscoverNext ids => discover_next ids c
  | EDiscoverLoaded id rest r => discover_loaded id rest r c
  | EDiscoverStart id resume rest => discover_start id resume rest c
  | EDiscoverFailed err => discover_failed err c
  | ERunReturned id resume r => run_returned id resume r c
  | ERunFailed id err => run_failed id err c
  | ERunDone id => run_done id c
  | ELockChecked r => lock_checked r c
  | ELockStopped => lock_stopped c
  | ELockFailed err => lock_failed err c
  | EClose => Some (Close c)
  | EFinishClose lock r => finishClose lock r c
  | EParentCanceled =>
    Some (mkCoordinator (co_ready c) (co_started c) (co_closing c) (co_lock c) (cancel_ctx (co_runCtx c)) (co_closed c) (co_active c)
      (co_errors c) (co_fatal c) (co_threads c) true (co_owned c))
  end.
Definition exec_all (es : list event) (c : Coordinator) : option Coordinator := foldl (fun c e => c ≫= exec e) (Some c) es.
