(* ===== verification/CoordinatorTheorems.v ===== *)
(** * One coordinator, one execution of each run, no execution without the lock

    The theorems about every interleaving of the events of Coordinator.v. *)
From S2P Require Import Prelude GoStrings Model State ChangeSet Stores Coordinator.

(** ** Threads *)
Lemma take_thread_Permutation t : forall l rest, take_thread t l = Some rest -> l ≡ₚ t :: rest.
Proof.
  induction l as [|x l IH]; intros rest; cbn; [done|]. destruct (decide (x = t)) as [->|_]; [by intros [= <-]|].
  intros (r & Hr & ->)%fmap_Some. rewrite (IH r Hr). by rewrite Permutation_swap.
Qed.
Lemma take_thread_elem t l : t ∈ l -> exists rest, take_thread t l = Some rest.
Proof.
  induction l as [|x l IH]; [by intros ?%elem_of_nil|]. intros Hin. cbn. destruct (decide (x = t)) as [|Hne]; [by eexists|].
  apply elem_of_cons in Hin as [?|Hin]; [done|]. destruct (IH Hin) as [rest ->]. by eexists.
Qed.
Lemma becomes_inv t ts c c' : becomes t ts c = Some c' ->
  exists rest, co_threads c ≡ₚ t :: rest /\ c' = set_threads (ts ++ rest) c.
Proof. intros (rest & Hr & [= <-])%bind_Some. exists rest. split; [by apply take_thread_Permutation|done]. Qed.

(** ** One goroutine for each run *)
Definition thread_run (t : thread) : option RunID :=
  match t with
  | Executing id _ | ExecutionFailed id _ | ExecutionDone id | Reserved id _ | Loaded id _ _ => Some id
  | _ => None
  end.
Definition run_ids (l : list thread) : list RunID := omap thread_run l.
Record active_ok (c : Coordinator) : Prop := {
  ao_once : NoDup (run_ids (co_threads c));
  ao_active : forall id, id ∈ co_active c <-> id ∈ run_ids (co_threads c);
}.

Lemma run_ids_Permutation l l' : l ≡ₚ l' -> run_ids l ≡ₚ run_ids l'.
Proof. unfold run_ids. induction 1 as [|x l l' _ IH|x y l|l1 l2 l3 _ IH1 _ IH2]; cbn; [done|by case_match; rewrite IH|repeat case_match; try done; constructor|by etrans]. Qed.
Lemma run_ids_cons t l : run_ids (t :: l) = (match thread_run t with Some id => [id] | None => [] end) ++ run_ids l.
Proof. unfold run_ids. cbn. by destruct (thread_run t). Qed.
Lemma active_ext c c' : co_active c' = co_active c -> run_ids (co_threads c') ≡ₚ run_ids (co_threads c) -> active_ok c -> active_ok c'.
Proof. intros Ha Hp [H1 H2]. split; [by rewrite Hp|]. intros id. by rewrite Ha, Hp. Qed.
Lemma fail_active err c : active_ok c -> active_ok (fail err c).
Proof. unfold fail. destruct (co_fatal c); [done|]. by intros [H1 H2]. Qed.

(** A thread keeps its run, gives it up, or takes one that is free. *)
Lemma becomes_keep t ts c c' : becomes t ts c = Some c' -> run_ids ts = run_ids [t] -> active_ok c -> active_ok c'.
Proof.
  intros (rest & Hp & ->)%becomes_inv Hts. apply active_ext; [done|]. cbn. rewrite (run_ids_Permutation _ _ Hp), run_ids_cons.
  unfold run_ids in *. rewrite omap_app, Hts. cbn. by destruct (thread_run t).
Qed.
Lemma becomes_release t ts c c' id : becomes t ts c = Some c' -> thread_run t = Some id -> run_ids ts = [] -> active_ok c ->
  active_ok (set_active (co_active c' ∖ {[id]}) c').
Proof.
  intros (rest & Hp & ->)%becomes_inv Ht Hts [H1 H2]. pose proof (run_ids_Permutation _ _ Hp) as Hr. rewrite run_ids_cons, Ht in Hr. cbn in Hr.
  rewrite Hr in H1. apply NoDup_cons in H1 as [Hn Hnd]. split; cbn; unfold run_ids in *; rewrite omap_app, Hts; cbn; [done|].
  intros i. rewrite elem_of_difference, elem_of_singleton, H2, Hr, elem_of_cons. split; [by intros [[->|?] ?]|].
  intros Hi. split; [by right|]. by intros ->.
Qed.
Lemma becomes_take t ts c c' id : becomes t ts c = Some c' -> thread_run t = None -> run_ids ts = [id] -> id ∉ co_active c -> active_ok c ->
  active_ok (set_active ({[id]} ∪ co_active c) c').
Proof.
  intros (rest & Hp & ->)%becomes_inv Ht Hts Hid [H1 H2]. pose proof (run_ids_Permutation _ _ Hp) as Hr. rewrite run_ids_cons, Ht in Hr. cbn in Hr.
  split; cbn; unfold run_ids in *; rewrite omap_app, Hts; cbn.
  - constructor; [by rewrite <-Hr, <-H2|by rewrite <-Hr].
  - intros i. rewrite elem_of_union, elem_of_singleton, H2, Hr, elem_of_cons. done.
Qed.
Lemma startRunLocked_active id resume c : active_ok c -> active_ok (startRunLocked id resume c).
Proof.
  unfold startRunLocked. case_bool_decide as Hid; [done|]. intros [H1 H2]. split; cbn.
  - constructor; [by rewrite <-H2|done].
  - intros i. rewrite elem_of_union, elem_of_singleton, H2, elem_of_cons. done.
Qed.

Lemma exec_active e c c' : exec e c = Some c' -> active_ok c -> active_ok c'.
Proof.
  destruct e; cbn [exec]; intros H Hok.
  - injection H as <-. unfold Start. destruct (_ || _); [done|]. destruct (negb _); [done|]. by destruct Hok.
  - destruct r; cbn in H; [apply fmap_Some in H as (c1 & H & ->)|..]; eapply becomes_keep in H; try done. by destruct H.
  - destruct r; cbn in H; [|apply fmap_Some in H as (c1 & H & ->)..]; eapply becomes_keep in H; try done; by destruct H.
  - destruct r; cbn in H; [|apply fmap_Some in H as (c1 & H & ->)..]; eapply becomes_keep in H; try done; by destruct H.
  - unfold start_ready in H. apply bind_Some in H as (c1 & H & [= <-]). eapply becomes_keep in H; [|done|done].
    set (c2 := mkCoordinator _ _ _ _ _ _ _ _ _ _ _ _). assert (Hc2 : active_ok c2) by by destruct H. clearbody c2.
    assert (Hfold : active_ok (foldl (fun c id => startRunLocked id true c) c2 ids)).
    { revert c2 Hc2. induction ids as [|id ids IH]; intros c2 Hc2; cbn; [done|]. by apply IH, startRunLocked_active. }
    by destruct Hfold.
  - injection H as <-. unfold Enqueue. destruct (accepting c); [by apply startRunLocked_active|done].
  - injection H as <-. unfold Wake. destruct (accepting c); [by destruct Hok|done].
  - destruct r; try done; cbn in H; eapply becomes_keep in H; try done. by destruct (canceled c).
  - destruct ids as [|id rest]; cbn in H; [by eapply becomes_keep|]. destruct (negb _); [by eapply becomes_keep|].
    case_bool_decide as Hid; [by eapply becomes_keep|]. apply fmap_Some in H as (c1 & H & ->). by eapply becomes_take.
  - destruct r as [s|err| |]; try done; cbn in H.
    + destruct (IsWorkflowTerminalForStore _); [apply fmap_Some in H as (c1 & H & ->); by eapply becomes_release|by eapply becomes_keep].
    + apply fmap_Some in H as (c1 & H & ->). eapply becomes_release; [done|done| |done]. by destruct (canceled c).
  - unfold discover_start in H. apply bind_Some in H as (c1 & H & [= <-]). destruct (accepting c1).
    + apply becomes_inv in H as (rest' & Hp & ->). apply (active_ext c); [done| |exact Hok]. cbn. by rewrite (run_ids_Permutation _ _ Hp).
    + by eapply becomes_release.
  - apply fmap_Some in H as (c1 & H & ->). apply fail_active. by eapply becomes_keep.
  - destruct r; try done; cbn in H; [by eapply becomes_keep|]. eapply becomes_keep; [done| |done]. by destruct (canceled c).
  - apply fmap_Some in H as (c1 & H & ->). apply fail_active. by eapply becomes_keep.
  - apply fmap_Some in H as (c1 & H & ->). assert (Ha : co_active c = co_active c1) by (by apply becomes_inv in H as (? & _ & ->)).
    rewrite Ha. by eapply becomes_release.
  - destruct r; try done; cbn in H; eapply becomes_keep; try done. by destruct (canceled c).
  - unfold lock_stopped in H. destruct (canceled c); [by eapply becomes_keep|done].
  - apply fmap_Some in H as (c1 & H & ->). apply fail_active. by eapply becomes_keep.
  - injection H as <-. unfold Close. destruct (co_closing c); [done|]. by destruct Hok.
  - unfold finishClose in H. destruct (waited c); [|done]. apply bind_Some in H as (c1 & H & [= <-]). eapply becomes_keep in H; [|done|done]. by destruct H.
  - injection H as <-. by destruct Hok.
Qed.
Lemma exec_all_snoc es e c : exec_all (es ++ [e]) c = exec_all es c ≫= exec e.
Proof. unfold exec_all. by rewrite foldl_app. Qed.

(** C26: Whatever happens in whatever order, no two goroutines work on the same
    run, and the set of active runs is the set of the runs that are being
    executed, reserved or finished. *)
Theorem one_execution es c : exec_all es NewCoordinator = Some c -> active_ok c.
Proof.
  revert c. induction es as [|e es IH] using rev_ind; intros c; [|].
  { intros [= <-]. split; cbn; [constructor|]. intros id. by rewrite elem_of_empty, elem_of_nil. }
  rewrite exec_all_snoc. intros (c1 & H1 & H)%bind_Some. eapply exec_active; [exact H|by apply IH].
Qed.

(** ** The goroutines *)
Definition execution (t : thread) : option RunID := match t with Executing id _ => Some id | _ => None end.
Definition executing (c : Coordinator) : list RunID := omap execution (co_threads c).
(** How many events are left for a thread once no run is taken up. *)
Definition thread_weight (t : thread) : nat :=
  match t with
  | Executing _ _ | Reserved _ _ => 3
  | ExecutionFailed _ _ | Loaded _ _ _ | Discovering | CheckingLock => 2
  | ExecutionDone _ | DiscoverRest _ | DiscoverFailed _ | LockFailed _ => 1
  | _ => 0
  end.
Definition threads_weight (l : list thread) : nat := sum_list_with thread_weight l.
Definition is_worker (e : event) : bool :=
  match e with
  | EDiscoverListed _ | EDiscoverNext _ | EDiscoverLoaded _ _ _ | EDiscoverStart _ _ _ | EDiscoverFailed _
  | ERunReturned _ _ _ | ERunFailed _ _ | ERunDone _ | ELockChecked _ | ELockStopped | ELockFailed _ => true
  | _ => false
  end.
Definition lock_is_fine (e : event) : bool := match e with ELockChecked (Ok _) => true | _ => false end.

Definition with_active_threads (active : gset RunID) (threads : list thread) (c : Coordinator) : Coordinator := set_active active (set_threads threads c).
Record worked (e : event) (c : Coordinator) (t : thread) (new : list thread) : Prop := {
  wk_thread : counted t = true;
  wk_new : Forall (fun t => counted t = true) new;
  wk_idle : accepting c = false -> omap execution new = [] /\ threads_weight new + (if lock_is_fine e then 0 else 1) <= thread_weight t;
}.
Definition works (e : event) (c c' : Coordinator) : Prop :=
  exists t new rest active, co_threads c ≡ₚ t :: rest /\ worked e c t new /\
    (c' = with_active_threads active (new ++ rest) c \/ exists err, c' = fail err (with_active_threads active (new ++ rest) c)).
Lemma works_becomes e c c' t ts : becomes t ts c = Some c' -> worked e c t ts -> works e c c'.
Proof.
  intros (rest & Hp & ->)%becomes_inv Hw. exists t, ts, rest, (co_active c). split; [done|]. split; [done|left]. by destruct c.
Qed.
Lemma works_active e c c1 t ts f : becomes t ts c = Some c1 -> worked e c t ts -> works e c (set_active (f (co_active c1)) c1).
Proof. intros (rest & Hp & ->)%becomes_inv Hw. exists t, ts, rest, (f (co_active c)). split; [done|]. split; [done|by left]. Qed.
Lemma works_fail e c c1 t ts err : becomes t ts c = Some c1 -> worked e c t ts -> works e c (fail err c1).
Proof.
  intros (rest & Hp & ->)%becomes_inv Hw. exists t, ts, rest, (co_active c). split; [done|]. split; [done|right]. exists err. by destruct c.
Qed.
Ltac counted_tac := repeat (apply Forall_cons_2 || apply Forall_nil_2); try done; try (case_match; done).
Ltac worked_tac := split; [done|counted_tac|intros ?; cbn; repeat case_match; (split; [done|cbn; lia])].

Lemma worker_exec e c c' : is_worker e = true -> exec e c = Some c' -> works e c c'.
Proof.
  intros He. destruct e; try done; cbn [exec]; intros H; clear He.
  - destruct r; try done; cbn in H; eapply works_becomes; [exact H|worked_tac|exact H|]. destruct (canceled c); worked_tac.
  - destruct ids as [|id rest]; cbn in H; [eapply works_becomes; [exact H|worked_tac]|]. destruct (negb (accepting c)) eqn:E; [eapply works_becomes; [exact H|worked_tac]|].
    assert (Hacc : accepting c = true) by by destruct (accepting c).
    case_bool_decide; [eapply works_becomes; [exact H|split; [done|counted_tac|by rewrite Hacc]]|].
    apply fmap_Some in H as (c1 & H & ->). assert (Ha : co_active c = co_active c1) by (by apply becomes_inv in H as (? & _ & ->)).
    rewrite Ha. eapply (works_active _ _ _ _ _ (fun a => {[id]} ∪ a)); [exact H|split; [done|counted_tac|by rewrite Hacc]].
  - destruct r as [s|err| |]; try done; cbn in H.
    + destruct (IsWorkflowTerminalForStore _); [apply fmap_Some in H as (c1 & H & ->); eapply (works_active _ _ _ _ _ (fun a => a ∖ {[id]})); [exact H|worked_tac]|].
      eapply works_becomes; [exact H|worked_tac].
    + apply fmap_Some in H as (c1 & H & ->). eapply (works_active _ _ _ _ _ (fun a => a ∖ {[id]})); [exact H|]. destruct (canceled c); worked_tac.
  - unfold discover_start in H. apply bind_Some in H as (c1 & H & [= <-]). assert (Hacc : accepting c1 = accepting c) by (by apply becomes_inv in H as (? & _ & ->)).
    rewrite Hacc. destruct (accepting c) eqn:E.
    + apply becomes_inv in H as (rest' & Hp & ->). exists (Loaded id resume rest), [Executing id resume; DiscoverRest rest], rest', (co_active c).
      split; [done|]. split; [split; [done|counted_tac|by rewrite E]|left]. by destruct c.
    + eapply (works_active _ _ _ _ _ (fun a => a ∖ {[id]})); [exact H|worked_tac].
  - apply fmap_Some in H as (c1 & H & ->). eapply works_fail; [exact H|worked_tac].
  - destruct r; try done; cbn in H; eapply works_becomes; [exact H|worked_tac|exact H|]. destruct (canceled c); worked_tac.
  - apply fmap_Some in H as (c1 & H & ->). eapply works_fail; [exact H|worked_tac].
  - apply fmap_Some in H as (c1 & H & ->). assert (Ha : co_active c = co_active c1) by (by apply becomes_inv in H as (? & _ & ->)).
    rewrite Ha. eapply (works_active _ _ _ _ _ (fun a => a ∖ {[id]})); [exact H|worked_tac].
  - destruct r; try done; cbn in H; eapply works_becomes; [exact H|worked_tac|exact H|]. destruct (canceled c); worked_tac.
  - unfold lock_stopped in H. destruct (canceled c); [|done]. eapply works_becomes; [exact H|worked_tac].
  - apply fmap_Some in H as (c1 & H & ->). eapply works_fail; [exact H|worked_tac].
Qed.

(** ** The life of a coordinator

    [orderly] histories: [Close] is not called before [Start] has returned. *)
Definition starting (t : thread) : bool := match t with Acquiring | Listing | Recovering _ _ => true | _ => false end.
Inductive orderly : Coordinator -> Prop :=
| OrderlyNew : orderly NewCoordinator
| OrderlyStep c e c' : orderly c -> (e = EClose -> forallb (fun t => negb (starting t)) (co_threads c) = true) ->
    exec e c = Some c' -> orderly c'.

Abbreviation all_counted := (Forall (fun t => counted t = true)).
Inductive phase : Coordinator -> Prop :=
| BeforeStart started parent : phase (mkCoordinator false started false false None None ∅ None false [] parent false)
| InStart t parent : starting t = true ->
    phase (mkCoordinator false true false false None None ∅ None false [t] parent (negb (bool_decide (t = Acquiring))))
| ClosedBeforeStart started parent : phase (mkCoordinator false started true false None None ∅ None false [FinishingClose false] parent false)
| DoneBeforeStart started parent : phase (mkCoordinator false started true false None (Some None) ∅ None false [] parent false)
| Open ready ctx active errors fatal threads parent : all_counted threads -> (fatal = true -> ready = false /\ ctx = true) ->
    (fatal = true <-> is_Some errors) -> phase (mkCoordinator ready true false true (Some ctx) None active errors fatal threads parent true)
| ShuttingDown active errors fatal threads ts parent : threads ≡ₚ FinishingClose true :: ts -> all_counted ts ->
    (fatal = true <-> is_Some errors) -> phase (mkCoordinator false true true true (Some true) None active errors fatal threads parent true)
| Down active errors fatal r parent : (fatal = true <-> is_Some errors) ->
    phase (mkCoordinator false true true false (Some true) (Some r) active errors fatal [] parent false).

Lemma becomes_none t ts c : t ∉ co_threads c -> becomes t ts c = None.
Proof.
  intros Hn. unfold becomes. destruct (take_thread t (co_threads c)) as [rest|] eqn:E; [|done].
  apply take_thread_Permutation in E. exfalso. apply Hn. rewrite E. by left.
Qed.
Lemma becomes_only t ts t0 c c' : co_threads c = [t0] -> becomes t ts c = Some c' -> t0 = t /\ c' = set_threads ts c.
Proof.
  intros Ht (rest & Hp & ->)%becomes_inv. rewrite Ht in Hp. apply Permutation_singleton_l in Hp.
  symmetry in Hp. injection Hp as -> ->. by rewrite app_nil_r.
Qed.
Lemma works_only t0 c e c' : co_threads c = [t0] -> counted t0 = false -> ~ works e c c'.
Proof.
  intros Ht H0 (t & new & rest & active & Hp & [Hc _ _] & _). rewrite Ht in Hp. apply Permutation_singleton_l in Hp.
  symmetry in Hp. injection Hp as -> ->. congruence.
Qed.
Lemma works_empty c e c' : co_threads c = [] -> ~ works e c c'.
Proof. intros Ht (t & new & rest & active & Hp & _). rewrite Ht in Hp. by apply Permutation_nil_l in Hp. Qed.

(** The runs that [Start] takes up. *)
Lemma start_all ids : forall c, exists active new, foldl (fun c id => startRunLocked id true c) c ids = with_active_threads active (new ++ co_threads c) c /\
  all_counted new.
Proof.
  induction ids as [|id ids IH]; intros c; cbn [foldl].
  - exists (co_active c), []. split; [by destruct c|constructor].
  - destruct (IH (startRunLocked id true c)) as (active & new & -> & Hnew). unfold startRunLocked. case_bool_decide.
    + by exists active, new.
    + exists active, (new ++ [Executing id true]). split; [by rewrite <-app_assoc|]. apply Forall_app. split; [done|counted_tac].
Qed.

Lemma phase_worker c e c' : phase c -> works e c c' -> phase c'.
Proof.
  intros H Hw. destruct H as [| | | |ready ctx active errors fatal threads parent Hc Hf He|active errors fatal threads ts parent Hp Hc He|].
  - by apply works_empty in Hw.
  - eapply works_only in Hw; [done|done|by destruct t].
  - by eapply works_only in Hw.
  - by apply works_empty in Hw.
  - destruct Hw as (t & new & rest & active' & Hp & [_ Hnew _] & Hcase). cbn in Hp. rewrite Hp in Hc. apply Forall_cons in Hc as [_ Hrest].
    assert (Hall : all_counted (new ++ rest)) by by apply Forall_app. destruct Hcase as [->|[err ->]]; [by constructor|].
    unfold fail. cbn. destruct fatal; [by constructor|]. by constructor; [|done|].
  - destruct Hw as (t & new & rest & active' & Hp' & [Ht Hnew _] & Hcase). cbn in Hp'. rewrite Hp in Hp'.
    assert (Hfin : exists rest', rest ≡ₚ FinishingClose true :: rest' /\ ts ≡ₚ t :: rest').
    { assert (Hin : FinishingClose true ∈ t :: rest) by (rewrite <-Hp'; by left). apply elem_of_cons in Hin as [<-|Hin]; [done|].
      apply elem_of_Permutation in Hin as [rest' Hrest]. exists rest'. split; [done|]. rewrite Hrest, (perm_swap (FinishingClose true) t) in Hp'. by apply Permutation_cons_inv in Hp'. }
    destruct Hfin as (rest' & Hrest & Hts). rewrite Hts in Hc. apply Forall_cons in Hc as [_ Hc].
    assert (Hall : new ++ rest ≡ₚ FinishingClose true :: (new ++ rest')) by by rewrite Hrest, Permutation_middle.
    assert (Hcount : all_counted (new ++ rest')) by by apply Forall_app.
    destruct Hcase as [->|[err ->]]; [by econstructor|]. unfold fail. cbn. destruct fatal; [by econstructor|]. by econstructor; [exact Hall|exact Hcount|].
  - by apply works_empty in Hw.
Qed.

#[local] Arguments becomes : simpl never.

(** A thread that is not there cannot go on. *)
Lemma counted_no t l : all_counted l -> counted t = false -> t ∉ l.
Proof. intros Hl Ht Hin. rewrite Forall_forall in Hl. specialize (Hl t Hin). congruence. Qed.
Lemma closing_no t l ts : l ≡ₚ FinishingClose true :: ts -> all_counted ts -> starting t = true -> t ∉ l.
Proof.
  intros Hp Hc Ht. rewrite Hp. apply not_elem_of_cons. split; [by intros ->|]. eapply counted_no; [done|]. by destruct t.
Qed.
Lemma waited_closing ts c : waited c = true -> co_threads c ≡ₚ FinishingClose true :: ts -> all_counted ts -> ts = [].
Proof.
  unfold waited. intros Hw Hp Hc. destruct ts as [|t ts]; [done|]. exfalso.
  rewrite forallb_forall in Hw. apply Forall_cons in Hc as [Ht _]. specialize (Hw t). rewrite Ht in Hw. cbn in Hw.
  enough (false = true) by done. apply Hw, list_elem_of_In. rewrite Hp. right. by left.
Qed.
Definition start_event (e : event) : bool := match e with EAcquired _ | EListed _ | ELoaded _ _ _ _ | EReady _ => true | _ => false end.
Lemma start_event_needs e c c' : start_event e = true -> exec e c = Some c' ->
  exists t, starting t = true /\ t ∈ co_threads c.
Proof.
  intros He H. assert (Hb : exists t ts c1, starting t = true /\ becomes t ts c = Some c1).
  { destruct e; try done; cbn in H; [destruct r; cbn in H|destruct r; cbn in H|destruct r; cbn in H|unfold start_ready in H; apply bind_Some in H as (c1 & H & _)];
      try (eexists _, _, _; split; [|exact H]; done);
      apply fmap_Some in H as (c1 & H & _); eexists _, _, _; (split; [|exact H]; done). }
  destruct Hb as (t & ts & c1 & Ht & Hb). exists t. split; [done|]. apply becomes_inv in Hb as (rest & -> & _). by left.
Qed.
Lemma start_event_phase e t parent c' : starting t = true -> start_event e = true ->
  exec e (mkCoordinator false true false false None None ∅ None false [t] parent (negb (bool_decide (t = Acquiring)))) = Some c' -> phase c'.
Proof.
  intros Ht He H. destruct e; try done; cbn [exec] in H.
  - destruct r; cbn in H; [apply fmap_Some in H as (c1 & H & ->)|..]; apply (becomes_only _ _ t) in H as [-> ->]; try done;
      [by apply (InStart Listing)|apply BeforeStart..].
  - destruct r; cbn in H; [|apply fmap_Some in H as (c1 & H & ->)..]; apply (becomes_only _ _ t) in H as [-> ->]; try done;
      [by apply (InStart (Recovering _ _))|apply BeforeStart..].
  - destruct r; cbn in H; [|apply fmap_Some in H as (c1 & H & ->)..]; apply (becomes_only _ _ t) in H as [-> ->]; try done;
      [by apply (InStart (Recovering _ _))|apply BeforeStart..].
  - unfold start_ready in H. apply bind_Some in H as (c1 & H & [= <-]). apply (becomes_only _ _ t) in H as [-> ->]; [|done]. cbn.
    match goal with |- context [foldl _ ?c ids] => destruct (start_all ids c) as (active & new & -> & Hnew) end. cbn.
    apply Open; [|done|by split; [done|intros [? ?]]]. constructor; [done|]. by rewrite app_nil_r.
Qed.
Lemma finish_needs c c' lock r : finishClose lock r c = Some c' -> FinishingClose lock ∈ co_threads c /\ waited c = true.
Proof.
  unfold finishClose. destruct (waited c); [|done]. intros (c1 & H & _)%bind_Some. apply becomes_inv in H as (rest & -> & _). split; [by left|done].
Qed.
Lemma phase_step c e c' : phase c -> (e = EClose -> forallb (fun t => negb (starting t)) (co_threads c) = true) -> exec e c = Some c' -> phase c'.
Proof.
  intros Hph Hclose H. destruct (is_worker e) eqn:Hw; [by eapply phase_worker, worker_exec|].
  destruct (start_event e) eqn:Hs.
  { destruct (start_event_needs e c c' Hs H) as (t & Ht & Hin). destruct Hph as [| | | |??????? Hc|?????? Hp Hc|]; cbn in Hin.
    - by apply elem_of_nil in Hin.
    - apply list_elem_of_singleton in Hin as ->. by eapply start_event_phase.
    - by apply list_elem_of_singleton in Hin as ->.
    - by apply elem_of_nil in Hin.
    - exfalso. eapply counted_no; [exact Hc| |exact Hin]. by destruct t.
    - exfalso. by eapply closing_no.
    - by apply elem_of_nil in Hin. }
  destruct e as [deps| | | | |id| | | | | | | | | | | | | |lock r|]; try done; cbn [exec] in H.
  - injection H as <-. destruct Hph as [started| | | | | |]; cbn; try by (unfold Start; cbn; rewrite ?orb_true_r; econstructor).
    destruct started; cbn; [constructor|]. destruct deps; cbn; [by apply (InStart Acquiring)|constructor].
  - injection H as <-. unfold Enqueue, accepting. destruct Hph as [| | | |ready| |]; cbn; try by econstructor.
    destruct ready; cbn; [|by constructor]. unfold startRunLocked. case_bool_decide; cbn; constructor; try done. by constructor.
  - injection H as <-. unfold Wake, accepting. destruct Hph as [| | | |ready| |]; cbn; try by econstructor.
    destruct ready; cbn; constructor; try done. by constructor.
  - injection H as <-. unfold Close. destruct Hph; cbn; try by econstructor.
    specialize (Hclose eq_refl). cbn in Hclose. destruct t; done.
  - destruct (finish_needs _ _ _ _ H) as [Hin Hwt]. destruct Hph as [| | | |??????? Hc|?????? Hp Hc|]; cbn in Hin.
    + by apply elem_of_nil in Hin.
    + apply list_elem_of_singleton in Hin as <-. done.
    + apply list_elem_of_singleton in Hin as [= ->]. injection H as <-. constructor.
    + by apply elem_of_nil in Hin.
    + exfalso. by eapply counted_no; [exact Hc| |exact Hin].
    + pose proof (waited_closing _ _ Hwt Hp Hc) as ->. cbn in Hp. apply Permutation_singleton_r in Hp. subst threads.
      apply list_elem_of_singleton in Hin as [= ->]. injection H as <-. by constructor.
    + by apply elem_of_nil in Hin.
  - injection H as <-. destruct Hph; cbn; econstructor; naive_solver.
Qed.
Lemma orderly_phase c : orderly c -> phase c.
Proof. induction 1; [constructor|by eapply phase_step]. Qed.
Lemma orderly_active c : orderly c -> active_ok c.
Proof.
  induction 1 as [|c e c' Hc IH _ He]; [|by eapply exec_active]. split; cbn; [constructor|]. intros id. by rewrite elem_of_empty, elem_of_nil.
Qed.

(** C27: The coordinator keeps the lock while anything that [wg] counts is left; it
    is ready only with the lock and before any failure; once it is closed
    nothing is left, no run is active and the lock was released; and a failure
    has cancelled the runs and sent its error. *)
Theorem lock_outlives_runs c : orderly c ->
  (forall t, t ∈ co_threads c -> counted t = true -> co_owned c = true /\ co_lock c = true) /\
  (Ready c = true -> co_owned c = true /\ co_closing c = false /\ co_fatal c = false) /\
  (co_closed c <> None -> co_threads c = [] /\ co_active c = ∅ /\ co_owned c = false /\ Ready c = false) /\
  (co_fatal c = true -> canceled c = true /\ Ready c = false /\ is_Some (co_errors c)).
Proof.
  intros Hc. pose proof (orderly_active c Hc) as [_ Ha]. destruct (orderly_phase c Hc) as [|t parent Ht| | |ready ctx ????? Hall Hf| |].
  all: unfold Ready, canceled in *; cbn in *; split_and!; try done; try (by intros ? ?%elem_of_nil).
  - by intros ? ->%list_elem_of_singleton Hcount; destruct t.
  - by intros ? ->%list_elem_of_singleton.
  - intros ->. split_and!; try done. destruct fatal; [|done]. by destruct Hf.
  - intros ->. destruct Hf as [-> ->]; [done|]. split_and!; [by rewrite bool_decide_eq_true_2, orb_true_r|done|naive_solver].
  - intros ->. split_and!; [by rewrite bool_decide_eq_true_2, orb_true_r|done|naive_solver].
  - intros _. split_and!; try done. apply set_eq. intros id. by rewrite Ha, elem_of_empty, elem_of_nil.
  - intros ->. split_and!; [by rewrite bool_decide_eq_true_2, orb_true_r|done|naive_solver].
Qed.

(** ** Stopping *)
Definition is_work (e : event) : bool := is_worker e && negb (lock_is_fine e).
Definition stopping (c : Coordinator) : bool := co_closing c || co_fatal c.
Lemma stopping_idle c : phase c -> stopping c = true -> accepting c = false.
Proof. intros [| | | |ready ctx ????? Hall Hf| |] Hs; cbn in *; try done. by destruct Hf as [-> _]. Qed.
Lemma stopping_canceled c t : phase c -> stopping c = true -> t ∈ co_threads c -> counted t = true -> canceled c = true.
Proof.
  intros [| | | |ready ctx ????? Hall Hf| |] Hs Hin Ht; unfold canceled; cbn in *; rewrite ?orb_true_r; try done.
  - by apply list_elem_of_singleton in Hin as ->.
  - by apply elem_of_nil in Hin.
  - destruct Hf as [_ ->]; [done|]. by rewrite bool_decide_eq_true_2, orb_true_r.
Qed.
Lemma stopping_start c e c' : phase c -> stopping c = true -> start_event e = true -> exec e c <> Some c'.
Proof.
  intros Hph Hs He H. destruct (start_event_needs _ _ _ He H) as (t & Ht & Hin). destruct Hph as [| | | |??????? Hc|?????? Hp Hc|]; cbn in *; try done.
  - by apply list_elem_of_singleton in Hin as ->.
  - by apply elem_of_nil in Hin.
  - eapply counted_no; [exact Hc| |exact Hin]. by destruct t.
  - by eapply closing_no.
  - by apply elem_of_nil in Hin.
Qed.
Lemma threads_weight_Permutation l l' : l ≡ₚ l' -> threads_weight l = threads_weight l'.
Proof. unfold threads_weight. by intros ->. Qed.
Lemma executing_Permutation l l' : l ≡ₚ l' -> omap execution l ≡ₚ omap execution l'.
Proof. induction 1 as [|x l l' _ IH|x y l|l1 l2 l3 _ IH1 _ IH2]; cbn; [done|by case_match; rewrite IH|repeat case_match; try done; constructor|by etrans]. Qed.

(** What a step does to a coordinator that is stopping. *)
Record slower (e : event) (c c' : Coordinator) : Prop := {
  sl_stopping : stopping c' = true;
  sl_weight : threads_weight (co_threads c') + (if is_work e then 1 else 0) <= threads_weight (co_threads c);
  sl_executing : executing c' ⊆+ executing c;
}.
Lemma fail_threads err c : co_threads (fail err c) = co_threads c /\ (stopping c = true -> stopping (fail err c) = true).
Proof. unfold fail, stopping. destruct (co_fatal c) eqn:E; cbn; [by rewrite E|]. split; [done|]. by rewrite orb_true_r. Qed.
Lemma slower_same e c : is_worker e = false -> stopping c = true -> slower e c c.
Proof. intros He Hs. split; [done| |done]. unfold is_work. rewrite He. cbn. lia. Qed.
Lemma slower_worker e c c' : phase c -> stopping c = true -> is_worker e = true -> exec e c = Some c' -> slower e c c'.
Proof.
  intros Hph Hs He (t & new & rest & active & Hp & [Ht Hnew Hidle] & Hcase)%worker_exec; [|done].
  destruct (Hidle (stopping_idle _ Hph Hs)) as [Hexec Hweight].
  assert (Hc' : co_threads c' = new ++ rest /\ stopping c' = true).
  { destruct Hcase as [->|[err ->]]; [by split|]. destruct (fail_threads err (with_active_threads active (new ++ rest) c)) as [-> Hstop]. split; [done|exact (Hstop Hs)]. }
  destruct Hc' as [Hthreads Hstop]. split; [done|rewrite Hthreads, (threads_weight_Permutation _ _ Hp)|].
  - unfold threads_weight in *. rewrite sum_list_with_app. cbn. unfold is_work. rewrite He. destruct (lock_is_fine e); cbn; lia.
  - unfold executing. rewrite Hthreads, omap_app, Hexec, (executing_Permutation _ _ Hp). cbn. destruct (execution t); [by apply submseteq_cons|done].
Qed.
Lemma slower_finish lock r c c' : phase c -> exec (EFinishClose lock r) c = Some c' -> slower (EFinishClose lock r) c c'.
Proof.
  intros Hph H. destruct (finish_needs _ _ _ _ H) as [Hin _].
  assert (Hs : stopping c = true).
  { destruct Hph as [| | | |??????? Hc| |]; try done; cbn in Hin; try (by apply elem_of_nil in Hin); try (by apply list_elem_of_singleton in Hin as <-).
    exfalso. by eapply counted_no; [exact Hc| |exact Hin]. }
  cbn in H. unfold finishClose in H. destruct (waited c); [|done]. apply bind_Some in H as (c1 & H & [= <-]).
  apply becomes_inv in H as (rest & Hp & ->). split; cbn.
  - done.
  - rewrite (threads_weight_Permutation _ _ Hp). cbn. lia.
  - unfold executing. cbn. by rewrite (executing_Permutation _ _ Hp).
Qed.
Lemma stopping_step e c c' : phase c -> stopping c = true -> exec e c = Some c' -> slower e c c'.
Proof.
  intros Hph Hs H. destruct (is_worker e) eqn:He; [by apply slower_worker|].
  destruct (start_event e) eqn:Hst; [by apply stopping_start in H|]. pose proof (stopping_idle c Hph Hs) as Hidle.
  destruct e; try done; [cbn in H; injection H as <-..| |cbn in H; injection H as <-].
  - unfold Start. destruct (co_started c || co_closing c) eqn:E; [by apply slower_same|]. exfalso. destruct Hph; try done; by destruct started.
  - unfold Enqueue. rewrite Hidle. by apply slower_same.
  - unfold Wake. rewrite Hidle. by apply slower_same.
  - unfold Close. destruct (co_closing c) eqn:E; [by apply slower_same|]. split; [done| |done]. unfold threads_weight. cbn. lia.
  - by apply slower_finish.
  - split; [done| |done]. unfold threads_weight. cbn. lia.
Qed.

(** Something is always left to do. *)
Lemma becomes_can t ts c : t ∈ co_threads c -> exists c', becomes t ts c = Some c'.
Proof. intros (rest & Hr)%take_thread_elem. unfold becomes. rewrite Hr. by eexists. Qed.
Lemma work_left t c : t ∈ co_threads c -> counted t = true -> canceled c = true -> exists e c', is_work e = true /\ exec e c = Some c'.
Proof.
  intros Hin Ht Hcan. pose proof (fun ts => becomes_can t ts c Hin) as Hgo. destruct t as [| | |id resume|id err|id| |ids|id rest|id resume rest|err| |err|]; try done.
  - destruct (Hgo [ExecutionDone id]) as [c' Hc']. exists (ERunReturned id resume (Err (Errorf "context canceled"))), c'. split; [done|]. cbn. by rewrite Hcan.
  - destruct (Hgo [ExecutionDone id]) as [c' Hc']. eexists (ERunFailed id err), _. split; [done|]. cbn. unfold run_failed. by rewrite Hc'.
  - destruct (Hgo []) as [c' Hc']. eexists (ERunDone id), _. split; [done|]. cbn. unfold run_done. by rewrite Hc'.
  - destruct (Hgo []) as [c' Hc']. exists (EDiscoverListed (Err (Errorf "context canceled"))), c'. split; [done|]. cbn. by rewrite Hcan.
  - destruct ids as [|id ids]; [destruct (Hgo []) as [c' Hc']; by exists (EDiscoverNext []), c'|].
    destruct (Hgo []) as [c1 Hc1], (Hgo [DiscoverRest ids]) as [c2 Hc2], (Hgo [Reserved id ids]) as [c3 Hc3].
    assert (Hnext : exists c', exec (EDiscoverNext (id :: ids)) c = Some c'); [|destruct Hnext as [c' Hc']; by exists (EDiscoverNext (id :: ids)), c'].
    cbn. rewrite Hc1, Hc2, Hc3. destruct (negb _); [|case_bool_decide]; by eexists.
  - destruct (Hgo []) as [c' Hc']. eexists (EDiscoverLoaded id rest (Err (Errorf "context canceled"))), _. split; [done|]. cbn. rewrite Hcan, Hc'. done.
  - destruct (Hgo [DiscoverRest rest]) as [c' Hc']. eexists (EDiscoverStart id resume rest), _. split; [done|]. cbn. unfold discover_start. by rewrite Hc'.
  - destruct (Hgo []) as [c' Hc']. eexists (EDiscoverFailed err), _. split; [done|]. cbn. unfold discover_failed. by rewrite Hc'.
  - destruct (Hgo []) as [c' Hc']. exists ELockStopped, c'. split; [done|]. cbn. unfold lock_stopped. by rewrite Hcan.
  - destruct (Hgo []) as [c' Hc']. eexists (ELockFailed err), _. split; [done|]. cbn. unfold lock_failed. by rewrite Hc'.
Qed.
Lemma stopping_no_start c : phase c -> stopping c = true -> forallb (fun t => negb (starting t)) (co_threads c) = true.
Proof.
  intros Hph Hs. apply forallb_forall. intros t Hin%list_elem_of_In. destruct (starting t) eqn:Ht; [|done]. exfalso.
  destruct Hph as [| | | |??????? Hc|?????? Hp Hc|]; cbn in *; try done; try by apply elem_of_nil in Hin.
  - by apply list_elem_of_singleton in Hin as ->.
  - eapply counted_no; [exact Hc| |exact Hin]. by destruct t.
  - by eapply closing_no.
Qed.
Lemma something_left c : phase c -> stopping c = true ->
  co_threads c = [] \/ exists e c', (is_work e = true \/ exists lock, e = EFinishClose lock None) /\ exec e c = Some c'.
Proof.
  intros Hph Hs. destruct (waited c) eqn:Hw.
  - assert (Hcases : co_threads c = [] \/ exists lock, co_threads c = [FinishingClose lock]).
    { destruct Hph as [| | | |??????? [|t ts Ht _]|?????? Hp Hc|]; cbn in Hs |- *; try done; eauto; [by unfold waited in Hw; cbn in Hw; rewrite Ht in Hw|].
      pose proof (waited_closing _ _ Hw Hp Hc) as ->. apply Permutation_singleton_r in Hp. eauto. }
    destruct Hcases as [|[lock Hlock]]; [by left|right]. eexists (EFinishClose lock None), _. split; [right; by eexists|]. cbn.
    unfold finishClose, becomes. rewrite Hw, Hlock. cbn. by rewrite decide_True.
  - assert (Hex : exists t, t ∈ co_threads c /\ counted t = true).
    { unfold waited in Hw. clear -Hw. induction (co_threads c) as [|t l IH]; [done|]. cbn in Hw. destruct (counted t) eqn:Ht; [exists t; split; [by left|done]|].
      destruct (IH Hw) as (t' & Hin & Ht'). exists t'. split; [by right|done]. }
    destruct Hex as (t & Hin & Ht). right. destruct (work_left t c Hin Ht) as (e & c' & He & H); [by eapply stopping_canceled|]. eauto.
Qed.
Lemma stopping_run es : forall c c', phase c -> stopping c = true -> exec_all es c = Some c' ->
  phase c' /\ stopping c' = true /\ executing c' ⊆+ executing c /\
  length (filter (fun e => is_work e = true) es) + threads_weight (co_threads c') <= threads_weight (co_threads c).
Proof.
  unfold exec_all. induction es as [|e es IH] using rev_ind; intros c c' Hph Hs H; [by injection H as <-|].
  rewrite foldl_app in H. apply bind_Some in H as (c1 & H1 & H). destruct (IH c c1 Hph Hs H1) as (Hph1 & Hs1 & Hexec & Hweight).
  pose proof (stopping_no_start c1 Hph1 Hs1) as Hno. destruct (stopping_step e c1 c' Hph1 Hs1 H) as [Hs' Hw He].
  split_and!; [by eapply phase_step|done|by etrans|]. rewrite filter_app, length_app, filter_cons, filter_nil.
  case_decide as Hd; [rewrite Hd in Hw|destruct (is_work e); [done|]]; cbn in *; lia.
Qed.

(** C28: Once the coordinator is closing, or has failed, no run is started again and
    only a bounded number of steps is left; until no goroutine is left some
    step can always be taken, and a closing coordinator ends closed. *)
Theorem shutdown c es c' : orderly c -> stopping c = true -> exec_all es c = Some c' ->
  length (filter (fun e => is_work e = true) es) + threads_weight (co_threads c') <= threads_weight (co_threads c) /\
  executing c' ⊆+ executing c /\ Ready c' = false /\
  (co_threads c' = [] \/ exists e c'', (is_work e = true \/ exists lock, e = EFinishClose lock None) /\ exec e c' = Some c'') /\
  (co_closing c' = true -> co_threads c' = [] -> co_closed c' <> None).
Proof.
  intros Hc%orderly_phase Hs H. destruct (stopping_run es c c' Hc Hs H) as (Hph & Hs' & Hexec & Hweight).
  split_and!; [done|done| |by apply something_left|].
  - destruct Hph as [| | | |ready ?????? Hall Hf| |]; try done. by destruct Hf as [-> _].
  - destruct Hph as [| | | | |?????? Hp|]; try done. cbn. intros _ ->. by apply Permutation_nil_l in Hp.
Qed.

(** ** Examples *)
Definition session : list event :=
  [EStart true; EAcquired (Ok tt); EListed (Ok ["r1"]); ELoaded ["r1"] "r1" [] (Ok tt); EReady ["r1"];
   EWake; EEnqueue "r2"; EDiscoverListed (Ok ["r1"; "r2"; "r3"]); EDiscoverNext ["r1"; "r2"; "r3"]; EDiscoverNext ["r2"; "r3"];
   EDiscoverNext ["r3"]; ELockChecked (Ok tt)].
Definition closing_session : list event :=
  [EStart true; EDiscoverLoaded "r3" [] (Err (Errorf "context canceled")); ERunReturned "r1" true (Err (Errorf "context canceled")); EWake; EEnqueue "r3";
   ERunDone "r1"; ELockChecked (Ok tt); ELockStopped; ERunReturned "r2" false (Err (Errorf "context canceled")); ERunDone "r2"; EFinishClose true None].
Lemma orderly_run es : forall c c', orderly c -> EClose ∉ es -> exec_all es c = Some c' -> orderly c'.
Proof.
  unfold exec_all. induction es as [|e es IH] using rev_ind; intros c c' Hc Hn H; [by injection H as <-|].
  rewrite foldl_app in H. apply bind_Some in H as (c1 & H1 & H). apply not_elem_of_app in Hn as [Hn He].
  apply (OrderlyStep c1 e); [by eapply IH|intros ->; exfalso; apply He; by left|done].
Qed.

Lemma one_execution_witness : exists c, exec_all session NewCoordinator = Some c /\ active_ok c /\ executing c = ["r2"; "r1"].
Proof.
  eexists. split; [vm_compute; reflexivity|]. split; [|reflexivity]. apply (one_execution session). vm_compute. reflexivity.
Defined.
Lemma session_orderly c : exec_all session NewCoordinator = Some c -> orderly c.
Proof. apply orderly_run; [constructor|]. unfold session. intros H. repeat (apply elem_of_cons in H as [H|H]; [discriminate|]). by apply elem_of_nil in H. Qed.

Lemma lock_outlives_runs_witness : exists c, exec_all session NewCoordinator = Some c /\ Ready c = true /\ co_owned c = true /\
  executing c = ["r2"; "r1"].
Proof.
  eexists. split; [vm_compute; reflexivity|]. split; [reflexivity|]. split; [|reflexivity].
  match goal with |- co_owned ?c = true => destruct (lock_outlives_runs c) as (_ & Hready & _) end; [by apply session_orderly; vm_compute|].
  by apply Hready.
Defined.
Definition after_events (es : list event) : Coordinator := default NewCoordinator (exec_all es NewCoordinator).
Lemma closing_orderly : orderly (Close (after_events session)).
Proof. apply (OrderlyStep (after_events session) EClose); [apply session_orderly; by vm_compute|done|done]. Qed.
Lemma shutdown_witness : exists c', exec_all closing_session (Close (after_events session)) = Some c' /\
  threads_weight (co_threads (Close (after_events session))) = 11 /\ length (filter (fun e => is_work e = true) closing_session) <= 11 /\
  executing (Close (after_events session)) = ["r2"; "r1"] /\ executing c' = [] /\ co_closed c' <> None.
Proof.
  eexists. split; [vm_compute; reflexivity|].
  match goal with |- context [executing ?c' = [] /\ _] =>
    destruct (shutdown (Close (after_events session)) closing_session c') as (Hw & _ & _ & _ & Hdown); [exact closing_orderly|reflexivity|vm_compute; reflexivity|] end.
  split; [reflexivity|]. split; [etrans; [apply Nat.le_add_r|exact Hw]|]. split; [reflexivity|]. split; [reflexivity|]. by apply Hdown.
Defined.

(** [Close] while [Start] reads the unfinished runs: it finds no lock to
    release and nothing to wait for, and returns; [Start] then makes the closed
    coordinator ready, starts the runs and keeps the lock. *)
Example close_during_start :
  let es := [EStart true; EAcquired (Ok tt); EClose; EFinishClose false None; EListed (Ok ["r1"]); ELoaded ["r1"] "r1" [] (Ok tt); EReady ["r1"]] in
  let c := after_events es in
  (is_Some (exec_all es NewCoordinator) /\ co_closed c = Some None) /\ Ready c = true /\ canceled c = false /\ executing c = ["r1"] /\ co_owned c = true /\
  Close c = c.
Proof. vm_compute. split; [by split; [eexists|]|]. done. Qed.
