(* ===== verification/SnapshotJson.v ===== *)
(** * Snapshots as JSON files

    What [json.MarshalIndent] followed by a decoder with [UseNumber] makes of a
    [RunSnapshot], through the struct tags of src/workflow/run.go and
    src/workflow/definition.go: strings lose invalid UTF-8, an empty input
    object is omitted and comes back as nil, an instant outside the years
    0..9999 and an input that is not JSON cannot be written. *)
From S2P Require Import Prelude GoStrings Json Model.

(** ** Enumerations travel as strings *)
Definition executor_string (k : ExecutorKind) : string :=
  match k with ExecutorMock => "mock" | ExecutorContainer => "container" | ExecutorOther s => s end.
Definition executor_of_string (s : string) : ExecutorKind :=
  if bool_decide (s = "mock") then ExecutorMock
  else if bool_decide (s = "container") then ExecutorContainer else ExecutorOther s.

Definition workflow_status_of_string (s : string) : WorkflowStatus :=
  if bool_decide (s = "pending") then WorkflowPending
  else if bool_decide (s = "running") then WorkflowRunning
  else if bool_decide (s = "succeeded") then WorkflowSucceeded
  else if bool_decide (s = "failed") then WorkflowFailed
  else if bool_decide (s = "canceled") then WorkflowCanceled else WorkflowOther s.

Definition task_status_of_string (s : string) : TaskStatus :=
  if bool_decide (s = "waiting_dependencies") then TaskWaitingDependencies
  else if bool_decide (s = "ready") then TaskReady
  else if bool_decide (s = "queued") then TaskQueued
  else if bool_decide (s = "running") then TaskRunning
  else if bool_decide (s = "waiting_retry") then TaskWaitingRetry
  else if bool_decide (s = "succeeded") then TaskSucceeded
  else if bool_decide (s = "failed") then TaskFailed
  else if bool_decide (s = "canceled") then TaskCanceled
  else if bool_decide (s = "skipped") then TaskSkipped else TaskOther s.

Definition attempt_status_of_string (s : string) : AttemptStatus :=
  if bool_decide (s = "running") then AttemptRunning
  else if bool_decide (s = "succeeded") then AttemptSucceeded
  else if bool_decide (s = "failed") then AttemptFailed
  else if bool_decide (s = "timed_out") then AttemptTimedOut
  else if bool_decide (s = "canceled") then AttemptCanceled
  else if bool_decide (s = "interrupted") then AttemptInterrupted else AttemptOther s.

(** ** Reading back what was written *)
Definition input_roundtrip (input : Input) : Input :=
  match input with
  | None | Some [] => None
  | Some entries => match json_roundtrip (AnyMap entries) with AnyMap entries' => Some entries' | _ => None end
  end.

Definition task_definition_roundtrip (t : TaskDefinition) : TaskDefinition :=
  mkTaskDefinition (sanitize (def_Key t)) (executor_of_string (sanitize (executor_string (def_Executor t))))
    (sanitize (def_Action t)) (input_roundtrip (def_Input t)) (sanitize <$> DependsOn t) (Retry t)
    (TimeoutMillis t).
Definition definition_roundtrip (d : WorkflowDefinition) : WorkflowDefinition :=
  mkWorkflowDefinition (sanitize (wf_ID d)) (Concurrency d) (task_definition_roundtrip <$> def_Tasks d).

Definition result_roundtrip (r : ExecutionResult) : ExecutionResult :=
  mkExecutionResult (sanitize (res_Output r)) (sanitize (res_ErrorCode r)) (sanitize (res_ErrorMessage r)).
Definition attempt_roundtrip (a : Attempt) : Attempt :=
  mkAttempt (Number a) (attempt_status_of_string (sanitize (attempt_status_string (att_Status a))))
    (sanitize (WorkerID a)) (sanitize (DispatchID a)) (att_StartedAt a) (att_FinishedAt a)
    (result_roundtrip (Result a)).
Definition task_roundtrip (t : TaskRun) : TaskRun :=
  mkTaskRun (sanitize (Key t)) (task_status_of_string (sanitize (task_status_string (Status t))))
    (attempt_roundtrip <$> Attempts t) (ReadyAt t) (FinishedAt t).
Definition event_roundtrip (e : StateEvent) : StateEvent :=
  mkStateEvent (Sequence e) (At e) (sanitize (Entity e)) (sanitize (ev_Key e)) (sanitize (From e))
    (sanitize (To e)) (sanitize (Reason e)).
Definition run_roundtrip (r : WorkflowRun) : WorkflowRun :=
  mkWorkflowRun (sanitize (ID r)) (sanitize (DefinitionID r)) (DefinitionVersion r)
    (workflow_status_of_string (sanitize (workflow_status_string (run_Status r)))) (Revision r)
    (LastEventSequence r) (CancelRequestedAt r) (task_roundtrip <$> Tasks r) (RemainingDependencies r)
    (CreatedAt r) (run_StartedAt r) (run_FinishedAt r).
Definition snapshot_roundtrip (s : RunSnapshot) : RunSnapshot :=
  mkRunSnapshot (Version s) (definition_roundtrip <$> Definition_ s) (run_roundtrip (Run s))
    (event_roundtrip <$> Events s).

(** ** What cannot be written *)

(** [time.Time.MarshalJSON] refuses years outside [0, 9999]; the instant 0 is
    the first of January of year 1. *)
Definition Day : Z := 86400000000000.
Definition time_encodable (t : time) : bool := ((- 366 * Day <=? t) && (t <? 3652059 * Day))%Z.
Definition opt_time_encodable (o : option time) : bool :=
  match o with Some t => time_encodable t | None => true end.

Definition input_encodable (input : Input) : bool :=
  match input with
  | None | Some [] => true
  | Some entries => bool_decide (is_Some (json_encode (AnyMap entries)))
  end.
Definition attempt_encodable (a : Attempt) : bool :=
  time_encodable (att_StartedAt a) && opt_time_encodable (att_FinishedAt a).
Definition task_encodable (t : TaskRun) : bool :=
  opt_time_encodable (ReadyAt t) && opt_time_encodable (FinishedAt t) && forallb attempt_encodable (Attempts t).
Definition snapshot_encodable (s : RunSnapshot) : bool :=
  match Definition_ s with
  | Some d => forallb (fun t => input_encodable (def_Input t)) (def_Tasks d)
  | None => true
  end
  && time_encodable (CreatedAt (Run s)) && opt_time_encodable (CancelRequestedAt (Run s))
  && opt_time_encodable (run_StartedAt (Run s)) && opt_time_encodable (run_FinishedAt (Run s))
  && forallb task_encodable (Tasks (Run s)) && forallb (fun e => time_encodable (At e)) (Events s).

(** The bytes of a file, as far as the decoder can tell. *)
Inductive document : Type :=
| Encoded (snapshot : RunSnapshot)
| Garbage.

Definition MarshalIndent (snapshot : RunSnapshot) : outcome document :=
  if snapshot_encodable snapshot then Ok (Encoded snapshot) else Err (Errorf "json: unsupported value").
Definition Decode (d : document) : outcome RunSnapshot :=
  match d with
  | Encoded snapshot => Ok (snapshot_roundtrip snapshot)
  | Garbage => Err (Errorf "invalid character in JSON")
  end.

(** ** Statuses survive the trip *)
Lemma workflow_status_roundtrip st :
  (forall s, st ≠ WorkflowOther s) ->
  workflow_status_of_string (sanitize (workflow_status_string st)) = st.
Proof. intros H. destruct st; try (vm_compute; reflexivity). by destruct (H s). Qed.
Lemma task_status_roundtrip st :
  (forall s, st ≠ TaskOther s) -> task_status_of_string (sanitize (task_status_string st)) = st.
Proof. intros H. destruct st; try (vm_compute; reflexivity). by destruct (H s). Qed.
Lemma attempt_status_roundtrip st :
  (forall s, st ≠ AttemptOther s) -> attempt_status_of_string (sanitize (attempt_status_string st)) = st.
Proof. intros H. destruct st; try (vm_compute; reflexivity). by destruct (H s). Qed.
