(* ===== verification/CanonicalJson.v ===== *)
(** * The JSON of a definition

    What [json.Marshal] writes for a [WorkflowDefinition], through the struct
    tags of src/workflow/definition.go.  The control plane compares and hashes
    these bytes, so they have to identify a definition: values are
    self-delimiting (a scanner finds their end in any context), and equal bytes
    have equal identifiers and dependencies. *)
From S2P Require Import Prelude GoStrings Json Model Graph Compiler SnapshotJson.

(** ** [json.Marshal] *)
Definition json_int (z : Z) : list N := bytes_of (pretty z).
Definition json_object (members : list (list N)) : list N := [123%N] ++ json_join members ++ [125%N].
Definition json_array (elems : list (list N)) : list N := [91%N] ++ json_join elems ++ [93%N].
Definition json_member (name : string) (value : list N) : list N := json_string name ++ [58%N] ++ value.
(** [omitempty] *)
Definition unless (empty : bool) (member : list N) : list (list N) := if empty then [] else [member].

Definition json_retry (r : RetryPolicy) : list N :=
  json_object (unless (MaxAttempts r =? 0)%Z (json_member "max_attempts" (json_int (MaxAttempts r)))
    ++ unless (IntervalMillis r =? 0)%Z (json_member "interval_ms" (json_int (IntervalMillis r)))).
Definition json_input (input : Input) : option (list (list N)) :=
  match input with
  | None | Some [] => Some []
  | Some entries => b ← json_encode (AnyMap entries); Some [json_member "input" b]
  end.
Definition json_task (t : TaskDefinition) : option (list N) :=
  input ← json_input (def_Input t);
  Some (json_object ([json_member "key" (json_string (def_Key t))]
    ++ unless (is_empty (executor_string (def_Executor t))) (json_member "executor" (json_string (executor_string (def_Executor t))))
    ++ [json_member "action" (json_string (def_Action t))]
    ++ input
    ++ unless (bool_decide (DependsOn t = [])) (json_member "depends_on" (json_array (json_string <$> DependsOn t)))
    ++ [json_member "retry" (json_retry (Retry t)); json_member "timeout_ms" (json_int (TimeoutMillis t))])).
Definition json_definition (d : WorkflowDefinition) : option (list N) :=
  tasks ← mapM json_task (def_Tasks d);
  Some (json_object [json_member "id" (json_string (wf_ID d)); json_member "concurrency" (json_int (Concurrency d));
                     json_member "tasks" (json_array tasks)]).

(** ** Scanning *)
Inductive mode : Type := Outside | InString | Escaped.

(** What follows the value that is read: the depth counts the brackets that
    are open. *)
Fixpoint scan (m : mode) (depth : nat) (l : list N) : option (list N) :=
  match l with
  | [] => None
  | b :: l' =>
    match m with
    | Outside =>
      if (b =? 34)%N then scan InString depth l'
      else if (b =? 123)%N || (b =? 91)%N then scan Outside (S depth) l'
      else if (b =? 125)%N || (b =? 93)%N then
        match depth with S (S d) => scan Outside (S d) l' | S 0 => Some l' | 0 => None end
      else scan Outside depth l'
    | InString =>
      if (b =? 34)%N then match depth with 0 => Some l' | _ => scan Outside depth l' end
      else if (b =? 92)%N then scan Escaped depth l'
      else scan InString depth l'
    | Escaped => scan InString depth l'
    end
  end.

(** [x] is a complete piece of the content of a string, or of an object or
    array. *)
Definition in_string (x : list N) : Prop := forall d r, scan InString d (x ++ r) = scan InString d r.
Definition inside (x : list N) : Prop := forall d r, scan Outside (S d) (x ++ r) = scan Outside (S d) r.

Lemma in_string_app x y : in_string x -> in_string y -> in_string (x ++ y).
Proof. intros Hx Hy d r. by rewrite <-app_assoc, Hx, Hy. Qed.
Lemma inside_app x y : inside x -> inside y -> inside (x ++ y).
Proof. intros Hx Hy d r. by rewrite <-app_assoc, Hx, Hy. Qed.

Lemma in_string_byte b : b ≠ 34%N -> b ≠ 92%N -> in_string [b].
Proof. intros H1 H2 d r. cbn. by rewrite (proj2 (N.eqb_neq _ _) H1), (proj2 (N.eqb_neq _ _) H2). Qed.
Definition string_byte (b : N) : bool := negb (b =? 34)%N && negb (b =? 92)%N.
Lemma in_string_bytes l : forallb string_byte l = true -> in_string l.
Proof.
  induction l as [|b l IH]; intros H; [by intros d r|]. cbn in H. apply andb_true_iff in H as [Hb Hl].
  apply (in_string_app [b]); [|by apply IH]. unfold string_byte in Hb. rewrite andb_true_iff, !negb_true_iff, !N.eqb_neq in Hb.
  by apply in_string_byte; apply Hb.
Qed.
Lemma in_string_escape b l : in_string l -> in_string (92%N :: b :: l).
Proof. intros H d r. cbn. apply H. Qed.

(** Bytes that mean nothing outside of strings. *)
Definition plain (b : N) : bool := negb (existsb (N.eqb b) [34; 123; 91; 125; 93]%N).
Lemma inside_plain l : forallb plain l = true -> inside l.
Proof.
  induction l as [|b l IH]; intros H; [by intros d r|]. cbn in H. apply andb_true_iff in H as [Hb Hl].
  intros d r. cbn. unfold plain in Hb. cbn in Hb. rewrite !negb_true_iff, !orb_false_iff in Hb.
  destruct Hb as (-> & -> & -> & -> & -> & _). cbn. by apply IH.
Qed.
Lemma inside_brackets o c x : (o = 123 /\ c = 125 \/ o = 91 /\ c = 93)%N -> inside x -> inside ([o] ++ x ++ [c]).
Proof. intros H Hx d r. rewrite <-!app_assoc. destruct H as [[-> ->]|[-> ->]]; cbn; by rewrite Hx. Qed.
Lemma inside_join l : Forall inside l -> inside (json_join l).
Proof.
  intros H. induction H as [|x l Hx Hl IH]; [by intros d r|]. destruct l; [done|].
  apply inside_app; [done|]. by apply (inside_app [44%N]); [apply inside_plain|].
Qed.

(** The value of an object is delimited by its brackets, a string by its
    quotes. *)
Lemma scan_brackets o c x r : (o = 123 /\ c = 125 \/ o = 91 /\ c = 93)%N -> inside x ->
  scan Outside 0 (([o] ++ x ++ [c]) ++ r) = Some r.
Proof. intros H Hx. rewrite <-!app_assoc. destruct H as [[-> ->]|[-> ->]]; cbn; by rewrite Hx. Qed.

(** ** Strings *)
Lemma decode_rune_raw b l r n : decode_rune (b :: l) = (r, n, true) ->
  take n (b :: l) = [r] /\ (r < 128)%N \/ forall x, x ∈ take n (b :: l) -> (128 <= x)%N.
Proof.
  unfold decode_rune, cont, in_range. intros H.
  repeat (case_match; try discriminate H); simplify_eq; cbn [take]; rewrite ?N.ltb_lt in *;
    try (left; split; [done|lia]); right; intros x Hx; rewrite ?andb_true_iff, ?N.leb_le in *;
    repeat (apply elem_of_cons in Hx as [->|Hx]); try (by apply elem_of_nil in Hx); lia.
Qed.

Lemma hex_digit_byte n : string_byte (hex_digit n) = true.
Proof.
  unfold string_byte, hex_digit. rewrite andb_true_iff, !negb_true_iff, !N.eqb_neq.
  case_match; rewrite ?N.ltb_lt, ?N.ltb_ge in *; lia.
Qed.

Lemma json_rune_string l fuel : Forall (fun x => in_string (json_rune x)) (runes_fuel fuel l).
Proof.
  revert l. induction fuel as [|fuel IH]; intros l; [constructor|]. destruct l as [|b l]; [constructor|]. cbn [runes_fuel].
  destruct (decode_rune (b :: l)) as [[r n] ok] eqn:E. constructor; [|by apply IH]. unfold json_rune.
  destruct ok; cbn [negb]; [|by apply in_string_escape, in_string_bytes].
  destruct ((r =? 34)%N || (r =? 92)%N) eqn:E1; [by apply (in_string_escape r []); intros d z|].
  do 5 (case_match; [by apply (in_string_escape _ []); intros d z|]).
  case_match; [apply in_string_escape, in_string_bytes; cbn [forallb]; by rewrite !hex_digit_byte|].
  case_match; [apply in_string_escape, in_string_bytes; cbn [forallb]; by rewrite !hex_digit_byte|].
  apply in_string_bytes, forallb_forall. intros c Hc%list_elem_of_In. unfold string_byte.
  rewrite andb_true_iff, !negb_true_iff, !N.eqb_neq. apply decode_rune_raw in E as [[Hraw _]|Hge].
  - rewrite Hraw in Hc. apply list_elem_of_singleton in Hc as ->. by apply orb_false_iff in E1 as [Hq%N.eqb_neq Hb%N.eqb_neq].
  - specialize (Hge _ Hc). lia.
Qed.

Lemma json_content_string s : in_string (mjoin (json_rune <$> runes s)).
Proof.
  unfold runes. pose proof (json_rune_string (bytes_of s) (String.length s)) as H. induction H as [|x l Hx _ IH]; [by intros d r|].
  cbn. by apply in_string_app.
Qed.
Lemma inside_string s : inside (json_string s).
Proof. intros d r. unfold json_string. rewrite <-!app_assoc. cbn. rewrite json_content_string. done. Qed.
Lemma scan_string s r : scan Outside 0 (json_string s ++ r) = Some r.
Proof. unfold json_string. rewrite <-!app_assoc. cbn. by rewrite json_content_string. Qed.
Lemma json_string_prefix s1 s2 r1 r2 : json_string s1 ++ r1 = json_string s2 ++ r2 -> json_string s1 = json_string s2 /\ r1 = r2.
Proof.
  intros H. assert (r1 = r2) as <-; [|by apply app_inv_tail in H].
  apply (inj Some). by rewrite <-(scan_string s1 r1), <-(scan_string s2 r2), H.
Qed.

(** Identifiers are written as they are. *)
Lemma string_of_bytes_of s : string_of_bytes (bytes_of s) = s.
Proof.
  unfold string_of_bytes, bytes_of. rewrite <-list_fmap_compose. rewrite <-(String.string_of_list_ascii_of_string s) at 2. f_equal.
  rewrite <-(list_fmap_id (String.list_ascii_of_string s)) at 2. apply list_fmap_ext. intros _ x _. apply Ascii.ascii_N_embedding.
Qed.

Definition text_byte (b : N) : bool := in_range 35 126 b && negb (existsb (N.eqb b) [92; 60; 62; 38]%N).
Lemma json_string_text s : forallb text_byte (bytes_of s) = true -> json_string s = [34%N] ++ bytes_of s ++ [34%N].
Proof.
  intros H. unfold json_string. do 2 f_equal. unfold runes.
  assert (Hlen : String.length s = length (bytes_of s)).
  { unfold bytes_of. rewrite length_fmap. clear. induction s; cbn; congruence. }
  rewrite Hlen. clear Hlen. induction (bytes_of s) as [|b l IH]; [done|]. cbn in H. apply andb_true_iff in H as [Hb Hl].
  unfold text_byte, in_range in Hb. cbn [existsb] in Hb.
  rewrite !andb_true_iff, !N.leb_le, negb_true_iff, !orb_false_iff, !N.eqb_neq in Hb. destruct Hb as ([? ?] & ? & ? & ? & ? & _).
  cbn [length runes_fuel]. unfold decode_rune at 1. rewrite (proj2 (N.ltb_lt b 128)) by lia. rewrite fmap_cons. cbn [mjoin list_join take drop].
  change (json_rune (b, [b], true) ++ mjoin (json_rune <$> runes_fuel (length l) l) = b :: l). rewrite IH by done. change (json_rune (b, [b], true) ++ l = b :: l). unfold json_rune. cbn [negb].
  by rewrite !(proj2 (N.eqb_neq _ _)), (proj2 (N.ltb_ge b 32)) by lia.
Qed.

Lemma identifier_text b : identifier_byte b = true -> text_byte b = true.
Proof.
  unfold identifier_byte, text_byte, in_range. cbn [existsb]. rewrite !orb_true_iff, !andb_true_iff, !N.leb_le, !N.eqb_eq, negb_true_iff, !orb_false_iff, !N.eqb_neq.
  lia.
Qed.
Lemma json_string_identifier_inj s1 s2 : match_identifier s1 = true -> match_identifier s2 = true ->
  json_string s1 = json_string s2 -> s1 = s2.
Proof.
  assert (Ht : forall s, match_identifier s = true -> forallb text_byte (bytes_of s) = true).
  { intros s [_ H]%andb_true_iff. rewrite forallb_forall in *. intros b Hb. by apply identifier_text, H. }
  intros H1%Ht H2%Ht H. rewrite !json_string_text in H by done. apply (inj (app _)) in H. apply app_inv_tail in H.
  by rewrite <-(string_of_bytes_of s1), H, string_of_bytes_of.
Qed.

(** ** Numbers *)
Definition number_byte (b : N) : bool := is_digit b || existsb (N.eqb b) [43; 45; 46; 69; 101]%N.
Lemma number_plain b : number_byte b = true -> plain b = true.
Proof.
  unfold number_byte, is_digit, plain, in_range. cbn [existsb].
  rewrite !orb_true_iff, andb_true_iff, !N.leb_le, !N.eqb_eq, negb_true_iff, !orb_false_iff, !N.eqb_neq. lia.
Qed.
Lemma drop_digits_bytes l : forallb number_byte (drop_digits l) = true -> forallb number_byte l = true.
Proof.
  induction l as [|b l IH]; [done|]. cbn. destruct (is_digit b) eqn:E; [|done]. intros H. unfold number_byte at 1. rewrite E. by apply IH.
Qed.
Lemma valid_number_bytes s : valid_number s = true -> forallb number_byte (bytes_of s) = true.
Proof.
  unfold valid_number. set (l := match bytes_of s with [] => _ | _ => _ end).
  assert (Hl : forallb number_byte l = true -> forallb number_byte (bytes_of s) = true).
  { unfold l. destruct (bytes_of s) as [|b r]; [done|]. destruct (b =? 45)%N eqn:E; [|done]. apply N.eqb_eq in E as ->. done. }
  destruct (drop_integer l) as [l1|] eqn:E1; [|done]. destruct (drop_exponent (drop_fraction l1)) as [[|]|] eqn:E2; try done. intros _. apply Hl.
  assert (H1 : forallb number_byte (drop_fraction l1) = true).
  { destruct (drop_fraction l1) as [|b [|c r]]; [done|done|]. cbn in E2.
    destruct ((b =? 101)%N || (b =? 69)%N) eqn:Eb; [|done].
    assert (number_byte b = true) as Hb by (apply orb_true_iff in Eb as [->%N.eqb_eq | ->%N.eqb_eq]; done).
    destruct ((c =? 43)%N || (c =? 45)%N) eqn:Ec.
    - assert (number_byte c = true) as Hcb by (apply orb_true_iff in Ec as [->%N.eqb_eq | ->%N.eqb_eq]; done).
      destruct r as [|x r]; [done|]. injection E2 as E2. cbn [forallb]. rewrite Hb, Hcb. cbn [andb]. apply (drop_digits_bytes (x :: r)). cbn. by rewrite E2.
    - injection E2 as E2. cbn [forallb]. rewrite Hb. cbn [andb]. apply (drop_digits_bytes (c :: r)). cbn. by rewrite E2. }
  assert (H2 : forallb number_byte l1 = true).
  { destruct l1 as [|b [|c r]]; [done|done|]. cbn [drop_fraction] in H1. destruct ((b =? 46)%N && is_digit c) eqn:E; [|done].
    apply andb_true_iff in E as [->%N.eqb_eq Hd]. cbn [forallb]. rewrite drop_digits_bytes by done. unfold number_byte. by rewrite Hd. }
  destruct l as [|b r]; [done|]. cbn in E1. destruct (b =? 48)%N eqn:E; [apply N.eqb_eq in E as ->; by injection E1 as ->|].
  destruct (in_range 49 57 b) eqn:Er; [|done]. injection E1 as <-. cbn [forallb]. rewrite drop_digits_bytes by done.
  assert (is_digit b = true) as Hd; [|by unfold number_byte; rewrite Hd].
  unfold is_digit, in_range in *. rewrite andb_true_iff, !N.leb_le in *. lia.
Qed.

Lemma pretty_digits x s : forallb number_byte (bytes_of s) = true -> forallb number_byte (bytes_of (pretty_N_go x s)) = true.
Proof.
  revert s. induction (N.lt_wf_0 x) as [x _ IH]; intros s Hs. destruct (decide (x = 0%N)) as [->|Hx]; [by rewrite pretty_N_go_0|].
  rewrite pretty_N_go_step by lia. apply IH; [apply N.div_lt; lia|].
  change (forallb number_byte (Ascii.N_of_ascii (pretty_N_char (x mod 10)) :: bytes_of s) = true). cbn [forallb]. rewrite Hs, andb_true_r.
  unfold pretty_N_char. by repeat case_match.
Qed.
Lemma json_int_bytes z : forallb number_byte (json_int z) = true.
Proof.
  assert (Hn : forall n : N, forallb number_byte (bytes_of (pretty n)) = true).
  { intros n. unfold pretty, pretty_N. case_decide; [done|]. by apply pretty_digits. }
  unfold json_int, pretty, pretty_Z. destruct z as [|p|p]; [done|apply Hn|].
  change (forallb number_byte (45%N :: bytes_of (pretty (N.pos p))) = true). cbn [forallb]. by rewrite Hn.
Qed.
Lemma inside_number l : forallb number_byte l = true -> inside l.
Proof. intros H. apply inside_plain, forallb_forall. intros b Hb. rewrite forallb_forall in H. by apply number_plain, H. Qed.
Lemma json_int_prefix z1 z2 r1 r2 : json_int z1 ++ 44%N :: r1 = json_int z2 ++ 44%N :: r2 -> r1 = r2.
Proof.
  assert (H : forall l1 l2, forallb number_byte l1 = true -> forallb number_byte l2 = true -> l1 ++ 44%N :: r1 = l2 ++ 44%N :: r2 -> r1 = r2).
  { induction l1 as [|b l1 IH]; intros [|c l2] H1 H2 E; cbn in *; [by injection E| | |].
    - injection E as <- _. done.
    - injection E as -> _. done.
    - injection E as _ E. apply andb_true_iff in H1 as [_ H1], H2 as [_ H2]. by eapply IH. }
  apply H; apply json_int_bytes.
Qed.

(** ** Values *)
Definition encode_entry (e : string * any) : option (list N) := b ← json_encode e.2; Some (json_string e.1 ++ [58%N] ++ b).
Lemma json_encode_map l : json_encode (AnyMap l) = (bs ← mapM encode_entry l; Some ([123%N] ++ json_join bs ++ [125%N])).
Proof.
  cbn. match goal with |- mbind _ (?f l) = _ => assert (E : f l = mapM encode_entry l) end; [|by rewrite E].
  induction l as [|[k v] l IH]; [done|]. cbn. unfold encode_entry at 1. cbn. destruct (json_encode v); [|done]. cbn. by rewrite IH.
Qed.
Lemma json_encode_slice l : json_encode (AnySlice l) = (bs ← mapM json_encode l; Some ([91%N] ++ json_join bs ++ [93%N])).
Proof.
  cbn. match goal with |- mbind _ (?f l) = _ => assert (E : f l = mapM json_encode l) end; [|by rewrite E].
  induction l as [|v l IH]; [done|]. cbn. destruct (json_encode v); [|done]. cbn. by rewrite IH.
Qed.

Lemma inside_all {A} (f : A -> option (list N)) l bs :
  Forall (fun v => forall b, f v = Some b -> inside b) l -> mapM f l = Some bs -> inside (json_join bs).
Proof.
  intros Hl Hbs%mapM_Some. apply inside_join. induction Hbs as [|v b l bs Hv _ IH]; [constructor|].
  apply Forall_cons in Hl as [H Hl]. constructor; [by apply H|by apply IH].
Qed.
Lemma inside_slice l b : Forall (fun v => forall b, json_encode v = Some b -> inside b) l -> json_encode (AnySlice l) = Some b -> inside b.
Proof.
  intros Hl H. rewrite json_encode_slice in H. apply bind_Some in H as (bs & Hbs & [= <-]).
  apply inside_brackets; [by right|by eapply inside_all].
Qed.
Lemma inside_map l b : Forall (fun e : string * any => forall b, json_encode e.2 = Some b -> inside b) l ->
  json_encode (AnyMap l) = Some b -> inside b.
Proof.
  intros Hl H. rewrite json_encode_map in H. apply bind_Some in H as (bs & Hbs & [= <-]).
  apply inside_brackets; [by left|]. eapply inside_all; [|exact Hbs]. eapply Forall_impl; [exact Hl|].
  intros [k v] Hv b Hb. unfold encode_entry in Hb. apply bind_Some in Hb as (b0 & Hb0 & E). apply (inj Some) in E as <-.
  apply inside_app; [apply inside_string|]. apply (inside_app [58%N]); [by apply inside_plain|by apply Hv].
Qed.

Lemma inside_value : forall v b, json_encode v = Some b -> inside b.
Proof.
  fix IH 1. intros v b H.
  assert (Hslice : forall l, Forall (fun v => forall b, json_encode v = Some b -> inside b) l -> json_encode (AnySlice l) = Some b -> inside b).
  { intros l. apply inside_slice. }
  destruct v as [|[]|[lit|]|s|l|l|l| | | | |]; try discriminate H.
  - injection H as <-. by apply inside_plain.
  - injection H as <-. by apply inside_plain.
  - injection H as <-. by apply inside_plain.
  - cbn in H. destruct (valid_number lit) eqn:E; [|done]. injection H as <-. by apply inside_number, valid_number_bytes.
  - injection H as <-. apply inside_string.
  - eapply inside_map; [|exact H]. clear -IH. induction l as [|[k v] l IHl]; constructor; [apply IH|apply IHl].
  - apply (Hslice l); [|exact H]. clear -IH. induction l as [|v l IHl]; constructor; [apply IH|apply IHl].
  - apply (Hslice l); [|exact H]. clear -IH. induction l as [|v l IHl]; constructor; [apply IH|apply IHl].
Qed.

(** ** Definitions *)
Lemma inside_member name v : inside v -> inside (json_member name v).
Proof. intros Hv. apply inside_app; [apply inside_string|]. by apply (inside_app [58%N]); [apply inside_plain|]. Qed.
Lemma inside_object ms : Forall inside ms -> inside (json_object ms).
Proof. intros H. apply inside_brackets; [by left|by apply inside_join]. Qed.
Lemma inside_array ms : Forall inside ms -> inside (json_array ms).
Proof. intros H. apply inside_brackets; [by right|by apply inside_join]. Qed.
Lemma inside_unless e m : inside m -> Forall inside (unless e m).
Proof. intros H. destruct e; repeat constructor; done. Qed.
Lemma inside_int z : inside (json_int z).
Proof. apply inside_number, json_int_bytes. Qed.
Lemma inside_retry r : inside (json_retry r).
Proof. apply inside_object, Forall_app. split; apply inside_unless, inside_member, inside_int. Qed.
Lemma inside_input input ms : json_input input = Some ms -> Forall inside ms.
Proof.
  destruct input as [[|e l]|]; cbn [json_input]; intros H; [by injection H as <-| |by injection H as <-].
  apply bind_Some in H as (b & Hb & E). apply (inj Some) in E as <-. repeat constructor. by eapply inside_member, inside_value.
Qed.

(** ** Values delimit themselves *)
Definition delimited (x : list N) : Prop := forall r, scan Outside 0 (x ++ r) = Some r.
Lemma delimited_string s : delimited (json_string s).
Proof. intros r. apply scan_string. Qed.
Lemma delimited_object ms : Forall inside ms -> delimited (json_object ms).
Proof. intros H r. apply scan_brackets; [by left|by apply inside_join]. Qed.
Lemma delimited_array ms : Forall inside ms -> delimited (json_array ms).
Proof. intros H r. apply scan_brackets; [by right|by apply inside_join]. Qed.
Lemma delimited_map l b : json_encode (AnyMap l) = Some b -> delimited b.
Proof.
  rewrite json_encode_map. intros (bs & Hbs & E)%bind_Some. apply (inj Some) in E as <-.
  intros r. apply scan_brackets; [by left|]. eapply inside_all; [|exact Hbs]. apply Forall_forall. intros [k v] _ b Hb.
  unfold encode_entry in Hb. apply bind_Some in Hb as (b0 & Hb0 & E). apply (inj Some) in E as <-.
  apply inside_app; [apply inside_string|]. apply (inside_app [58%N]); [by apply inside_plain|by eapply inside_value].
Qed.

Lemma delimited_prefix x y r1 r2 : delimited x -> delimited y -> x ++ r1 = y ++ r2 -> x = y /\ r1 = r2.
Proof.
  intros Hx Hy H. assert (r1 = r2) as <-; [|by apply app_inv_tail in H].
  apply (inj Some). by rewrite <-(Hx r1), <-(Hy r2), H.
Qed.
Lemma delimited_head x r1 r2 : delimited x -> 93%N :: r1 ≠ x ++ r2.
Proof. intros Hx E. pose proof (Hx r2) as H. rewrite <-E in H. discriminate H. Qed.

Lemma json_join_cons x l : l ≠ [] -> json_join (x :: l) = x ++ [44%N] ++ json_join l.
Proof. by destruct l. Qed.

(** An array is the list of its elements. *)
Lemma join_prefix l1 : forall l2 r1 r2, Forall delimited l1 -> Forall delimited l2 ->
  json_join l1 ++ 93%N :: r1 = json_join l2 ++ 93%N :: r2 -> l1 = l2 /\ r1 = r2.
Proof.
  assert (Hnil : forall x l r1 r2, delimited x -> 93%N :: r1 ≠ json_join (x :: l) ++ r2).
  { intros x l r1 r2 Hx. destruct l as [|y l]; [by apply delimited_head|].
    rewrite json_join_cons, <-app_assoc by done. by apply delimited_head. }
  induction l1 as [|x l1 IH]; intros l2 r1 r2 H1 H2 E.
  - destruct l2 as [|y l2]; [by injection E|]. apply Forall_cons in H2 as [Hy _]. by destruct (Hnil y l2 r1 _ Hy E).
  - apply Forall_cons in H1 as [Hx H1]. destruct l2 as [|y l2]; [by symmetry in E; destruct (Hnil x l1 r2 _ Hx E)|].
    apply Forall_cons in H2 as [Hy H2].
    assert (Hrest : forall l r, exists t, json_join (x :: l) ++ 93%N :: r = x ++ t /\ json_join (y :: l) ++ 93%N :: r = y ++ t /\
      t = match l with [] => 93%N :: r | _ => 44%N :: json_join l ++ 93%N :: r end).
    { intros [|z l] r; [by exists (93%N :: r)|]. exists (44%N :: json_join (z :: l) ++ 93%N :: r).
      by rewrite (json_join_cons x), (json_join_cons y), <-!app_assoc by done. }
    destruct (Hrest l1 r1) as (t1 & E1 & _ & Ht1), (Hrest l2 r2) as (t2 & _ & E2 & Ht2). rewrite E1, E2 in E.
    apply delimited_prefix in E as [-> E]; [|done|done]. rewrite Ht1, Ht2 in E. clear Hrest E1 E2 Ht1 Ht2.
    destruct l1 as [|x' l1], l2 as [|y' l2]; try discriminate E; [by injection E|].
    injection E as E. destruct (IH _ _ _ H1 H2 E) as [-> ->]. done.
Qed.
Lemma array_elements l1 l2 r1 r2 : Forall delimited l1 -> Forall delimited l2 -> json_array l1 ++ r1 = json_array l2 ++ r2 -> l1 = l2 /\ r1 = r2.
Proof.
  intros H1 H2 H. unfold json_array in H. rewrite <-!app_assoc in H. apply (inj (app _)) in H. by apply join_prefix in H.
Qed.

(** ** Equal bytes, equal shapes *)

(** What compiling makes of a definition, as far as its JSON is concerned. *)
Record canonical_task (t : TaskDefinition) : Prop := {
  cj_key : match_identifier (def_Key t) = true;
  cj_executor : executor_string (def_Executor t) ≠ "";
  cj_depends : Forall (fun k => match_identifier k = true) (DependsOn t);
}.

Lemma identifiers_inj l1 l2 : Forall (fun k => match_identifier k = true) l1 -> Forall (fun k => match_identifier k = true) l2 ->
  json_string <$> l1 = json_string <$> l2 -> l1 = l2.
Proof.
  intros H1. revert l2. induction H1 as [|x l1 Hx _ IH]; intros [|y l2] H2 E; try done.
  apply Forall_cons in H2 as [Hy H2]. rewrite !fmap_cons in E.
  pose proof (f_equal head E) as E1. apply (inj Some) in E1. pose proof (f_equal tail E) as E2.
  f_equal; [by apply json_string_identifier_inj|by apply IH].
Qed.

(** The members of a task after its action. *)
Definition json_tail (input : list (list N)) (depends : list TaskKey) (t : TaskDefinition) : list (list N) :=
  input ++ unless (bool_decide (depends = [])) (json_member "depends_on" (json_array (json_string <$> depends)))
    ++ [json_member "retry" (json_retry (Retry t)); json_member "timeout_ms" (json_int (TimeoutMillis t))].

Lemma member_split name v1 v2 r1 r2 : json_member name v1 ++ r1 = json_member name v2 ++ r2 -> v1 ++ r1 = v2 ++ r2.
Proof. intros H. unfold json_member in H. rewrite <-!app_assoc in H. apply (inj (app _)) in H. by apply (inj (app [58%N])) in H. Qed.
Lemma member_prefix name v1 v2 r1 r2 : delimited v1 -> delimited v2 ->
  json_member name v1 ++ r1 = json_member name v2 ++ r2 -> v1 = v2 /\ r1 = r2.
Proof.
  intros H1 H2 H%member_split. by apply delimited_prefix.
Qed.

(** The head of a list of members tells its name. *)
Lemma join_head x l r : l ≠ [] -> json_join (x :: l) ++ r = x ++ 44%N :: json_join l ++ r.
Proof. intros H. by rewrite json_join_cons, <-app_assoc by done. Qed.

Lemma delimited_strings l : Forall delimited (json_string <$> l).
Proof. apply Forall_fmap, Forall_forall. intros k _. apply delimited_string. Qed.

Lemma json_tail_none t : json_tail [] [] t = [json_member "retry" (json_retry (Retry t)); json_member "timeout_ms" (json_int (TimeoutMillis t))].
Proof. done. Qed.
Lemma json_tail_some k d t : json_tail [] (k :: d) t =
  json_member "depends_on" (json_array (json_string <$> k :: d)) :: json_tail [] [] t.
Proof. unfold json_tail. rewrite bool_decide_eq_false_2 by done. done. Qed.

Lemma json_tail_depends i1 i2 d1 d2 t1 t2 m1 m2 r1 r2 :
  json_input i1 = Some m1 -> json_input i2 = Some m2 ->
  Forall (fun k => match_identifier k = true) d1 -> Forall (fun k => match_identifier k = true) d2 ->
  json_join (json_tail m1 d1 t1) ++ r1 = json_join (json_tail m2 d2 t2) ++ r2 -> d1 = d2.
Proof.
  intros Hi1 Hi2 Hd1 Hd2 E.
  assert (Hdep : json_join (json_tail [] d1 t1) ++ r1 = json_join (json_tail [] d2 t2) ++ r2 -> d1 = d2).
  { clear E. intros E. destruct d1 as [|k1 d1], d2 as [|k2 d2]; [done| | |]; rewrite ?json_tail_some, ?json_tail_none in E.
    - rewrite (join_head (json_member "retry" _)), (join_head (json_member "depends_on" _)) in E by done. discriminate E.
    - rewrite (join_head (json_member "retry" _)), (join_head (json_member "depends_on" _)) in E by done. discriminate E.
    - rewrite !(join_head (json_member "depends_on" _)) in E by done. apply member_prefix in E as [E _].
      + apply (f_equal (fun l => l ++ [])) in E. apply array_elements in E as [E _]; [by apply identifiers_inj|apply delimited_strings..].
      + apply delimited_array, Forall_fmap, Forall_forall. intros k _. apply inside_string.
      + apply delimited_array, Forall_fmap, Forall_forall. intros k _. apply inside_string. }
  assert (Hm : forall i m, json_input i = Some m -> m = [] \/ exists l b, json_encode (AnyMap l) = Some b /\ m = [json_member "input" b]).
  { intros [[|e l]|] m H; cbn [json_input] in H; [left; by injection H| |left; by injection H].
    right. apply bind_Some in H as (b & Hb & Em). apply (inj Some) in Em as <-. by exists (e :: l), b. }
  assert (Hne : forall d t, json_tail [] d t ≠ []) by (intros d t H; unfold json_tail in H; by destruct (unless _ _)).
  assert (Hin : forall b d t r, json_join (json_tail [json_member "input" b] d t) ++ r = json_member "input" b ++ 44%N :: json_join (json_tail [] d t) ++ r).
  { intros b d t r. exact (join_head (json_member "input" b) (json_tail [] d t) r (Hne d t)). }
  assert (Hother : forall b d t r r', json_member "input" b ++ r' ≠ json_join (json_tail [] d t) ++ r).
  { intros b d t r r'. destruct d; rewrite ?json_tail_some, ?json_tail_none, join_head by done; discriminate. }
  destruct (Hm _ _ Hi1) as [->|(l1 & b1 & Hb1 & ->)], (Hm _ _ Hi2) as [->|(l2 & b2 & Hb2 & ->)].
  - by apply Hdep.
  - rewrite Hin in E. symmetry in E. by apply Hother in E.
  - rewrite Hin in E. by apply Hother in E.
  - rewrite !Hin in E. apply member_prefix in E as [_ E]; [|by eapply delimited_map..]. injection E as E. by apply Hdep.
Qed.

Lemma json_tail_ne m d t : json_tail m d t ≠ [].
Proof. unfold json_tail. destruct m; [|done]. by destruct (unless _ _). Qed.
Lemma json_task_members t b : canonical_task t -> json_task t = Some b ->
  exists m, json_input (def_Input t) = Some m /\
    b = [123%N] ++ json_member "key" (json_string (def_Key t)) ++ [44%N] ++
        json_member "executor" (json_string (executor_string (def_Executor t))) ++ [44%N] ++
        json_member "action" (json_string (def_Action t)) ++ [44%N] ++ json_join (json_tail m (DependsOn t) t) ++ [125%N].
Proof.
  intros Ht H. unfold json_task in H. apply bind_Some in H as (m & Hm & E). apply (inj Some) in E as <-. exists m. split; [done|].
  unfold is_empty. rewrite bool_decide_eq_false_2 by apply Ht. unfold json_object. cbn [unless app].
  change (?a ++ unless _ _ ++ _) with (json_tail m (DependsOn t) t). pose proof (json_tail_ne m (DependsOn t) t).
  by rewrite !json_join_cons, <-!app_assoc by done.
Qed.

Lemma json_task_shape t1 t2 b : canonical_task t1 -> canonical_task t2 -> json_task t1 = Some b -> json_task t2 = Some b -> shape t1 = shape t2.
Proof.
  intros H1 H2 (m1 & Hm1 & E1)%json_task_members (m2 & Hm2 & E2)%json_task_members; [|done|done]. rewrite E1 in E2. clear E1.
  apply (inj (app [123%N])) in E2. apply member_prefix in E2 as [Hkey E2]; [|apply delimited_string..].
  apply (inj (app [44%N])) in E2. apply member_prefix in E2 as [_ E2]; [|apply delimited_string..].
  apply (inj (app [44%N])) in E2. apply member_prefix in E2 as [_ E2]; [|apply delimited_string..].
  apply (inj (app [44%N])) in E2. unfold shape. f_equal.
  - by apply json_string_identifier_inj; [apply cj_key..|].
  - by eapply json_tail_depends; [exact Hm1|exact Hm2|apply cj_depends..|exact E2].
Qed.

Lemma delimited_task t b : json_task t = Some b -> delimited b.
Proof.
  intros H. unfold json_task in H. apply bind_Some in H as (m & Hm & E). apply (inj Some) in E as <-. apply delimited_object.
  repeat (apply Forall_app; split); try apply inside_unless; repeat constructor; try apply inside_member; try apply inside_string;
    try apply inside_int; try apply inside_retry; [by eapply inside_input|].
  apply inside_array, Forall_fmap, Forall_forall. intros k _. apply inside_string.
Qed.

(** The JSON of a definition identifies the definition, its tasks, their order
    and their dependencies. *)
Theorem json_definition_shape d1 d2 b :
  match_identifier (wf_ID d1) = true -> match_identifier (wf_ID d2) = true ->
  Forall canonical_task (def_Tasks d1) -> Forall canonical_task (def_Tasks d2) ->
  json_definition d1 = Some b -> json_definition d2 = Some b ->
  wf_ID d1 = wf_ID d2 /\ shape <$> def_Tasks d1 = shape <$> def_Tasks d2.
Proof.
  intros Hid1 Hid2 Ht1 Ht2 (m1 & Hm1 & E1)%bind_Some (m2 & Hm2 & E2)%bind_Some. apply (inj Some) in E1, E2. rewrite <-E2 in E1. clear E2.
  unfold json_object in E1. rewrite !json_join_cons in E1 by done. cbn [json_join] in E1. rewrite <-!app_assoc in E1.
  apply (inj (app [123%N])) in E1. apply member_prefix in E1 as [Hid E1]; [|apply delimited_string..].
  apply (inj (app [44%N])) in E1. split; [by apply json_string_identifier_inj|].
  apply member_split, json_int_prefix, member_split in E1.
  apply mapM_Some in Hm1, Hm2.
  assert (Hdel : forall l m, Forall2 (fun t b => json_task t = Some b) l m -> Forall delimited m).
  { intros l m H. induction H as [|t x l m Hx _ IH]; constructor; [by eapply delimited_task|done]. }
  apply array_elements in E1 as [<- _]; [|by eapply Hdel..]. clear -Hm1 Hm2 Ht1 Ht2. revert Hm2 Ht1 Ht2. generalize (def_Tasks d2).
  induction Hm1 as [|t x l m Hx _ IH]; intros l2 Hm2 Ht1 Ht2; [by apply Forall2_nil_inv_r in Hm2 as ->|].
  apply Forall2_cons_inv_r in Hm2 as (t2 & l2' & Hx2 & Hm2 & ->). apply Forall_cons in Ht1 as [? ?], Ht2 as [? ?]. rewrite !fmap_cons.
  f_equal; [by eapply json_task_shape|by apply IH].
Qed.
