(* ===== verification/FileStore.v ===== *)
(** * The file store

    src/workflow/filestore/store.go on a model of the directory it owns.
    Every system call can fail, and the machine can lose power before any of
    them; what was not synced is then garbage.  A mutex serialises the calls
    of one process, so each operation runs alone. *)
From S2P Require Import Prelude Hoare GoStrings Json Model State Graph Compiler Scheduling Distributed Effects RunInvariant RunOperations RunResults RunProperties RunTheorems ChangeSet Stores SnapshotJson.
From stdpp Require Import sorting.

(** ** The directory *)
Inductive entry : Type :=
| File (d : document) (synced : bool)
| Directory.

Inductive fault : Type :=
| NoFault
| IoError (message : string)
| PowerLoss.

(** [entries] is the store's directory; [faults] says what happens to the next
    system calls (none fails once the list is used up). *)
Record filesystem := mkFS { entries : gmap string entry; faults : list fault }.

Definition power_loss (dir : gmap string entry) : gmap string entry :=
  (fun e => match e with File _ false => File Garbage false | e => e end) <$> dir.

(** A system call: what it does to the directory, its result, and what it
    leaves behind when it fails. *)
Definition syscall {A} (run : gmap string entry -> gmap string entry * outcome A)
    (failed : gmap string entry -> gmap string entry) : go filesystem A := fun fs =>
  match faults fs with
  | [] => let '(dir, r) := run (entries fs) in (mkFS dir [], r)
  | NoFault :: rest => let '(dir, r) := run (entries fs) in (mkFS dir rest, r)
  | IoError message :: rest => (mkFS (failed (entries fs)) rest, Err (Errorf message))
  | PowerLoss :: rest => (mkFS (power_loss (entries fs)) rest, Panic)
  end.

Definition ErrNotExist : error := Sentinel "os.ErrNotExist".

Definition os_Stat (name : string) : go filesystem unit :=
  syscall (fun dir => (dir, if decide (is_Some (dir !! name)) then Ok tt else Err ErrNotExist)) id.
Definition os_ReadFile (name : string) : go filesystem document :=
  syscall (fun dir => (dir, match dir !! name with
                            | Some (File d _) => Ok d
                            | Some Directory => Err (Errorf "is a directory")
                            | None => Err ErrNotExist
                            end)) id.
Definition by_name (a b : string * entry) : Prop := Is_true (String.leb a.1 b.1).
#[export] Instance by_name_dec : RelDecision by_name.
Proof. intros a b. unfold by_name. apply _. Defined.
Definition os_ReadDir : go filesystem (list (string * entry)) :=
  syscall (fun dir => (dir, Ok (merge_sort by_name (map_to_list dir)))) id.

(** [os.CreateTemp(dir, ".snapshot-*.tmp")]: a name that is not taken. *)
Definition temp_name (n : nat) : string := (".snapshot-" ++ pretty n ++ ".tmp")%string.
Definition free_temp_name (dir : gmap string entry) : option string :=
  list_find (fun name => dir !! name = None) (temp_name <$> seq 0 (S (size dir))) ≫= fun x => Some x.2.
Definition os_CreateTemp : go filesystem string :=
  syscall (fun dir => match free_temp_name dir with
                      | Some name => (<[name := File Garbage false]> dir, Ok name)
                      | None => (dir, Err (Errorf "file exists"))
                      end) id.
Definition file_Write (name : string) (d : document) : go filesystem unit :=
  syscall (fun dir => (<[name := File d false]> dir, Ok tt)) <[name := File Garbage false]>.
Definition file_Sync (name : string) : go filesystem unit :=
  syscall (fun dir => (alter (fun e => match e with File d _ => File d true | e => e end) name dir, Ok tt)) id.
Definition file_Close : go filesystem unit := syscall (fun dir => (dir, Ok tt)) id.
Definition os_Rename (from to : string) : go filesystem unit :=
  syscall (fun dir => match dir !! from with
                      | Some e => (<[to := e]> (delete from dir), Ok tt)
                      | None => (dir, Err ErrNotExist)
                      end) id.
Definition os_Remove (name : string) : go filesystem unit :=
  syscall (fun dir => (delete name dir, if decide (is_Some (dir !! name)) then Ok tt else Err ErrNotExist)) id.
Definition os_Open_directory : go filesystem unit := syscall (fun dir => (dir, Ok tt)) id.
Definition directory_Sync : go filesystem unit := syscall (fun dir => (dir, Ok tt)) id.

(** [if err != nil { return fmt.Errorf(format, err) }] *)
Definition wrap {S A} (format : string) (m : go S A) : go S A := fun s =>
  match m s with (s', Err e) => (s', Err (Wrapf format e)) | r => r end.
(** [_ = f()] *)
Definition ignore_error {S} (m : go S unit) : go S unit := fun s =>
  match m s with (s', Err _) => (s', Ok tt) | r => r end.
(** [if err := m(); err != nil { cleanup(); return err }] *)
Definition on_error {S A} (cleanup : go S unit) (m : go S A) : go S A := fun s =>
  match m s with (s', Err e) => (_ ← cleanup; throw e) s' | r => r end.
(** [defer cleanup()]: runs when the function returns, its error is dropped. *)
Definition deferred {S A} (cleanup : go S unit) (m : go S A) : go S A := fun s =>
  match m s with
  | (s', Ok a) => (_ ← ignore_error cleanup; mret a) s'
  | (s', Err e) => (_ ← ignore_error cleanup; throw e) s'
  | r => r
  end.

(** ** Operations *)
Definition path (id : RunID) : outcome string :=
  if is_empty id || contains_any [47%N; 92%N] (bytes_of id) || bool_decide (id = ".") || bool_decide (id = "..")
  then Err (Errorf "invalid run id %q") else Ok (id ++ ".json")%string.

Definition writeLocked (ctx : Context) (target : string) (snapshot : RunSnapshot) : go filesystem unit :=
  _ ← ctx_Err ctx;
  data ← wrap "encode snapshot: %w" (lift (MarshalIndent snapshot));
  tempName ← wrap "create temporary snapshot: %w" os_CreateTemp;
  deferred (os_Remove tempName) (
    _ ← wrap "write temporary snapshot: %w" (on_error (ignore_error file_Close) (file_Write tempName data));
    _ ← wrap "sync temporary snapshot: %w" (on_error (ignore_error file_Close) (file_Sync tempName));
    _ ← wrap "close temporary snapshot: %w" file_Close;
    _ ← wrap "replace snapshot: %w" (os_Rename tempName target);
    _ ← wrap "open snapshot directory: %w" os_Open_directory;
    deferred file_Close (wrap "sync snapshot directory: %w" directory_Sync)).

Definition loadPath (ctx : Context) (path : string) (expectedID : RunID) : go filesystem RunSnapshot :=
  _ ← ctx_Err ctx;
  data ← (fun fs => match os_ReadFile path fs with
                    | (fs', Err e) => (fs', Err (if errors_Is e ErrNotExist then ErrRunNotFound else e))
                    | r => r
                    end);
  snapshot ← wrap "decode snapshot: %w" (lift (Decode data));
  _ ← fail_if (bool_decide (ID (Run snapshot) ≠ expectedID))
        (Errorf "stored run id %q does not match requested run %q");
  mret snapshot.
Definition loadLocked (path : string) (expectedID : RunID) : go filesystem RunSnapshot :=
  loadPath Background path expectedID.

(** [os.Stat] told whether the file exists; any other error is returned. *)
Definition stat_exists (name : string) : go filesystem bool := fun fs =>
  match os_Stat name fs with
  | (fs', Ok _) => (fs', Ok true)
  | (fs', Err e) => if errors_Is e ErrNotExist then (fs', Ok false) else (fs', Err e)
  | (fs', Panic) => (fs', Panic)
  | (fs', Diverge) => (fs', Diverge)
  end.

Definition fs_Create (ctx : Context) (snapshot : RunSnapshot) : go filesystem unit :=
  path ← lift (path (ID (Run snapshot)));
  exists_ ← stat_exists path;
  if (exists_ : bool) then throw ErrRunExists else writeLocked ctx path snapshot.

Definition fs_Save (ctx : Context) (snapshot : RunSnapshot) : go filesystem unit :=
  path ← lift (path (ID (Run snapshot)));
  exists_ ← stat_exists path;
  if (exists_ : bool) then writeLocked ctx path snapshot else throw ErrRunNotFound.

Definition fs_Load (ctx : Context) (id : RunID) : go filesystem RunSnapshot :=
  _ ← ctx_Err ctx;
  path ← lift (path id);
  loadPath ctx path id.

Definition fs_Apply (ctx : Context) (change : ChangeSet) : go filesystem unit :=
  path ← lift (path (cs_RunID change));
  snapshot ← loadLocked path (cs_RunID change);
  _ ← fail_if (bool_decide (Revision (Run snapshot) ≠ ExpectedRevision change)) ErrRevisionConflict;
  after ← lift (ApplyChangeSetForStore snapshot change);
  writeLocked ctx path after.

Fixpoint listNonTerminal (ctx : Context) (dir : list (string * entry)) : go filesystem (list RunID) :=
  match dir with
  | [] => mret []
  | (name, e) :: rest =>
    if match e with Directory => true | File _ _ => false end || negb (has_suffix name ".json")
    then listNonTerminal ctx rest
    else
      let id := trim_suffix name ".json" in
      snapshot ← fs_Load ctx id;
      ids ← listNonTerminal ctx rest;
      mret (if IsWorkflowTerminalForStore (run_Status (Run snapshot)) then ids else id :: ids)
  end.
Definition fs_ListNonTerminal (ctx : Context) : go filesystem (list RunID) :=
  _ ← ctx_Err ctx;
  dir ← os_ReadDir;
  listNonTerminal ctx dir.

Definition fs_RequestCancel (ctx : Context) (id : RunID) (at_ : time) : go filesystem WorkflowRun :=
  _ ← ctx_Err ctx;
  path ← lift (path id);
  snapshot ← loadLocked path id;
  if IsWorkflowTerminalForStore (run_Status (Run snapshot)) then mret (Run snapshot)
  else if bool_decide (is_Some (CancelRequestedAt (Run snapshot))) then mret (Run snapshot)
  else
    let run := set_run_Revision (u64 (Revision (Run snapshot) + 1))
                 (set_run_CancelRequestedAt (Some at_) (Run snapshot)) in
    _ ← writeLocked ctx path (set_Run run snapshot);
    mret run.

(** ** As implementations of the interfaces *)
#[export] Instance fs_RunStore : RunStore filesystem :=
  {| store_Create := fs_Create; store_Load := fs_Load |}.
#[export] Instance fs_Store : Store filesystem :=
  {| Store_RunStore := fs_RunStore; store_Save := fs_Save |}.
#[export] Instance fs_enginePersistence : enginePersistence filesystem :=
  {| enginePersistence_RunStore := fs_RunStore; store_Apply := fs_Apply |}.
#[export] Instance fs_Persistence : Persistence filesystem :=
  {| Persistence_engine := fs_enginePersistence; store_ListNonTerminal := fs_ListNonTerminal;
     store_RequestCancel := fs_RequestCancel |}.

(** The run files are complete and synced; the contents of a run file is what
    the decoder gives. *)
Definition json_file (name : string) : Prop := exists id, name = (id ++ ".json")%string.
Definition fs_ok (fs : filesystem) : Prop :=
  forall name e, json_file name -> entries fs !! name = Some e -> e = Directory \/ exists d, e = File d true.
Definition fs_content (fs : filesystem) (id : RunID) : option RunSnapshot :=
  match path id with
  | Ok name => match entries fs !! name with
               | Some (File d _) => match Decode d with Ok s => Some s | _ => None end
               | _ => None
               end
  | _ => None
  end.
#[export] Instance fs_view : StoreView filesystem :=
  {| store_ok := fs_ok; content_of := fs_content; canonical := snapshot_roundtrip |}.

(** ** File names *)
Definition chars (s : string) : list Ascii.ascii := String.list_ascii_of_string s.
Lemma chars_app a b : chars (a ++ b)%string = chars a ++ chars b.
Proof. 
  induction a as [|x a IH]; [done|].
  change (x :: chars (a ++ b)%string = x :: (chars a ++ chars b)). by rewrite IH.
Qed.
Lemma chars_inj a b : chars a = chars b -> a = b.
Proof.
  intros H. rewrite <-(String.string_of_list_ascii_of_string a), <-(String.string_of_list_ascii_of_string b).
  unfold chars in H. by rewrite H.
Qed.
Lemma app_suffix_inj a b x : (a ++ x)%string = (b ++ x)%string -> a = b.
Proof.
  intros H. apply chars_inj. apply (f_equal chars) in H. rewrite !chars_app in H. by apply app_inv_tail in H.
Qed.

Lemma path_json id name : path id = Ok name -> name = (id ++ ".json")%string.
Proof. unfold path. by destruct (_ || _); intros [= <-]. Qed.

Lemma path_json_file id name : path id = Ok name -> json_file name.
Proof. intros ->%path_json. by exists id. Qed.

Lemma temp_not_json n : ~ json_file (temp_name n).
Proof.
  intros [id H]. unfold temp_name in H. apply (f_equal (last ∘ chars)) in H. cbn [compose] in H.
  unfold compose in H. rewrite !chars_app in H.
  change (chars ".tmp") with (chars ".tm" ++ [Ascii.ascii_of_nat 112]) in H.
  change (chars ".json") with (chars ".jso" ++ [Ascii.ascii_of_nat 110]) in H.
  rewrite !app_assoc, !last_snoc in H. discriminate H.
Qed.

Lemma free_temp_not_json dir name : free_temp_name dir = Some name -> ~ json_file name /\ dir !! name = None.
Proof.
  unfold free_temp_name. destruct (list_find _ _) as [[k x]|] eqn:E; [|done]. intros [= <-]. cbn.
  apply list_find_Some in E as (Hk & Hfree & _). rewrite list_lookup_fmap in Hk.
  destruct (seq 0 (S (size dir)) !! k) as [n|]; [|done]. injection Hk as <-.
  split; [apply temp_not_json|done].
Qed.

(** ** What the steps do to the run files *)
Definition dir_ok (dir : gmap string entry) : Prop :=
  forall name e, json_file name -> dir !! name = Some e -> e = Directory \/ exists d, e = File d true.

(** The run files of [dir] with [target] overwritten. *)
Definition run_files (dir0 : gmap string entry) (new : option (string * document)) (dir : gmap string entry) : Prop :=
  forall name, json_file name -> dir !! name =
    match new with
    | Some (target, d) => if decide (name = target) then Some (File d true) else dir0 !! name
    | None => dir0 !! name
    end.

Definition files_are (dir0 : gmap string entry) (new : option (string * document)) (fs : filesystem) : Prop :=
  dir_ok dir0 /\ run_files dir0 new (entries fs).

Lemma run_files_ok dir0 new dir : dir_ok dir0 -> run_files dir0 new dir -> dir_ok dir.
Proof.
  intros Hok Hf name e Hj. rewrite (Hf name Hj). destruct new as [[target d]|]; [|by apply Hok].
  case_decide; [intros [= <-]; eauto|by apply Hok].
Qed.

Lemma run_files_other dir0 new dir dir' :
  run_files dir0 new dir -> (forall name, json_file name -> dir' !! name = dir !! name) -> run_files dir0 new dir'.
Proof. intros Hf Hsame name Hj. by rewrite Hsame, Hf. Qed.

Lemma power_loss_files dir0 new dir : dir_ok dir0 -> run_files dir0 new dir -> run_files dir0 new (power_loss dir).
Proof.
  intros Hok Hf. pose proof (run_files_ok _ _ _ Hok Hf) as Hok'.
  eapply run_files_other; [done|]. intros name Hj. unfold power_loss. rewrite lookup_fmap.
  destruct (dir !! name) as [e|] eqn:E; [|done]. by destruct (Hok' name e Hj E) as [->|[d ->]].
Qed.

(** A system call that leaves the run files alone, whatever happens. *)
Lemma syscall_files {A} (run : gmap string entry -> gmap string entry * outcome A) failed dir0 new
    (Q : A -> gmap string entry -> Prop) (P : gmap string entry -> Prop) :
  (forall dir, P dir -> files_are dir0 new (mkFS dir []) ->
     (forall name, json_file name -> (run dir).1 !! name = dir !! name) /\
     (forall name, json_file name -> failed dir !! name = dir !! name) /\
     (forall a, (run dir).2 = Ok a -> Q a (run dir).1)) ->
  triple (fun fs => P (entries fs) /\ files_are dir0 new fs) (syscall run failed)
    (fun a fs => Q a (entries fs) /\ files_are dir0 new fs) (files_are dir0 new).
Proof.
  intros H fs fs' r [HP [Hok Hf]] Hrun. destruct (H (entries fs) HP (conj Hok Hf)) as (H1 & H2 & H3).
  assert (Hgood : forall fl, match r with
    | Ok a => ((run (entries fs)).1, Ok a) = run (entries fs) -> Q a (run (entries fs)).1 /\
        files_are dir0 new (mkFS (run (entries fs)).1 fl)
    | _ => files_are dir0 new (mkFS (run (entries fs)).1 fl)
    end).
  { intros fl. assert (Hnew : files_are dir0 new (mkFS (run (entries fs)).1 fl))
      by (split; [done|]; by eapply run_files_other). destruct r; try done.
    intros E. split; [|done]. apply H3. by rewrite <-E. }
  unfold syscall in Hrun. destruct (faults fs) as [|[| |] fl].
  1,2: destruct (run (entries fs)) as [dir out] eqn:E; injection Hrun as <- <-;
    cbn in Hgood |- *; specialize (Hgood (faults (mkFS dir []))) as Hg; destruct out; try (by apply Hgood).
  - injection Hrun as <- <-. split; [done|]. by eapply run_files_other.
  - injection Hrun as <- <-. split; [done|]. by apply power_loss_files.
Qed.

(** ** Rules for the error handling forms *)
Section rules.
Context {S : Type}.
Implicit Types P E : S -> Prop.

Lemma triple_wrap {A} format P (m : go S A) Q E : triple P m Q E -> triple P (wrap format m) Q E.
Proof.
  intros H s s' r HP. unfold wrap. destruct (m s) as [s1 out] eqn:Em. specialize (H _ _ _ HP Em).
  destruct out; by intros [= <- <-].
Qed.

Lemma triple_ignore P (m : go S unit) E :
  triple P m (fun _ => E) E -> triple P (ignore_error m) (fun _ => E) E.
Proof.
  intros H s s' r HP. unfold ignore_error. destruct (m s) as [s1 out] eqn:Em. specialize (H _ _ _ HP Em).
  destruct out; by intros [= <- <-].
Qed.

Lemma triple_on_error {A} cleanup P (m : go S A) Q E :
  triple P m Q E -> triple E cleanup (fun _ => E) E -> triple P (on_error cleanup m) Q E.
Proof.
  intros H Hc s s' r HP. unfold on_error. destruct (m s) as [s1 out] eqn:Em. specialize (H _ _ _ HP Em).
  destruct out as [a|e| |]; try by intros [= <- <-].
  intros Hrun. unfold mbind, go_bind in Hrun. destruct (cleanup s1) as [s2 out] eqn:Ec.
  specialize (Hc _ _ _ H Ec). destruct out; by injection Hrun as <- <-.
Qed.

Lemma triple_deferred {A} cleanup P (m : go S A) Q E :
  triple P m Q E -> triple E cleanup (fun _ => E) E ->
  (forall a, triple (Q a) cleanup (fun _ => Q a) (Q a)) -> (forall a s, Q a s -> E s) ->
  triple P (deferred cleanup m) Q E.
Proof.
  intros H Hc Hq HE s s' r HP. unfold deferred. destruct (m s) as [s1 out] eqn:Em. specialize (H _ _ _ HP Em).
  destruct out as [a|e| |]; try by intros [= <- <-].
  - intros Hrun. unfold mbind, go_bind in Hrun. destruct (ignore_error cleanup s1) as [s2 out] eqn:Ec.
    pose proof (triple_ignore _ _ _ (Hq a) _ _ _ H Ec) as H2.
    destruct out; injection Hrun as <- <-; [done|by eapply HE..].
  - intros Hrun. unfold mbind, go_bind in Hrun. destruct (ignore_error cleanup s1) as [s2 out] eqn:Ec.
    pose proof (triple_ignore _ _ _ Hc _ _ _ H Ec) as H2.
    destruct out; by injection Hrun as <- <-.
Qed.
End rules.

(** ** Writing a snapshot is atomic *)
Section write.
Context (dir0 : gmap string entry).

(** Steps that keep the run files: the first form from no knowledge about the
    rest of the directory, the second also tracks the temporary file. *)
Lemma syscall_quiet {A} (run : gmap string entry -> gmap string entry * outcome A) failed new :
  (forall dir name, json_file name -> (run dir).1 !! name = dir !! name) ->
  (forall dir name, json_file name -> failed dir !! name = dir !! name) ->
  triple (files_are dir0 new) (syscall run failed) (fun _ => files_are dir0 new) (files_are dir0 new).
Proof.
  intros H1 H2. eapply triple_conseq.
  - apply (syscall_files run failed dir0 new (fun _ _ => True) (fun _ => True)). intros dir _ _. auto.
  - by split.
  - by intros a s [].
  - done.
Qed.

Lemma close_quiet new : triple (files_are dir0 new) file_Close (fun _ => files_are dir0 new) (files_are dir0 new).
Proof. by apply syscall_quiet. Qed.

Lemma json_ne name tempName : json_file name -> ~ json_file tempName -> tempName ≠ name.
Proof. by intros ? ? ->. Qed.

Lemma remove_quiet new tempName : ~ json_file tempName ->
  triple (files_are dir0 new) (os_Remove tempName) (fun _ => files_are dir0 new) (files_are dir0 new).
Proof.
  intros Ht. apply syscall_quiet; [|done]. intros dir name Hj. cbn.
  apply lookup_delete_ne. by apply json_ne.
Qed.

Lemma create_temp_files new :
  triple (files_are dir0 new) os_CreateTemp
    (fun tempName fs => ~ json_file tempName /\ files_are dir0 new fs) (files_are dir0 new).
Proof.
  eapply triple_conseq.
  - apply (syscall_files _ id dir0 new (fun tempName _ => ~ json_file tempName) (fun _ => True)).
    intros dir _ _. destruct (free_temp_name dir) as [name|] eqn:E; [|by repeat split].
    destruct (free_temp_not_json _ _ E) as [Hnj _]. split_and!; [|done|by intros a [= <-]].
    intros n Hj. apply lookup_insert_ne. by apply json_ne.
  - by split.
  - done.
  - done.
Qed.

Lemma write_files new tempName d : ~ json_file tempName ->
  triple (files_are dir0 new) (file_Write tempName d)
    (fun _ fs => entries fs !! tempName = Some (File d false) /\ files_are dir0 new fs) (files_are dir0 new).
Proof.
  intros Ht. eapply triple_conseq.
  - apply (syscall_files _ _ dir0 new (fun _ dir => dir !! tempName = Some (File d false)) (fun _ => True)).
    intros dir _ _. split_and!.
    + intros name Hj. apply lookup_insert_ne. by apply json_ne.
    + intros name Hj. apply lookup_insert_ne. by apply json_ne.
    + intros a _. apply lookup_insert_eq.
  - by split.
  - done.
  - done.
Qed.

Lemma sync_files new tempName d : ~ json_file tempName ->
  triple (fun fs => entries fs !! tempName = Some (File d false) /\ files_are dir0 new fs) (file_Sync tempName)
    (fun _ fs => entries fs !! tempName = Some (File d true) /\ files_are dir0 new fs) (files_are dir0 new).
Proof.
  intros Ht. apply (syscall_files _ _ dir0 new (fun _ dir => dir !! tempName = Some (File d true))
    (fun dir => dir !! tempName = Some (File d false))).
  intros dir Hd _. split_and!; [|done|].
  - intros name Hj. apply lookup_alter_ne. by apply json_ne.
  - intros a _. cbn. by rewrite lookup_alter_eq, Hd.
Qed.

Lemma close_files new tempName d :
  triple (fun fs => entries fs !! tempName = Some (File d true) /\ files_are dir0 new fs) file_Close
    (fun _ fs => entries fs !! tempName = Some (File d true) /\ files_are dir0 new fs) (files_are dir0 new).
Proof.
  by apply (syscall_files _ _ dir0 new (fun _ dir => dir !! tempName = Some (File d true))
    (fun dir => dir !! tempName = Some (File d true))).
Qed.

Lemma rename_files tempName target d : ~ json_file tempName ->
  triple (fun fs => entries fs !! tempName = Some (File d true) /\ files_are dir0 None fs)
    (os_Rename tempName target)
    (fun _ => files_are dir0 (Some (target, d))) (files_are dir0 None).
Proof.
  intros Ht fs fs' r [Hd [Hok Hf]] Hrun. unfold os_Rename, syscall in Hrun. rewrite Hd in Hrun.
  assert (Hnew : run_files dir0 (Some (target, d)) (<[target := File d true]> (delete tempName (entries fs)))).
  { intros name Hj. case_decide as E; [rewrite E; apply lookup_insert_eq|].
    rewrite lookup_insert_ne by done. rewrite lookup_delete_ne by by apply json_ne. by apply Hf. }
  destruct (faults fs) as [|[| |] fl]; injection Hrun as <- <-; split; try done. by apply power_loss_files.
Qed.

Definition old_or_new (target : string) (d : document) (fs : filesystem) : Prop :=
  files_are dir0 None fs \/ files_are dir0 (Some (target, d)) fs.

Lemma old_or_new_remove target d tempName : ~ json_file tempName ->
  triple (old_or_new target d) (os_Remove tempName) (fun _ => old_or_new target d) (old_or_new target d).
Proof.
  intros Ht fs fs' r [H|H] Hrun.
  - pose proof (remove_quiet None tempName Ht _ _ _ H Hrun) as H2. destruct r; by left.
  - pose proof (remove_quiet (Some (target, d)) tempName Ht _ _ _ H Hrun) as H2. destruct r; by right.
Qed.

Lemma writeLocked_atomic ctx target s :
  triple (files_are dir0 None) (writeLocked ctx target s)
    (fun _ => files_are dir0 (Some (target, Encoded s))) (old_or_new target (Encoded s)).
Proof.
  unfold writeLocked.
  eapply triple_bind; [instantiate (1 := fun _ => files_are dir0 None)|intros ?].
  { destruct ctx; [by apply triple_throw; left|by apply triple_ret]. }
  eapply triple_bind; [eapply triple_wrap, triple_lift; by left|intros data].
  apply triple_pure. intros Hdata. assert (data = Encoded s) as ->.
  { unfold MarshalIndent in Hdata. by destruct (snapshot_encodable s); simplify_eq. }
  eapply triple_bind; [eapply triple_wrap, triple_post; [apply create_temp_files|done|by left]|intros tempName].
  apply triple_pure. intros Ht. apply triple_deferred; [|by apply old_or_new_remove|..].
  2:{ intros ?. by apply remove_quiet. }
  2:{ by right. }
  eapply triple_bind.
  { eapply triple_post; [apply triple_wrap, triple_on_error; [by apply write_files|]|done|by left].
    apply triple_ignore, close_quiet. }
  intros ?. eapply triple_bind.
  { eapply triple_post; [apply triple_wrap, triple_on_error; [by apply sync_files|]|done|by left].
    apply triple_ignore, close_quiet. }
  intros ?. eapply triple_bind; [eapply triple_wrap, triple_post; [apply close_files|done|by left]|].
  intros ?. eapply triple_bind; [eapply triple_wrap, triple_post; [by apply rename_files|done|by left]|].
  intros ?. eapply triple_bind; [eapply triple_wrap, triple_post; [by apply syscall_quiet|done|by right]|].
  intros ?. eapply triple_post.
  - apply triple_deferred; [by apply triple_wrap, syscall_quiet|apply close_quiet|intros ?; apply close_quiet|done].
  - done.
  - by right.
Qed.
End write.

(** ** The file store keeps the contract of Stores.v *)
Lemma files_start fs : fs_ok fs -> files_are (entries fs) None fs.
Proof. intros H. by split. Qed.

Lemma files_unchanged fs fs' : files_are (entries fs) None fs' -> unchanged fs fs'.
Proof.
  intros [Hok Hf]. split; [exact (run_files_ok _ _ _ Hok Hf)|]. intros id. cbn. unfold fs_content.
  destruct (path id) as [name| | |] eqn:E; try done. by rewrite (Hf name) by by eapply path_json_file.
Qed.

Lemma path_same id id' name : path id = Ok name -> path id' = Ok name -> id = id'.
Proof. intros H1%path_json H2%path_json. subst. by apply app_suffix_inj in H2. Qed.

Lemma files_written fs fs' id name s :
  path id = Ok name -> files_are (entries fs) (Some (name, Encoded s)) fs' -> written id s fs fs'.
Proof.
  intros Hp [Hok Hf]. split; [exact (run_files_ok _ _ _ Hok Hf)|]. intros id'. cbn. unfold fs_content.
  destruct (path id') as [name'| | |] eqn:E.
  - rewrite (Hf name') by by eapply path_json_file. destruct (decide (id' = id)) as [->|Hne].
    + rewrite E in Hp. injection Hp as ->. by rewrite decide_True.
    + rewrite decide_False; [done|]. intros ->. by destruct Hne, (path_same _ _ _ E Hp).
  - rewrite decide_False; [done|]. intros ->. congruence.
  - rewrite decide_False; [done|]. intros ->. congruence.
  - rewrite decide_False; [done|]. intros ->. congruence.
Qed.

Lemma quiet_read {A} (f : gmap string entry -> outcome A) dir0 :
  triple (files_are dir0 None) (syscall (fun dir => (dir, f dir)) id)
    (fun a fs => (exists dir, f dir = Ok a /\ run_files dir0 None dir) /\ files_are dir0 None fs)
    (files_are dir0 None).
Proof.
  eapply triple_conseq.
  - apply (syscall_files (fun dir => (dir, f dir)) id dir0 None
      (fun a _ => exists dir, f dir = Ok a /\ run_files dir0 None dir) (fun dir => run_files dir0 None dir)).
    intros dir Hdir _. split_and!; [done|done|]. intros a Ha. by exists dir.
  - intros fs H. split; [apply H|done].
  - done.
  - done.
Qed.

Lemma loadPath_files dir0 ctx name id : json_file name ->
  triple (files_are dir0 None) (loadPath ctx name id)
    (fun s fs => (exists d synced, dir0 !! name = Some (File d synced) /\ Decode d = Ok s /\ ID (Run s) = id) /\
       files_are dir0 None fs) (files_are dir0 None).
Proof.
  intros Hj. unfold loadPath. eapply triple_bind; [instantiate (1 := fun _ => files_are dir0 None)|intros ?].
  { destruct ctx; [by apply triple_throw|by apply triple_ret]. }
  eapply triple_bind.
  { intros fs fs' r HP Hrun. destruct (os_ReadFile name fs) as [fs1 out] eqn:E.
    pose proof (quiet_read _ dir0 _ _ _ HP E) as H. destruct out; injection Hrun as <- <-; try done. exact H. }
  intros d. apply triple_pure. intros (dir & Hread & Hf).
  assert (Hd : exists synced, dir0 !! name = Some (File d synced)).
  { rewrite <-(Hf name Hj). destruct (dir !! name) as [[d' sy|]|]; simplify_eq/=; eauto. }
  destruct Hd as [synced Hd].
  eapply triple_bind; [by eapply triple_wrap, triple_lift|intros s]. apply triple_pure. intros Hdec.
  eapply triple_bind; [by apply triple_fail_if|intros ?]. apply triple_pure. intros Hid.
  apply triple_ret. intros fs Hfs. split; [|done]. exists d, synced. split_and!; [done..|].
  rewrite bool_decide_eq_false in Hid. by apply dec_stable.
Qed.

Lemma stat_files dir0 name :
  triple (files_are dir0 None) (stat_exists name)
    (fun b fs => (json_file name -> b = bool_decide (is_Some (dir0 !! name))) /\ files_are dir0 None fs)
    (files_are dir0 None).
Proof.
  intros fs fs' r HP Hrun. unfold stat_exists in Hrun. destruct (os_Stat name fs) as [fs1 out] eqn:E.
  pose proof (quiet_read _ dir0 _ _ _ HP E) as H. cbv beta in H.
  destruct out as [[]|e| |]; [|destruct (errors_Is e ErrNotExist) eqn:Ene|..]; injection Hrun as <- <-; try done.
  - destruct H as [(dir & Hd & Hf) H]. split; [|done]. intros Hj. rewrite <-(Hf name Hj).
    by destruct (decide (is_Some (dir !! name))); [rewrite bool_decide_eq_true_2|].
  - split; [|done]. intros Hj. symmetry. apply bool_decide_eq_false_2. intros Hs.
    unfold os_Stat, syscall in E. destruct HP as [Hok Hf]. rewrite <-(Hf name Hj) in Hs.
    rewrite (decide_True _ _ Hs) in E.
    by destruct (faults fs) as [|[|e'|] fl]; simplify_eq.
Qed.

Lemma fs_content_file fs id name d synced s :
  path id = Ok name -> entries fs !! name = Some (File d synced) -> Decode d = Ok s ->
  fs_content fs id = Some s.
Proof. intros Hp Hd Hs. unfold fs_content. by rewrite Hp, Hd, Hs. Qed.

Lemma fs_Load_files dir0 ctx id :
  triple (files_are dir0 None) (fs_Load ctx id)
    (fun s fs => (exists name d synced, path id = Ok name /\ dir0 !! name = Some (File d synced) /\
        Decode d = Ok s /\ ID (Run s) = id) /\ files_are dir0 None fs) (files_are dir0 None).
Proof.
  unfold fs_Load. eapply triple_bind; [instantiate (1 := fun _ => files_are dir0 None)|intros ?].
  { destruct ctx; [by apply triple_throw|by apply triple_ret]. }
  eapply triple_bind; [by apply triple_lift|intros name]. apply triple_pure. intros Hp.
  eapply triple_post; [by apply loadPath_files, (path_json_file id)| |done].
  intros s fs [(d & sy & ? & ? & ?) Hf]. split; [|done]. by exists name, d, sy.
Qed.

(** The common end of [Create] and [Save]. *)
Lemma write_contract fs fs' ctx id name s r :
  path id = Ok name -> files_are (entries fs) None fs ->
  writeLocked ctx name s fs = (fs', r) ->
  (unchanged fs fs' /\ r ≠ Ok tt) \/ written id s fs fs'.
Proof.
  intros Hp Hok Hrun. pose proof (writeLocked_atomic (entries fs) ctx name s _ _ _ Hok Hrun) as H.
  destruct r as [[]|e| |].
  - right. by eapply files_written.
  - destruct H as [H|H]; [left; split; [by apply files_unchanged|done]|right; by eapply files_written].
  - destruct H as [H|H]; [left; split; [by apply files_unchanged|done]|right; by eapply files_written].
  - destruct H as [H|H]; [left; split; [by apply files_unchanged|done]|right; by eapply files_written].
Qed.

(** A step that keeps the run files, followed by the rest of the operation. *)
Lemma after_quiet {A B} (m : go filesystem A) (f : A -> go filesystem B) dir0 (phi : A -> Prop) fs fs' r :
  triple (files_are dir0 None) m (fun a fs => phi a /\ files_are dir0 None fs) (files_are dir0 None) ->
  files_are dir0 None fs -> (m ≫= f) fs = (fs', r) ->
  (exists a fs1, phi a /\ files_are dir0 None fs1 /\ f a fs1 = (fs', r)) \/
  (files_are dir0 None fs' /\ forall b, r ≠ Ok b).
Proof.
  intros Ht HP. unfold mbind, go_bind. destruct (m fs) as [fs1 out] eqn:Em. specialize (Ht _ _ _ HP Em).
  destruct out as [a|e| |]; [intros Hrun; left; exists a, fs1; by destruct Ht|by intros [= <- <-]; right..].
Qed.

Lemma write_contract_from dir0 fs fs1 fs' ctx id name s r :
  dir0 = entries fs -> path id = Ok name -> files_are dir0 None fs1 ->
  writeLocked ctx name s fs1 = (fs', r) ->
  (unchanged fs fs' /\ r ≠ Ok tt) \/ written id s fs fs'.
Proof.
  intros -> Hp Hok Hrun. pose proof (files_unchanged _ _ Hok) as Hu.
  destruct (write_contract fs1 fs' ctx id name s r Hp) as [[Hu2 Hr]|Hw]; [|done|..].
  - apply files_start. apply Hu.
  - left. split; [by eapply unchanged_trans|done].
  - right. by eapply written_after.
Qed.

Lemma fs_Create_contract ctx s fs fs' r :
  fs_ok fs -> fs_Create ctx s fs = (fs', r) ->
  (unchanged fs fs' /\ r ≠ Ok tt) \/
  (content_of fs (ID (Run s)) = None /\ written (ID (Run s)) s fs fs').
Proof.
  intros Hok Hrun. pose proof (files_start _ Hok) as H0. unfold fs_Create in Hrun.
  apply (after_quiet _ _ (entries fs) (fun name => path (ID (Run s)) = Ok name)) in Hrun;
    [|by apply triple_lift|done].
  destruct Hrun as [(name & fs1 & Hp & H1 & Hrun)|[H1 Hr]]; [|left; split; [by apply files_unchanged|apply Hr]].
  pose proof (path_json_file _ _ Hp) as Hj.
  apply (after_quiet _ _ _ _ _ _ _ (stat_files (entries fs) name) H1) in Hrun.
  destruct Hrun as [(b & fs2 & Hb & H2 & Hrun)|[H2 Hr]]; [|left; split; [by apply files_unchanged|apply Hr]].
  specialize (Hb Hj). subst b. case_bool_decide as Hex.
  - injection Hrun as <- <-. left. split; [by apply files_unchanged|done].
  - destruct (write_contract_from (entries fs) fs fs2 fs' ctx _ name s r eq_refl Hp H2 Hrun) as [|Hw]; [by left|right].
    split; [|done]. cbn. unfold fs_content. rewrite Hp.
    destruct (entries fs !! name) eqn:E; [|done]. destruct Hex. by eexists.
Qed.

Lemma fs_Save_contract ctx s fs fs' r :
  fs_ok fs -> fs_Save ctx s fs = (fs', r) ->
  (unchanged fs fs' /\ r ≠ Ok tt) \/ written (ID (Run s)) s fs fs'.
Proof.
  intros Hok Hrun. pose proof (files_start _ Hok) as H0. unfold fs_Save in Hrun.
  apply (after_quiet _ _ (entries fs) (fun name => path (ID (Run s)) = Ok name)) in Hrun;
    [|by apply triple_lift|done].
  destruct Hrun as [(name & fs1 & Hp & H1 & Hrun)|[H1 Hr]]; [|left; split; [by apply files_unchanged|apply Hr]].
  apply (after_quiet _ _ _ _ _ _ _ (stat_files (entries fs) name) H1) in Hrun.
  destruct Hrun as [(b & fs2 & _ & H2 & Hrun)|[H2 Hr]]; [|left; split; [by apply files_unchanged|apply Hr]].
  destruct b; [exact (write_contract_from (entries fs) fs fs2 fs' ctx _ name s r eq_refl Hp H2 Hrun)|].
  injection Hrun as <- <-. left. split; [by apply files_unchanged|done].
Qed.

Lemma fs_Apply_contract ctx change fs fs' r :
  fs_ok fs -> fs_Apply ctx change fs = (fs', r) ->
  (unchanged fs fs' /\ r ≠ Ok tt) \/ applies change fs fs'.
Proof.
  intros Hok Hrun. pose proof (files_start _ Hok) as H0. unfold fs_Apply in Hrun.
  apply (after_quiet _ _ (entries fs) (fun name => path (cs_RunID change) = Ok name)) in Hrun;
    [|by apply triple_lift|done].
  destruct Hrun as [(name & fs1 & Hp & H1 & Hrun)|[H1 Hr]]; [|left; split; [by apply files_unchanged|apply Hr]].
  pose proof (path_json_file _ _ Hp) as Hj.
  apply (after_quiet _ _ _ _ _ _ _ (loadPath_files (entries fs) Background name (cs_RunID change) Hj) H1) in Hrun.
  destruct Hrun as [(before & fs2 & (d & sy & Hd & Hdec & Hid) & H2 & Hrun)|[H2 Hr]];
    [|left; split; [by apply files_unchanged|apply Hr]].
  pose proof (fs_content_file fs _ name d sy before Hp Hd Hdec) as Hc.
  unfold mbind, go_bind, fail_if in Hrun. case_bool_decide as Hrev.
  { injection Hrun as <- <-. left. split; [by apply files_unchanged|done]. }
  cbn in Hrun. unfold lift, ApplyChangeSetForStore in Hrun.
  destruct (applyChangeSet before change) as [after|e| |] eqn:Happly;
    try (injection Hrun as <- <-; left; split; [by apply files_unchanged|done]).
  destruct (write_contract_from (entries fs) fs fs2 fs' ctx _ name after r eq_refl Hp H2 Hrun) as [|Hw]; [by left|right].
  by exists before, after.
Qed.

#[export] Instance fs_LoadContract : LoadContract filesystem.
Proof.
  split.
  - intros ctx id fs fs' r Hok Hrun.
    pose proof (fs_Load_files (entries fs) ctx id _ _ _ (files_start _ Hok) Hrun) as H.
    apply files_unchanged. destruct r; [apply H|exact H..].
  - intros ctx id fs fs' s Hok Hrun.
    destruct (fs_Load_files (entries fs) ctx id _ _ _ (files_start _ Hok) Hrun) as [(name & d & sy & Hp & Hd & Hs & Hid) _].
    split; [by eapply fs_content_file|done].
  - intros ctx s fs fs' r. apply fs_Create_contract.
Qed.

#[export] Instance fs_SaveContract : SaveContract filesystem.
Proof. split. intros ctx s fs fs' r. apply fs_Save_contract. Qed.

#[export] Instance fs_ApplyContract : ApplyContract filesystem.
Proof. split. intros ctx change fs fs' r. apply fs_Apply_contract. Qed.

(** ** Without faults the calls succeed *)
Lemma temp_name_inj n m : temp_name n = temp_name m -> n = m.
Proof.
  unfold temp_name. intros H. apply (inj (String.append ".snapshot-")) in H. apply app_suffix_inj in H.
  by apply (inj pretty) in H.
Qed.

Lemma free_temp_exists dir : is_Some (free_temp_name dir).
Proof.
  unfold free_temp_name. destruct (list_find _ _) as [[k x]|] eqn:E; [by eexists|exfalso].
  apply list_find_None in E. rewrite Forall_forall in E.
  assert (Hsub : list_to_set (temp_name <$> seq 0 (S (size dir))) ⊆@{gset string} dom dir).
  { intros x Hx%elem_of_list_to_set. apply elem_of_dom. specialize (E x Hx).
    destruct (dir !! x); [by eexists|by destruct E]. }
  apply subseteq_size in Hsub. rewrite size_list_to_set in Hsub.
  - rewrite length_fmap, length_seq, size_dom in Hsub. lia.
  - apply NoDup_fmap_2; [|apply NoDup_seq]. intros ? ?. apply temp_name_inj.
Qed.

Lemma deferred_ok {S A} (cleanup : go S unit) (m : go S A) s s' a :
  m s = (s', Ok a) -> deferred cleanup m s = (_ ← ignore_error cleanup; mret a) s'.
Proof. unfold deferred. by intros ->. Qed.

Lemma writeLocked_runs dir target s :
  snapshot_encodable s = true ->
  exists dir', writeLocked None target s (mkFS dir []) = (mkFS dir' [], Ok tt).
Proof.
  intros He. destruct (free_temp_exists dir) as [t Ht].
  assert (Hfree : dir !! t = None) by by eapply free_temp_not_json.
  unfold writeLocked. unfold ctx_Err. go_step.
  go_step by (unfold wrap, lift, MarshalIndent; rewrite He; reflexivity).
  go_step by (unfold wrap, os_CreateTemp, syscall; cbn [faults entries]; rewrite Ht; reflexivity).
  erewrite deferred_ok.
  2:{ go_step by (unfold wrap, on_error, file_Write, syscall; cbn; reflexivity).
      go_step by (unfold wrap, on_error, file_Sync, syscall; cbn; reflexivity).
      go_step by (unfold wrap, file_Close, syscall; cbn; reflexivity).
      go_step by (unfold wrap, os_Rename, syscall; cbn; rewrite lookup_alter_eq, lookup_insert_eq; reflexivity).
      reflexivity. }
  unfold mbind, go_bind, ignore_error, os_Remove, syscall; cbn. case_decide; eauto.
Qed.

Lemma loadPath_runs dir name id d sy s :
  dir !! name = Some (File d sy) -> Decode d = Ok s -> ID (Run s) = id ->
  loadPath None name id (mkFS dir []) = (mkFS dir [], Ok s).
Proof.
  intros Hd Hs Hid. unfold loadPath, ctx_Err. go_step.
  go_step by (unfold os_ReadFile, syscall; cbn; rewrite Hd; reflexivity).
  go_step by (unfold wrap, lift; rewrite Hs; reflexivity).
  rewrite bool_decide_eq_false_2 by (intros E; by apply E). by go_step.
Qed.

Lemma content_file fs id s :
  fs_content fs id = Some s -> exists name d sy, path id = Ok name /\ entries fs !! name = Some (File d sy) /\ Decode d = Ok s.
Proof.
  unfold fs_content. destruct (path id) as [name| | |] eqn:Hp; try done.
  destruct (entries fs !! name) as [[d sy|]|] eqn:Hd; try done.
  destruct (Decode d) as [s'| | |] eqn:Hs; intros [= <-]. by exists name, d, sy.
Qed.

Lemma fs_Apply_runs dir change before after :
  fs_ok (mkFS dir []) -> fs_content (mkFS dir []) (cs_RunID change) = Some before ->
  applyChangeSet before change = Ok after -> snapshot_encodable after = true ->
  exists dir', fs_Apply None change (mkFS dir []) = (mkFS dir' [], Ok tt) /\
    written (cs_RunID change) after (mkFS dir []) (mkFS dir' []).
Proof.
  intros Hok Hc Happly Henc. destruct (content_file _ _ _ Hc) as (name & d & sy & Hp & Hd & Hs).
  destruct (applyChangeSet_ID _ _ _ Happly) as [_ Hid].
  assert (Hrev : Revision (Run before) = ExpectedRevision change).
  { unfold applyChangeSet in Happly. go_inv. rewrite !bool_decide_eq_false in *.
    match goal with Hx : ¬ ExpectedRevision _ ≠ _ |- _ => by apply dec_stable in Hx end. }
  destruct (writeLocked_runs dir name after Henc) as [dir' Hw].
  assert (Hrun : fs_Apply None change (mkFS dir []) = (mkFS dir' [], Ok tt)).
  { unfold fs_Apply. rewrite Hp. go_step. go_step by by apply (loadPath_runs dir name _ d sy before).
    rewrite bool_decide_eq_false_2 by (intros E; by apply E). go_step.
    unfold ApplyChangeSetForStore. rewrite Happly. by go_step. }
  exists dir'. split; [done|].
  destruct (fs_Apply_contract None change _ _ _ Hok Hrun) as [[_ []]|(b & a & Hb & Ha & Hw')]; [done|].
  cbn in Hb. rewrite Hc in Hb. injection Hb as <-.
  rewrite Happly in Ha. injection Ha as <-. exact Hw'.
Qed.

(** ** Suffixes *)
Lemma substring_all s : String.substring 0 (String.length s) s = s.
Proof. induction s as [|a s IH]; [done|]. cbn. by rewrite IH. Qed.
Lemma substring_prefix a b : String.substring 0 (String.length a) (a ++ b)%string = a.
Proof. induction a as [|x a IH]; [by destruct b|]. exact (f_equal (String x) IH). Qed.
Lemma substring_suffix a b : String.substring (String.length a) (String.length b) (a ++ b)%string = b.
Proof. induction a as [|x a IH]; [apply substring_all|]. exact IH. Qed.
Lemma string_length_app a b : String.length (a ++ b)%string = String.length a + String.length b.
Proof. induction a as [|x a IH]; [done|]. exact (f_equal S IH). Qed.

Lemma has_suffix_app a x : has_suffix (a ++ x)%string x = true.
Proof.
  unfold has_suffix. rewrite string_length_app. rewrite (proj2 (Nat.leb_le _ _)) by lia. cbn.
  replace (String.length a + String.length x - String.length x) with (String.length a) by lia.
  by rewrite substring_suffix, bool_decide_eq_true_2.
Qed.
Lemma trim_suffix_app a x : trim_suffix (a ++ x)%string x = a.
Proof.
  unfold trim_suffix. rewrite has_suffix_app, string_length_app.
  replace (String.length a + String.length x - String.length x) with (String.length a) by lia.
  apply substring_prefix.
Qed.

(** ** Theorems *)
Definition sample_fs : filesystem := (fs_Create None (sample_run []) (mkFS ∅ [])).1.
Definition sample_change : ChangeSet :=
  match changeSetFromSnapshots (sample_run []) (nextRevision (sample_run []) (sample_run [OpQueue 0 1001])) with
  | Ok cs => cs
  | _ => mkChangeSet "" 0 None [] [] []
  end.

Lemma empty_fs_ok fl : fs_ok (mkFS ∅ fl).
Proof. intros name e _ H. cbn in H. by rewrite lookup_empty in H. Qed.

Lemma sample_fs_ok : fs_ok sample_fs.
Proof.
  destruct (fs_Create None (sample_run []) (mkFS ∅ [])) as [fs' r] eqn:E.
  destruct (fs_Create_contract _ _ _ _ _ (empty_fs_ok []) E) as [[[H _] _]|[_ [H _]]];
    unfold sample_fs; rewrite E; exact H.
Qed.

(** run IDs cannot escape the store.  An accepted RunID names one file
    directly in the directory: it is not empty, "." or "..", holds no path
    separator, the file name is the ID with ".json", and different IDs have
    different files. *)
Theorem path_confined id name :
  path id = Ok name ->
  name = (id ++ ".json")%string /\ id ≠ "" /\ id ≠ "." /\ id ≠ ".." /\
  (47%N ∉ bytes_of id) /\ (92%N ∉ bytes_of id) /\
  forall id', path id' = Ok name -> id' = id.
Proof.
  intros H. pose proof (path_json _ _ H) as E. split; [done|]. unfold path in H.
  destruct (is_empty id || contains_any [47%N; 92%N] (bytes_of id) || bool_decide (id = ".") || bool_decide (id = ".."))
    eqn:Hc; [done|]. rewrite !orb_false_iff in Hc. destruct Hc as [[[H1 H2] H3] H4].
  unfold is_empty in H1. rewrite bool_decide_eq_false in H1, H3, H4.
  assert (Hno : forall b, b ∈ [47%N; 92%N] -> b ∉ bytes_of id).
  { intros b Hb Hin. enough (contains_any [47%N; 92%N] (bytes_of id) = true) by congruence.
    apply existsb_exists. exists b. split; [by apply list_elem_of_In|]. apply existsb_exists. exists b.
    split; [by apply list_elem_of_In|apply N.eqb_refl]. }
  split_and!; try done; [apply Hno; by left|apply Hno; by right; left|].
  intros id' H'%path_json. subst name. by apply app_suffix_inj in H'.
Qed.

Lemma path_confined_witness : "r-1" ≠ "" /\ forall id', path id' = Ok "r-1.json"%string -> id' = "r-1"%string.
Proof.
  destruct (path_confined "r-1" "r-1.json") as (_ & H1 & _ & _ & _ & _ & H2); [vm_compute; reflexivity|].
  split; [exact H1|exact H2].
Defined.

(** C40: the file store is crash safe.  Whatever system call fails and wherever
    the power goes, [Save] leaves every other run as it was and the saved run
    either entirely as it was or entirely new - never partly written - and it
    is new if the call reported success.  [Apply] is the same with the
    snapshot it computes from the stored one. *)
Theorem filestore_atomic ctx snapshot change fs :
  fs_ok fs ->
  (forall fs' r, fs_Save ctx snapshot fs = (fs', r) ->
     let id := ID (Run snapshot) in
     fs_ok fs' /\ (forall id', id' ≠ id -> fs_content fs' id' = fs_content fs id') /\
     ((fs_content fs' id = fs_content fs id /\ r ≠ Ok tt) \/
      fs_content fs' id = Some (snapshot_roundtrip snapshot))) /\
  (forall fs' r, fs_Apply ctx change fs = (fs', r) ->
     let id := cs_RunID change in
     fs_ok fs' /\ (forall id', id' ≠ id -> fs_content fs' id' = fs_content fs id') /\
     ((fs_content fs' id = fs_content fs id /\ r ≠ Ok tt) \/
      exists before after, fs_content fs id = Some before /\ applyChangeSet before change = Ok after /\
        fs_content fs' id = Some (snapshot_roundtrip after))).
Proof.
  intros Hok. split; intros fs' r Hrun id.
  - destruct (fs_Save_contract _ _ _ _ _ Hok Hrun) as [[[Hok' Hu] Hr]|[Hok' Hw]]; cbn in *.
    + split_and!; [done|by intros; apply Hu|left; split; [apply Hu|done]].
    + split_and!; [done| |right; rewrite Hw; by rewrite decide_True].
      intros id' Hne. rewrite Hw. by rewrite decide_False.
  - destruct (fs_Apply_contract _ _ _ _ _ Hok Hrun) as [[[Hok' Hu] Hr]|(b & a & Hb & Ha & Hok' & Hw)]; cbn in *.
    + split_and!; [done|by intros; apply Hu|left; split; [apply Hu|done]].
    + split_and!; [done| |right; exists b, a; split_and!; [done..|rewrite Hw; by rewrite decide_True]].
      intros id' Hne. rewrite Hw. by rewrite decide_False.
Qed.

Lemma filestore_atomic_witness :
  fs_ok sample_fs /\ fs_ok (fs_Save None (sample_run []) (mkFS (entries sample_fs) [NoFault; NoFault; NoFault; PowerLoss])).1.
Proof.
  split; [apply sample_fs_ok|].
  destruct (fs_Save None (sample_run []) (mkFS (entries sample_fs) [NoFault; NoFault; NoFault; PowerLoss])) as [fs' r] eqn:E.
  refine (proj1 (proj1 (filestore_atomic None (sample_run []) sample_change
    (mkFS (entries sample_fs) [NoFault; NoFault; NoFault; PowerLoss]) _) fs' r E)).
  exact sample_fs_ok.
Defined.

(** without faults a valid change set is committed.  If the stored run
    accepts the change set and the result can be encoded, [Apply] succeeds and
    the next [Load] returns exactly the updated run (through JSON). *)
Theorem filestore_Apply_commits dir change before after :
  fs_ok (mkFS dir []) -> fs_content (mkFS dir []) (cs_RunID change) = Some before ->
  applyChangeSet before change = Ok after -> snapshot_encodable after = true ->
  sanitize (cs_RunID change) = cs_RunID change ->
  exists dir', fs_Apply None change (mkFS dir []) = (mkFS dir' [], Ok tt) /\
    fs_Load None (cs_RunID change) (mkFS dir' []) = (mkFS dir' [], Ok (snapshot_roundtrip after)).
Proof.
  intros Hok Hc Happly Henc Hid. destruct (fs_Apply_runs _ _ _ _ Hok Hc Happly Henc) as (dir' & Hrun & Hok' & Hw).
  exists dir'. split; [done|]. specialize (Hw (cs_RunID change)). rewrite decide_True in Hw by done. cbn in Hw.
  destruct (content_file _ _ _ Hw) as (name & d & sy & Hp & Hd & Hs).
  unfold fs_Load, ctx_Err. go_step. rewrite Hp. go_step. eapply loadPath_runs; [done..|].
  cbn. destruct (applyChangeSet_ID _ _ _ Happly) as [-> _]. done.
Qed.

Lemma filestore_Apply_commits_witness :
  exists dir', fs_Apply None sample_change (mkFS (entries sample_fs) []) = (mkFS dir' [], Ok tt) /\
    fs_Load None "run" (mkFS dir' []) =
      (mkFS dir' [], Ok (snapshot_roundtrip (nextRevision (sample_run []) (sample_run [OpQueue 0 1001])))).
Proof.
  apply (filestore_Apply_commits (entries sample_fs) sample_change (sample_run [])
    (nextRevision (sample_run []) (sample_run [OpQueue 0 1001]))).
  - exact sample_fs_ok.
  - vm_compute; reflexivity.
  - vm_compute; reflexivity.
  - vm_compute; reflexivity.
  - vm_compute; reflexivity.
Defined.

Lemma no_lost_update_witness :
  (fs_Apply None sample_change (fs_Apply None sample_change sample_fs).1).2 ≠ Ok tt.
Proof.
  refine (proj1 (no_lost_update None None sample_change sample_change sample_fs
    (fs_Apply None sample_change sample_fs).1 (fs_Apply None sample_change (fs_Apply None sample_change sample_fs).1).1
    (fs_Apply None sample_change (fs_Apply None sample_change sample_fs).1).2
    sample_fs_ok _ eq_refl eq_refl _ _ (surjective_pairing _))).
  - intros s. reflexivity.
  - vm_compute. split; [intros E; discriminate E|reflexivity].
  - vm_compute; reflexivity.
Defined.

(** *** Cancellation requests *)
Definition cancel_requested (at_ : time) (s : RunSnapshot) : RunSnapshot :=
  set_Run (set_run_Revision (u64 (Revision (Run s) + 1)) (set_run_CancelRequestedAt (Some at_) (Run s))) s.

Lemma fs_RequestCancel_reads dir id at_ s :
  fs_content (mkFS dir []) id = Some s -> ID (Run s) = id ->
  isWorkflowTerminal (run_Status (Run s)) = true \/ is_Some (CancelRequestedAt (Run s)) ->
  fs_RequestCancel None id at_ (mkFS dir []) = (mkFS dir [], Ok (Run s)).
Proof.
  intros Hc Hid Hdone. destruct (content_file _ _ _ Hc) as (name & d & sy & Hp & Hd & Hs).
  unfold fs_RequestCancel, ctx_Err. go_step. rewrite Hp. go_step.
  go_step by by apply (loadPath_runs dir name id d sy s).
  unfold IsWorkflowTerminalForStore. destruct (isWorkflowTerminal (run_Status (Run s))); [done|].
  destruct Hdone as [|Hr]; [done|]. by rewrite bool_decide_eq_true_2.
Qed.

(** cancellation requests are idempotent.  The first request for an
    unfinished run records its time and advances the revision by one; a later
    request, or one for a finished run, returns the stored run and changes
    nothing. *)
Theorem filestore_cancel_once dir id s at_ :
  fs_ok (mkFS dir []) -> fs_content (mkFS dir []) id = Some s -> ID (Run s) = id -> sanitize id = id ->
  isWorkflowTerminal (run_Status (Run s)) = false -> CancelRequestedAt (Run s) = None ->
  snapshot_encodable (cancel_requested at_ s) = true ->
  exists dir', fs_RequestCancel None id at_ (mkFS dir []) = (mkFS dir' [], Ok (Run (cancel_requested at_ s))) /\
    fs_content (mkFS dir' []) id = Some (snapshot_roundtrip (cancel_requested at_ s)) /\
    forall at2, exists run, fs_RequestCancel None id at2 (mkFS dir' []) = (mkFS dir' [], Ok run) /\
      CancelRequestedAt run = Some at_ /\ Revision run = u64 (Revision (Run s) + 1).
Proof.
  intros Hok Hc Hid Hsan Hnt Hreq Henc. destruct (content_file _ _ _ Hc) as (name & d & sy & Hp & Hd & Hs).
  destruct (writeLocked_runs dir name (cancel_requested at_ s) Henc) as [dir' Hw].
  assert (Hrun : fs_RequestCancel None id at_ (mkFS dir []) = (mkFS dir' [], Ok (Run (cancel_requested at_ s)))).
  { unfold fs_RequestCancel, ctx_Err. go_step. rewrite Hp. go_step.
    go_step by by apply (loadPath_runs dir name id d sy s).
    unfold IsWorkflowTerminalForStore. rewrite Hnt, Hreq. cbn [bool_decide].
    rewrite bool_decide_eq_false_2 by by intros [? [=]].
    by go_step by exact Hw. }
  assert (Hc2 : fs_content (mkFS dir' []) id = Some (snapshot_roundtrip (cancel_requested at_ s))).
  { pose proof (writeLocked_atomic dir None name (cancel_requested at_ s) _ _ _ (files_start _ Hok) Hw) as Hf.
    destruct (files_written (mkFS dir []) _ id name _ Hp Hf) as [_ Hw2].
    specialize (Hw2 id). rewrite decide_True in Hw2 by done. exact Hw2. }
  exists dir'. split_and!; [done|done|]. intros at2. eexists. split; [|split].
  - eapply fs_RequestCancel_reads; [exact Hc2| |right; by eexists]. cbn. by rewrite Hid.
  - done.
  - done.
Qed.

Lemma filestore_cancel_once_witness :
  exists dir', fs_RequestCancel None "run" 1005 (mkFS (entries sample_fs) []) =
    (mkFS dir' [], Ok (Run (cancel_requested 1005 (sample_run [])))).
Proof.
  destruct (filestore_cancel_once (entries sample_fs) "run" (sample_run []) 1005) as (dir' & H & _).
  - exact sample_fs_ok.
  - vm_compute; reflexivity.
  - vm_compute; reflexivity.
  - vm_compute; reflexivity.
  - vm_compute; reflexivity.
  - vm_compute; reflexivity.
  - vm_compute; reflexivity.
  - exists dir'. exact H.
Defined.

(** *** Recovery listing *)
Definition readable (dir : gmap string entry) (name : string) (d : document) : Prop :=
  exists s, path (trim_suffix name ".json") = Ok name /\ Decode d = Ok s /\ ID (Run s) = trim_suffix name ".json".

Lemma fs_Load_runs dir name d sy s :
  dir !! name = Some (File d sy) -> path (trim_suffix name ".json") = Ok name -> Decode d = Ok s ->
  ID (Run s) = trim_suffix name ".json" ->
  fs_Load None (trim_suffix name ".json") (mkFS dir []) = (mkFS dir [], Ok s) /\
  fs_content (mkFS dir []) (trim_suffix name ".json") = Some s.
Proof.
  intros Hd Hp Hs Hid. split; [|by eapply fs_content_file].
  unfold fs_Load, ctx_Err. go_step. rewrite Hp. go_step. by eapply loadPath_runs.
Qed.

Lemma listNonTerminal_runs dir l :
  (forall name e, (name, e) ∈ l -> dir !! name = Some e) -> NoDup l.*1 ->
  (forall name d sy, dir !! name = Some (File d sy) -> has_suffix name ".json" = true -> readable dir name d) ->
  exists ids, listNonTerminal None l (mkFS dir []) = (mkFS dir [], Ok ids) /\ NoDup ids /\
    forall id, id ∈ ids <-> exists s e, ((id ++ ".json")%string, e) ∈ l /\
      fs_content (mkFS dir []) id = Some s /\ isWorkflowTerminal (run_Status (Run s)) = false.
Proof.
  intros Hl Hnd Hread. induction l as [|[name e] l IH].
  { exists []. split_and!; [done|constructor|]. intros id. split; [by intros ?%elem_of_nil|].
    by intros (s & e & ?%elem_of_nil & _). }
  cbn in Hnd. apply NoDup_cons in Hnd as [Hname Hnd].
  destruct IH as (ids & Hrun & Hids & Hin); [intros n x Hx; apply Hl; by right|done|].
  assert (Hfresh : forall id x, name = (id ++ ".json")%string -> ((id ++ ".json")%string, x) ∈ l -> False).
  { intros id x -> Hx. destruct Hname. by apply (list_elem_of_fmap_2 fst) in Hx. }
  cbn [listNonTerminal].
  assert (Hskip : forall b, match e with Directory => true | File _ _ => false end || negb (has_suffix name ".json") = b ->
    b = true -> forall id s, name = (id ++ ".json")%string -> fs_content (mkFS dir []) id = Some s -> False).
  { intros b Hb -> id s -> Hc. rewrite has_suffix_app, orb_false_r in Hb.
    destruct (content_file _ _ _ Hc) as (n & d & sy & ->%path_json & Hd & _). cbn in Hd.
    rewrite (Hl _ e) in Hd by by left. injection Hd as ->. done. }
  destruct (match e with Directory => true | File _ _ => false end || negb (has_suffix name ".json")) eqn:Hc.
  - exists ids. split_and!; [done|done|]. intros id. rewrite Hin. split.
    + intros (s & x & Hx & ?). exists s, x. split; [by right|done].
    + intros (s & x & [[= E ->]|Hx]%elem_of_cons & Hs & Hnt); [|by exists s, x].
      exfalso. by eapply (Hskip true eq_refl eq_refl id s).
  - apply orb_false_iff in Hc as [He Hsuf%negb_false_iff]. destruct e as [d sy|]; [|done].
    assert (Hd : dir !! name = Some (File d sy)) by (apply Hl; by left).
    destruct (Hread name d sy Hd Hsuf) as (s & Hp & Hs & Hid).
    pose proof (path_json _ _ Hp) as Hn.
    destruct (fs_Load_runs dir name d sy s Hd Hp Hs Hid) as [Hload Hcont]. cbv zeta.
    go_step by exact Hload. go_step by exact Hrun. unfold IsWorkflowTerminalForStore.
    set (id0 := trim_suffix name ".json") in *.
    assert (Hiff : forall id, (exists s e, ((id ++ ".json")%string, e) ∈ (name, File d sy) :: l /\
        fs_content (mkFS dir []) id = Some s /\ isWorkflowTerminal (run_Status (Run s)) = false) <->
      (id = id0 /\ isWorkflowTerminal (run_Status (Run s)) = false) \/ id ∈ ids).
    { intros id. rewrite Hin. split.
      - intros (s' & x & [[= E ->]|Hx]%elem_of_cons & Hs' & Hnt); [left|right; by exists s', x].
        rewrite Hn in E. apply app_suffix_inj in E as ->. rewrite Hcont in Hs'. by injection Hs' as <-.
      - intros [[-> Hnt]|(s' & x & Hx & ?)]; [|exists s', x; split; [by right|done]].
        exists s, (File d sy). split_and!; [rewrite <-Hn; by left|done|done]. }
    destruct (isWorkflowTerminal (run_Status (Run s))) eqn:Hterm.
    + exists ids. split_and!; [done|done|]. intros id. rewrite Hiff. split; [by right|]. by intros [[_ ?]|?].
    + exists (id0 :: ids). split_and!; [done| |].
      * apply NoDup_cons. split; [|done]. rewrite Hin. intros (s' & x & Hx & _). by eapply Hfresh.
      * intros id. rewrite Hiff, elem_of_cons. split; [by intros [->|?]; auto|]. by intros [[-> _]|?]; auto.
Qed.

(** the recovery listing is exact.  When every run file in the directory is
    readable, [ListNonTerminal] returns, once each, exactly the runs that are
    not finished; temporary files and directories are ignored. *)
Theorem filestore_list_exact dir :
  (forall name d sy, dir !! name = Some (File d sy) -> has_suffix name ".json" = true -> readable dir name d) ->
  exists ids, fs_ListNonTerminal None (mkFS dir []) = (mkFS dir [], Ok ids) /\ NoDup ids /\
    forall id, id ∈ ids <-> exists s, fs_content (mkFS dir []) id = Some s /\
      isWorkflowTerminal (run_Status (Run s)) = false.
Proof.
  intros Hread. set (l := merge_sort by_name (map_to_list dir)).
  assert (Hperm : l ≡ₚ map_to_list dir) by apply merge_sort_Permutation.
  destruct (listNonTerminal_runs dir l) as (ids & Hrun & Hnd & Hin).
  - intros name e. rewrite Hperm. by apply elem_of_map_to_list.
  - rewrite Hperm. apply NoDup_fst_map_to_list.
  - done.
  - exists ids. split_and!; [|done|].
    + unfold fs_ListNonTerminal, ctx_Err, os_ReadDir, syscall. go_step. by go_step by reflexivity.
    + intros id. rewrite Hin. split; [intros (s & e & _ & ?); by exists s|].
      intros (s & Hs & Hnt). destruct (content_file _ _ _ Hs) as (name & d & sy & ->%path_json & Hd & _).
      exists s, (File d sy). split_and!; [|done|done]. rewrite Hperm. by apply elem_of_map_to_list.
Qed.

Lemma filestore_list_exact_witness :
  exists ids, fs_ListNonTerminal None (mkFS (entries sample_fs) []) = (mkFS (entries sample_fs) [], Ok ids) /\
    ("run" ∈ ids)%string.
Proof.
  destruct (filestore_list_exact (entries sample_fs)) as (ids & H1 & _ & H2).
  - intros name d sy Hd _. assert (E : entries sample_fs = {["run.json" := File (Encoded (sample_run [])) true]})
      by (vm_compute; reflexivity).
    rewrite E in Hd. apply lookup_singleton_Some in Hd as [<- [= <- <-]]. exists (sample_run []).
    split; [vm_compute; reflexivity|split; vm_compute; reflexivity].
  - exists ids. split; [exact H1|]. apply H2. exists (sample_run []). split; vm_compute; reflexivity.
Defined.
