(* ===== verification/Engine.v ===== *)
(** * The local engine

    src/workflow/engine.go and [Engine.Resume] of src/workflow/recovery.go.
    One goroutine owns a run: it registers the run, loads it, and then handles
    completions, timeouts and retry timers one at a time; every change is
    computed on a copy, saved as a change set, and only then adopted.  The
    environment is made explicit: the readings of the clock, the moments at
    which the run context turns out to be done, and the order in which events
    arrive are parameters, the store is any implementation of the interface of
    Stores.v, and starting an executor is an entry in a log. *)
From S2P Require Import Prelude Hoare GoStrings Json Model State Graph Compiler Distributed ChangeSet Stores Recovery.

(** What can end a run context: the business cancellation of [Engine.Cancel]
    or an executor, or the end of the caller's context. *)
Definition errBusinessCancel : error := Sentinel "errBusinessCancel".
Definition Canceled : error := Sentinel "context.Canceled".
Inductive signal : Type :=
| SigBusiness
| SigParent (e : error).

(** A started executor call, with the timeout of its attempt. *)
Record launch := mkLaunch {
  la_task : nat;
  la_attempt : Z;
  la_request : ExecutionRequest;
  la_timeout : duration;
}.
(** A registered retry timer. *)
Record timer := mkTimer { ti_task : nat; ti_attempt : Z; ti_delay : duration }.

(** The messages of the three channels, and the run context being done. *)
Inductive loop_event : Type :=
| Completed (taskIndex : nat) (attempt : Z) (response : ExecutionResponse) (finished : time)
| TimedOut (taskIndex : nat) (attempt : Z) (at_ : time)
| RetryReady (taskIndex : nat) (attempt : Z) (at_ : time)
| Done (sig : signal).

(** The engine, the run context and the variables of [executeSnapshot]. *)
Record engine (St : Type) := mkEngine {
  store : St;
  active : gset RunID;
  compiled_cache : gmap RunID CompiledWorkflow;
  clock_readings : nat;
  context_polls : nat;
  parent : Context;
  cause : option error;
  snapshot : RunSnapshot;
  activeAttempts : gset (nat * Z);
  running : Z;
  launched : list launch;
  timers : list timer;
}.
Arguments mkEngine {St}.
Arguments store {St}. Arguments active {St}. Arguments compiled_cache {St}.
Arguments clock_readings {St}. Arguments context_polls {St}. Arguments parent {St}. Arguments cause {St}.
Arguments snapshot {St}. Arguments activeAttempts {St}. Arguments running {St}.
Arguments launched {St}. Arguments timers {St}.

Section updates.
Context {St : Type}.
Definition set_store v (e : engine St) : engine St := mkEngine v (active e) (compiled_cache e) (clock_readings e) (context_polls e)
  (parent e) (cause e) (snapshot e) (activeAttempts e) (running e) (launched e) (timers e).
Definition set_active v (e : engine St) : engine St := mkEngine (store e) v (compiled_cache e) (clock_readings e) (context_polls e)
  (parent e) (cause e) (snapshot e) (activeAttempts e) (running e) (launched e) (timers e).
Definition set_compiled v (e : engine St) : engine St := mkEngine (store e) (active e) v (clock_readings e) (context_polls e)
  (parent e) (cause e) (snapshot e) (activeAttempts e) (running e) (launched e) (timers e).
Definition set_readings v (e : engine St) : engine St := mkEngine (store e) (active e) (compiled_cache e) v (context_polls e)
  (parent e) (cause e) (snapshot e) (activeAttempts e) (running e) (launched e) (timers e).
Definition set_polls v (e : engine St) : engine St := mkEngine (store e) (active e) (compiled_cache e) (clock_readings e) v
  (parent e) (cause e) (snapshot e) (activeAttempts e) (running e) (launched e) (timers e).
Definition set_context p c (e : engine St) : engine St := mkEngine (store e) (active e) (compiled_cache e) (clock_readings e) (context_polls e)
  p c (snapshot e) (activeAttempts e) (running e) (launched e) (timers e).
Definition set_snapshot v (e : engine St) : engine St := mkEngine (store e) (active e) (compiled_cache e) (clock_readings e) (context_polls e)
  (parent e) (cause e) v (activeAttempts e) (running e) (launched e) (timers e).
Definition set_attempts v r (e : engine St) : engine St := mkEngine (store e) (active e) (compiled_cache e) (clock_readings e) (context_polls e)
  (parent e) (cause e) (snapshot e) v r (launched e) (timers e).
Definition add_launch l (e : engine St) : engine St := mkEngine (store e) (active e) (compiled_cache e) (clock_readings e) (context_polls e)
  (parent e) (cause e) (snapshot e) (activeAttempts e) (running e) (launched e ++ [l]) (timers e).
Definition set_timers v (e : engine St) : engine St := mkEngine (store e) (active e) (compiled_cache e) (clock_readings e) (context_polls e)
  (parent e) (cause e) (snapshot e) (activeAttempts e) (running e) (launched e) v.
End updates.

(** [NewEngine] before the first call. *)
Definition NewEngine {St} (st : St) : engine St :=
  mkEngine st ∅ ∅ 0 0 None None zero_RunSnapshot ∅ 0 [] [].

Section execution.
Context {St : Type} `{!enginePersistence St}.
(** The readings of [e.clock], and what becomes of the context before its k-th
    observation. *)
Context (clock : nat -> time) (interrupt : nat -> option signal).

(** ** The environment *)
Definition Now : go (engine St) time :=
  e ← get;
  _ ← modify (set_readings (S (clock_readings e)));
  mret (clock (clock_readings e)).

(** [context.WithCancelCause]: the first cause stays. *)
Definition deliver (sig : signal) : go (engine St) unit :=
  modify (fun e =>
    match sig with
    | SigBusiness => set_context (parent e) (Some (default errBusinessCancel (cause e))) e
    | SigParent err =>
      set_context (Some (default err (parent e))) (Some (default err (cause e))) e
    end).
Definition poll : go (engine St) unit :=
  e ← get;
  _ ← modify (set_polls (S (context_polls e)));
  match interrupt (context_polls e) with Some sig => deliver sig | None => mret tt end.

(** [runCtx.Err() != nil] *)
Definition stopped : go (engine St) bool :=
  _ ← poll;
  e ← get;
  mret (bool_decide (is_Some (cause e))).

Definition on_store {A} (m : go St A) : go (engine St) A := fun e =>
  let '(st, r) := m (store e) in (set_store st e, r).
(** A state operation on a copy of a snapshot. *)
Definition on_snapshot {A} (m : go RunSnapshot A) (s : RunSnapshot) : go (engine St) (RunSnapshot * A) := fun e =>
  match m (cloneRunSnapshot s) with
  | (s', Ok a) => (e, Ok (s', a))
  | (_, Err err) => (e, Err err)
  | (_, Panic) => (e, Panic)
  | (_, Diverge) => (e, Diverge)
  end.
(** [if err := m(); err != nil { ... }] *)
Definition attempt_call {S A} (m : go S A) : go S (error + A) := fun s =>
  match m s with
  | (s', Ok a) => (s', Ok (inr a))
  | (s', Err err) => (s', Ok (inl err))
  | (s', Panic) => (s', Panic)
  | (s', Diverge) => (s', Diverge)
  end.

(** ** Saving *)
Definition saveSnapshot (ctx : Context) (before after : RunSnapshot) : go (engine St) RunSnapshot :=
  let after' := nextRevision before after in
  change ← lift (changeSetFromSnapshots before after');
  _ ← on_store (store_Apply ctx change);
  mret after'.
(** With the caller's context, which may be done by now. *)
Definition saveSnapshot_ctx (before after : RunSnapshot) : go (engine St) RunSnapshot :=
  _ ← poll;
  e ← get;
  saveSnapshot (parent e) before after.

Definition forgetCompiled (id : RunID) : go (engine St) unit :=
  modify (fun e => set_compiled (delete id (compiled_cache e)) e).

(** ** Stopping *)
Fixpoint finalize_loop (left : nat) (at_ : time) (snapshot : RunSnapshot) : go (engine St) WorkflowRun :=
  match left with
  | O => throw ErrRevisionConflict
  | S left' =>
    if isWorkflowTerminal (run_Status (Run snapshot))
    then _ ← forgetCompiled (ID (Run snapshot)); mret (Run snapshot)
    else
      updated ← lift (CancelRunSnapshot snapshot at_);
      r ← attempt_call (saveSnapshot Background snapshot updated);
      match r with
      | inr updated => _ ← forgetCompiled (ID (Run updated)); mret (Run updated)
      | inl err =>
        if negb (errors_Is err ErrRevisionConflict) || bool_decide (left' = 0) then throw err
        else
          snapshot ← on_store (store_Load Background (ID (Run snapshot)));
          finalize_loop left' at_ snapshot
      end
  end.
Definition finalizeCancellation (snapshot : RunSnapshot) : go (engine St) WorkflowRun :=
  at_ ← Now;
  finalize_loop 2 at_ snapshot.

Definition stoppedRunResult (snapshot : RunSnapshot) : go (engine St) WorkflowRun :=
  e ← get;
  if match cause e with Some err => errors_Is err errBusinessCancel | None => false end
  then finalizeCancellation snapshot
  else throw (default Canceled (cause e)).

Definition reconcilePersistedCancellation (id : RunID) (saveErr : error) : go (engine St) WorkflowRun :=
  if negb (errors_Is saveErr ErrRevisionConflict) then throw saveErr
  else
    snapshot ← on_store (store_Load Background id);
    if bool_decide (CancelRequestedAt (Run snapshot) = None) then throw saveErr
    else finalizeCancellation snapshot.

(** [if runCtx.Err() != nil { return e.stoppedRunResult(...) }; return err] *)
Definition stopped_or (snapshot : RunSnapshot) (err : error) : go (engine St) WorkflowRun :=
  stop ← stopped;
  if (stop : bool) then stoppedRunResult snapshot else throw err.

(** ** Starting tasks *)
Definition launch_task (compiled : CompiledWorkflow) (i : nat) (request : ExecutionRequest) (attempt : Z)
    : go (engine St) unit :=
  d ← deref (def_Tasks (definition compiled) !! i);
  _ ← modify (fun e => set_attempts ({[(i, attempt)]} ∪ activeAttempts e) (running e + 1)%Z e);
  modify (add_launch (mkLaunch i attempt request (millis (TimeoutMillis d)))).

Fixpoint startTasks (compiled : CompiledWorkflow) (i : nat) (tasks : list TaskRun) : go (engine St) unit :=
  match tasks with
  | [] => mret tt
  | task :: rest =>
    e ← get;
    if bool_decide (running e = Concurrency (definition compiled)) then mret tt
    else if bool_decide (Status task ≠ TaskReady) then startTasks compiled (S i) rest
    else
      now1 ← Now;
      now2 ← Now;
      '(updated, (request, attempt)) ← on_snapshot (prepareTask compiled i now1 now2) (snapshot e);
      updated ← saveSnapshot_ctx (snapshot e) updated;
      _ ← modify (set_snapshot updated);
      stop ← stopped;
      if (stop : bool) then throw Canceled
      else
        _ ← launch_task compiled i request attempt;
        startTasks compiled (S i) rest
  end.
Definition startReadyTasks (compiled : CompiledWorkflow) : go (engine St) unit :=
  stop ← stopped;
  if (stop : bool) then throw Canceled
  else e ← get; startTasks compiled 0 (Tasks (Run (snapshot e))).

(** [finishActiveAttempt] followed by [running--] *)
Definition finishActiveAttempt (key : nat * Z) : go (engine St) bool :=
  e ← get;
  if bool_decide (key ∈ activeAttempts e)
  then _ ← modify (set_attempts (activeAttempts e ∖ {[key]}) (running e - 1)%Z); mret true
  else mret false.

Definition scheduleRetry (taskIndex : nat) (task : TaskRun) : go (engine St) unit :=
  match ReadyAt task, last (Attempts task) with
  | Some readyAt, Some attempt =>
    now ← Now;
    let delay := time_sub readyAt now in
    modify (fun e => set_timers (timers e ++ [mkTimer taskIndex (Number attempt) (Z.max 0 delay)]) e)
  | _, _ => mret tt
  end.

(** ** The event loop *)

(** [startReadyTasks] with its error handling; [None]: go on. *)
Definition start_and_continue (compiled : CompiledWorkflow) : go (engine St) (option WorkflowRun) :=
  r ← attempt_call (startReadyTasks compiled);
  match r with
  | inr _ => mret None
  | inl err => e ← get; Some <$> stopped_or (snapshot e) err
  end.

(** Applies a state operation to a copy, saves and adopts it. *)
Definition settle (compiled : CompiledWorkflow) (operation : go RunSnapshot bool) (retried : option nat)
    : go (engine St) (option WorkflowRun) :=
  e ← get;
  '(updated, applied) ← on_snapshot operation (snapshot e);
  if (applied : bool) then
    r ← attempt_call (saveSnapshot_ctx (snapshot e) updated);
    match r with
    | inl err => Some <$> stopped_or (snapshot e) err
    | inr updated =>
      _ ← modify (set_snapshot updated);
      _ ← match retried with
          | Some i =>
            task ← deref (Tasks (Run updated) !! i);
            if bool_decide (Status task = TaskWaitingRetry) then scheduleRetry i task else mret tt
          | None => mret tt
          end;
      start_and_continue compiled
    end
  else start_and_continue compiled.

(** One received message. *)
Definition handle_event (compiled : CompiledWorkflow) (event : loop_event) : go (engine St) (option WorkflowRun) :=
  _ ← match event with Done sig => deliver sig | _ => mret tt end;
  stop ← stopped;
  e ← get;
  if (stop : bool) then Some <$> stoppedRunResult (snapshot e)
  else
    match event with
    | Completed i attempt response finished =>
      live ← finishActiveAttempt (i, attempt);
      if negb live then mret None
      else if bool_decide (Kind response = ResultCanceled)
      then _ ← deliver SigBusiness; Some <$> stoppedRunResult (snapshot e)
      else settle compiled
             (ApplyAttemptResult (Some compiled) (Z.of_nat i) attempt response finished) (Some i)
    | TimedOut i attempt at_ =>
      live ← finishActiveAttempt (i, attempt);
      if negb live then mret None
      else settle compiled (TimeoutAttempt (Some compiled) (Z.of_nat i) attempt at_) (Some i)
    | RetryReady i attempt at_ => settle compiled (MakeRetryReady (Z.of_nat i) attempt at_) None
    | Done _ => mret None
    end.

(** After the loop. *)
Definition finish_run : go (engine St) WorkflowRun :=
  e ← get;
  let s := snapshot e in
  if isWorkflowTerminal (run_Status (Run s))
  then _ ← forgetCompiled (ID (Run s)); mret (Run s)
  else
    let failed := hasFailedTask (Tasks (Run s)) in
    _ ← fail_if (negb failed && negb (allTasksSucceeded (Tasks (Run s))))
          (Errorf "workflow %q has no runnable tasks");
    now ← Now;
    '(updated, _) ← on_snapshot
       (if failed then transitionWorkflow WorkflowFailed now "one or more tasks failed"
        else transitionWorkflow WorkflowSucceeded now "all tasks succeeded") s;
    r ← attempt_call (saveSnapshot_ctx s updated);
    match r with
    | inl err => stopped_or s err
    | inr updated => _ ← forgetCompiled (ID (Run s)); mret (Run updated)
    end.

(** How far the events given so far take the run. *)
Inductive progress : Type :=
| Waiting
| Returned (run : WorkflowRun).

Fixpoint event_loop (compiled : CompiledWorkflow) (events : list loop_event) : go (engine St) progress :=
  stop ← stopped;
  e ← get;
  if (stop : bool) then Returned <$> stoppedRunResult (snapshot e)
  else if (0 <? running e)%Z then
    match events with
    | [] => mret Waiting
    | event :: rest =>
      r ← handle_event compiled event;
      match r with Some run => mret (Returned run) | None => event_loop compiled rest end
    end
  else if negb (hasWaitingRetry (Tasks (Run (snapshot e)))) then Returned <$> finish_run
  else
    (* only the retry channel is read: a message of an attempt stays in its channel *)
    match events with
    | [] => mret Waiting
    | event :: rest =>
      match event with
      | Completed _ _ _ _ | TimedOut _ _ _ => event_loop compiled rest
      | _ =>
        r ← handle_event compiled event;
        match r with Some run => mret (Returned run) | None => event_loop compiled rest end
      end
    end.

Fixpoint restore_timers (i : nat) (tasks : list TaskRun) : go (engine St) unit :=
  match tasks with
  | [] => mret tt
  | task :: rest =>
    _ ← (if bool_decide (Status task = TaskWaitingRetry) then scheduleRetry i task else mret tt);
    restore_timers (S i) rest
  end.

Definition executeSnapshot (compiled : CompiledWorkflow) (events : list loop_event) (s : RunSnapshot)
    : go (engine St) progress :=
  _ ← modify (fun e => set_attempts ∅ 0 (set_snapshot s e));
  pending ← (if bool_decide (run_Status (Run s) = WorkflowPending) then
      now ← Now;
      '(updated, _) ← on_snapshot (transitionWorkflow WorkflowRunning now "execution started") s;
      r ← attempt_call (saveSnapshot_ctx s updated);
      match r with
      | inl err => Some <$> stopped_or s err
      | inr updated =>
        _ ← modify (set_snapshot updated);
        stop ← stopped;
        if (stop : bool) then Some <$> stoppedRunResult updated else mret None
      end
    else mret None);
  match (pending : option WorkflowRun) with
  | Some run => mret (Returned run)
  | None =>
    e ← get;
    _ ← restore_timers 0 (Tasks (Run (snapshot e)));
    r ← start_and_continue compiled;
    match r with Some run => mret (Returned run) | None => event_loop compiled events end
  end.

(** ** Entry points *)
Definition CreateRun (newRunID : outcome RunID) (compiled : option CompiledWorkflow) : go (engine St) RunID :=
  match compiled with
  | None => throw (Errorf "compiled workflow is required")
  | Some compiled =>
    id ← lift newRunID;
    now ← Now;
    s ← lift (newRunSnapshot id compiled now);
    e ← get;
    _ ← on_store (store_Create (parent e) s);
    _ ← modify (fun e => set_compiled (<[id := compiled]> (compiled_cache e)) e);
    mret id
  end.

Definition validateStoredRunID (snapshot : RunSnapshot) (requestedID : RunID) : go (engine St) unit :=
  fail_if (bool_decide (ID (Run snapshot) ≠ requestedID))
    (Errorf "stored run id %q does not match requested run %q").

(** [registerActiveRun] and the deferred [release] around a call. *)
Definition releasing {A} (id : RunID) (body : go (engine St) A) : go (engine St) A := fun e =>
  let '(e', r) := body e in (set_active (active e' ∖ {[id]}) e', r).
Definition with_active_run {A} (ctx : Context) (id : RunID) (body : go (engine St) A) : go (engine St) A :=
  e ← get;
  _ ← fail_if (bool_decide (id ∈ active e)) (Errorf "run %q is already executing");
  _ ← modify (fun e => set_context ctx ctx (set_active ({[id]} ∪ active e) e));
  releasing id body.

Definition compileStored (def : WorkflowDefinition) : outcome CompiledWorkflow :=
  match Compile def with
  | Err err => Err (Wrapf "compile stored definition: %w" err)
  | r => r
  end.
Definition compiledForRun (id : RunID) (snapshot : RunSnapshot) : go (engine St) CompiledWorkflow :=
  e ← get;
  match compiled_cache e !! id with
  | Some compiled => mret compiled
  | None =>
    match Definition_ snapshot with
    | None => throw (Errorf "run %q has no stored definition")
    | Some def =>
      compiled ← lift (compileStored def);
      _ ← modify (fun e => set_compiled (<[id := compiled]> (compiled_cache e)) e);
      mret compiled
    end
  end.

(** [run, err := e.executeSnapshot(...); if err == nil { return run, nil };
    return e.reconcilePersistedCancellation(ctx, id, err)] *)
Definition execute_reconciled (compiled : CompiledWorkflow) (id : RunID) (events : list loop_event)
    (s : RunSnapshot) : go (engine St) progress :=
  r ← attempt_call (executeSnapshot compiled events s);
  match r with
  | inr p => mret p
  | inl err => Returned <$> reconcilePersistedCancellation id err
  end.

Definition Execute (ctx : Context) (id : RunID) (events : list loop_event) : go (engine St) progress :=
  with_active_run ctx id (
    s ← on_store (store_Load Background id);
    _ ← validateStoredRunID s id;
    if isWorkflowTerminal (run_Status (Run s)) then mret (Returned (Run s))
    else if bool_decide (is_Some (CancelRequestedAt (Run s))) then Returned <$> finalizeCancellation s
    else
      stop ← stopped;
      if (stop : bool) then Returned <$> stoppedRunResult s
      else
        compiled ← compiledForRun id s;
        stop ← stopped;
        if (stop : bool) then Returned <$> stoppedRunResult s
        else execute_reconciled compiled id events s).

Definition Resume (ctx : Context) (id : RunID) (events : list loop_event) : go (engine St) progress :=
  with_active_run ctx id (
    s ← on_store (store_Load Background id);
    _ ← fail_if (bool_decide (Version s ≠ currentSnapshotVersion)) (Errorf "unsupported snapshot version %d");
    _ ← validateStoredRunID s id;
    if isWorkflowTerminal (run_Status (Run s)) then mret (Returned (Run s))
    else
      _ ← fail_if (bool_decide (run_Status (Run s) ≠ WorkflowPending)
                   && bool_decide (run_Status (Run s) ≠ WorkflowRunning))
            (Errorf "run %q has unsupported workflow status %q");
      if bool_decide (is_Some (CancelRequestedAt (Run s))) then Returned <$> finalizeCancellation s
      else
        stop ← stopped;
        if (stop : bool) then Returned <$> stoppedRunResult s
        else
          match Definition_ s with
          | None => throw (Errorf "run %q has no stored definition")
          | Some def =>
            compiled ← lift (compileStored def);
            _ ← fail_if (bool_decide (DefinitionID (Run s) ≠ wf_ID (definition compiled)))
                  (Errorf "run %q definition id %q does not match stored definition %q");
            now ← Now;
            '(updated, _) ← on_snapshot (prepareForResume compiled now) s;
            r ← attempt_call (saveSnapshot_ctx s updated);
            match r with
            | inl err =>
              stop ← stopped;
              if (stop : bool) then Returned <$> stoppedRunResult s
              else Returned <$> reconcilePersistedCancellation id err
            | inr updated =>
              stop ← stopped;
              if (stop : bool) then Returned <$> stoppedRunResult updated
              else
                _ ← modify (fun e => set_compiled (<[id := compiled]> (compiled_cache e)) e);
                execute_reconciled compiled id events updated
            end
          end).

Definition GetRun (ctx : Context) (id : RunID) : go (engine St) WorkflowRun :=
  s ← on_store (store_Load ctx id);
  _ ← validateStoredRunID s id;
  mret (Run s).

(** A running [Execute] or [Resume] of the same run gets the signal; [Cancel]
    itself then only reports that it was delivered. *)
Definition Cancel (ctx : Context) (id : RunID) : go (engine St) unit :=
  e ← get;
  if bool_decide (id ∈ active e) then deliver SigBusiness
  else
    s ← on_store (store_Load ctx id);
    if isWorkflowTerminal (run_Status (Run s)) then mret tt
    else
      now ← Now;
      updated ← lift (CancelRunSnapshot s now);
      _ ← saveSnapshot ctx s updated;
      forgetCompiled id.
End execution.
