(* ===== verification/EngineSteps.v ===== *)
(** * What the engine's state operations do to running tasks

    The functional results of RunOperations.v and RunResults.v, restated for
    the engine: which tasks run afterwards, and that a local run never has a
    queued task. *)
From S2P Require Import Prelude GoStrings Json Model State Graph Compiler Scheduling Distributed Effects RunInvariant RunOperations RunResults RunProperties ChangeSet.
From stdpp Require Import relations.

Definition running_task (s : RunSnapshot) (j : nat) (t : TaskRun) : Prop :=
  Tasks (Run s) !! j = Some t /\ Status t = TaskRunning.

(** Task [i] stopped running, every other task runs as before. *)
Definition stops_only (i : nat) (s s' : RunSnapshot) : Prop :=
  (forall j t, j ≠ i -> running_task s' j t <-> running_task s j t) /\
  (forall t, ~ running_task s' i t).

Definition same_running (s s' : RunSnapshot) : Prop := forall j t, running_task s' j t <-> running_task s j t.

(** A run of the local engine, once started. *)
Record local_run (c : CompiledWorkflow) (s : RunSnapshot) : Prop := {
  lr_wf : run_wf c s;
  lr_started : run_Status (Run s) ≠ WorkflowPending;
  lr_no_queue : forall i t, Tasks (Run s) !! i = Some t -> Status t ≠ TaskQueued;
}.

(** An operation of the event loop. *)
Definition engine_step (c : CompiledWorkflow) (s s' : RunSnapshot) : Prop :=
  good_step c s s' /\ local_run c s'.

Lemma settled_not_pending sts : settled_status sts ≠ WorkflowPending.
Proof. unfold settled_status. repeat case_match; done. Qed.

Section steps.
Context (c : CompiledWorkflow) (Hc : compiled_wf c).

Lemma only_task_stops i t' s s' :
  only_task i t' s s' -> is_Some (Tasks (Run s) !! i) -> Status t' ≠ TaskRunning -> stops_only i s s'.
Proof.
  intros [T _] Hi Hne. unfold stops_only, running_task. rewrite T. split.
  - intros j t Hj. by rewrite list_lookup_insert_ne.
  - intros t [H Hr]. rewrite list_lookup_insert_eq in H by (by apply lookup_lt_is_Some). by simplify_eq.
Qed.

Lemma only_task_no_queue i t' s s' :
  only_task i t' s s' -> (forall j t, Tasks (Run s) !! j = Some t -> Status t ≠ TaskQueued) ->
  Status t' ≠ TaskQueued -> forall j t, Tasks (Run s') !! j = Some t -> Status t ≠ TaskQueued.
Proof.
  intros [T _] H Hne j t. rewrite T. intros [(_ & <- & _)|[_ Hj]]%list_lookup_insert_Some; [done|by eapply H].
Qed.

(** A change that moves other tasks from waiting only. *)
Lemma imap_stops f i t' s s' :
  Tasks (Run s') = imap f (<[i := t']> (Tasks (Run s))) -> is_Some (Tasks (Run s) !! i) ->
  Status (f i t') ≠ TaskRunning ->
  (forall j u, j ≠ i -> Tasks (Run s) !! j = Some u -> f j u = u \/
     (Status u = TaskWaitingDependencies /\ Status (f j u) ≠ TaskRunning)) ->
  stops_only i s s'.
Proof.
  intros T Hi Hne Hf. unfold stops_only, running_task. rewrite T. split.
  - intros j t Hj. rewrite list_lookup_imap, list_lookup_insert_ne by done.
    destruct (Tasks (Run s) !! j) as [u|] eqn:Hu; cbn; [|by split; intros []].
    destruct (Hf j u Hj Hu) as [->|[Hw Hn]]; [done|]. split; intros [[= <-] Hr]; congruence.
  - intros t [H Hr]. rewrite list_lookup_imap, list_lookup_insert_eq in H by (by apply lookup_lt_is_Some).
    cbn in H. by simplify_eq.
Qed.

Lemma imap_no_queue f i t' s s' :
  Tasks (Run s') = imap f (<[i := t']> (Tasks (Run s))) ->
  (forall j t, Tasks (Run s) !! j = Some t -> Status t ≠ TaskQueued) ->
  Status t' ≠ TaskQueued -> (forall j u, Status u ≠ TaskQueued -> Status (f j u) ≠ TaskQueued) ->
  forall j t, Tasks (Run s') !! j = Some t -> Status t ≠ TaskQueued.
Proof.
  intros T H Hne Hf j t. rewrite T, list_lookup_imap.
  destruct (<[i := t']> (Tasks (Run s)) !! j) as [u|] eqn:Hu; [|done]. intros [= <-]. apply Hf.
  apply list_lookup_insert_Some in Hu as [(_ & <- & _)|[_ Hj]]; [done|by eapply H].
Qed.

Lemma succeeds_local i t result at_ s s' :
  local_run c s -> running_task s i t -> succeeds c i (succeeded_task result at_ t) at_ s s' ->
  engine_step c s s' /\ stops_only i s s'.
Proof.
  intros [Hwf Hst Hq] [Ht Hr] Hs. pose proof (succeeds_evolves c Hc i t result at_ s s' Hwf Ht Hr Hs) as Hev.
  destruct Hs as ([Hwf' F] & T & R & Hsts & Hws).
  assert (Hws0 : run_Status (Run s) = WorkflowRunning).
  { eapply running_run; [exact Hwf|exact Ht|by rewrite Hr|by rewrite Hr]. }
  pose proof (status_lookup _ _ _ Ht) as Hsti. rewrite Hr in Hsti.
  split; [split; [by split|]; split; [done| |]|].
  - rewrite Hws. apply settled_not_pending.
  - eapply imap_no_queue; [exact T|done|done|]. intros j u Hu. unfold release_task. by case_match.
  - eapply imap_stops; [exact T|by eexists| |].
    { unfold release_task. by case_match. }
    intros j u Hj Hu. unfold release_task.
    destruct (bool_decide (j ∈ default [] (successors c !! i)) && bool_decide (RemainingDependencies (Run s) !! j = Some 1%Z))
      eqn:E; [right|by left]. apply andb_true_iff in E as [E1%bool_decide_eq_true E2%bool_decide_eq_true].
    split; [|done]. destruct (successors c !! i) as [l|] eqn:Hl; [|by apply not_elem_of_nil in E1].
    destruct (release_ready c Hc i j s 1 u (rw_core _ _ Hwf)) as (_ & Hw & _); try done.
    + by rewrite Hws0.
    + by exists l.
    + by apply Hw.
Qed.

Lemma fails_local i t result to at_ s s' :
  local_run c s -> running_task s i t -> fails c i (failed_task result to at_ t) at_ s s' ->
  engine_step c s s' /\ stops_only i s s'.
Proof.
  intros [Hwf Hst Hq] [Ht Hr] Hf. pose proof (fails_evolves c Hc i t result to at_ s s' Hwf Ht Hr Hf) as Hev.
  destruct Hf as ([Hwf' F] & (reached & Hreach & T & Hsts) & R & Hws).
  assert (Hws0 : run_Status (Run s) = WorkflowRunning).
  { eapply running_run; [exact Hwf|exact Ht|by rewrite Hr|by rewrite Hr]. }
  pose proof (status_lookup _ _ _ Ht) as Hsti. rewrite Hr in Hsti.
  split; [split; [by split|]; split; [done| |]|].
  - rewrite Hws. apply settled_not_pending.
  - eapply imap_no_queue; [exact T|done|done|]. intros j u Hu. unfold skip_if. by case_match.
  - eapply imap_stops; [exact T|by eexists| |].
    { unfold skip_if. by case_match. }
    intros j u Hj Hu. unfold skip_if. destruct (reached j && negb (isTaskTerminal (Status u))) eqn:E; [right|by left].
    apply andb_true_iff in E as [E1 E2%negb_true_iff]. split; [|done].
    apply (skip_legal c Hc s j TaskRunning u (rw_core _ _ Hwf)); [by rewrite Hws0| |done|done].
    exists i. split; [by apply Hreach|done].
Qed.

Lemma retries_or_fails_local i t d result to at_ s s' :
  local_run c s -> running_task s i t -> retries_or_fails c i t d result to at_ s s' ->
  engine_step c s s' /\ stops_only i s s'.
Proof.
  intros Hl Ht Hrf. destruct Hl as [Hwf Hst Hq]. pose proof Ht as [Hi Hr].
  pose proof (retries_or_fails_evolves c Hc i t d result to at_ s s' Hwf Hi Hr Hrf) as [[_ F] Hev].
  unfold retries_or_fails in Hrf.
  destruct (Z.of_nat (length (Attempts t)) <? MaxAttempts (Retry d))%Z; [|by eapply fails_local].
  destruct Hrf as ([Hwf' _] & Hot & Hws). split; [split; [by split|]; split; [done| |]|].
  - by rewrite Hws.
  - by eapply only_task_no_queue.
  - eapply only_task_stops; [done|by eexists|done].
Qed.

Lemma running_definition s i t :
  run_wf c s -> Tasks (Run s) !! i = Some t -> exists d, def_Tasks (definition c) !! i = Some d.
Proof. intros H Ht. destruct (task_definition c Hc s i t (rw_core _ _ H) Ht) as (d & ? & _). by exists d. Qed.

(** ** The operations of the event loop *)
Lemma apply_local i k t response at_ s :
  local_run c s -> running_task s i t -> k = Z.of_nat (length (Attempts t)) ->
  forall s' r, ApplyAttemptResult (Some c) (Z.of_nat i) k response at_ s = (s', r) ->
  known_result (Kind response) = true ->
  r = Ok true /\ engine_step c s s' /\ stops_only i s s'.
Proof.
  intros Hl Ht -> s' r Hrun Hk. pose proof Hl as [Hwf _ _]. pose proof Ht as [Hi Hr].
  destruct (running_definition s i t Hwf Hi) as [d Hd].
  destruct (apply_active c Hc i t d response at_ s Hwf Hi Hr Hd Hk) as (s1 & Hrun1 & Happ).
  rewrite Hrun1 in Hrun. injection Hrun as <- <-. split; [done|]. unfold applied in Happ.
  destruct (Kind response); try done.
  - by eapply succeeds_local.
  - by eapply retries_or_fails_local.
  - by eapply fails_local.
Qed.

Lemma apply_unknown i t response at_ s :
  run_wf c s -> running_task s i t -> known_result (Kind response) = false ->
  exists e, ApplyAttemptResult (Some c) (Z.of_nat i) (Z.of_nat (length (Attempts t))) response at_ s = (s, Err e).
Proof.
  intros Hwf [Hi Hr] Hk. destruct (running_attempt c Hc s i t Hwf Hi Hr) as (a & Ha & Hs & Hn).
  unfold ApplyAttemptResult. rewrite <-Hn.
  go_step by by apply (activeAttempt_run s i t a). rewrite Hk. by eexists.
Qed.

Lemma timeout_local i k t at_ s :
  local_run c s -> running_task s i t -> k = Z.of_nat (length (Attempts t)) ->
  exists s', TimeoutAttempt (Some c) (Z.of_nat i) k at_ s = (s', Ok true) /\
    engine_step c s s' /\ stops_only i s s'.
Proof.
  intros Hl Ht ->. pose proof Hl as [Hwf _ _]. pose proof Ht as [Hi Hr].
  destruct (running_definition s i t Hwf Hi) as [d Hd].
  destruct (timeout_active c Hc i t d at_ s Hwf Hi Hr Hd) as (s1 & Hrun1 & Hrf).
  exists s1. split; [done|]. by eapply retries_or_fails_local.
Qed.

(** A timer either wakes its task or changes nothing. *)
Lemma retry_local i k at_ s :
  local_run c s ->
  forall s' r, MakeRetryReady (Z.of_nat i) k at_ s = (s', r) ->
  (r = Ok true /\ engine_step c s s' /\ isWorkflowTerminal (run_Status (Run s)) = false /\ same_running s s') \/ (s' = s /\ r ≠ Ok true).
Proof.
  intros [Hwf Hst Hq] s' r Hrun. unfold MakeRetryReady in Hrun.
  destruct (Tasks (Run s) !! i) as [t|] eqn:Ht.
  2:{ right. unfold mbind, go_bind, get, fail_if in Hrun. unfold out_of_range in Hrun.
      apply lookup_ge_None in Ht. rewrite (proj2 (Z.leb_le (Z.of_nat (length (Tasks (Run s)))) (Z.of_nat i))) in Hrun by lia.
      rewrite orb_true_r in Hrun. by injection Hrun as <- <-. }
  unfold mbind, go_bind, get in Hrun. rewrite (in_range _ _ _ Ht) in Hrun. cbn in Hrun.
  rewrite Nat2Z.id, Ht in Hrun. cbn in Hrun.
  destruct (Status t) eqn:Hs; try (right; by injection Hrun as <- <-).
  destruct (ReadyAt t) as [ra|] eqn:Hra; [|right; by injection Hrun as <- <-].
  destruct (last (Attempts t)) as [a|] eqn:Ha; [|right; by injection Hrun as <- <-].
  destruct (bool_decide (Number a ≠ k) || before at_ ra) eqn:Hd; [right; by injection Hrun as <- <-|left].
  apply orb_false_iff in Hd as [Hd1 Hd2]. rewrite bool_decide_eq_false in Hd1. apply dec_stable in Hd1.
  unfold before in Hd2. apply Z.ltb_ge in Hd2.
  destruct (retry_ready_run c Hc i t at_ ra a s Hwf Ht Hs Hra Hd2 Ha) as (s1 & Hrun1 & [Hwf1 F] & Hot & Hws1).
  assert (E : (s1, Ok true) = (s', r)).
  { rewrite <-Hrun1, <-Hrun. unfold MakeRetryReady, mbind, go_bind, get.
    rewrite (in_range _ _ _ Ht). cbn. rewrite Nat2Z.id, Ht. cbn. rewrite Hs, Hra, Ha, Hd1.
    rewrite bool_decide_eq_false_2 by (intros X; by apply X). unfold before. rewrite (proj2 (Z.ltb_ge _ _) Hd2). done. }
  injection E as <- <-. split; [done|]. split; [split|split].
  - split_and!; [done|done|]. eapply evolves_one; [exact Ht|apply Hot|].
    apply task_evolves_after; [done|by rewrite Hs].
  - split; [done|by rewrite Hws1|]. by eapply only_task_no_queue.
  - rewrite (running_run c s i t Hwf Ht); [done|by rewrite Hs|by rewrite Hs].
  - destruct Hot as [T _]. intros j u. unfold running_task. rewrite T. destruct (decide (j = i)) as [->|Hne].
    + rewrite list_lookup_insert_eq by (by eapply lookup_lt_Some). rewrite Ht. split; intros [[= <-] E]; [done|].
      congruence.
    + by rewrite list_lookup_insert_ne.
Qed.
End steps.

(** ** Saving keeps everything but the revision *)
Lemma next_run_wf c s s' : run_wf c s' -> run_wf c (nextRevision s s').
Proof.
  intros [[H1 H2 H3 H4 H5 H6] H7]. split; [|exact H7].
  split; [exact H1|exact H2|by apply nextRevision_audit|exact H4|exact H5|exact H6].
Qed.

Lemma next_local c s s' : local_run c s' -> local_run c (nextRevision s s').
Proof. intros [H1 H2 H3]. split; [by apply next_run_wf|exact H2|exact H3]. Qed.

Lemma next_running s s' j t : running_task (nextRevision s s') j t <-> running_task s' j t.
Proof. done. Qed.

Section starting.
Context (c : CompiledWorkflow) (Hc : compiled_wf c) (Hcl : cloneable c).

(** Starting task [i]: a new attempt of [i] runs, everything else as before. *)
Definition starts (i : nat) (t : TaskRun) (s s' : RunSnapshot) : Prop :=
  (forall j, j ≠ i -> Tasks (Run s') !! j = Tasks (Run s) !! j) /\
  exists u, running_task s' i u /\ length (Attempts u) = S (length (Attempts t)).

Lemma prepare_local i t now1 now2 s :
  local_run c s -> Tasks (Run s) !! i = Some t -> Status t = TaskReady ->
  exists s' request, prepareTask c i now1 now2 s = (s', Ok (request, (Z.of_nat (length (Attempts t)) + 1)%Z)) /\
    engine_step c s s' /\ starts i t s s'.
Proof.
  intros [Hwf Hst Hq] Ht Hs. destruct (running_definition c Hc s i t Hwf Ht) as [d Hd].
  assert (Hws : run_Status (Run s) = WorkflowRunning).
  { destruct (active_run c s i t Hwf Ht) as [|[? _]]; [by rewrite Hs|done|done]. }
  destruct (prepareTask_run c i t d now1 now2 s Hwf Hcl Hws Ht Hs Hd) as (s' & input & _ & Hrun & [Hwf' F] & Hot & Hws').
  eexists s', _. split; [exact Hrun|].
  assert (Hev : task_evolves t (started_task now1 (new_attempt t "" "" now2) t)).
  { apply task_evolves_append; [done|].
    apply task_evolves_after; [done|by rewrite Hs]. }
  split; [split|].
  - split_and!; [done|done|]. eapply evolves_one; [exact Ht|apply Hot|done].
  - split; [done|by rewrite Hws'|]. by eapply only_task_no_queue.
  - destruct Hot as [T _]. split; [intros j Hj; by rewrite T, list_lookup_insert_ne|].
    eexists. split; [split; [rewrite T; apply list_lookup_insert_eq; by eapply lookup_lt_Some|done]|].
    cbn. rewrite length_app. cbn. lia.
Qed.

Lemma start_local at_ reason s :
  run_wf c s -> run_Status (Run s) = WorkflowPending ->
  exists s', transitionWorkflow WorkflowRunning at_ reason s = (s', Ok tt) /\ engine_step c s s' /\
    Tasks (Run s') = Tasks (Run s).
Proof.
  intros Hwf Hp. destruct (start_run c Hc reason at_ s Hwf Hp) as (s' & Hrun & [Hwf' F] & T & R & Hws).
  exists s'. split; [done|]. split; [|done]. split; [split_and!; [done|done|by apply evolves_same]|].
  split; [done|by rewrite Hws|]. intros i t. rewrite T. intros Ht Hs.
  destruct Hwf as [_ Ha]. rewrite Hp in Ha. cbn in Ha.
  assert (Hin : Status t ∈ statuses s) by (eapply list_elem_of_lookup_2, status_lookup, Ht).
  rewrite Hs in Hin. by destruct (Ha _ Hin).
Qed.

Lemma cancel_step at_ s s' :
  run_wf c s -> CancelRunSnapshot s at_ = Ok s' -> good_step c s s' /\ run_Status (Run s') = WorkflowCanceled.
Proof.
  intros Hwf Hrun. split; [by eapply step_cancel|].
  destruct (isWorkflowTerminal (run_Status (Run s))) eqn:Hterm.
  - exfalso. unfold CancelRunSnapshot in Hrun. rewrite cloneRunSnapshot_id in Hrun. cbv zeta in Hrun.
    destruct (cancel_loop_run (length (Tasks (Run s))) at_ s (le_n _)) as (s1 & Hrun1 & [F T R W]).
    { intros t Hin. eapply core_known_status; [apply Hwf|exact Hin]. }
    unfold mbind, go_bind in Hrun. rewrite Hrun1 in Hrun. injection W as W _ _.
    rewrite transitionWorkflow_illegal in Hrun; [done|]. rewrite W. by destruct (run_Status (Run s)).
  - destruct (cancel_run c at_ s Hwf Hterm) as (s1 & Hrun1 & _ & _ & _ & Hws). congruence.
Qed.
End starting.
