(* ===== verification/EngineInvariant.v ===== *)
(** * The invariant of the event loop

    What holds each time the loop of [executeSnapshot] looks for the next
    message, whatever the clock, the order of messages, the moment of a stop
    and the failures of the store: the snapshot in memory is the stored one,
    the active attempts are exactly the running tasks, and every executor call
    is for an attempt the store knows. *)
From S2P Require Import Prelude Hoare GoStrings Json Model State Graph Compiler Scheduling Distributed Effects RunInvariant RunOperations RunResults RunProperties ChangeSet Stores Engine EngineSteps.
From stdpp Require Import relations.

(** The part of the engine the environment's moves do not touch. *)
Record view (St : Type) := mkView {
  v_store : St;
  v_snapshot : RunSnapshot;
  v_active : gset (nat * Z);
  v_running : Z;
  v_launched : list launch;
}.
Arguments mkView {St}. Arguments v_store {St}. Arguments v_snapshot {St}. Arguments v_active {St}.
Arguments v_running {St}. Arguments v_launched {St}.
Definition view_of {St} (e : engine St) : view St :=
  mkView (store e) (snapshot e) (activeAttempts e) (running e) (launched e).

(** Calls that only concern the environment. *)
Definition quiet {St A} (m : go (engine St) A) : Prop :=
  forall e e' r, m e = (e', r) -> view_of e' = view_of e.

Lemma triple_quiet {St A} (P : view St -> Prop) (m : go (engine St) A) :
  quiet m -> triple (fun e => P (view_of e)) m (fun _ e => P (view_of e)) (fun e => P (view_of e)).
Proof. intros Hq e e' r HP Hrun. rewrite <-(Hq _ _ _ Hrun) in HP. by destruct r. Qed.

Section quiet.
Context {St : Type} (clock : nat -> time) (interrupt : nat -> option signal).

Lemma quiet_bind {A B} (m : go (engine St) A) (f : A -> go (engine St) B) :
  quiet m -> (forall a, quiet (f a)) -> quiet (m ≫= f).
Proof.
  intros Hm Hf e e' r. unfold mbind, go_bind. destruct (m e) as [e1 out] eqn:E. apply Hm in E.
  destruct out; [intros H; apply Hf in H; congruence|by intros [= <- <-]..].
Qed.
Lemma quiet_ret {A} (a : A) : quiet (St := St) (mret a).
Proof. by intros e e' r [= <- <-]. Qed.
Lemma quiet_throw {A} err : quiet (St := St) (A := A) (throw err).
Proof. by intros e e' r [= <- <-]. Qed.
Lemma quiet_get : quiet (St := St) get.
Proof. by intros e e' r [= <- <-]. Qed.
Lemma quiet_modify (f : engine St -> engine St) : (forall e, view_of (f e) = view_of e) -> quiet (modify f).
Proof. intros H e e' r [= <- <-]. apply H. Qed.
Lemma quiet_lift {A} (m : outcome A) : quiet (St := St) (lift m).
Proof. by intros e e' r [= <- <-]. Qed.
Lemma quiet_Now : quiet (St := St) (Now clock).
Proof. by intros e e' r [= <- <-]. Qed.
Lemma quiet_deliver sig : quiet (St := St) (deliver sig).
Proof. apply quiet_modify. by destruct sig. Qed.
Lemma quiet_poll : quiet (St := St) (poll interrupt).
Proof.
  apply quiet_bind; [apply quiet_get|intros e]. apply quiet_bind; [by apply quiet_modify|intros _].
  destruct (interrupt (context_polls e)); [apply quiet_deliver|apply quiet_ret].
Qed.
Lemma quiet_stopped : quiet (St := St) (stopped interrupt).
Proof.
  apply quiet_bind; [apply quiet_poll|intros _]. apply quiet_bind; [apply quiet_get|intros e]. apply quiet_ret.
Qed.
Lemma quiet_forget id : quiet (St := St) (forgetCompiled id).
Proof. by apply quiet_modify. Qed.
Lemma quiet_on_snapshot {A} (m : go RunSnapshot A) s : quiet (St := St) (on_snapshot m s).
Proof. intros e e' r. unfold on_snapshot. destruct (m (cloneRunSnapshot s)) as [s' []]; by intros [= <- <-]. Qed.
End quiet.
#[export] Hint Resolve quiet_bind quiet_ret quiet_throw quiet_get quiet_lift quiet_Now quiet_deliver quiet_poll
  quiet_stopped quiet_forget quiet_on_snapshot : quiet.

(** ** The invariant *)
Section invariant.
Context {St : Type} `{!StoreView St} (c : CompiledWorkflow) (id : RunID).

Definition stored (v : view St) (s : RunSnapshot) : Prop :=
  store_ok (v_store v) /\ content_of (v_store v) id = Some s.

(** The started attempt is part of the run's history. *)
Definition recorded (s : RunSnapshot) (l : launch) : Prop :=
  exists t, Tasks (Run s) !! la_task l = Some t /\ (1 <= la_attempt l <= Z.of_nat (length (Attempts t)))%Z.
Definition launch_key (l : launch) : nat * Z := (la_task l, la_attempt l).

(** Every executor call is for a recorded attempt, and no attempt is handed to
    the executor twice. *)
Definition ledger (s : RunSnapshot) (v : view St) : Prop :=
  Forall (recorded s) (v_launched v) /\ NoDup (launch_key <$> v_launched v).

Definition counted (v : view St) : Prop :=
  v_running v = Z.of_nat (size (v_active v)) /\ (v_running v <= Concurrency (definition c))%Z.

(** A valid run of this engine is stored. *)
Definition run_of (s : RunSnapshot) : Prop := run_wf c s /\ ID (Run s) = id.

Definition persisted (v : view St) : Prop :=
  counted v /\ exists s, stored v s /\ run_of s /\ ledger s v.

Record steady (v : view St) : Prop := {
  st_local : local_run c (v_snapshot v);
  st_id : ID (Run (v_snapshot v)) = id;
  st_stored : stored v (v_snapshot v);
  st_ledger : ledger (v_snapshot v) v;
  st_counted : counted v;
}.

(** The active attempts are the running tasks, [except] one being settled. *)
Definition tracked_but (except : option (nat * Z)) (v : view St) : Prop :=
  (forall i k, (i, k) ∈ v_active v <-> except ≠ Some (i, k) /\
     exists t, running_task (v_snapshot v) i t /\ k = Z.of_nat (length (Attempts t))) /\
  (forall i k, except = Some (i, k) -> exists t, running_task (v_snapshot v) i t /\ k = Z.of_nat (length (Attempts t))).

Definition loop_inv (v : view St) : Prop := steady v /\ tracked_but None v.

(** All slots are taken or nothing is ready. *)
Definition busy (v : view St) : Prop :=
  v_running v = Concurrency (definition c) \/
  forall i t, Tasks (Run (v_snapshot v)) !! i = Some t -> Status t ≠ TaskReady.

Lemma steady_persisted v : steady v -> persisted v.
Proof. intros [H1 H2 H3 H4 H5]. split; [done|]. exists (v_snapshot v). split_and!; [done|split; [apply H1|done]|done]. Qed.

Lemma recorded_evolves s s' l : evolves s s' -> recorded s l -> recorded s' l.
Proof.
  intros [_ He] (t & Ht & Hk). destruct (He _ _ Ht) as (t' & Ht' & Hev). exists t'. split; [done|].
  pose proof (ev_length _ _ Hev). lia.
Qed.

Lemma ledger_evolves s s' v : evolves s s' -> ledger s v -> ledger s' v.
Proof.
  intros He [H1 H2]. split; [|done]. eapply Forall_impl; [exact H1|]. intros l. by apply recorded_evolves.
Qed.

Lemma ledger_launched s v v' : v_launched v' = v_launched v -> ledger s v -> ledger s v'.
Proof. intros E [H1 H2]. split; by rewrite E. Qed.

(** ** Saving *)
Context `{!enginePersistence St} `{!ApplyContract St}.
(** The store gives back what was written to it. *)
Definition lossless : Prop := forall s, run_wf c s -> canonical s = s.
Context (Hc : compiled_wf c) (Hlossless : lossless).

Definition same_but_store (v v' : view St) : Prop :=
  v_snapshot v' = v_snapshot v /\ v_active v' = v_active v /\ v_running v' = v_running v /\
  v_launched v' = v_launched v.

(** The call commits [nextRevision s s'] on top of [s] or does nothing; if the
    stored run is not [s] any more it does nothing. *)
Lemma saveSnapshot_run ctx s s' s0 e e' r :
  stored (view_of e) s0 -> run_of s0 -> run_of s -> good_step c s s' ->
  s0 = s \/ Revision (Run s0) ≠ Revision (Run s) ->
  saveSnapshot ctx s s' e = (e', r) ->
  same_but_store (view_of e) (view_of e') /\
  match r with
  | Ok a => s0 = s /\ a = nextRevision s s' /\ stored (view_of e') a
  | _ => stored (view_of e') s0 \/ (s0 = s /\ stored (view_of e') (nextRevision s s'))
  end.
Proof.
  intros [Hok Hs0] [Hwf0 Hid0] [Hwf Hid] Hgood Hrev Hrun.
  destruct (changeSet_roundtrip _ _ (step_saveable c s s' Hc Hwf Hgood)) as (cs & Hcs & Hcid & Hexp & Happ).
  unfold saveSnapshot in Hrun. rewrite Hcs in Hrun. unfold mbind, go_bind in Hrun. cbn in Hrun.
  unfold on_store in Hrun. destruct (store_Apply ctx cs (store e)) as [st' out] eqn:Happly.
  assert (Hdec : (unchanged (store e) st' /\ out ≠ Ok tt) \/
    (s0 = s /\ written id (nextRevision s s') (store e) st')).
  { destruct (apply_contract _ _ _ _ _ Hok Happly) as [?|(b & a & Hb & Ha & Hw)]; [by left|right].
    rewrite Hcid, Hid in Hb. cbn in Hb, Hs0. rewrite Hs0 in Hb. injection Hb as <-.
    destruct (applyChangeSet_integrity _ _ _ Ha) as (Hr & _).
    destruct Hrev as [->|Hne]; [|congruence]. rewrite Happ in Ha. injection Ha as <-.
    rewrite Hcid, Hid in Hw. done. }
  assert (Hst : stored (mkView st' (snapshot e) (activeAttempts e) (running e) (launched e)) s0 \/
    (s0 = s /\ stored (mkView st' (snapshot e) (activeAttempts e) (running e) (launched e)) (nextRevision s s'))).
  { destruct Hdec as [[[Hok' Hu] _]|[-> [Hok' Hw]]]; [left|right].
    - split; [done|]. cbn. by rewrite Hu.
    - split; [done|]. split; [done|]. cbn. rewrite Hw, decide_True by done.
      rewrite Hlossless; [done|]. apply next_run_wf, Hgood. }
  destruct out as [[]|err| |]; injection Hrun as <- <-; (split; [by repeat split|]); try exact Hst.
  destruct Hdec as [[_ []]|[-> [Hok' Hw]]]; [done|]. split_and!; [done|done|].
  split; [done|]. cbn. rewrite Hw, decide_True by done. rewrite Hlossless; [done|]. apply next_run_wf, Hgood.
Qed.

Lemma next_run_of s s' : run_of s -> good_step c s s' -> run_of (nextRevision s s').
Proof.
  intros [_ Hid] (Hwf' & [Hf _ _] & _). split; [by apply next_run_wf|]. injection Hf as ? ? Hi. cbn. congruence.
Qed.

Lemma next_evolves s s' : evolves s s' -> evolves s (nextRevision s s').
Proof. done. Qed.
End invariant.
