(* ===== verification/EngineLoop.v ===== *)
(** * The event loop keeps its invariant

    The steps of src/workflow/engine.go one by one, from saving to the whole
    loop, with EngineInvariant.v's invariant: for every clock, every order of
    messages, every moment of a stop and every behaviour of the store that its
    contract allows. *)
From S2P Require Import Prelude Hoare GoStrings Json Model State Graph Compiler Scheduling Distributed Effects RunInvariant RunOperations RunResults RunProperties ChangeSet Stores Recovery Engine EngineSteps EngineInvariant.
From stdpp Require Import relations.

Lemma u64_succ_ne r : u64 (r + 1) ≠ r.
Proof.
  unfold u64. intros E. assert (Hr : (0 <= r < 2 ^ 64)%Z) by (rewrite <-E; apply Z.mod_pos_bound; lia).
  destruct (decide (r + 1 < 2 ^ 64)%Z).
  - rewrite Z.mod_small in E by lia. lia.
  - replace (r + 1)%Z with (2 ^ 64)%Z in E by lia. rewrite Z.mod_same in E by lia. lia.
Qed.

Section loop.
Context {St : Type} `{!StoreView St} `{!enginePersistence St} `{!LoadContract St} `{!ApplyContract St}.
Context (clock : nat -> time) (interrupt : nat -> option signal).
Context (c : CompiledWorkflow) (Hc : compiled_wf c) (Hcl : cloneable c) (id : RunID).
Context (Hlossless : lossless (St := St) c).

#[local] Abbreviation stored := (stored (St := St) id).
#[local] Abbreviation persisted := (persisted (St := St) c id).
#[local] Abbreviation steady := (steady (St := St) c id).
#[local] Abbreviation loop_inv := (loop_inv (St := St) c id).
#[local] Abbreviation busy := (busy (St := St) c).
#[local] Abbreviation counted := (counted (St := St) c).
#[local] Abbreviation run_of := (run_of c id).

(** ** Views that differ in the store only *)
Lemma same_counted v v' : same_but_store v v' -> counted v -> counted v'.
Proof. intros (_ & Ha & Hr & _) [H1 H2]. split; by rewrite ?Ha, Hr. Qed.
Lemma same_ledger s (v v' : view St) : same_but_store v v' -> ledger s v -> ledger s v'.
Proof. intros (_ & _ & _ & Hl). by apply ledger_launched. Qed.

(** ** Finishing a stopped run *)

(** [s] is the stored run or an older revision of it. *)
Definition behind (s : RunSnapshot) (v : view St) : Prop :=
  counted v /\ run_of s /\ exists s0, stored v s0 /\ run_of s0 /\ ledger s0 v /\
    (s0 = s \/ (Revision (Run s0) ≠ Revision (Run s) /\ isWorkflowTerminal (run_Status (Run s)) = false)).

Definition returned (run : WorkflowRun) (v : view St) : Prop :=
  counted v /\ isWorkflowTerminal (run_Status run) = true /\
  exists s, stored v s /\ run_of s /\ ledger s v /\ Run s = run.

Lemma behind_persisted s v : behind s v -> persisted v.
Proof. intros (H1 & _ & s0 & H2 & H3 & H4 & _). split; [done|]. by exists s0. Qed.
Lemma returned_persisted run v : returned run v -> persisted v.
Proof. intros (H1 & _ & s & H2 & H3 & H4 & _). split; [done|]. by exists s. Qed.
Lemma steady_behind v : steady v -> behind (v_snapshot v) v.
Proof.
  intros [H1 H2 H3 H4 H5]. assert (run_of (v_snapshot v)) by (split; [apply H1|done]).
  split_and!; [done|done|]. exists (v_snapshot v). split_and!; auto.
Qed.

(** Saving one step on top of a snapshot that may be behind. *)
Lemma save_behind ctx s s' :
  good_step c s s' -> isWorkflowTerminal (run_Status (Run s)) = false ->
  triple (fun e => behind s (view_of e)) (saveSnapshot ctx s s')
    (fun a e => a = nextRevision s s' /\ run_of a /\ counted (view_of e) /\ stored (view_of e) a /\ ledger a (view_of e))
    (fun e => behind s (view_of e)).
Proof.
  intros Hgood Hnt e e' r (Hcnt & Hs & s0 & Hst & Hs0 & Hled & Hrev) Hrun.
  assert (Hrev' : s0 = s \/ Revision (Run s0) ≠ Revision (Run s)) by (by destruct Hrev as [|[]]; [left|right]).
  destruct (saveSnapshot_run c id Hc Hlossless ctx s s' s0 e e' r Hst Hs0 Hs Hgood Hrev' Hrun) as [Hsame Hr].
  pose proof (next_run_of c id _ _ Hs Hgood) as Hn.
  assert (Hnew : s0 = s -> ledger (nextRevision s s') (view_of e')).
  { intros ->. eapply same_ledger; [done|]. eapply ledger_evolves; [|done]. apply Hgood. }
  assert (Hbehind : (stored (view_of e') s0 \/ (s0 = s /\ stored (view_of e') (nextRevision s s'))) ->
    behind s (view_of e')).
  { intros [H|[E H]]; (split_and!; [by eapply same_counted|done|]).
    - exists s0. split_and!; [done|done|by eapply same_ledger|done].
    - exists (nextRevision s s'). split_and!; [done|done|by apply Hnew|right; split; [apply u64_succ_ne|done]]. }
  destruct r as [a|err| |]; [|by apply Hbehind..].
  destruct Hr as (E & -> & Hst'). split_and!; [done|done|by eapply same_counted|done|by apply Hnew].
Qed.

Lemma attempt_triple {S A} (P : S -> Prop) (m : go S A) Q (E : S -> Prop) :
  triple P m Q E -> triple P (attempt_call m) (fun r s => match r with inr a => Q a s | inl _ => E s end) E.
Proof.
  intros H s s' r HP. unfold attempt_call. destruct (m s) as [s1 out] eqn:Em. specialize (H _ _ _ HP Em).
  destruct out; by intros [= <- <-].
Qed.

Lemma load_behind ctx s :
  triple (fun e => behind s (view_of e)) (on_store (store_Load ctx id))
    (fun s1 e => behind s1 (view_of e)) (fun e => persisted (view_of e)).
Proof.
  intros e e' r (Hcnt & Hs & s0 & [Hok Hst] & Hs0 & Hled & Hrev) Hrun. unfold on_store in Hrun.
  destruct (store_Load ctx id (store e)) as [st' out] eqn:Hload. injection Hrun as <- <-.
  destruct (load_unchanged ctx id _ _ _ Hok Hload) as [Hok' Hu].
  assert (Hst' : stored (view_of (set_store st' e)) s0) by (split; [done|cbn; by rewrite Hu]).
  destruct out as [s1|err| |]; try (split; [done|by exists s0]).
  destruct (load_found ctx id _ _ _ Hok Hload) as [Hs1 _]. cbn in Hst, Hs1. rewrite Hst in Hs1. injection Hs1 as <-.
  split_and!; [done|done|]. exists s0. split_and!; auto.
Qed.

Lemma finalize_triple left at_ s :
  triple (fun e => behind s (view_of e)) (finalize_loop left at_ s)
    (fun run e => returned run (view_of e)) (fun e => persisted (view_of e)).
Proof.
  revert s. induction left as [|left IH]; intros s; cbn [finalize_loop].
  { apply triple_throw. intros e. apply behind_persisted. }
  destruct (isWorkflowTerminal (run_Status (Run s))) eqn:Hterm.
  { eapply triple_bind; [eapply triple_post; [apply (triple_quiet (behind s)); auto with quiet|done|]|].
    { intros e. apply behind_persisted. }
    intros ?. apply triple_ret. intros e (Hcnt & Hs & s0 & Hst & Hs0 & Hled & [->|[_ E]]); [|congruence].
    split_and!; [done|done|]. by exists s. }
  intros e e' r Hb Hrun. pose proof Hb as (_ & [Hwf Hid] & _).
  unfold mbind, go_bind in Hrun. unfold lift at 1 in Hrun.
  destruct (CancelRunSnapshot s at_) as [s'|err| |] eqn:Hcancel;
    [|injection Hrun as <- <-; by eapply behind_persisted..].
  destruct (cancel_step c Hc at_ s s' Hwf Hcancel) as [Hgood Hws].
  change ((attempt_call (saveSnapshot Background s s') ≫= fun r => match r with
      | inr updated => _ ← forgetCompiled (ID (Run updated)); mret (Run updated)
      | inl err => if negb (errors_Is err ErrRevisionConflict) || bool_decide (left = 0) then throw err
                   else snapshot ← on_store (store_Load Background (ID (Run s))); finalize_loop left at_ snapshot
      end) e = (e', r)) in Hrun.
  revert e e' r Hb Hrun.
  eapply triple_bind; [eapply triple_post; [apply attempt_triple, save_behind; [exact Hgood|exact Hterm]|intros ? ? HR; exact HR|]|].
  { intros e. apply behind_persisted. }
  intros [err|a].
  - destruct (negb _ || _); [apply triple_throw; intros e; apply behind_persisted|].
    rewrite Hid. eapply triple_bind; [apply load_behind|]. intros s1. apply IH.
  - eapply triple_bind.
    { eapply triple_post; [apply (triple_quiet (fun v => a = nextRevision s s' /\ run_of a /\ counted v /\ stored v a /\ ledger a v));
        auto with quiet|done|]. intros e (-> & Hn & Hcnt & Hst & Hled). split; [done|]. by exists (nextRevision s s'). }
    intros ?. apply triple_ret. intros e (-> & Hn & Hcnt & Hst & Hled). split_and!; [done|by cbn; rewrite Hws|].
    by exists (nextRevision s s').
Qed.

Lemma finalizeCancellation_triple s :
  triple (fun e => behind s (view_of e)) (finalizeCancellation clock s)
    (fun run e => returned run (view_of e)) (fun e => persisted (view_of e)).
Proof.
  unfold finalizeCancellation. eapply triple_bind; [|intros at_; apply finalize_triple].
  eapply triple_post; [apply (triple_quiet (behind s)); auto with quiet|done|]. intros e. apply behind_persisted.
Qed.

Lemma stoppedRunResult_triple s :
  triple (fun e => behind s (view_of e)) (stoppedRunResult clock s)
    (fun run e => returned run (view_of e)) (fun e => persisted (view_of e)).
Proof.
  unfold stoppedRunResult. eapply triple_bind.
  { eapply triple_post; [apply (triple_quiet (behind s)); auto with quiet|done|]. intros e. apply behind_persisted. }
  intros e0. destruct (match cause e0 with Some err => errors_Is err errBusinessCancel | None => false end);
    [apply finalizeCancellation_triple|].
  apply triple_throw. intros e. apply behind_persisted.
Qed.

Lemma stopped_or_triple s err :
  triple (fun e => behind s (view_of e)) (stopped_or clock interrupt s err)
    (fun run e => returned run (view_of e)) (fun e => persisted (view_of e)).
Proof.
  unfold stopped_or. eapply triple_bind.
  { eapply triple_post; [apply (triple_quiet (behind s)); auto with quiet|done|]. intros e. apply behind_persisted. }
  intros [|]; [apply stoppedRunResult_triple|]. apply triple_throw. intros e. apply behind_persisted.
Qed.

(** ** Saving a step of the run in memory *)
Definition store_free (F : view St -> Prop) : Prop := forall v v', same_but_store v v' -> F v -> F v'.

Definition at_rest (s : RunSnapshot) (F : view St -> Prop) (v : view St) : Prop :=
  F v /\ counted v /\ run_of s /\ stored v s /\ ledger s v.

Lemma at_rest_behind s F v : at_rest s F v -> behind s v.
Proof. intros (_ & H1 & H2 & H3 & H4). split_and!; [done|done|]. exists s. split_and!; auto. Qed.

Lemma save_rest s s' F :
  store_free F -> good_step c s s' -> isWorkflowTerminal (run_Status (Run s)) = false ->
  triple (fun e => at_rest s F (view_of e)) (saveSnapshot_ctx interrupt s s')
    (fun a e => a = nextRevision s s' /\ at_rest a F (view_of e))
    (fun e => F (view_of e) /\ behind s (view_of e)).
Proof.
  intros HF Hgood Hnt. unfold saveSnapshot_ctx.
  assert (Hend : forall v, at_rest s F v -> F v /\ behind s v).
  { intros v H. split; [apply H|by eapply at_rest_behind]. }
  eapply triple_bind.
  { eapply triple_post; [apply (triple_quiet (at_rest s F)); auto with quiet|done|]. intros e. apply Hend. }
  intros ?. eapply triple_bind.
  { eapply triple_post; [apply (triple_quiet (at_rest s F)); auto with quiet|done|]. intros e. apply Hend. }
  intros e0 e e' r Hrest Hrun. pose proof Hrest as (HFe & Hcnt & Hs & Hst & Hled).
  destruct (saveSnapshot_run c id Hc Hlossless (parent e0) s s' s e e' r Hst Hs Hs Hgood (or_introl eq_refl) Hrun)
    as [Hsame _].
  pose proof (save_behind (parent e0) s s' Hgood Hnt e e' r (at_rest_behind _ _ _ Hrest) Hrun) as H.
  destruct r as [b|err| |]; [|split; [by eapply HF|done]..].
  destruct H as (-> & ? & ? & ? & ?). split; [done|]. split_and!; [by eapply HF|done..].
Qed.

(** ** Starting ready tasks *)
Definition scanned (i : nat) (s : RunSnapshot) : Prop :=
  forall j t, j < i -> Tasks (Run s) !! j = Some t -> Status t ≠ TaskReady.

Definition scanning (i : nat) (rest : list TaskRun) (v : view St) : Prop :=
  loop_inv v /\ drop i (Tasks (Run (v_snapshot v))) = rest /\ scanned i (v_snapshot v).

Definition starting (s : RunSnapshot) (v : view St) : Prop :=
  v_snapshot v = s /\ tracked_but None v /\ ledger s v /\ (v_running v < Concurrency (definition c))%Z.

Lemma starting_store_free s : store_free (starting s).
Proof.
  intros v v' (Hs & Ha & Hr & Hl) (H1 & [H2 _] & H3 & H4). split_and!; [congruence| |by eapply ledger_launched|lia].
  split; [|done]. intros i k. by rewrite Ha, Hs.
Qed.

Lemma launched_view (e : engine St) i attempt request d :
  def_Tasks (definition c) !! i = Some d ->
  exists e', launch_task c i request attempt e = (e', Ok tt) /\
    view_of e' = mkView (store e) (snapshot e) ({[(i, attempt)]} ∪ activeAttempts e) (running e + 1)
      (launched e ++ [mkLaunch i attempt request (millis (TimeoutMillis d))]).
Proof. intros Hd. eexists. split; [unfold launch_task; rewrite Hd; reflexivity|done]. Qed.

(** A started task joins the active attempts. *)
Lemma launch_inv s s' i t v d request :
  local_run c s' -> Tasks (Run s) !! i = Some t -> Status t = TaskReady -> starts i t s s' ->
  at_rest (nextRevision s s') (starting s) v ->
  let n := (Z.of_nat (length (Attempts t)) + 1)%Z in
  loop_inv (mkView (v_store v) (nextRevision s s') ({[(i, n)]} ∪ v_active v) (v_running v + 1)
    (v_launched v ++ [mkLaunch i n request d])).
Proof.
  intros Hl Ht Hs [Hother (u & Hu & Hlen)] ((Hsnap & [Htr _] & [Hrec _] & Hlt) & [Hcnt Hmax] & [_ Hid] & Hst & [Hrec' Hnd]) n.
  assert (Hfresh : (i, n) ∉ v_active v).
  { rewrite Htr. intros (_ & t' & [Ht' Hr] & _). rewrite Hsnap in Ht'. congruence. }
  split; [split|].
  - by apply next_local.
  - done.
  - done.
  - split; cbn.
    + apply Forall_app. split; [done|]. constructor; [|done]. exists u. split; [apply Hu|].
      cbn. rewrite Hlen. unfold n. lia.
    + rewrite fmap_app. apply NoDup_app. split_and!; [done| |apply NoDup_singleton].
      intros key Hkey ->%list_elem_of_singleton. apply list_elem_of_fmap in Hkey as (l & E & Hin).
      rewrite Forall_forall in Hrec. destruct (Hrec l Hin) as (t' & Ht' & Hb). injection E as E1 E2.
      rewrite <-E1, Ht in Ht'. injection Ht' as <-. rewrite <-E2 in Hb. unfold n in Hb. lia.
  - split; cbn; [|lia]. rewrite size_union by by apply disjoint_singleton_l. rewrite size_singleton, Hcnt. lia.
  - split; [|done]. intros j k. cbn. rewrite elem_of_union, elem_of_singleton, Htr, Hsnap. split.
    + intros [[= -> ->]|(_ & t' & [Ht' Hr] & Hk)]; (split; [done|]).
      * exists u. split; [done|]. rewrite Hlen. unfold n. lia.
      * exists t'. assert (j ≠ i) by (intros ->; congruence). split; [|done]. split; [|done].
        cbn. by rewrite Hother.
    + intros (_ & t' & [Ht' Hr] & Hk). destruct (decide (j = i)) as [->|Hne].
      * left. destruct Hu as [Hu _]. cbn in Ht'. rewrite Hu in Ht'. injection Ht' as <-. rewrite Hlen in Hk.
        unfold n. f_equal. lia.
      * right. split; [done|]. exists t'. split; [|done]. split; [|done]. cbn in Ht'. by rewrite Hother in Ht'.
Qed.

Lemma on_snapshot_triple {A} (m : go RunSnapshot A) s s' a (P E : engine St -> Prop) :
  m s = (s', Ok a) -> triple P (on_snapshot m s) (fun x e => x = (s', a) /\ P e) E.
Proof.
  intros H e e' r HP. unfold on_snapshot. rewrite cloneRunSnapshot_id, H. by intros [= <- <-].
Qed.

(** One ready task: saved as running, then handed to the executor. *)
Lemma start_one i task rest s :
  Tasks (Run s) !! i = Some task -> Status task = TaskReady -> local_run c s ->
  isWorkflowTerminal (run_Status (Run s)) = false -> drop (S i) (Tasks (Run s)) = rest -> scanned i s ->
  (forall i, triple (fun e => scanning i rest (view_of e)) (startTasks clock interrupt c i rest)
    (fun _ e => loop_inv (view_of e) /\ busy (view_of e)) (fun e => behind (snapshot e) (view_of e))) ->
  triple (fun e => at_rest s (starting s) (view_of e))
    (now1 ← Now clock;
     now2 ← Now clock;
     '(updated, (request, attempt)) ← on_snapshot (prepareTask c i now1 now2) s;
     updated ← saveSnapshot_ctx interrupt s updated;
     _ ← modify (set_snapshot updated);
     stop ← stopped interrupt;
     if (stop : bool) then throw Canceled
     else _ ← launch_task c i request attempt; startTasks clock interrupt c (S i) rest)
    (fun _ e => loop_inv (view_of e) /\ busy (view_of e)) (fun e => behind (snapshot e) (view_of e)).
Proof.
  intros Ht Hready Hl Hnt Hrest' Hsc IH.
  assert (Hquiet : forall e0 : engine St, at_rest s (starting s) (view_of e0) -> behind (snapshot e0) (view_of e0)).
  { intros e0 Hr. pose proof Hr as ((Es & _) & _). cbn in Es. rewrite Es. by eapply at_rest_behind. }
  eapply triple_bind; [eapply triple_post; [apply (triple_quiet (at_rest s (starting s))); auto with quiet|done|exact Hquiet]|].
  intros now1. eapply triple_bind; [eapply triple_post; [apply (triple_quiet (at_rest s (starting s))); auto with quiet|done|exact Hquiet]|].
  intros now2.
  destruct (prepare_local c Hc Hcl i task now1 now2 s Hl Ht Hready) as (s' & request & Hprep & [Hgood Hl'] & Hstarts).
  eapply triple_bind; [by apply (on_snapshot_triple _ s s' (request, (Z.of_nat (length (Attempts task)) + 1)%Z))|].
  intros x. apply triple_pure. intros ->. set (a := nextRevision s s').
  eapply triple_bind.
  { eapply triple_post; [apply save_rest; [apply starting_store_free|exact Hgood|exact Hnt]|intros ? ? HR; exact HR|].
    intros e0 [(Es & _) Hb]. cbn in Es. by rewrite Es. }
  intros updated. apply triple_pure. intros ->. fold a.
  eapply triple_bind with (R := fun _ e0 => snapshot e0 = a /\ exists v, at_rest a (starting s) v /\
    view_of e0 = mkView (v_store v) a (v_active v) (v_running v) (v_launched v)).
  { apply triple_modify. intros e0 Hr. split; [done|]. by exists (view_of e0). }
  intros ?. set (P := fun v0 : view St => v_snapshot v0 = a /\ exists v, at_rest a (starting s) v /\
    v0 = mkView (v_store v) a (v_active v) (v_running v) (v_launched v)).
  assert (Hbehind : forall v, at_rest a (starting s) v -> behind a (mkView (v_store v) a (v_active v) (v_running v) (v_launched v))).
  { intros v (_ & Hc1 & Hr1 & Hs1 & Hl1). split_and!; [done|done|]. exists a. split_and!; auto. }
  eapply triple_bind.
  { eapply triple_conseq; [apply (triple_quiet P); auto with quiet|intros e0 H0; exact H0|intros ? ? HR; exact HR|].
    intros e0 (Es & v & Hr & Ev). cbn in Es. rewrite Es, Ev. by apply Hbehind. }
  intros [|].
  { apply triple_throw. intros e0 (Es & v & Hr & Ev). cbn in Es. rewrite Es, Ev. by apply Hbehind. }
  intros e0 e' r (Es & v & Hr & Ev) Hrun. cbn in Es.
  destruct (running_definition c Hc s i task (lr_wf _ _ Hl) Ht) as [d Hd].
  destruct (launched_view e0 i (Z.of_nat (length (Attempts task)) + 1) request d Hd) as (e1 & Hlaunch & Hv1).
  unfold mbind, go_bind in Hrun. rewrite Hlaunch in Hrun. eapply IH; [|exact Hrun].
  injection Ev as Ev1 Ev2 Ev3 Ev4 Ev5.
  assert (Hv : view_of e1 = mkView (v_store v) a ({[(i, (Z.of_nat (length (Attempts task)) + 1)%Z)]} ∪ v_active v)
    (v_running v + 1) (v_launched v ++ [mkLaunch i (Z.of_nat (length (Attempts task)) + 1) request (millis (TimeoutMillis d))])).
  { rewrite Hv1. by rewrite Ev1, Ev2, Ev3, Ev4, Ev5. }
  rewrite Hv. split_and!.
  - by apply (launch_inv s s' i task v).
  - cbn. rewrite <-Hrest'. apply list_eq. intros j. rewrite !lookup_drop. apply Hstarts. lia.
  - intros j u Hj. cbn. destruct (decide (j = i)) as [->|Hne].
    + destruct Hstarts as [_ (u' & [Hu' Hr'] & _)]. rewrite Hu'. intros [= <-]. by rewrite Hr'.
    + destruct Hstarts as [Ho _]. rewrite Ho by done. intros Hu. eapply (Hsc j u); [lia|exact Hu].
Qed.

Lemma startTasks_triple rest i :
  triple (fun e => scanning i rest (view_of e)) (startTasks clock interrupt c i rest)
    (fun _ e => loop_inv (view_of e) /\ busy (view_of e)) (fun e => behind (snapshot e) (view_of e)).
Proof.
  revert i. induction rest as [|task rest IH]; intros i; cbn [startTasks].
  { apply triple_ret. intros e (Hinv & Hrest & Hsc). split; [done|]. right. intros j t Hj. eapply Hsc; [|done].
    assert (length (drop i (Tasks (Run (v_snapshot (view_of e))))) = 0) by by rewrite Hrest.
    rewrite length_drop in *. apply lookup_lt_Some in Hj. lia. }
  intros e e' r (Hinv & Hrest & Hsc) Hrun. unfold mbind at 1, go_bind at 1, get at 1 in Hrun.
  assert (Ht : Tasks (Run (snapshot e)) !! i = Some task).
  { change (snapshot e) with (v_snapshot (view_of e)). rewrite <-(Nat.add_0_r i), <-lookup_drop, Hrest. done. }
  assert (Hrest' : drop (S i) (Tasks (Run (snapshot e))) = rest).
  { replace (S i) with (i + 1) by lia. rewrite <-drop_drop. cbn in Hrest. by rewrite Hrest. }
  case_bool_decide as Hfull.
  { injection Hrun as <- <-. split; [done|]. by left. }
  case_bool_decide as Hready.
  { eapply IH; [|exact Hrun]. split_and!; [done|done|]. intros j t Hj Hjt.
    destruct (decide (j = i)) as [->|]; [cbn in Hjt; congruence|eapply Hsc; [|exact Hjt]; lia]. }
  pose proof Hinv as [Hsteady Htr]. pose proof Hsteady as [Hl Hid Hst Hled [Hcnt Hmax]].
  assert (Hlt : (running e < Concurrency (definition c))%Z) by (cbn in Hmax; lia).
  assert (Hrest0 : at_rest (snapshot e) (starting (snapshot e)) (view_of e)).
  { split_and!; [done|done|by split; [apply Hl|]|done|done]. }
  assert (Hnt : isWorkflowTerminal (run_Status (Run (snapshot e))) = false).
  { destruct (active_run c (snapshot e) i task (lr_wf _ _ Hl) Ht) as [E|[E _]]; [by rewrite Hready|by rewrite E..]. }
  revert e' r Hrun. revert Hrest0. set (s := snapshot e) in *. intros Hrest0 e' r Hrun.
  exact (start_one i task rest s Ht Hready Hl Hnt Hrest' Hsc IH _ _ _ Hrest0 Hrun).
Qed.

(** ** Starting and settling *)
Definition continues (r : option WorkflowRun) (v : view St) : Prop :=
  match r with None => loop_inv v /\ busy v | Some run => returned run v end.

Lemma startReadyTasks_triple :
  triple (fun e => loop_inv (view_of e)) (startReadyTasks clock interrupt c)
    (fun _ e => loop_inv (view_of e) /\ busy (view_of e)) (fun e => behind (snapshot e) (view_of e)).
Proof.
  assert (Hend : forall e : engine St, loop_inv (view_of e) -> behind (snapshot e) (view_of e)).
  { intros e [H _]. by apply (steady_behind (view_of e)). }
  unfold startReadyTasks. eapply triple_bind.
  { eapply triple_post; [apply (triple_quiet loop_inv); auto with quiet|done|exact Hend]. }
  intros [|]; [by apply triple_throw|].
  intros e e' r Hinv Hrun. unfold mbind, go_bind, get in Hrun. eapply startTasks_triple; [|exact Hrun].
  split_and!; [done|by rewrite drop_0|intros j t Hj; lia].
Qed.

Lemma start_and_continue_triple :
  triple (fun e => loop_inv (view_of e)) (start_and_continue clock interrupt c)
    (fun r e => continues r (view_of e)) (fun e => persisted (view_of e)).
Proof.
  unfold start_and_continue. eapply triple_bind.
  { eapply triple_post; [apply attempt_triple, startReadyTasks_triple|intros ? ? HR; exact HR|].
    intros e. apply behind_persisted. }
  intros [err|?].
  - intros e e' r Hb Hrun. unfold mbind at 1, go_bind at 1, get in Hrun.
    assert (H : triple (fun e0 => behind (snapshot e) (view_of e0)) (Some <$> stopped_or clock interrupt (snapshot e) err)
      (fun r e => continues r (view_of e)) (fun e => persisted (view_of e))) by apply triple_fmap, stopped_or_triple.
    exact (H _ _ _ Hb Hrun).
  - apply triple_ret. by intros e.
Qed.

(** What the loop needs of an operation: [except] is the attempt it settles. *)
Definition settles_run (except : option (nat * Z)) (operation : go RunSnapshot bool) (s : RunSnapshot) : Prop :=
  forall s' r, operation s = (s', r) ->
  match r with
  | Ok true => engine_step c s s' /\ isWorkflowTerminal (run_Status (Run s)) = false /\
      match except with Some (i, _) => stops_only i s s' | None => same_running s s' end
  | Ok false => except = None
  | _ => True
  end.

Lemma tracked_next except s s' (v : view St) :
  v_snapshot v = s -> tracked_but except v ->
  match except with Some (i, _) => stops_only i s s' | None => same_running s s' end ->
  tracked_but None (mkView (v_store v) (nextRevision s s') (v_active v) (v_running v) (v_launched v)).
Proof.
  intros Hs [Htr Hex] Hmove. split; [|done]. intros i k. cbn. rewrite Htr, Hs.
  destruct except as [[i0 k0]|].
  - destruct Hmove as [Hother Hnone]. destruct (Hex i0 k0 eq_refl) as (t0 & Ht0 & Hk0). rewrite Hs in Ht0. split.
    + intros (Hne & t & Ht & Hk). split; [done|]. exists t. split; [|done]. rewrite next_running. apply Hother; [|done].
      intros ->. destruct Hne. assert (t = t0) as -> by (destruct Ht, Ht0; congruence). by rewrite Hk, Hk0.
    + intros (_ & t & Ht & Hk). destruct (decide (i = i0)) as [->|Hne]; [destruct (Hnone t Ht)|].
      split; [by intros [= -> _]|]. exists t. split; [by apply Hother|done].
  - split; intros (_ & t & Ht & Hk); (split; [done|]); exists t; (split; [by apply Hmove|done]).
Qed.

Definition settling (except : option (nat * Z)) (v : view St) : Prop := steady v /\ tracked_but except v.

Lemma settling_rest except v :
  settling except v -> at_rest (v_snapshot v) (fun v' => v_snapshot v' = v_snapshot v /\ tracked_but except v') v.
Proof. intros [[H1 H2 H3 H4 H5] H6]. split_and!; try done. by split; [apply H1|]. Qed.

Lemma tracked_store_free s except : store_free (fun v => v_snapshot v = s /\ tracked_but except v).
Proof.
  intros v v' (Hs & Ha & Hr & Hl) (H1 & [H2 H3]). split; [congruence|]. split.
  - intros i k. by rewrite Ha, Hs.
  - intros i k E. rewrite Hs. by apply H3.
Qed.

Lemma schedule_quiet i task : quiet (St := St) (scheduleRetry clock i task).
Proof.
  unfold scheduleRetry. destruct (ReadyAt task), (last (Attempts task)); auto with quiet.
  apply quiet_bind; [auto with quiet|intros now]. by apply quiet_modify.
Qed.

Lemma deref_quiet {A} (o : option A) : quiet (St := St) (deref o).
Proof. destruct o; intros e e' r; by intros [= <- <-]. Qed.

Lemma settle_saved except s s' retried :
  engine_step c s s' -> match except with Some (i, _) => stops_only i s s' | None => same_running s s' end ->
  isWorkflowTerminal (run_Status (Run s)) = false ->
  triple (fun e => at_rest s (fun v => v_snapshot v = s /\ tracked_but except v) (view_of e))
    (r ← attempt_call (saveSnapshot_ctx interrupt s s');
     match r with
     | inl err => Some <$> stopped_or clock interrupt s err
     | inr updated =>
       _ ← modify (set_snapshot updated);
       _ ← match retried with
           | Some i =>
             task ← deref (Tasks (Run updated) !! i);
             if bool_decide (Status task = TaskWaitingRetry) then scheduleRetry clock i task else mret tt
           | None => mret tt
           end;
       start_and_continue clock interrupt c
     end)
    (fun r e => continues r (view_of e)) (fun e => persisted (view_of e)).
Proof.
  intros [Hgood Hl'] Hmove Hnt. eapply triple_bind.
  { eapply triple_post; [apply attempt_triple, save_rest; [apply tracked_store_free|exact Hgood|exact Hnt]|intros ? ? HR; exact HR|].
    intros e [_ Hb]. by eapply behind_persisted. }
  intros [err|updated].
  { apply triple_fmap. eapply triple_conseq; [apply stopped_or_triple|by intros e []|done|done]. }
  apply triple_pure. intros ->. set (a := nextRevision s s').
  eapply triple_bind with (R := fun _ e => loop_inv (view_of e)).
  { apply triple_modify. intros e ((Hsnap & Htr) & Hcnt & Hr & Hst & Hled). split.
    - split; [by apply next_local|apply Hr|done|done|done].
    - by apply (tracked_next except s s' (view_of e)). }
  intros ?. eapply triple_bind; [|intros ?; apply start_and_continue_triple].
  eapply triple_post; [apply (triple_quiet loop_inv)|done|intros e [H _]; by apply steady_persisted].
  destruct retried as [i|]; auto with quiet. apply quiet_bind; [apply deref_quiet|intros task].
  case_bool_decide; [apply schedule_quiet|auto with quiet].
Qed.

Lemma settle_triple except operation retried :
  (forall s, local_run c s -> (forall i k, except = Some (i, k) -> exists t, running_task s i t /\ k = Z.of_nat (length (Attempts t))) ->
     settles_run except operation s) ->
  triple (fun e => settling except (view_of e)) (settle clock interrupt c operation retried)
    (fun r e => continues r (view_of e)) (fun e => persisted (view_of e)).
Proof.
  intros Hop e e' r Hset Hrun. pose proof Hset as [Hsteady Htr]. pose proof (settling_rest _ _ Hset) as Hrest.
  specialize (Hop (snapshot e) (st_local _ _ _ Hsteady) (proj2 Htr)).
  unfold settle in Hrun. unfold mbind at 1, go_bind at 1, get in Hrun.
  unfold mbind at 1, go_bind at 1, on_snapshot in Hrun. rewrite cloneRunSnapshot_id in Hrun.
  destruct (operation (snapshot e)) as [s' out] eqn:Eop. specialize (Hop _ _ Eop).
  destruct out as [[]|err| |]; try (injection Hrun as <- <-; by apply steady_persisted).
  - destruct Hop as (Hstep & Hterm & Hmove).
    exact (settle_saved except (snapshot e) s' retried Hstep Hmove Hterm e e' r Hrest Hrun).
  - subst except. eapply start_and_continue_triple; [|exact Hrun]. by split.
Qed.

(** ** The three kinds of messages *)
Lemma running_open s i t : run_wf c s -> running_task s i t -> isWorkflowTerminal (run_Status (Run s)) = false.
Proof. intros Hwf [Ht Hr]. by rewrite (running_run c s i t Hwf Ht) by by rewrite Hr. Qed.

Lemma completion_settles i k response at_ s :
  local_run c s -> (forall j n, Some (i, k) = Some (j, n) -> exists t, running_task s j t /\ n = Z.of_nat (length (Attempts t))) ->
  settles_run (Some (i, k)) (ApplyAttemptResult (Some c) (Z.of_nat i) k response at_) s.
Proof.
  intros Hl Hex s' r Hrun. destruct (Hex i k eq_refl) as (t & Ht & Hk).
  destruct (known_result (Kind response)) eqn:Hkind.
  - destruct (apply_local c Hc i k t response at_ s Hl Ht Hk s' r Hrun Hkind) as (-> & Hstep & Hstop).
    split_and!; [done| |done]. eapply running_open; [apply Hl|done].
  - destruct (apply_unknown c Hc i t response at_ s (lr_wf _ _ Hl) Ht Hkind) as [err Herr].
    rewrite Hk, Herr in Hrun. by injection Hrun as <- <-.
Qed.

Lemma timeout_settles i k at_ s :
  local_run c s -> (forall j n, Some (i, k) = Some (j, n) -> exists t, running_task s j t /\ n = Z.of_nat (length (Attempts t))) ->
  settles_run (Some (i, k)) (TimeoutAttempt (Some c) (Z.of_nat i) k at_) s.
Proof.
  intros Hl Hex s' r Hrun. destruct (Hex i k eq_refl) as (t & Ht & Hk).
  destruct (timeout_local c Hc i k t at_ s Hl Ht Hk) as (s1 & Hrun1 & Hstep & Hstop).
  rewrite Hrun1 in Hrun. injection Hrun as <- <-. split_and!; [done| |done].
  eapply running_open; [apply Hl|done].
Qed.

Lemma retry_settles i k at_ s :
  local_run c s -> settles_run None (MakeRetryReady (Z.of_nat i) k at_) s.
Proof.
  intros Hl s' r Hrun. destruct (retry_local c Hc i k at_ s Hl s' r Hrun) as [(-> & ? & ? & ?)|[-> Hne]]; [done|].
  by destruct r as [[]| | |].
Qed.

(** A message for an attempt that is not active is dropped; otherwise the
    attempt is taken out of the active ones. *)
Lemma finish_attempt_triple i k s :
  triple (fun e => (loop_inv (view_of e) /\ busy (view_of e)) /\ snapshot e = s) (finishActiveAttempt (i, k))
    (fun live e => if (live : bool) then settling (Some (i, k)) (view_of e) /\ snapshot e = s
                   else loop_inv (view_of e) /\ busy (view_of e))
    (fun e => persisted (view_of e)).
Proof.
  intros e e' r [[[Hsteady Htr] Hb] Hs] Hrun. unfold finishActiveAttempt in Hrun.
  unfold mbind at 1, go_bind at 1, get in Hrun. case_bool_decide as Hin; [|by injection Hrun as <- <-].
  injection Hrun as <- <-. destruct Hsteady as [H1 H2 H3 H4 [H5 H6]]. destruct Htr as [Htr _]. cbn in *.
  split; [split|exact Hs].
  - split; [done|done|done|done|]. split; cbn; [|lia]. rewrite size_difference by by apply singleton_subseteq_l.
    rewrite size_singleton, H5. assert (0 < size (activeAttempts e)); [|lia].
    destruct (decide (size (activeAttempts e) = 0)) as [E|]; [|lia]. apply size_empty_inv in E. set_solver.
  - split.
    + intros j n. cbn. rewrite elem_of_difference, elem_of_singleton, Htr. split.
      * intros [(_ & H) Hne]. split; [congruence|done].
      * intros (Hne & H). split; [by split|]. intros E. by rewrite E in Hne.
    + intros j n [= <- <-]. apply Htr in Hin as (_ & H). exact H.
Qed.

Lemma attempt_message i k s (rest : go (engine St) (option WorkflowRun)) :
  triple (fun e => settling (Some (i, k)) (view_of e) /\ snapshot e = s) rest
    (fun r e => continues r (view_of e)) (fun e => persisted (view_of e)) ->
  triple (fun e => (loop_inv (view_of e) /\ busy (view_of e)) /\ snapshot e = s)
    (live ← finishActiveAttempt (i, k); if negb live then mret None else rest)
    (fun r e => continues r (view_of e)) (fun e => persisted (view_of e)).
Proof.
  intros H. eapply triple_bind; [apply finish_attempt_triple|]. intros [|]; [exact H|]. by apply triple_ret.
Qed.

Lemma executor_canceled i k s :
  triple (fun e => settling (Some (i, k)) (view_of e) /\ snapshot e = s)
    (_ ← deliver SigBusiness; Some <$> stoppedRunResult clock s)
    (fun r e => continues r (view_of e)) (fun e => persisted (view_of e)).
Proof.
  eapply triple_bind with (R := fun _ e => behind s (view_of e)).
  - eapply triple_conseq with (P' := fun e => behind s (view_of e)); [apply (triple_quiet (behind s)); auto with quiet| |done|].
    + intros e [[H _] <-]. by apply (steady_behind (view_of e)).
    + intros e. apply behind_persisted.
  - intros ?. apply triple_fmap, stoppedRunResult_triple.
Qed.

Lemma handle_event_triple event :
  triple (fun e => loop_inv (view_of e) /\ busy (view_of e)) (handle_event clock interrupt c event)
    (fun r e => continues r (view_of e)) (fun e => persisted (view_of e)).
Proof.
  set (P := fun v => loop_inv v /\ busy v).
  assert (HP : forall e : engine St, P (view_of e) -> persisted (view_of e)).
  { intros e [[H _] _]. by apply steady_persisted. }
  unfold handle_event. eapply triple_bind with (R := fun _ e => P (view_of e)).
  { eapply triple_post; [apply (triple_quiet P)|done|exact HP]. destruct event; auto with quiet. }
  intros ?. eapply triple_bind; [eapply triple_post; [apply (triple_quiet P); auto with quiet|done|exact HP]|].
  intros stop. eapply triple_bind; [apply triple_get|]. intros e0.
  eapply triple_pre with (P' := fun e => P (view_of e) /\ snapshot e = snapshot e0); [|by intros e [-> H]].
  destruct stop; [|destruct event as [i k response fin|i k at_|i k at_|sig]].
  - apply triple_fmap. eapply triple_pre; [apply stoppedRunResult_triple|].
    intros e [[[H _] _] <-]. by apply (steady_behind (view_of e)).
  - apply attempt_message. case_bool_decide; [apply executor_canceled|].
    eapply triple_pre; [apply (settle_triple (Some (i, k)))|by intros e []].
    intros s Hl Hex. by apply completion_settles.
  - apply attempt_message. eapply triple_pre; [apply (settle_triple (Some (i, k)))|by intros e []].
    intros s Hl Hex. by apply timeout_settles.
  - eapply triple_pre; [apply (settle_triple None)|by intros e [[[? ?] _] _]].
    intros s Hl _. by apply retry_settles.
  - apply triple_ret. by intros e [H _].
Qed.
End loop.
