(* ===== verification/EngineTheorems.v ===== *)
(** * What the engine guarantees

    The whole of [executeSnapshot] and [Execute] of src/workflow/engine.go:
    nothing runs before it is stored, no attempt runs twice, never more tasks
    than allowed run at once, no slot stays free while a task is ready, and the
    run that is returned is finished and is the stored one. *)
From S2P Require Import Prelude Hoare GoStrings Json Model State Graph Compiler Scheduling Distributed Effects RunInvariant RunOperations RunResults RunProperties RunTheorems ChangeSet Stores Recovery Engine EngineSteps EngineInvariant EngineLoop.
From stdpp Require Import relations.

Section execution.
Context {St : Type} `{!StoreView St} `{!enginePersistence St} `{!LoadContract St} `{!ApplyContract St}.
Context (clock : nat -> time) (interrupt : nat -> option signal).
Context (c : CompiledWorkflow) (Hc : compiled_wf c) (Hcl : cloneable c) (id : RunID).
Context (Hlossless : lossless (St := St) c).

#[local] Abbreviation stored := (stored (St := St) id).
#[local] Abbreviation persisted := (persisted (St := St) c id).
#[local] Abbreviation loop_inv := (loop_inv (St := St) c id).
#[local] Abbreviation busy := (busy (St := St) c).
#[local] Abbreviation run_of := (run_of c id).
#[local] Abbreviation behind := (behind (St := St) c id).
#[local] Abbreviation returned := (returned (St := St) c id).

(** ** The end of the loop *)
Lemma hasWaitingRetry_true tasks : hasWaitingRetry tasks = true <-> exists i t, tasks !! i = Some t /\ Status t = TaskWaitingRetry.
Proof.
  unfold hasWaitingRetry. rewrite existsb_exists. split.
  - intros (t & Hin & H%bool_decide_eq_true). apply list_elem_of_In, list_elem_of_lookup in Hin as [i Hi]. by exists i, t.
  - intros (i & t & Ht & H). exists t. split; [by eapply list_elem_of_In, list_elem_of_lookup_2|by apply bool_decide_eq_true].
Qed.

(** Without running tasks and without pending retries the run is finished. *)
Lemma idle_terminal v :
  loop_inv v -> busy v -> (v_running v <= 0)%Z -> hasWaitingRetry (Tasks (Run (v_snapshot v))) = false ->
  isWorkflowTerminal (run_Status (Run (v_snapshot v))) = true.
Proof.
  intros [[[Hwf _ Hq] _ _ _ [Hcnt _]] [Htr _]] Hb Hr Hw.
  destruct (isWorkflowTerminal _) eqn:Hterm; [done|exfalso].
  destruct (unfinished_active c Hc _ Hwf Hterm) as (i & t & Ht & Hact).
  assert (Hempty : v_active v = ∅) by (apply leibniz_equiv, size_empty_inv; lia).
  destruct (Status t) eqn:Hs; try done.
  - destruct Hb as [Hb|Hb]; [pose proof (cw_concurrency c Hc); lia|by eapply Hb].
  - by eapply Hq.
  - assert (Hin : (i, Z.of_nat (length (Attempts t))) ∈ v_active v); [|rewrite Hempty in Hin; set_solver].
    apply Htr. split; [done|]. by exists t.
  - assert (Hx : hasWaitingRetry (Tasks (Run (v_snapshot v))) = true); [|congruence].
    apply hasWaitingRetry_true. by exists i, t.
Qed.

Lemma finish_run_triple :
  triple (fun e => loop_inv (view_of e) /\ isWorkflowTerminal (run_Status (Run (snapshot e))) = true)
    (finish_run clock interrupt) (fun run e => returned run (view_of e)) (fun e => persisted (view_of e)).
Proof.
  intros e e' r [[[Hl Hid Hst Hled Hcnt] _] Hterm] Hrun. unfold finish_run in Hrun.
  unfold mbind at 1, go_bind at 1, get in Hrun. cbv zeta in Hrun. rewrite Hterm in Hrun.
  injection Hrun as <- <-. split; [done|]. split; [done|]. exists (snapshot e). split_and!; try done. by split; [apply Hl|].
Qed.

(** The loop waits for a message that can still come. *)
Definition awaiting (v : view St) : Prop :=
  loop_inv v /\ busy v /\ ((0 < v_running v)%Z \/ hasWaitingRetry (Tasks (Run (v_snapshot v))) = true).

Definition outcome_of (p : progress) (v : view St) : Prop :=
  match p with Waiting => awaiting v | Returned run => returned run v end.

Lemma continue_triple r rest :
  triple (fun e => loop_inv (view_of e) /\ busy (view_of e)) rest
    (fun p e => outcome_of p (view_of e)) (fun e => persisted (view_of e)) ->
  triple (fun e => continues c id r (view_of e))
    (match r with Some run => mret (Returned run) | None => rest end : go (engine St) progress)
    (fun p e => outcome_of p (view_of e)) (fun e => persisted (view_of e)).
Proof. intros H. destruct r; [by apply triple_ret|exact H]. Qed.

Lemma event_loop_triple events :
  triple (fun e => loop_inv (view_of e) /\ busy (view_of e)) (event_loop clock interrupt c events)
    (fun p e => outcome_of p (view_of e)) (fun e => persisted (view_of e)).
Proof.
  set (P := fun v => loop_inv v /\ busy v).
  assert (HP : forall e : engine St, P (view_of e) -> persisted (view_of e)).
  { intros e [[H _] _]. by apply steady_persisted. }
  assert (Hstep : forall event (rest : go (engine St) progress), triple (fun e => P (view_of e)) rest (fun p e => outcome_of p (view_of e)) (fun e => persisted (view_of e)) ->
    triple (fun e => P (view_of e))
      (r ← handle_event clock interrupt c event; match r with Some run => mret (Returned run) | None => rest end)
      (fun p e => outcome_of p (view_of e)) (fun e => persisted (view_of e))).
  { intros event rest H. eapply triple_bind; [by apply handle_event_triple|]. intros r. by apply continue_triple. }
  induction events as [|event events IH]; cbn [event_loop];
    (eapply triple_bind; [eapply triple_post; [apply (triple_quiet P); auto with quiet|intros ? ? HR; exact HR|exact HP]|]);
    intros stop; (eapply triple_bind; [apply triple_get|]); intros e0; apply triple_at; intros Hinv;
    (destruct stop;
      [apply triple_fmap; eapply triple_pre; [by apply stoppedRunResult_triple|intros e [<- _]; destruct Hinv as [[H _] _]; by apply (steady_behind c id (view_of e0))]|]);
    destruct (0 <? running e0)%Z eqn:Hr;
    try (destruct (hasWaitingRetry _) eqn:Hw; cbn [negb];
         [|apply triple_fmap; eapply triple_pre; [apply finish_run_triple|]; intros e [<- _]; split; [apply Hinv|];
           apply (idle_terminal (view_of e0)); [apply Hinv|apply Hinv|by apply Z.ltb_ge in Hr|done]]).
  - apply triple_ret. intros e [<- _]. split_and!; [apply Hinv|apply Hinv|]. left. by apply Z.ltb_lt.
  - apply triple_ret. intros e [<- _]. split_and!; [apply Hinv|apply Hinv|by right].
  - eapply triple_pre; [apply Hstep, IH|by intros e [_ H]].
  - destruct event; (eapply triple_pre; [first [apply IH|apply Hstep, IH]|by intros e [_ H]]).
Qed.

(** ** From the stored run to the loop *)

(** A run nobody is working on. *)
Definition idle (s : RunSnapshot) : Prop :=
  run_of s /\ forall i t, Tasks (Run s) !! i = Some t -> Status t ≠ TaskRunning /\ Status t ≠ TaskQueued.

Definition fresh (s : RunSnapshot) (v : view St) : Prop := v_snapshot v = s /\ v_active v = ∅ /\ v_running v = 0%Z.

Lemma fresh_store_free s : store_free (fresh s).
Proof. intros v v' (Hs & Ha & Hr & _) H. unfold fresh. rewrite Hs, Ha, Hr. exact H. Qed.

Lemma fresh_loop s' v :
  local_run c s' -> (forall i t, ~ running_task s' i t) -> v_snapshot v = s' -> v_active v = ∅ -> v_running v = 0%Z ->
  ID (Run s') = id -> stored v s' -> ledger s' v -> loop_inv v.
Proof.
  intros Hl Hnone Hs Ha Hr Hid Hst Hled. split.
  - split; [by rewrite Hs..|]. split; [by rewrite Hr, Ha, size_empty|]. pose proof (cw_concurrency c Hc). lia.
  - split; [|done]. intros i k. rewrite Ha, Hs. split; [set_solver|]. intros (_ & t & Ht & _). by apply Hnone in Ht.
Qed.

Lemma restore_timers_quiet i tasks : quiet (St := St) (restore_timers clock i tasks).
Proof.
  revert i. induction tasks as [|t tasks IH]; intros i; cbn; [apply quiet_ret|].
  apply quiet_bind; [|intros ?; apply IH]. case_bool_decide; [apply schedule_quiet|apply quiet_ret].
Qed.

Lemma enter_loop events :
  triple (fun e => loop_inv (view_of e))
    (e ← get;
     _ ← restore_timers clock 0 (Tasks (Run (snapshot e)));
     r ← start_and_continue clock interrupt c;
     match r with Some run => mret (Returned run) | None => event_loop clock interrupt c events end)
    (fun p e => outcome_of p (view_of e)) (fun e => persisted (view_of e)).
Proof.
  eapply triple_bind; [apply triple_get|]. intros e0. eapply triple_bind with (R := fun _ e => loop_inv (view_of e)).
  - eapply triple_conseq; [apply (triple_quiet loop_inv), restore_timers_quiet|by intros e [_ H]|done|].
    intros e [H _]. by apply steady_persisted.
  - intros ?. eapply triple_bind; [by apply start_and_continue_triple|]. intros r. apply continue_triple, event_loop_triple.
Qed.

Lemma begin_run s :
  idle s -> run_Status (Run s) = WorkflowPending ->
  triple (fun e => at_rest c id s (fresh s) (view_of e))
    (now ← Now clock;
     '(updated, _) ← on_snapshot (transitionWorkflow WorkflowRunning now "execution started") s;
     r ← attempt_call (saveSnapshot_ctx interrupt s updated);
     match r with
     | inl err => Some <$> stopped_or clock interrupt s err
     | inr updated =>
       _ ← modify (set_snapshot updated);
       stop ← stopped interrupt;
       if (stop : bool) then Some <$> stoppedRunResult clock updated else mret None
     end)
    (fun r e => match r with None => loop_inv (view_of e) | Some run => returned run (view_of e) end)
    (fun e => persisted (view_of e)).
Proof.
  intros [Hrun Hidle] Hp. assert (Hend : forall v, at_rest c id s (fresh s) v -> persisted v).
  { intros v H. by eapply behind_persisted, at_rest_behind. }
  eapply triple_bind; [eapply triple_post; [apply (triple_quiet (at_rest c id s (fresh s))); auto with quiet|done|intros e; apply Hend]|].
  intros now. destruct (start_local c Hc now "execution started" s (proj1 Hrun) Hp) as (s' & Htr & [Hgood Hl'] & Htasks).
  eapply triple_bind; [by apply (on_snapshot_triple _ s s' tt)|].
  intros x. apply triple_pure. intros ->. eapply triple_bind.
  { eapply triple_post; [apply attempt_triple, save_rest; try done; [apply fresh_store_free|by rewrite Hp]|intros ? ? HR; exact HR|].
    intros e [_ H]. by eapply behind_persisted. }
  intros [err|updated].
  { apply triple_fmap. eapply triple_pre; [by apply stopped_or_triple|by intros e [_ H]]. }
  apply triple_pure. intros ->. set (a := nextRevision s s').
  eapply triple_bind with (R := fun _ e => loop_inv (view_of e) /\ snapshot e = a).
  { apply triple_modify. intros e ((_ & Ha & Hr) & Hcnt & [Hwf Hid] & Hst & Hled). split; [|done].
    apply (fresh_loop a); [by apply next_local| |done..].
    intros i t [Ht Hs]. cbn in Ht. rewrite Htasks in Ht. by destruct (Hidle i t Ht). }
  intros ?. set (Q := fun v => loop_inv v /\ v_snapshot v = a).
  assert (HQ : forall e : engine St, Q (view_of e) -> behind a (view_of e)).
  { intros e [[H _] <-]. by apply steady_behind. }
  eapply triple_bind; [eapply triple_post; [apply (triple_quiet Q); auto with quiet|intros ? ? HR; exact HR|]|].
  { intros e H. by eapply behind_persisted, HQ. }
  intros [|].
  - apply triple_fmap. eapply triple_pre; [by apply stoppedRunResult_triple|exact HQ].
  - apply triple_ret. by intros e [H _].
Qed.

Lemma executeSnapshot_triple s events :
  idle s ->
  triple (fun e => stored (view_of e) s /\ ledger s (view_of e)) (executeSnapshot clock interrupt c events s)
    (fun p e => outcome_of p (view_of e)) (fun e => persisted (view_of e)).
Proof.
  intros Hidle. pose proof Hidle as [[Hwf Hid] Hno]. unfold executeSnapshot.
  eapply triple_bind with (R := fun _ e => at_rest c id s (fresh s) (view_of e)).
  { apply triple_modify. intros e [Hst Hled]. split_and!; try done.
    split; [done|]. cbn. pose proof (cw_concurrency c Hc). lia. }
  intros ?. eapply triple_bind with
    (R := fun r e => match r with None => loop_inv (view_of e) | Some run => returned run (view_of e) end).
  - case_bool_decide as Hp; [by apply begin_run|]. apply triple_ret. intros e ((Hs & Ha & Hr) & Hcnt & _ & Hst & Hled).
    apply (fresh_loop s); try done.
    + split; [done|done|]. intros i t Ht. by apply (Hno i t).
    + intros i t [Ht Hs']. by destruct (Hno i t Ht).
  - intros [run|]; [by apply triple_ret|apply enter_loop].
Qed.

(** ** The entry point *)
Definition definition_cached (def : WorkflowDefinition) (s : RunSnapshot) (e : engine St) : Prop :=
  Definition_ s = Some def /\ (compiled_cache e !! id = None \/ compiled_cache e !! id = Some c).

Lemma load_persisted ctx (P : view St -> Prop) s :
  (forall v v', same_but_store v v' -> stored v' s -> P v -> P v') -> (forall v, P v -> stored v s) ->
  triple (fun e => P (view_of e)) (on_store (store_Load ctx id))
    (fun s' e => s' = s /\ ID (Run s) = id /\ P (view_of e)) (fun e => P (view_of e)).
Proof.
  intros HP Hst e e' r Hpre Hrun. pose proof (Hst _ Hpre) as [Hok Hs]. unfold on_store in Hrun.
  destruct (store_Load ctx id (store e)) as [st' out] eqn:Hload. injection Hrun as <- <-.
  destruct (load_unchanged ctx id _ _ _ Hok Hload) as [Hok' Hu].
  assert (Hpost : P (view_of (set_store st' e))).
  { eapply HP; [| |exact Hpre]; [done|]. split; [done|]. cbn. by rewrite Hu. }
  destruct out as [s1|err| |]; try exact Hpost.
  destruct (load_found ctx id _ _ _ Hok Hload) as [Hs1 Hid]. cbn in Hs, Hs1. rewrite Hs in Hs1. by injection Hs1 as <-.
Qed.

Definition finds (s : RunSnapshot) (v : view St) : Prop := at_rest c id s (fun _ => True) v.

Lemma finds_store s v v' : same_but_store v v' -> stored v' s -> finds s v -> finds s v'.
Proof.
  intros H Hst (_ & H1 & H2 & _ & H4). split_and!; [done|by eapply same_counted|done|done|by eapply same_ledger].
Qed.
Lemma finds_behind s v : finds s v -> behind s v.
Proof. apply at_rest_behind. Qed.
Lemma finds_persisted s v : finds s v -> persisted v.
Proof. intros H. by eapply behind_persisted, finds_behind. Qed.

Lemma reconcile_triple err :
  triple (fun e => persisted (view_of e)) (reconcilePersistedCancellation clock id err)
    (fun run e => returned run (view_of e)) (fun e => persisted (view_of e)).
Proof.
  unfold reconcilePersistedCancellation. destruct (negb _); [by apply triple_throw|].
  eapply triple_pre with (P' := fun e => exists s, finds s (view_of e)).
  2:{ intros e (Hc1 & s & H1 & H2 & H3). by exists s. }
  apply triple_exists. intros s. eapply triple_bind.
  - eapply triple_post; [apply (load_persisted Background (finds s) s)|intros ? ? HR; exact HR|intros e; apply finds_persisted].
    + apply finds_store.
    + by intros v (_ & _ & _ & H & _).
  - intros s1. apply triple_pure. intros ->. apply triple_pure. intros _. case_bool_decide.
    + apply triple_throw. intros e. apply finds_persisted.
    + eapply triple_pre; [by apply finalizeCancellation_triple|intros e; apply finds_behind].
Qed.

Lemma execute_reconciled_triple s events :
  idle s ->
  triple (fun e => finds s (view_of e)) (execute_reconciled clock interrupt c id events s)
    (fun p e => outcome_of p (view_of e)) (fun e => persisted (view_of e)).
Proof.
  intros Hidle. unfold execute_reconciled. eapply triple_bind.
  - eapply triple_conseq; [apply attempt_triple, executeSnapshot_triple, Hidle| |intros ? ? HR; exact HR|done].
    by intros e (_ & _ & _ & H).
  - intros [err|p]; [|by apply triple_ret]. apply triple_fmap. apply reconcile_triple.
Qed.

Lemma compiled_triple def s :
  Compile def = Ok c ->
  triple (fun e => definition_cached def s e /\ finds s (view_of e)) (compiledForRun id s)
    (fun c' e => c' = c /\ finds s (view_of e)) (fun e => persisted (view_of e)).
Proof.
  intros Hcomp e e' r [[Hd Hcache] Hf] Hrun. unfold compiledForRun in Hrun.
  unfold mbind at 1, go_bind at 1, get in Hrun. rewrite Hd in Hrun. unfold compileStored in Hrun. rewrite Hcomp in Hrun.
  destruct Hcache as [E|E]; rewrite E in Hrun; by injection Hrun as <- <-.
Qed.

Lemma stopped_here def s (cont : go (engine St) progress) :
  triple (fun e => definition_cached def s e /\ finds s (view_of e)) cont
    (fun p e => outcome_of p (view_of e)) (fun e => persisted (view_of e)) ->
  triple (fun e => definition_cached def s e /\ finds s (view_of e))
    (stop ← stopped interrupt; if (stop : bool) then Returned <$> stoppedRunResult clock s else cont)
    (fun p e => outcome_of p (view_of e)) (fun e => persisted (view_of e)).
Proof.
  intros H. eapply triple_bind.
  - intros e e' r [Hd Hf] Hrun. assert (Hq := quiet_stopped interrupt e e' r Hrun).
    assert (Hcache : compiled_cache e' = compiled_cache e).
    { unfold stopped, poll, mbind, go_bind, get, modify in Hrun. destruct (interrupt _) as [[]|]; by injection Hrun as <- _. }
    assert (Hpost : definition_cached def s e' /\ finds s (view_of e')).
    { unfold definition_cached. rewrite Hcache, Hq. by split. }
    destruct r; [exact Hpost|by eapply finds_persisted, Hpost..].
  - intros [|]; [|exact H]. apply triple_fmap. eapply triple_pre; [by apply stoppedRunResult_triple|].
    intros e [_ Hf]. by apply finds_behind.
Qed.

Lemma Execute_body def s events :
  Compile def = Ok c -> idle s ->
  triple (fun e => definition_cached def s e /\ finds s (view_of e))
    (_ ← validateStoredRunID s id;
     if isWorkflowTerminal (run_Status (Run s)) then mret (Returned (Run s))
     else if bool_decide (is_Some (CancelRequestedAt (Run s))) then Returned <$> finalizeCancellation clock s
     else
       stop ← stopped interrupt;
       if (stop : bool) then Returned <$> stoppedRunResult clock s
       else
         compiled ← compiledForRun id s;
         stop ← stopped interrupt;
         if (stop : bool) then Returned <$> stoppedRunResult clock s
         else execute_reconciled clock interrupt compiled id events s)
    (fun p e => outcome_of p (view_of e)) (fun e => persisted (view_of e)).
Proof.
  intros Hcomp Hidle. eapply triple_bind; [apply triple_fail_if; intros _ e [_ H]; by eapply finds_persisted|].
  intros ?. apply triple_pure. intros _. destruct (isWorkflowTerminal _) eqn:Hterm.
  { apply triple_ret. intros e (_ & _ & H1 & H2 & H3 & H4). split_and!; [done|done|]. by exists s. }
  case_bool_decide.
  { apply triple_fmap. eapply triple_pre; [by apply finalizeCancellation_triple|]. intros e [_ Hf]. by apply finds_behind. }
  apply (stopped_here def). eapply triple_bind; [by apply compiled_triple|].
  intros c'. apply triple_pure. intros ->. eapply triple_bind.
  { eapply triple_post; [apply (triple_quiet (finds s)); auto with quiet|intros ? ? HR; exact HR|intros e; apply finds_persisted]. }
  intros [|]; [|by apply execute_reconciled_triple].
  apply triple_fmap. eapply triple_pre; [by apply stoppedRunResult_triple|intros e; apply finds_behind].
Qed.

Lemma Execute_triple ctx def s events :
  Compile def = Ok c -> idle s ->
  triple (fun e => definition_cached def s e /\ finds s (view_of e)) (Execute clock interrupt ctx id events)
    (fun p e => outcome_of p (view_of e)) (fun e => persisted (view_of e)).
Proof.
  intros Hcomp Hidle e e' r [Hd Hf] Hrun. unfold Execute, with_active_run in Hrun.
  unfold mbind at 1, go_bind at 1, get in Hrun. case_bool_decide as Hactive.
  { injection Hrun as <- <-. by eapply finds_persisted. }
  cbn [fail_if] in Hrun. unfold mbind at 1, go_bind at 1, mret at 1, go_ret at 1 in Hrun. cbv iota beta in Hrun.
  unfold mbind at 1, go_bind at 1, modify in Hrun. unfold releasing in Hrun.
  set (e1 := set_context ctx ctx (set_active ({[id]} ∪ active e) e)) in *.
  assert (Hd1 : definition_cached def s e1) by exact Hd. assert (Hf1 : finds s (view_of e1)) by exact Hf.
  unfold mbind at 1, go_bind at 1, on_store in Hrun.
  destruct (store_Load Background id (store e1)) as [st' out] eqn:Hload.
  pose proof (load_persisted Background (finds s) s (finds_store s) (fun v H => proj1 (proj2 (proj2 (proj2 H))))
    e1 (set_store st' e1) out Hf1) as H. unfold on_store in H. rewrite Hload in H. specialize (H eq_refl).
  destruct out as [s1|err| |]; try (injection Hrun as <- <-; by eapply finds_persisted).
  destruct H as (-> & _ & Hf2).
  cbv beta iota in Hrun.
  match type of Hrun with (let '(_, _) := ?m in _) = _ => destruct m as [e2 r2] eqn:Hbody end. injection Hrun as <- <-.
  assert (Hd2 : definition_cached def s (set_store st' e1)) by exact Hd1.
  pose proof (Execute_body def s events Hcomp Hidle _ _ _ (conj Hd2 Hf2) Hbody) as H. by destruct r2.
Qed.
End execution.

(** ** The properties *)
Section properties.
Context {St : Type} `{!StoreView St} `{!enginePersistence St} `{!LoadContract St} `{!ApplyContract St}.

(** A new engine and a stored run nobody is working on: it is reachable, and
    no task of it is running or queued. *)
Record startable (def : WorkflowDefinition) (c : CompiledWorkflow) (id : RunID) (s : RunSnapshot) (e : engine St) : Prop := {
  sb_compiled : Compile def = Ok c;
  sb_lossless : lossless (St := St) c;
  sb_stored : store_ok (store e) /\ content_of (store e) id = Some s;
  sb_run : reachable c s /\ ID (Run s) = id /\ Definition_ s = Some def;
  sb_idle : forall i t, Tasks (Run s) !! i = Some t -> Status t ≠ TaskRunning /\ Status t ≠ TaskQueued;
  sb_new : e = NewEngine (store e);
}.

Lemma startable_finds def c id s e :
  startable def c id s e -> idle c id s /\ definition_cached c id def s e /\ finds c id s (view_of e).
Proof.
  intros [Hcomp Hll Hst (Hreach & Hid & Hdef) Hno ->]. pose proof (compiled_ok _ _ Hcomp) as Hc.
  assert (Hrun : run_of c id s) by (split; [by apply reachable_run_wf|done]).
  split; [by split|]. split; [by split; [done|left]|]. split; [done|]. split; [|split; [done|split; [exact Hst|split; constructor]]].
  split; [by cbn; rewrite size_empty|]. cbn. pose proof (cw_concurrency c Hc). lia.
Qed.

Lemma Execute_outcome clock interrupt ctx events def c id s e e' r :
  startable def c id s e -> Execute clock interrupt ctx id events e = (e', r) ->
  match r with Ok p => outcome_of c id p (view_of e') | _ => persisted c id (view_of e') end.
Proof.
  intros Hsb. destruct (startable_finds _ _ _ _ _ Hsb) as (Hidle & Hd & Hf). destruct Hsb as [Hcomp Hll _ _ _ _].
  apply (Execute_triple clock interrupt c (compiled_ok _ _ Hcomp) (compiled_inputs _ _ Hcomp) id Hll ctx def s events Hcomp Hidle).
  by split.
Qed.

Lemma outcome_persisted c id p (v : view St) : outcome_of c id p v -> persisted c id v.
Proof. destruct p; [intros [[H _] _]; by apply steady_persisted|apply returned_persisted]. Qed.



(** what [Execute] returns is final.  A run it returns without an error has
    succeeded, failed or been canceled, and it is the run in the store. *)
Theorem Execute_returns_stored clock interrupt ctx events def c id s e e' run :
  startable def c id s e -> Execute clock interrupt ctx id events e = (e', Ok (Returned run)) ->
  isWorkflowTerminal (run_Status run) = true /\
  exists s', content_of (store e') id = Some s' /\ Run s' = run.
Proof.
  intros Hsb Hrun. pose proof (Execute_outcome _ _ _ _ _ _ _ _ _ _ _ Hsb Hrun) as (_ & Hterm & s' & [_ Hst] & _ & _ & Hr).
  split; [done|]. by exists s'.
Qed.
End properties.

(** ** A store in memory, for samples *)
Definition memory : Type := gmap RunID RunSnapshot.
Definition memory_RunStore : RunStore memory := {|
  store_Create := fun _ s => st ← get;
    _ ← fail_if (bool_decide (is_Some (st !! ID (Run s)))) ErrRunExists; modify (<[ID (Run s) := s]>);
  store_Load := fun _ id => st ← get;
    match st !! id with
    | Some s => if bool_decide (ID (Run s) = id) then mret s else throw ErrRunNotFound
    | None => throw ErrRunNotFound
    end;
|}.
Definition memory_Store : Store memory := {|
  Store_RunStore := memory_RunStore;
  store_Save := fun _ s => modify (<[ID (Run s) := s]>);
|}.
#[export] Instance memory_view : StoreView memory :=
  {| store_ok := fun _ => True; content_of := fun st id => st !! id; canonical := fun s => s |}.
#[export] Instance memory_persistence : enginePersistence memory := snapshotStoreAdapter memory_Store.

Lemma memory_written (st : memory) s : written (ID (Run s)) s st (<[ID (Run s) := s]> st).
Proof.
  split; [done|]. intros id'.
  change ((<[ID (Run s) := s]> (st : gmap RunID RunSnapshot)) !! id' = if decide (id' = ID (Run s)) then Some s else (st : gmap RunID RunSnapshot) !! id').
  destruct (decide (id' = ID (Run s))) as [->|Hne].
  - apply lookup_insert_eq.
  - by rewrite lookup_insert_ne.
Qed.

#[export] Instance memory_load : @LoadContract memory _ memory_RunStore.
Proof.
  split.
  - intros ctx id st st' r _. cbn. unfold mbind, go_bind, get. destruct (st !! id); [case_bool_decide|]; by intros [= <- <-].
  - intros ctx id st st' s _. cbn. unfold mbind, go_bind, get. destruct (st !! id); [case_bool_decide|]; by intros [= <- <-].
  - intros ctx s st st' r _. cbn. unfold mbind, go_bind, get, fail_if, modify. case_bool_decide as H.
    + intros [= <- <-]. by left.
    + intros [= <- <-]. right. split; [by apply eq_None_not_Some|apply memory_written].
Qed.
#[export] Instance memory_save : @SaveContract memory _ memory_Store.
Proof. split. intros ctx s st st' r _ [= <- <-]. right. apply memory_written. Qed.
#[export] Instance memory_load' : LoadContract memory := adapter_load memory_Store memory_load.
#[export] Instance memory_apply : ApplyContract memory := adapter_apply memory_Store memory_load memory_save.

(** The diamond workflow, from the first task to the end. *)
Definition sample_clock (k : nat) : time := (2000 + Z.of_nat k)%Z.
Definition undisturbed (k : nat) : option signal := None.
Definition sample_engine : engine memory := NewEngine {["run" := sample_run []]}.
Definition first_done : list loop_event := [Completed 0 1 success_response 3000].
Definition all_done : list loop_event :=
  first_done ++ [Completed 1 1 success_response 3001; Completed 1 1 success_response 3001;
    Completed 2 1 success_response 3002; Completed 3 1 success_response 3003].
Definition outcome_engine (events : list loop_event) : engine memory * outcome progress :=
  Execute sample_clock undisturbed None "run" events sample_engine.

Lemma sample_startable : startable (definition compiled_diamond) compiled_diamond "run" (sample_run []) sample_engine.
Proof.
  split.
  - vm_compute. reflexivity.
  - by intros s.
  - by split.
  - split_and!; [sample_reachable ([] : list run_op)|vm_compute; reflexivity..].
  - intros i t Ht. apply list_elem_of_lookup_2 in Ht. revert t Ht. apply Forall_forall. vm_compute.
    repeat constructor; discriminate.
  - reflexivity.
Qed.

Example sample_returned :
  match (outcome_engine all_done).2 with Ok (Returned run) => run_Status run = WorkflowSucceeded | _ => False end.
Proof. vm_compute. reflexivity. Qed.



Definition sample_result : WorkflowRun :=
  match (outcome_engine all_done).2 with Ok (Returned run) => run | _ => Run zero_RunSnapshot end.

Lemma Execute_returns_stored_witness : isWorkflowTerminal (run_Status sample_result) = true.
Proof.
  assert (H : Execute sample_clock undisturbed None "run" all_done sample_engine =
    ((outcome_engine all_done).1, Ok (Returned sample_result))) by (vm_compute; reflexivity).
  exact (proj1 (Execute_returns_stored sample_clock undisturbed None all_done (definition compiled_diamond) compiled_diamond "run"
    (sample_run []) sample_engine (outcome_engine all_done).1 sample_result sample_startable H)).
Defined.

(** A timer that fires before the instant it was set for - the wall clock was
    set back after a restart - is dropped: every message the run could still
    get has arrived, the single timer included, and the loop waits for ever. *)
Definition retry_lost : list loop_event :=
  first_done ++ [Completed 1 1 temporary_response 3001; Completed 2 1 success_response 3002; RetryReady 1 1 2500].

Lemma early_retry_lost :
  (outcome_engine retry_lost).2 = Ok Waiting /\ running (outcome_engine retry_lost).1 = 0%Z /\
  length (timers (outcome_engine retry_lost).1) = 1 /\
  hasWaitingRetry (Tasks (Run (snapshot (outcome_engine retry_lost).1))) = true.
Proof. vm_compute. repeat split. Qed.
