(* ===== verification/Database.v ===== *)
(** * The PostgreSQL tables

    The relational store of src/internal/postgres/run_store.go: the tables of
    the migrations with their constraints, loading a run from its rows and
    applying a change set row by row.  The rows that belong to one run
    (workflow_runs, task_runs by index, attempts by number, state_events by
    sequence) are kept together in its entry of [runs], as a snapshot with the
    joined definition version; dispatches, worker sessions, workflows with
    their versions and idempotency records are tables of their own.  A statement
    either takes effect as a whole or fails on a constraint; a transaction keeps
    its changes only if it commits. *)
From S2P Require Import Prelude GoStrings Json Model State Graph Compiler Distributed ChangeSet Stores.
From stdpp Require Import sorting.

(** Guards that were passed, as equations. *)
Ltac passed :=
  repeat match goal with
  | H : bool_decide (_ ≠ _) = false |- _ => rewrite bool_decide_eq_false in H; apply dec_stable in H
  | H : bool_decide (_ = _) = true |- _ => rewrite bool_decide_eq_true in H
  | H : bool_decide _ = true |- _ => rewrite bool_decide_eq_true in H
  | H : bool_decide _ = false |- _ => rewrite bool_decide_eq_false in H
  | H : _ || _ = false |- _ => apply orb_false_iff in H; destruct H
  | H : _ && _ = true |- _ => apply andb_true_iff in H; destruct H
  | H : negb _ = false |- _ => apply negb_false_iff in H
  | H : negb _ = true |- _ => apply negb_true_iff in H
  | H : (_ <? _)%Z = false |- _ => apply Z.ltb_ge in H
  | H : (_ <? _)%Z = true |- _ => apply Z.ltb_lt in H
  | H : (_ <=? _)%Z = false |- _ => apply Z.leb_gt in H
  | H : (_ <=? _)%Z = true |- _ => apply Z.leb_le in H
  | H : (_ =? _)%Z = true |- _ => apply Z.eqb_eq in H
  | u : unit |- _ => destruct u
  end.

(** ** Tables *)
Inductive DispatchStatus : Type :=
| DispatchPending | DispatchLeased | DispatchCompleted | DispatchExpired | DispatchCanceled.
Inductive WorkerStatus : Type := WorkerActive | WorkerDraining | WorkerOffline | WorkerStopped.
#[export] Instance DispatchStatus_eq_dec : EqDecision DispatchStatus.
Proof. solve_decision. Defined.
#[export] Instance WorkerStatus_eq_dec : EqDecision WorkerStatus.
Proof. solve_decision. Defined.

(** The ownership columns of a dispatch; the constraint
    task_dispatches_ownership_complete makes them NULL together. *)
Record lease_columns := mkLease {
  le_worker : string;
  le_attempt : Z;
  le_token_hash : string;
  le_expires_at : time;
  le_deadline : time;
  le_leased_at : time;
}.
Record dispatch_row := mkDispatch {
  d_run : RunID;
  d_task : TaskKey;
  d_kind : ExecutorKind;
  d_status : DispatchStatus;
  d_lease : option lease_columns;
  d_result_hash : option string;
  d_created_at : time;
  d_completed_at : option time;
}.
Record worker_row := mkWorker {
  w_display_name : string;
  w_protocol_version : Z;
  w_executor_kinds : list ExecutorKind;
  w_max_concurrency : Z;
  w_status : WorkerStatus;
  w_token_hash : string;
  w_registered_at : time;
  w_last_heartbeat_at : time;
  w_stopped_at : option time;
}.
Record workflow_row := mkWorkflow {
  wr_latest_version : Z;
  wr_created_at : time;
  wr_created_by : string;
}.
(** The definition is the document of the JSONB column as it is decoded. *)
Record version_row := mkVersion {
  v_definition : WorkflowDefinition;
  v_hash : string;
  v_created_at : time;
  v_created_by : string;
}.
Record idempotency_row := mkIdempotency {
  i_request_hash : string;
  i_resource_type : string;
  i_resource_id : string;
  i_resource_version : option Z;
}.
Record database := mkDatabase {
  runs : gmap RunID RunSnapshot;
  dispatches : gmap string dispatch_row;
  workers : gmap string worker_row;
  workflows : gmap string workflow_row;
  versions : gmap (string * Z) version_row;
  (** by principal, operation and key *)
  idempotency : gmap (string * string * string) idempotency_row;
}.
Definition set_runs v (db : database) : database :=
  mkDatabase v (dispatches db) (workers db) (workflows db) (versions db) (idempotency db).
Definition set_dispatches v (db : database) : database :=
  mkDatabase (runs db) v (workers db) (workflows db) (versions db) (idempotency db).
Definition set_workers v (db : database) : database :=
  mkDatabase (runs db) (dispatches db) v (workflows db) (versions db) (idempotency db).
Definition set_workflows v (db : database) : database :=
  mkDatabase (runs db) (dispatches db) (workers db) v (versions db) (idempotency db).
Definition set_versions v (db : database) : database :=
  mkDatabase (runs db) (dispatches db) (workers db) (workflows db) v (idempotency db).
Definition set_idempotency v (db : database) : database :=
  mkDatabase (runs db) (dispatches db) (workers db) (workflows db) (versions db) v.

(** ** Transactions *)

(** What becomes of a transaction whose statements all succeeded: it commits,
    a statement or the commit fails (the connection was lost, a deadlock was
    resolved), or it committed and the answer was lost. *)
Inductive fate : Type :=
| Committed
| RolledBack (e : error)
| AnswerLost (e : error).

Definition transaction {A} (end_ : fate) (body : go database A) : go database A := fun db =>
  match body db with
  | (db', Ok a) =>
    match end_ with
    | Committed => (db', Ok a)
    | RolledBack e => (db, Err e)
    | AnswerLost e => (db', Err e)
    end
  | (_, Err e) => (db, Err e)
  | (_, Panic) => (db, Panic)
  | (_, Diverge) => (db, Diverge)
  end.

Definition constraint_violation : error := Errorf "violates constraint".

(** ** Constraints of task_dispatches *)
Definition is_active (st : DispatchStatus) : bool :=
  match st with DispatchPending | DispatchLeased => true | _ => false end.
Definition has {A} (o : option A) : bool := match o with Some _ => true | None => false end.

Definition dispatch_shape (d : dispatch_row) : bool :=
  match d_status d with
  | DispatchPending => negb (has (d_lease d)) && negb (has (d_completed_at d)) && negb (has (d_result_hash d))
  | DispatchLeased => has (d_lease d) && negb (has (d_completed_at d)) && negb (has (d_result_hash d))
  | DispatchCompleted => has (d_lease d) && has (d_completed_at d) && has (d_result_hash d)
  | DispatchExpired => has (d_lease d) && has (d_completed_at d) && negb (has (d_result_hash d))
  | DispatchCanceled => has (d_completed_at d) && negb (has (d_result_hash d))
  end.
Definition dispatch_values (id : string) (d : dispatch_row) : bool :=
  (1 <=? String.length id) && (String.length id <=? 128) &&
  match d_lease d with
  | None => true
  | Some l => (0 <? le_attempt l)%Z && (String.length (le_token_hash l) =? 32)
      && (le_expires_at l <=? le_deadline l)%Z && (d_created_at d <=? le_leased_at l)%Z
  end &&
  match d_result_hash d with None => true | Some h => String.length h =? 32 end &&
  match d_completed_at d with None => true | Some t => (d_created_at d <=? t)%Z end.

(** The unique indexes: one active dispatch per task, one dispatch per lease
    token, one dispatch per attempt. *)
Definition dispatches_clash (a b : dispatch_row) : bool :=
  (is_active (d_status a) && is_active (d_status b) && bool_decide (d_run a = d_run b) && bool_decide (d_task a = d_task b)) ||
  match d_lease a, d_lease b with
  | Some la, Some lb =>
    bool_decide (le_token_hash la = le_token_hash lb) ||
    (bool_decide (d_run a = d_run b) && bool_decide (d_task a = d_task b) && bool_decide (le_attempt la = le_attempt lb))
  | _, _ => false
  end.
Definition dispatch_allowed (db : database) (id : string) (d : dispatch_row) : bool :=
  dispatch_shape d && dispatch_values id d &&
  match d_lease d with None => true | Some l => has (workers db !! le_worker l) end &&
  forallb (fun '(id', d') => bool_decide (id' = id) || negb (dispatches_clash d d')) (map_to_list (dispatches db)).

Definition put_dispatch (id : string) (d : dispatch_row) : go database unit :=
  db ← get;
  _ ← fail_if (negb (dispatch_allowed db id d)) constraint_violation;
  modify (set_dispatches (<[id := d]> (dispatches db))).
Definition insert_dispatch (id : string) (d : dispatch_row) : go database unit :=
  db ← get;
  _ ← fail_if (has (dispatches db !! id)) constraint_violation;
  put_dispatch id d.

(** ** Constraints of worker_sessions *)

(** What a TEXT column can hold: valid UTF-8 without a zero byte. *)
Definition pg_text (s : string) : bool := forallb (fun x => x.2 && negb (x.1.1 =? 0)%N) (runes s).

Definition worker_values (id : string) (w : worker_row) : bool :=
  (1 <=? String.length id) && (String.length id <=? 128) &&
  pg_text (w_display_name w) && (1 <=? rune_count (w_display_name w)) && (rune_count (w_display_name w) <=? 128) &&
  (0 <? w_protocol_version w)%Z &&
  (1 <=? length (w_executor_kinds w)) && (length (w_executor_kinds w) <=? 16) &&
  (1 <=? w_max_concurrency w)%Z && (w_max_concurrency w <=? 1024)%Z &&
  (String.length (w_token_hash w) =? 32) && (w_registered_at w <=? w_last_heartbeat_at w)%Z &&
  match w_stopped_at w with None => true | Some t => (w_registered_at w <=? t)%Z end &&
  bool_decide (bool_decide (w_status w = WorkerStopped) = has (w_stopped_at w)).

(** The error of a unique index. *)
Definition unique_violation (name : string) : error := Sentinel name.
Definition token_hash_used (hash : string) (db : database) : bool :=
  existsb (fun '(_, w) => bool_decide (w_token_hash w = hash)) (map_to_list (workers db)).

Definition insert_worker (id : string) (w : worker_row) : go database unit :=
  db ← get;
  _ ← fail_if (negb (worker_values id w)) constraint_violation;
  _ ← fail_if (has (workers db !! id)) (unique_violation "worker_sessions_pkey");
  _ ← fail_if (token_hash_used (w_token_hash w) db) (unique_violation "worker_sessions_token_hash_unique");
  modify (set_workers (<[id := w]> (workers db))).
Definition update_worker (id : string) (w : worker_row) : go database unit :=
  db ← get;
  _ ← fail_if (negb (worker_values id w)) constraint_violation;
  modify (set_workers (<[id := w]> (workers db))).

(** ** Loading a run *)
Fixpoint attempts_contiguous (next : Z) (attempts : list Attempt) : bool :=
  match attempts with
  | [] => true
  | a :: rest => (Number a =? next)%Z && attempts_contiguous (next + 1) rest
  end.
Fixpoint events_contiguous (next : Z) (events : list StateEvent) : bool :=
  match events with
  | [] => true
  | e :: rest => (Sequence e =? next)%Z && events_contiguous (next + 1) rest
  end.

Definition loadSnapshot (id : RunID) : go database RunSnapshot :=
  db ← get;
  match runs db !! id with
  | None => throw ErrRunNotFound
  | Some s =>
    match Definition_ s with
    | None => throw ErrRunNotFound
    | Some stored =>
      _ ← fail_if ((Revision (Run s) <? 0) || (LastEventSequence (Run s) <? 0))%Z
            (Errorf "stored Run has negative revision or event sequence");
      compiled ← lift (match Compile stored with
                       | Err e => Err (Wrapf "compile stored workflow definition: %w" e)
                       | r => r end);
      definition ← lift (Definition_of (Some compiled));
      _ ← fail_if (bool_decide (length (Tasks (Run s)) ≠ length (def_Tasks definition)))
            (Errorf "stored TaskRun count %d does not match definition count %d");
      _ ← fail_if (negb (forallb (fun t => attempts_contiguous 1 (Attempts t)) (Tasks (Run s))))
            (Errorf "stored Attempt %s/%d is not contiguous");
      _ ← fail_if (negb (events_contiguous 1 (Events s)))
            (Errorf "stored StateEvent sequence %d is not contiguous");
      _ ← fail_if (negb (LastEventSequence (Run s) =? Z.of_nat (length (Events s)))%Z)
            (Errorf "stored last event sequence %d does not match event count %d");
      mret (mkRunSnapshot (Version s) (Some definition) (Run s) (Events s))
    end
  end.
Definition Load (end_ : fate) (id : RunID) : go database RunSnapshot := transaction end_ (loadSnapshot id).

(** ** The shape of a change set *)
Definition invalid (format : string) : error := Wrapf format ErrInvalidChangeSet.

Fixpoint validateTaskShapes (runID : RunID) (seen : gset Z) (changes : list TaskRunChange) : outcome unit :=
  match changes with
  | [] => Ok tt
  | task :: rest =>
    check (bool_decide (tc_RunID task ≠ runID) || (tc_Index task <? 0)%Z || is_empty (Key (tc_Task task))
           || bool_decide (Attempts (tc_Task task) ≠ []) || (tc_RemainingDependencies task <? 0)%Z)
      (invalid "invalid TaskRun change for key %q") $
    check (bool_decide (tc_Index task ∈ seen)) (invalid "task index %d is changed more than once") $
    validateTaskShapes runID ({[tc_Index task]} ∪ seen) rest
  end.

(** The key "task/number" identifies the pair: a decimal number has no slash. *)
Fixpoint validateAttemptShapes (runID : RunID) (seen : gset (TaskKey * Z)) (changes : list AttemptChange) : outcome unit :=
  match changes with
  | [] => Ok tt
  | attempt :: rest =>
    check (bool_decide (ac_RunID attempt ≠ runID) || (ac_TaskIndex attempt <? 0)%Z || is_empty (ac_TaskKey attempt)
           || (Number (ac_Attempt attempt) <=? 0)%Z)
      (invalid "invalid Attempt change for task %q") $
    let key := (ac_TaskKey attempt, Number (ac_Attempt attempt)) in
    check (bool_decide (key ∈ seen)) (invalid "Attempt %s is changed more than once") $
    validateAttemptShapes runID ({[key]} ∪ seen) rest
  end.

Fixpoint validateEventShapes (expected : Z) (events : list StateEvent) : outcome Z :=
  match events with
  | [] => Ok expected
  | event :: rest =>
    check (bool_decide (Sequence event ≠ expected)) (invalid "event sequence %d must be %d") $
    validateEventShapes (u64 (expected + 1)) rest
  end.

Definition validateChangeSetShape (change : ChangeSet) : outcome unit :=
  match cs_Run change with
  | None => Err (invalid "RunID and Run row are required")
  | Some row =>
    check (is_empty (cs_RunID change)) (invalid "RunID and Run row are required") $
    check (bool_decide (ID row ≠ cs_RunID change)) (invalid "Run row ID %q does not match ChangeSet RunID %q") $
    check (bool_decide (Revision row ≠ u64 (ExpectedRevision change + 1)))
      (invalid "Run revision %d must follow expected revision %d") $
    check (bool_decide (Tasks row ≠ []) || bool_decide (RemainingDependencies row ≠ []))
      (invalid "Run row must not embed TaskRun rows") $
    _ ← validateTaskShapes (cs_RunID change) ∅ (cs_Tasks change);
    _ ← validateAttemptShapes (cs_RunID change) ∅ (cs_Attempts change);
    match cs_Events change with
    | [] => Ok tt
    | event :: _ =>
      check (bool_decide (Sequence event = 0%Z)) (invalid "event sequence must be positive") $
      next ← validateEventShapes (Sequence event) (cs_Events change);
      check (bool_decide (LastEventSequence row ≠ u64 (next - 1)))
        (invalid "Run last event sequence does not match appended events") $
      Ok tt
    end
  end.

(** ** Applying a change set row by row *)

(** A Go [uint64] as a BIGINT parameter. *)
Definition int64 (z : Z) : Z := wrap64 z.

Definition workflow_status_valid (st : WorkflowStatus) : bool :=
  match st with WorkflowOther _ => false | _ => true end.
Definition task_status_valid (st : TaskStatus) : bool := match st with TaskOther _ => false | _ => true end.
Definition attempt_status_valid (st : AttemptStatus) : bool := match st with AttemptOther _ => false | _ => true end.
Definition entity_valid (entity : string) : bool :=
  bool_decide (entity ∈ ["workflow"; "task"; "attempt"]).

(** [UPDATE workflow_runs ... WHERE run_id, revision and last_event_sequence]:
    the status columns only, never the definition. *)
Definition run_columns (row : WorkflowRun) (r : WorkflowRun) : WorkflowRun :=
  mkWorkflowRun (ID r) (DefinitionID r) (DefinitionVersion r) (run_Status row) (int64 (Revision row))
    (int64 (LastEventSequence row)) (CancelRequestedAt row) (Tasks r) (RemainingDependencies r)
    (CreatedAt row) (run_StartedAt row) (run_FinishedAt row).

Definition classifyRunUpdateMiss (id : RunID) (revision lastSequence : Z) : go database unit :=
  db ← get;
  match runs db !! id with
  | None => throw ErrRunNotFound
  | Some s =>
    if bool_decide (u64 (Revision (Run s)) ≠ revision) then throw ErrRevisionConflict
    else fail_if (bool_decide (u64 (LastEventSequence (Run s)) ≠ lastSequence))
      (invalid "stored event sequence %d does not match expected %d")
  end.

Definition updateRun (id : RunID) (row : WorkflowRun) (expectedRevision expectedLast : Z) : go database unit :=
  db ← get;
  match runs db !! id with
  | Some s =>
    if bool_decide (Revision (Run s) = int64 expectedRevision) && bool_decide (LastEventSequence (Run s) = int64 expectedLast)
    then
      _ ← fail_if (negb (workflow_status_valid (run_Status row)) || (int64 (Revision row) <? 0)%Z
                   || (int64 (LastEventSequence row) <? 0)%Z) constraint_violation;
      modify (set_runs (<[id := upd_Run (run_columns row) s]> (runs db)))
    else _ ← classifyRunUpdateMiss id expectedRevision expectedLast; throw ErrRevisionConflict
  | None => _ ← classifyRunUpdateMiss id expectedRevision expectedLast; throw ErrRevisionConflict
  end.

Definition updateTask (change : TaskRunChange) : go database unit :=
  db ← get;
  let i := Z.to_nat (tc_Index change) in
  match runs db !! tc_RunID change with
  | None => throw (invalid "TaskRun %q does not match index %d")
  | Some s =>
    match Tasks (Run s) !! i with
    | Some t =>
      if bool_decide (Key t = Key (tc_Task change)) then
        _ ← fail_if (negb (task_status_valid (Status (tc_Task change))) || (tc_RemainingDependencies change <? 0)%Z)
              constraint_violation;
        let t' := mkTaskRun (Key t) (Status (tc_Task change)) (Attempts t) (ReadyAt (tc_Task change)) (FinishedAt (tc_Task change)) in
        modify (set_runs (<[tc_RunID change := upd_Remaining (<[i := tc_RemainingDependencies change]>)
                             (upd_Tasks (<[i := t']>) s)]> (runs db)))
      else throw (invalid "TaskRun %q does not match index %d")
    | None => throw (invalid "TaskRun %q does not match index %d")
    end
  end.

(** The constraints of attempts: both ownership columns or none, references to
    existing rows, one attempt per dispatch. *)
Definition attempt_allowed (db : database) (run : RunID) (key : TaskKey) (a : Attempt) : bool :=
  attempt_status_valid (att_Status a) && (0 <? Number a)%Z &&
  (if is_empty (WorkerID a) then is_empty (DispatchID a)
   else negb (is_empty (DispatchID a)) && has (workers db !! WorkerID a) && has (dispatches db !! DispatchID a)) &&
  (is_empty (DispatchID a) ||
   forallb (fun '(run', s) => forallb (fun t => forallb (fun b =>
       bool_decide ((run', Key t, Number b) = (run, key, Number a)) || bool_decide (DispatchID b ≠ DispatchID a))
     (Attempts t)) (Tasks (Run s))) (map_to_list (runs db))).

(** The task row the attempt refers to. *)
Definition task_row (db : database) (run : RunID) (key : TaskKey) (index : Z) : option (RunSnapshot * TaskRun) :=
  s ← runs db !! run;
  t ← Tasks (Run s) !! Z.to_nat index;
  if bool_decide (Key t = key) then Some (s, t) else None.

Definition put_attempts (run : RunID) (index : Z) (s : RunSnapshot) (t : TaskRun) (attempts : list Attempt) : go database unit :=
  modify (fun db => set_runs (<[run := upd_Tasks (<[Z.to_nat index := set_task_Attempts attempts t]>) s]> (runs db)) db).

(** Attempt numbers are a key, so the next one goes to the end. *)
Definition insertAttempt (run : RunID) (key : TaskKey) (index : Z) (attempt : Attempt) : go database unit :=
  db ← get;
  match task_row db run key index with
  | None => throw (invalid "Attempt task %q does not match index %d")
  | Some (s, t) =>
    let next := match Attempts t with [] => 1%Z | a :: rest => (foldr Z.max (Number a) (Number <$> rest) + 1)%Z end in
    if bool_decide (Number attempt = next) then
      _ ← fail_if (negb (attempt_allowed db run key attempt)) constraint_violation;
      put_attempts run index s t (Attempts t ++ [attempt])
    else throw (invalid "Attempt task %q does not match index %d")
  end.

Definition updateAttempt (run : RunID) (key : TaskKey) (index : Z) (attempt : Attempt) : go database unit :=
  db ← get;
  match task_row db run key index with
  | None => throw (invalid "Attempt %s/%d does not exist")
  | Some (s, t) =>
    match list_find (fun a => Number a = Number attempt) (Attempts t) with
    | None => throw (invalid "Attempt %s/%d does not exist")
    | Some (k, _) =>
      _ ← fail_if (negb (attempt_allowed db run key attempt)) constraint_violation;
      put_attempts run index s t (<[k := attempt]> (Attempts t))
    end
  end.

Definition applyAttemptTx (change : AttemptChange) : go database unit :=
  match ac_Operation change with
  | ChangeInsert => insertAttempt (ac_RunID change) (ac_TaskKey change) (ac_TaskIndex change) (ac_Attempt change)
  | ChangeUpdate => updateAttempt (ac_RunID change) (ac_TaskKey change) (ac_TaskIndex change) (ac_Attempt change)
  | ChangeOther _ => throw (invalid "unknown Attempt operation %q")
  end.

(** (run_id, sequence) is the primary key, and rows are read in its order. *)
Definition insert_by_sequence (event : StateEvent) (events : list StateEvent) : list StateEvent :=
  filter (fun e => Sequence e < Sequence event)%Z events ++ event ::
  filter (fun e => Sequence event < Sequence e)%Z events.
Definition insertEvent (run : RunID) (event : StateEvent) : go database unit :=
  db ← get;
  match runs db !! run with
  | None => throw constraint_violation
  | Some s =>
    let row := mkStateEvent (int64 (Sequence event)) (At event) (Entity event) (ev_Key event) (From event) (To event) (Reason event) in
    _ ← fail_if ((Sequence row <=? 0)%Z || negb (entity_valid (Entity row))
                 || existsb (fun e => bool_decide (Sequence e = Sequence row)) (Events s)) constraint_violation;
    modify (set_runs (<[run := set_Events (insert_by_sequence row (Events s)) s]> (runs db)))
  end.

Definition applyChangeSetTx (change : ChangeSet) : go database unit :=
  _ ← lift (validateChangeSetShape change);
  row ← deref (cs_Run change);
  let expectedLastSequence :=
    match cs_Events change with [] => LastEventSequence row | event :: _ => u64 (Sequence event - 1) end in
  _ ← updateRun (cs_RunID change) row (ExpectedRevision change) expectedLastSequence;
  _ ← for_each (cs_Tasks change) updateTask;
  _ ← for_each (cs_Attempts change) applyAttemptTx;
  for_each (cs_Events change) (insertEvent (cs_RunID change)).
Definition Apply (end_ : fate) (change : ChangeSet) : go database unit :=
  _ ← lift (validateChangeSetShape change);
  transaction end_ (applyChangeSetTx change).

(** Every operation below ends like this: the next revision, the difference to
    what was loaded, and its rows. *)
Definition save_changes (snapshot updated : RunSnapshot) : go database unit :=
  let updated := upd_Run (set_run_Revision (u64 (Revision (Run snapshot) + 1))) updated in
  change ← lift (ChangeSetBetween snapshot updated);
  applyChangeSetTx change.

(** ** Run queries *)

(** [ORDER BY]: the ordering of a query is an argument, because that of text
    columns depends on the collation. *)
Definition order_by {A} (le : A -> A -> bool) (rows : list A) : list A := merge_sort (fun a b => Is_true (le a b)) rows.

Definition ListNonTerminal (text_le : string -> string -> bool) : go database (list RunID) :=
  db ← get;
  mret (fst <$> order_by (fun a b => (CreatedAt (Run a.2) <? CreatedAt (Run b.2))%Z
                    || ((CreatedAt (Run a.2) =? CreatedAt (Run b.2))%Z && text_le a.1 b.1))
          (filter (fun '(_, s) => isWorkflowTerminal (run_Status (Run s)) = false) (map_to_list (runs db)))).

Definition RequestCancel (end_ : fate) (id : RunID) (at_ : time) : go database WorkflowRun :=
  transaction end_ (
    db ← get;
    match runs db !! id with
    | None => throw ErrRunNotFound
    | Some s =>
      _ ← (if negb (IsWorkflowTerminalForStore (run_Status (Run s))) && negb (has (CancelRequestedAt (Run s)))
           then
             _ ← fail_if (2 ^ 63 <=? Revision (Run s) + 1)%Z constraint_violation;
             modify (set_runs (<[id := upd_Run (fun r => set_run_Revision (Revision r + 1)%Z (set_run_CancelRequestedAt (Some at_) r)) s]> (runs db)))
           else mret tt);
      snapshot ← loadSnapshot id;
      mret (Run snapshot)
    end).
