(* ===== verification/Dispatch.v ===== *)
(** * Dispatching tasks to workers

    The protocol of src/internal/postgres/dispatch_*.go over the tables of
    Database.v: turning ready tasks into pending dispatches, leasing them to
    workers, renewing and settling leases, and canceling runs.  Each operation
    is one transaction.  Its arguments make the environment explicit: the
    database clock, the random tokens, the rows that other transactions have
    locked ([SKIP LOCKED] leaves them out), and how the transaction ends. *)
From S2P Require Import Prelude GoStrings Json Model State Graph Compiler Distributed SnapshotJson ChangeSet Stores Database.
From stdpp Require Import sorting.

Definition ErrInvalidResult : error := Sentinel "ErrInvalidResult".
Definition ErrLeaseLost : error := Sentinel "ErrLeaseLost".
Definition ErrResultConflict : error := Sentinel "ErrResultConflict".
Definition ErrWorkerSessionInvalid : error := Sentinel "ErrWorkerSessionInvalid".
Definition ErrWorkerDraining : error := Sentinel "ErrWorkerDraining".
Definition ErrWorkerCapacityExceeded : error := Sentinel "ErrWorkerCapacityExceeded".
Definition defaultLeaseDuration : duration := (15 * Second)%Z.
Definition defaultWorkerHeartbeatInterval : duration := (5 * Second)%Z.
Definition maxResultOutputBytes : nat := Z.to_nat 65536.
Definition maxResultErrorCodeBytes : nat := 128.
Definition maxResultErrorMessageBytes : nat := Z.to_nat 8192.

Record Lease := mkClaimed {
  cl_dispatch : string;
  cl_token : string;
  cl_definition : string;
  cl_version : Z;
  cl_run : RunID;
  cl_task : TaskKey;
  cl_executor : ExecutorKind;
  cl_action : string;
  cl_input : Input;
  cl_attempt : Z;
  cl_deadline : time;
  cl_expires_at : time;
}.
Record LeaseRef := mkLeaseRef { ref_dispatch : string; ref_token : string }.
Inductive LeaseHeartbeatStatus : Type := LeaseRenewed | LeaseRevoked | LeaseUnknown.
Record LeaseHeartbeat := mkHeartbeat {
  hb_dispatch : string;
  hb_status : LeaseHeartbeatStatus;
  hb_remaining_ms : Z;
}.

(** ** Rows *)
Definition firstTaskWithStatus (tasks : list TaskRun) (status : TaskStatus) : option nat :=
  fst <$> list_find (fun t => Status t = status) tasks.
Definition due (at_ : time) (t : TaskRun) : bool :=
  bool_decide (Status t = TaskWaitingRetry) && match ReadyAt t with Some r => negb (before at_ r) | None => false end.
Definition firstDueRetry (tasks : list TaskRun) (at_ : time) : option nat :=
  fst <$> list_find (fun t => due at_ t = true) tasks.
Definition taskIndexByKey (tasks : list TaskRun) (key : TaskKey) : option nat :=
  fst <$> list_find (fun t => Key t = key) tasks.

(** [cloneRepositorySnapshot], with the operation that follows on the copy. *)
Definition cloneRepositorySnapshot (snapshot : RunSnapshot) : RunSnapshot := snapshot.
Definition on_copy {A} (operation : go RunSnapshot A) (snapshot : RunSnapshot) : go database (RunSnapshot * A) := fun db =>
  match operation (cloneRepositorySnapshot snapshot) with
  | (s', Ok a) => (db, Ok (s', a))
  | (_, Err e) => (db, Err e)
  | (_, Panic) => (db, Panic)
  | (_, Diverge) => (db, Diverge)
  end.

(** [UPDATE task_dispatches SET ... WHERE dispatch_id = $1 AND status = ...],
    and the test of the number of rows. *)
Definition update_dispatch (id : string) (status : DispatchStatus) (set : dispatch_row -> dispatch_row) (missed : error)
    : go database unit :=
  db ← get;
  match dispatches db !! id with
  | Some d => if bool_decide (d_status d = status) then put_dispatch id (set d) else throw missed
  | None => throw missed
  end.
Definition set_closed (status : DispatchStatus) (result : option string) (at_ : time) (d : dispatch_row) : dispatch_row :=
  mkDispatch (d_run d) (d_task d) (d_kind d) status (d_lease d) result (d_created_at d) (Some at_).
Definition set_leased (l : lease_columns) (d : dispatch_row) : dispatch_row :=
  mkDispatch (d_run d) (d_task d) (d_kind d) DispatchLeased (Some l) (d_result_hash d) (d_created_at d) (d_completed_at d).

Definition dispatch_list (P : string -> dispatch_row -> bool) (db : database) : list (string * dispatch_row) :=
  filter (fun '(id, d) => P id d = true) (map_to_list (dispatches db)).
Definition leased_to (worker : string) (d : dispatch_row) : bool :=
  bool_decide (d_status d = DispatchLeased) && bool_decide (le_worker <$> d_lease d = Some worker).
Definition count_leases (worker : string) (db : database) : Z :=
  Z.of_nat (length (dispatch_list (fun _ => leased_to worker) db)).
Definition count_active (db : database) : Z :=
  Z.of_nat (length (dispatch_list (fun _ d => is_active (d_status d)) db)).

Definition run_open (s : RunSnapshot) : bool :=
  bool_decide (run_Status (Run s) = WorkflowPending) || bool_decide (run_Status (Run s) = WorkflowRunning).
Definition not_canceled (s : RunSnapshot) : bool := negb (has (CancelRequestedAt (Run s))).

(** Lexicographic orders of the queries. *)
Definition time_then_text (text_le : string -> string -> bool) (a b : time * string) : bool :=
  (a.1 <? b.1)%Z || ((a.1 =? b.1)%Z && text_le a.2 b.2).

Section repository.
Context (sha256 : string -> string).
Context (text_le : string -> string -> bool) (leaseDuration workerHeartbeatInterval : duration).

(** ** Credentials (src/internal/workerauth/token.go) *)
Definition DigestToken (token : string) : string := sha256 token.
Definition MatchesToken (token digest : string) : bool :=
  if is_empty token || negb (String.length digest =? 32) then false else bool_decide (sha256 token = digest).

(** ** Scheduling *)

(** [pending] dispatches no active worker can run. *)
Definition has_compatible_worker (kind : ExecutorKind) (db : database) : bool :=
  existsb (fun '(_, w) => bool_decide (w_status w = WorkerActive) && bool_decide (kind ∈ w_executor_kinds w)) (map_to_list (workers db)).
Definition orphaned_dispatches (limit : nat) (db : database) : list (string * dispatch_row) :=
  take limit (order_by (fun a b => time_then_text text_le (d_created_at a.2, a.1) (d_created_at b.2, b.1))
    (dispatch_list (fun _ d => bool_decide (d_status d = DispatchPending)
       && match runs db !! d_run d with Some s => not_canceled s | None => false end
       && negb (has_compatible_worker (d_kind d) db)) db)).

Definition returnOrphan (at_ : time) (item : string * dispatch_row) : go database unit :=
  db ← get;
  _ ← fail_if (negb (has (runs db !! d_run item.2))) ErrRunNotFound;
  match dispatches db !! item.1 with
  | None => mret tt
  | Some d =>
    if bool_decide (d_status d ≠ DispatchPending) then mret tt
    else
      snapshot ← loadSnapshot (d_run item.2);
      i ← (match taskIndexByKey (Tasks (Run snapshot)) (d_task d) with
           | Some i =>
             task ← deref (Tasks (Run snapshot) !! i);
             if bool_decide (Status task ≠ TaskQueued)
             then throw (Errorf "pending Dispatch %s does not match a queued Task") else mret i
           | None => throw (Errorf "pending Dispatch %s does not match a queued Task")
           end);
      '(updated, _) ← on_copy (ReturnQueuedTaskToReady (Z.of_nat i) at_ "no compatible active Worker") snapshot;
      _ ← save_changes snapshot updated;
      update_dispatch item.1 DispatchPending (set_closed DispatchCanceled None at_)
        (Errorf "orphaned pending Dispatch %s changed concurrently")
  end.
Definition returnOrphanedPendingDispatches (at_ : time) (limit : nat) : go database unit :=
  db ← get;
  for_each (orphaned_dispatches limit db) (returnOrphan at_).

Definition due_runs (skipped : string -> bool) (at_ : time) (limit : nat) (db : database) : list RunID :=
  take limit (fst <$> order_by (fun a b => time_then_text text_le (CreatedAt (Run a.2), a.1) (CreatedAt (Run b.2), b.1))
    (filter (fun '(id, s) => run_open s && not_canceled s
       && existsb (fun t => bool_decide (Status t = TaskWaitingRetry) && match ReadyAt t with Some r => (r <=? at_)%Z | None => false end) (Tasks (Run s))
       && negb (skipped id) = true) (map_to_list (runs db)))).
Definition promoteDueRetry (at_ : time) (id : RunID) : go database unit :=
  snapshot ← loadSnapshot id;
  match firstDueRetry (Tasks (Run snapshot)) at_ with
  | None => mret tt
  | Some i =>
    task ← deref (Tasks (Run snapshot) !! i);
    attempt ← deref (last (Attempts task));
    '(updated, applied) ← on_copy (MakeRetryReady (Z.of_nat i) (Number attempt) at_) snapshot;
    _ ← fail_if (negb applied) (Errorf "due retry %s/%s no longer matches its current Attempt");
    save_changes snapshot updated
  end.
Definition promoteDueRetries (skipped : string -> bool) (at_ : time) (limit : nat) : go database unit :=
  db ← get;
  for_each (due_runs skipped at_ limit db) (promoteDueRetry at_).

(** Free slots by executor kind: a worker's free slots count for each of its
    kinds, pending dispatches are subtracted.  A kind is present once it was
    written. *)
Definition add_free (free : Z) (capacity : gmap string Z) (kind : ExecutorKind) : gmap string Z :=
  <[executor_string kind := (default 0 (capacity !! executor_string kind) + free)%Z]> capacity.
Definition count_pending (kind : ExecutorKind) (db : database) : Z :=
  Z.of_nat (length (dispatch_list (fun _ d => bool_decide (d_status d = DispatchPending) && bool_decide (d_kind d = kind)) db)).
Definition loadExecutorCapacity (db : database) : gmap string Z :=
  let free := foldl (fun capacity '(id, w) =>
      if bool_decide (w_status w = WorkerActive)
      then foldl (add_free (Z.max 0 (w_max_concurrency w - count_leases id db))) capacity (w_executor_kinds w)
      else capacity) ∅ (map_to_list (workers db)) in
  foldl (fun capacity kind =>
      <[executor_string kind := Z.max 0 (default 0 (capacity !! executor_string kind) - count_pending kind db)%Z]> capacity)
    free (remove_dups ((fun p => d_kind p.2) <$> dispatch_list (fun _ d => bool_decide (d_status d = DispatchPending)) db)).

(** Queued and running tasks against the concurrency of the definition. *)
Definition in_flight (s : RunSnapshot) : Z :=
  Z.of_nat (length (filter (fun t => Status t = TaskQueued \/ Status t = TaskRunning) (Tasks (Run s)))).
Definition has_slot (s : RunSnapshot) : bool :=
  match Definition_ s with Some d => (in_flight s <? Concurrency d)%Z | None => false end.
Definition last_dispatched (id : RunID) (db : database) : option time :=
  match (fun p => d_created_at p.2) <$> dispatch_list (fun _ d => bool_decide (d_run d = id)) db with
  | [] => None
  | t :: rest => Some (foldr Z.max t rest)
  end.
(** [ASC NULLS FIRST] *)
Definition nulls_first (le : bool) (a b : option time) : bool :=
  match a, b with
  | None, None => le
  | None, Some _ => true
  | Some _, None => false
  | Some x, Some y => (x <? y)%Z || ((x =? y)%Z && le)
  end.
Definition candidate_runs (skipped : string -> bool) (limit : nat) (db : database) : list RunID :=
  take limit (fst <$> order_by (fun a b =>
      nulls_first (time_then_text text_le (CreatedAt (Run a.2), a.1) (CreatedAt (Run b.2), b.1))
        (last_dispatched a.1 db) (last_dispatched b.1 db))
    (filter (fun '(id, s) => run_open s && not_canceled s
       && existsb (fun t => bool_decide (Status t = TaskReady)) (Tasks (Run s)) && has_slot s && negb (skipped id) = true)
      (map_to_list (runs db)))).

Definition createDispatch (tokens : nat -> outcome string) (now : time) (created : nat) (id : RunID) (snapshot : RunSnapshot)
    (i : nat) (kind : ExecutorKind) : go database unit :=
  suffix ← lift (tokens created);
  task ← deref (Tasks (Run snapshot) !! i);
  let dispatchID := ("dsp_" ++ suffix)%string in
  _ ← insert_dispatch dispatchID (mkDispatch id (Key task) kind DispatchPending None None now None);
  '(updated, _) ← on_copy (QueueTask (Z.of_nat i) now) snapshot;
  save_changes snapshot updated.

Fixpoint createLoop (tokens : nat -> outcome string) (now : time) (available : nat) (created : nat) (capacity : gmap string Z)
    (ids : list RunID) : go database nat :=
  match ids with
  | [] => mret created
  | id :: rest =>
    if (available <=? created)%nat then mret created
    else
      snapshot ← loadSnapshot id;
      match firstTaskWithStatus (Tasks (Run snapshot)) TaskReady with
      | None => createLoop tokens now available created capacity rest
      | Some i =>
        definition ← deref (Definition_ snapshot);
        d ← deref (def_Tasks definition !! i);
        let kind := def_Executor d in
        let free := default 0%Z (capacity !! executor_string kind) in
        if (free <=? 0)%Z then createLoop tokens now available created capacity rest
        else
          _ ← createDispatch tokens now created id snapshot i kind;
          createLoop tokens now available (S created) (<[executor_string kind := (free - 1)%Z]> capacity) rest
      end
  end.

Definition CreateDispatches (end_ : fate) (skipped : string -> bool) (tokens : nat -> outcome string) (now : time) (limit : Z)
    : go database nat :=
  _ ← fail_if (limit <=? 0)%Z (Errorf "dispatch limit must be positive");
  transaction end_ (
    _ ← returnOrphanedPendingDispatches now (Z.to_nat limit);
    _ ← promoteDueRetries skipped now (Z.to_nat limit);
    db ← get;
    let available := (limit - count_active db)%Z in
    if (available <=? 0)%Z then mret 0
    else
      let capacity := loadExecutorCapacity db in
      if bool_decide (capacity = ∅) then mret 0
      else createLoop tokens now (Z.to_nat available) 0 capacity (candidate_runs skipped (Z.to_nat available) db)).

(** ** Claiming *)
Definition claimable (kinds : list ExecutorKind) (skipped : string -> bool) (db : database) (id : string) (d : dispatch_row) : bool :=
  bool_decide (d_status d = DispatchPending) &&
  match runs db !! d_run d with
  | Some s => existsb (fun t => bool_decide (Key t = d_task d) && bool_decide (Status t = TaskQueued)) (Tasks (Run s))
      && bool_decide (run_Status (Run s) = WorkflowRunning) && not_canceled s
  | None => false
  end && bool_decide (d_kind d ∈ kinds) && negb (skipped id) && negb (skipped (d_run d)).
Definition claim_candidates (kinds : list ExecutorKind) (skipped : string -> bool) (slots : nat) (db : database)
    : list (string * dispatch_row) :=
  take slots (order_by (fun a b => time_then_text text_le (d_created_at a.2, a.1) (d_created_at b.2, b.1))
    (dispatch_list (claimable kinds skipped db) db)).

Definition claimOne (token : outcome string) (now : time) (workerID : string) (item : string * dispatch_row) : go database Lease :=
  snapshot ← loadSnapshot (d_run item.2);
  i ← (match taskIndexByKey (Tasks (Run snapshot)) (d_task item.2) with
       | Some i =>
         task ← deref (Tasks (Run snapshot) !! i);
         if bool_decide (Status task ≠ TaskQueued) then throw (Errorf "Dispatch %s does not match a queued Task") else mret i
       | None => throw (Errorf "Dispatch %s does not match a queued Task")
       end);
  definition ← deref (Definition_ snapshot);
  compiled ← lift (match Compile definition with
                   | Err e => Err (Wrapf "compile Run definition for claim: %w" e) | r => r end);
  '(updated, request) ← on_copy (StartQueuedAttempt (Some compiled) (Z.of_nat i) now workerID item.1) snapshot;
  d ← deref (def_Tasks definition !! i);
  let attemptDeadline := time_add now (millis (TimeoutMillis d)) in
  let leaseExpiresAt :=
    if after (time_add now leaseDuration) attemptDeadline then attemptDeadline else time_add now leaseDuration in
  leaseToken ← lift token;
  _ ← update_dispatch item.1 DispatchPending
        (set_leased (mkLease workerID (req_Attempt request) (DigestToken leaseToken) leaseExpiresAt attemptDeadline now))
        (Errorf "Dispatch %s is no longer pending");
  _ ← save_changes snapshot updated;
  mret (mkClaimed item.1 leaseToken (req_DefinitionID request) (DefinitionVersion (Run snapshot)) (req_RunID request)
    (req_TaskKey request) (def_Executor d) (req_Action request) (req_Input request) (req_Attempt request)
    attemptDeadline leaseExpiresAt).

Fixpoint claimLoop (tokens : nat -> outcome string) (n : nat) (now : time) (workerID : string) (items : list (string * dispatch_row))
    : go database (list Lease) :=
  match items with
  | [] => mret []
  | item :: rest =>
    lease ← claimOne (tokens n) now workerID item;
    leases ← claimLoop tokens (S n) now workerID rest;
    mret (lease :: leases)
  end.

Definition Claim (end_ : fate) (skipped : string -> bool) (tokens : nat -> outcome string) (now : time) (workerID : string) (slots : Z)
    : go database (list Lease) :=
  _ ← fail_if (slots <=? 0)%Z ErrWorkerCapacityExceeded;
  transaction end_ (
    db ← get;
    match workers db !! workerID with
    | None => throw ErrWorkerSessionInvalid
    | Some w =>
      if bool_decide (w_status w = WorkerDraining) then throw ErrWorkerDraining
      else
        _ ← fail_if (bool_decide (w_status w ≠ WorkerActive)) ErrWorkerSessionInvalid;
        let freeSlots := (w_max_concurrency w - count_leases workerID db)%Z in
        _ ← fail_if (freeSlots <? slots)%Z ErrWorkerCapacityExceeded;
        claimLoop tokens 0 now workerID (claim_candidates (w_executor_kinds w) skipped (Z.to_nat slots) db)
    end).

(** ** Heartbeats *)
Definition heartbeatLease (now : time) (workerID : string) (ref : LeaseRef) : go database LeaseHeartbeat :=
  db ← get;
  let unknown := mkHeartbeat (ref_dispatch ref) LeaseUnknown 0 in
  match dispatches db !! ref_dispatch ref with
  | None => mret unknown
  | Some d =>
    match d_lease d with
    | None => throw (Wrapf "load heartbeat Dispatch %s: %w" (Errorf "cannot scan NULL"))
    | Some l =>
      if bool_decide (le_worker l ≠ workerID) || negb (MatchesToken (ref_token ref) (le_token_hash l)) then mret unknown
      else if bool_decide (d_status d ≠ DispatchLeased) || negb (after (le_expires_at l) now) || negb (after (le_deadline l) now)
      then mret (mkHeartbeat (ref_dispatch ref) LeaseRevoked 0)
      else
        let newExpiry := if after (time_add now leaseDuration) (le_deadline l) then le_deadline l else time_add now leaseDuration in
        _ ← put_dispatch (ref_dispatch ref)
              (set_leased (mkLease (le_worker l) (le_attempt l) (le_token_hash l) newExpiry (le_deadline l) (le_leased_at l)) d);
        mret (mkHeartbeat (ref_dispatch ref) LeaseRenewed (time_sub newExpiry now ÷ 1000000)%Z)
    end
  end.

Fixpoint heartbeatLeases (now : time) (workerID : string) (refs : list LeaseRef) : go database (list LeaseHeartbeat) :=
  match refs with
  | [] => mret []
  | ref :: rest =>
    item ← heartbeatLease now workerID ref;
    items ← heartbeatLeases now workerID rest;
    mret (item :: items)
  end.

Definition set_heartbeat (now : time) (w : worker_row) : worker_row :=
  mkWorker (w_display_name w) (w_protocol_version w) (w_executor_kinds w) (w_max_concurrency w) (w_status w) (w_token_hash w)
    (w_registered_at w) now (w_stopped_at w).
Definition Heartbeat (end_ : fate) (now : time) (workerID : string) (refs : list LeaseRef) : go database (list LeaseHeartbeat) :=
  transaction end_ (
    db ← get;
    match workers db !! workerID with
    | None => throw ErrWorkerSessionInvalid
    | Some w =>
      _ ← fail_if (bool_decide (w_status w = WorkerOffline) || bool_decide (w_status w = WorkerStopped)) ErrWorkerSessionInvalid;
      _ ← fail_if (now <? w_registered_at w)%Z constraint_violation;
      _ ← modify (set_workers (<[workerID := set_heartbeat now w]> (workers db)));
      heartbeatLeases now workerID refs
    end).

(** ** Results *)

(** [json.Marshal] of the four fields, in the order of the struct. *)
Definition json_field (name : string) (value : string) : list N := json_string name ++ [58%N] ++ json_string value.
Definition json_result (result : ExecutionResponse) : string :=
  string_of_bytes ([123%N] ++ json_join [json_field "kind" (result_kind_string (Kind result)); json_field "output" (resp_Output result);
    json_field "error_code" (resp_ErrorCode result); json_field "error_message" (resp_ErrorMessage result)] ++ [125%N]).

Definition digestWorkerResult (result : ExecutionResponse) : outcome string :=
  check (bool_decide (Kind result ∉ [ResultSuccess; ResultTemporaryFailure; ResultPermanentFailure]))
    (Wrapf "%w: unsupported result kind %q" ErrInvalidResult) $
  check (maxResultOutputBytes <? String.length (resp_Output result))%nat (Wrapf "%w: output exceeds %d bytes" ErrInvalidResult) $
  check (maxResultErrorCodeBytes <? String.length (resp_ErrorCode result))%nat (Wrapf "%w: error code exceeds %d bytes" ErrInvalidResult) $
  check (maxResultErrorMessageBytes <? String.length (resp_ErrorMessage result))%nat (Wrapf "%w: error message exceeds %d bytes" ErrInvalidResult) $
  Ok (sha256 (json_result result)).

(** The attempt the lease was given for is still the running one. *)
Definition owns_attempt (workerID dispatchID : string) (l : lease_columns) (key : TaskKey) (snapshot : RunSnapshot) : option nat :=
  i ← taskIndexByKey (Tasks (Run snapshot)) key;
  task ← Tasks (Run snapshot) !! i;
  attempt ← last (Attempts task);
  if bool_decide (Status task = TaskRunning) && bool_decide (Number attempt = le_attempt l)
     && bool_decide (WorkerID attempt = workerID) && bool_decide (DispatchID attempt = dispatchID)
  then Some i else None.

Definition completeLeased (now : time) (workerID dispatchID resultHash : string) (result : ExecutionResponse) (d : dispatch_row)
    (l : lease_columns) : go database unit :=
  snapshot ← loadSnapshot (d_run d);
  _ ← fail_if (negb (not_canceled snapshot) || bool_decide (run_Status (Run snapshot) ≠ WorkflowRunning)) ErrLeaseLost;
  match owns_attempt workerID dispatchID l (d_task d) snapshot with
  | None => throw ErrLeaseLost
  | Some i =>
    definition ← deref (Definition_ snapshot);
    compiled ← lift (match Compile definition with
                     | Err e => Err (Wrapf "compile Run definition for completion: %w" e) | r => r end);
    '(updated, applied) ← on_copy (ApplyAttemptResult (Some compiled) (Z.of_nat i) (le_attempt l) result now) snapshot;
    _ ← fail_if (negb applied) ErrLeaseLost;
    _ ← save_changes snapshot updated;
    update_dispatch dispatchID DispatchLeased (set_closed DispatchCompleted (Some resultHash) now) ErrLeaseLost
  end.

Definition Complete (end_ : fate) (now : time) (workerID dispatchID leaseToken : string) (result : ExecutionResponse)
    : go database bool :=
  resultHash ← lift (digestWorkerResult result);
  transaction end_ (
    db ← get;
    match dispatches db !! dispatchID with
    | None => throw ErrLeaseLost
    | Some d =>
      _ ← fail_if (negb (has (runs db !! d_run d))) (Wrapf "lock Run for completion: %w" (Sentinel "pgx.ErrNoRows"));
      match d_lease d with
      | None => throw ErrLeaseLost
      | Some l =>
        _ ← fail_if (bool_decide (le_worker l ≠ workerID) || negb (MatchesToken leaseToken (le_token_hash l))) ErrLeaseLost;
        if bool_decide (d_status d = DispatchCompleted)
        then
          _ ← fail_if (bool_decide (d_result_hash d ≠ Some resultHash)) ErrResultConflict;
          mret true
        else
          _ ← fail_if (bool_decide (d_status d ≠ DispatchLeased) || negb (after (le_expires_at l) now)
                       || negb (after (le_deadline l) now)) ErrLeaseLost;
          _ ← completeLeased now workerID dispatchID resultHash result d l;
          mret true
      end
    end).

(** ** Expired leases *)
Definition set_worker_status (st : WorkerStatus) (stopped : option time) (w : worker_row) : worker_row :=
  mkWorker (w_display_name w) (w_protocol_version w) (w_executor_kinds w) (w_max_concurrency w) st (w_token_hash w)
    (w_registered_at w) (w_last_heartbeat_at w) stopped.
Definition silent (offlineBefore : time) (w : worker_row) : bool :=
  (bool_decide (w_status w = WorkerActive) || bool_decide (w_status w = WorkerDraining))
  && (w_last_heartbeat_at w <? offlineBefore)%Z.
Definition expired_at (now : time) (d : dispatch_row) : bool :=
  bool_decide (d_status d = DispatchLeased) &&
  match d_lease d with Some l => (le_expires_at l <=? now)%Z || (le_deadline l <=? now)%Z | None => false end.
Definition expiry (d : dispatch_row) : time :=
  match d_lease d with Some l => Z.min (le_expires_at l) (le_deadline l) | None => 0%Z end.
Definition expired_dispatches (skipped : string -> bool) (now : time) (limit : nat) (db : database) : list (string * dispatch_row) :=
  take limit (order_by (fun a b => time_then_text text_le (expiry a.2, a.1) (expiry b.2, b.1))
    (dispatch_list (fun id d => expired_at now d && has (runs db !! d_run d) && negb (skipped id) && negb (skipped (d_run d))) db)).

Definition reapOne (currentTime : time) (item : string * dispatch_row) : go database unit :=
  db ← get;
  match dispatches db !! item.1 with
  | None => mret tt
  | Some d =>
    if bool_decide (d_status d ≠ DispatchLeased) then mret tt
    else
      l ← deref (d_lease d);
      if after (le_expires_at l) currentTime && after (le_deadline l) currentTime then mret tt
      else
        snapshot ← loadSnapshot (d_run item.2);
        match taskIndexByKey (Tasks (Run snapshot)) (d_task item.2), d_lease item.2 with
        | Some i, Some scanned =>
          definition ← deref (Definition_ snapshot);
          compiled ← lift (match Compile definition with
                           | Err e => Err (Wrapf "compile Run definition for lease reap: %w" e) | r => r end);
          '(updated, applied) ← on_copy
            (if negb (after (le_deadline l) currentTime)
             then TimeoutAttempt (Some compiled) (Z.of_nat i) (le_attempt scanned) currentTime
             else InterruptAttempt (Some compiled) (Z.of_nat i) (le_attempt scanned) currentTime "Worker lease expired")
            snapshot;
          _ ← fail_if (negb applied) (Errorf "expired Dispatch %s no longer owns the current Attempt");
          _ ← save_changes snapshot updated;
          update_dispatch item.1 DispatchLeased (set_closed DispatchExpired None currentTime)
            (Errorf "expired Dispatch %s changed concurrently")
        | _, _ => throw (Errorf "expired Dispatch %s has no matching Task")
        end
  end.
Fixpoint reapLoop (clock : nat -> time) (n : nat) (items : list (string * dispatch_row)) : go database unit :=
  match items with
  | [] => mret tt
  | item :: rest => _ ← reapOne (clock n) item; reapLoop clock (S n) rest
  end.

Definition ReapExpired (end_ : fate) (skipped : string -> bool) (clock : nat -> time) (now : time) (limit : Z) : go database nat :=
  _ ← fail_if (limit <=? 0)%Z (Errorf "reap limit must be positive");
  transaction end_ (
    let offlineBefore := time_add now (- (3 * workerHeartbeatInterval)) in
    _ ← modify (fun db => set_workers ((fun w => if silent offlineBefore w then set_worker_status WorkerOffline (w_stopped_at w) w else w)
                                       <$> workers db) db);
    db ← get;
    let expired := expired_dispatches skipped now (Z.to_nat limit) db in
    _ ← reapLoop clock 0 expired;
    mret (length expired)).

(** ** Cancellation *)
Definition revoke (now : time) (id : RunID) (d : dispatch_row) : dispatch_row :=
  if bool_decide (d_run d = id) && is_active (d_status d) then set_closed DispatchCanceled (d_result_hash d) now d else d.
Definition revokeDispatches (now : time) (id : RunID) : go database unit :=
  db ← get;
  _ ← fail_if (negb (forallb (fun '(name, d) => dispatch_shape (revoke now id d) && dispatch_values name (revoke now id d))
                (map_to_list (dispatches db)))) constraint_violation;
  modify (set_dispatches (revoke now id <$> dispatches db)).

Definition CancelRun (end_ : fate) (now : time) (id : RunID) : go database unit :=
  transaction end_ (
    db ← get;
    _ ← fail_if (negb (has (runs db !! id))) ErrRunNotFound;
    snapshot ← loadSnapshot id;
    if IsWorkflowTerminalForStore (run_Status (Run snapshot)) then mret tt
    else
      _ ← fail_if (not_canceled snapshot) (Errorf "Run %s cancellation was not requested");
      updated ← lift (CancelRunSnapshot snapshot now);
      _ ← save_changes snapshot updated;
      revokeDispatches now id).

Definition requested_runs (limit : nat) (db : database) : list RunID :=
  take limit (fst <$> order_by (fun a b =>
      time_then_text text_le (default 0%Z (CancelRequestedAt (Run a.2)), a.1) (default 0%Z (CancelRequestedAt (Run b.2)), b.1))
    (filter (fun '(_, s) => run_open s && negb (not_canceled s) = true) (map_to_list (runs db)))).
(** [fmt.Errorf(format, err)] *)
Definition wrapped {A} (format : string) (m : go database A) : go database A := fun db =>
  match m db with (db', Err e) => (db', Err (Wrapf format e)) | r => r end.
(** One transaction per run. *)
Definition CancelRequestedRuns (ends : RunID -> fate) (nows : RunID -> time) (limit : Z) : go database nat :=
  _ ← fail_if (limit <=? 0)%Z (Errorf "cancellation reconciliation limit must be positive");
  db ← get;
  let ids := requested_runs (Z.to_nat limit) db in
  _ ← for_each ids (fun id => wrapped "reconcile cancellation for Run %s: %w" (CancelRun (ends id) (nows id) id));
  mret (length ids).
End repository.
