(* ===== verification/Workers.v ===== *)
(** * Worker sessions

    src/internal/postgres/worker_repository.go and the tokens of
    src/internal/workerauth/token.go: registering a worker under fresh
    credentials, checking them for an operation, draining, and the listings.
    Random bytes, the database clock and the end of each transaction are
    arguments. *)
From S2P Require Import Prelude Hoare GoStrings Json Model State Graph Compiler Distributed ChangeSet Stores Database Dispatch.
From stdpp Require Import sorting.

Definition ErrInvalidWorkerRegistration : error := Sentinel "ErrInvalidWorkerRegistration".
Definition ErrWorkerProtocolUnsupported : error := Sentinel "ErrWorkerProtocolUnsupported".
Definition ErrWorkerNotFound : error := Sentinel "ErrWorkerNotFound".
Definition maxWorkerDisplayNameRunes : nat := 128.
Definition maxWorkerExecutorKinds : nat := 16.
Definition maxWorkerConcurrency : Z := 1024.
Definition maxWorkerPageSize : Z := 100.
Definition workerRegistrationRetries : nat := 3.
Definition ProtocolVersion : Z := 1.

Inductive WorkerOperation : Type :=
| OperationClaim | OperationHeartbeat | OperationComplete | OperationDrain | OperationOther (s : string).
#[export] Instance WorkerOperation_eq_dec : EqDecision WorkerOperation.
Proof. solve_decision. Defined.

Record RegisterRequest := mkRegister {
  reg_DisplayName : string;
  reg_ProtocolVersion : Z;
  reg_ExecutorKinds : list ExecutorKind;
  reg_MaxConcurrency : Z;
}.
Record WorkerSummary := mkWorkerSummary {
  sum_WorkerID : string;
  sum_DisplayName : string;
  sum_ProtocolVersion : Z;
  sum_ExecutorKinds : list ExecutorKind;
  sum_MaxConcurrency : Z;
  sum_Status : WorkerStatus;
  sum_ActiveLeases : Z;
  sum_RegisteredAt : time;
  sum_LastHeartbeatAt : time;
  sum_StoppedAt : option time;
}.
Record Registration := mkRegistration { Summary : WorkerSummary; SessionToken : string }.
Record WorkerSession := mkWorkerSession {
  ses_WorkerID : string;
  ses_ProtocolVersion : Z;
  ses_ExecutorKinds : list ExecutorKind;
  ses_MaxConcurrency : Z;
  ses_Status : WorkerStatus;
}.

(** ** Tokens *)

(** [base64.RawURLEncoding]: 6 bits per character, no padding. *)
Definition base64_char (n : N) : N :=
  if (n <? 26)%N then (65 + n)%N else if (n <? 52)%N then (71 + n)%N
  else if (n <? 62)%N then (n - 4)%N else if (n =? 62)%N then 45%N else 95%N.
Fixpoint base64url (l : list N) : list N :=
  match l with
  | a :: b :: c :: rest =>
    base64_char (a / 4) :: base64_char (a mod 4 * 16 + b / 16) :: base64_char (b mod 16 * 4 + c / 64)
      :: base64_char (c mod 64) :: base64url rest
  | [a; b] => [base64_char (a / 4); base64_char (a mod 4 * 16 + b / 16); base64_char (b mod 16 * 4)]
  | [a] => [base64_char (a / 4); base64_char (a mod 4 * 16)]
  | [] => []
  end%N.
Definition tokenBytes : nat := 32.

(** [rand.Read] fills the 32 bytes or fails. *)
Definition GenerateToken (raw : outcome (list N)) : outcome string :=
  match raw with
  | Ok bytes => Ok (string_of_bytes (base64url bytes))
  | Err e => Err (Wrapf "generate random token: %w" e)
  | Panic => Panic
  | Diverge => Diverge
  end.

(** ** Registration *)
Fixpoint normalizeKinds (seen : list ExecutorKind) (kinds : list ExecutorKind) : outcome (list ExecutorKind) :=
  match kinds with
  | [] => Ok []
  | kind :: rest =>
    check (bool_decide (kind ≠ ExecutorMock)) ErrInvalidWorkerRegistration $
    if bool_decide (kind ∈ seen) then normalizeKinds seen rest
    else
      normalized ← normalizeKinds (kind :: seen) rest;
      Ok (kind :: normalized)
  end.
Definition normalizeWorkerRegistration (request : RegisterRequest) : outcome RegisterRequest :=
  let name := TrimSpace (reg_DisplayName request) in
  check (bool_decide (reg_ProtocolVersion request ≠ ProtocolVersion)) ErrWorkerProtocolUnsupported $
  check (is_empty name || (maxWorkerDisplayNameRunes <? rune_count name)%nat) ErrInvalidWorkerRegistration $
  check ((reg_MaxConcurrency request <=? 0)%Z || (maxWorkerConcurrency <? reg_MaxConcurrency request)%Z) ErrInvalidWorkerRegistration $
  check (bool_decide (reg_ExecutorKinds request = []) || (maxWorkerExecutorKinds <? length (reg_ExecutorKinds request))%nat)
    ErrInvalidWorkerRegistration $
  kinds ← normalizeKinds [] (reg_ExecutorKinds request);
  Ok (mkRegister name (reg_ProtocolVersion request) kinds (reg_MaxConcurrency request)).

(** [isUniqueViolation(err, constraint)] *)
Definition isUniqueViolation (err : error) (constraint : string) : bool := errors_Is err (unique_violation constraint).

(** A call whose error is looked at, [if err := m(); err != nil]. *)
Definition result_of {S A} (m : go S A) : go S (A + error) := fun s =>
  match m s with
  | (s', Ok a) => (s', Ok (inl a))
  | (s', Err e) => (s', Ok (inr e))
  | (s', Panic) => (s', Panic)
  | (s', Diverge) => (s', Diverge)
  end.

Section repository.
Context (sha256 : string -> string).
Context (text_le : string -> string -> bool).

Definition new_session (request : RegisterRequest) (token : string) (now : time) : worker_row :=
  mkWorker (reg_DisplayName request) (reg_ProtocolVersion request) (reg_ExecutorKinds request) (reg_MaxConcurrency request)
    WorkerActive (DigestToken sha256 token) now now None.

(** The attempt number [k] takes the random bytes [2 k] and [2 k + 1]. *)
Fixpoint registerLoop (ends : nat -> fate) (entropy : nat -> outcome (list N)) (clock : nat -> time) (request : RegisterRequest)
    (retries : nat) (k : nat) : go database Registration :=
  match retries with
  | 0 => throw (Errorf "generate unique Worker credentials")
  | S retries =>
    workerSuffix ← lift (GenerateToken (entropy (2 * k)));
    sessionToken ← lift (GenerateToken (entropy (2 * k + 1)));
    let workerID := ("wrk_" ++ workerSuffix)%string in
    let row := new_session request sessionToken (clock k) in
    inserted ← result_of (transaction (ends k) (insert_worker workerID row));
    match inserted with
    | inl _ =>
      mret (mkRegistration
        (mkWorkerSummary workerID (w_display_name row) (w_protocol_version row) (w_executor_kinds row) (w_max_concurrency row)
          (w_status row) 0 (w_registered_at row) (w_last_heartbeat_at row) None) sessionToken)
    | inr err =>
      if negb (isUniqueViolation err "worker_sessions_pkey") && negb (isUniqueViolation err "worker_sessions_token_hash_unique")
      then throw (Wrapf "insert Worker session: %w" err)
      else registerLoop ends entropy clock request retries (S k)
    end
  end.
Definition RegisterWorker (ends : nat -> fate) (entropy : nat -> outcome (list N)) (clock : nat -> time) (request : RegisterRequest)
    : go database Registration :=
  normalized ← lift (normalizeWorkerRegistration request);
  registerLoop ends entropy clock normalized workerRegistrationRetries 0.

(** ** Authentication *)
Definition AuthenticateWorker (end_ : fate) (workerID sessionToken : string) (protocolVersion : Z) (operation : WorkerOperation)
    : go database WorkerSession :=
  _ ← fail_if (bool_decide (protocolVersion ≠ ProtocolVersion)) ErrWorkerProtocolUnsupported;
  row ← wrapped "load Worker session: %w" (transaction end_ (gets (fun db => workers db !! workerID)));
  match row with
  | None => throw ErrWorkerSessionInvalid
  | Some w =>
    _ ← fail_if (bool_decide (w_protocol_version w ≠ ProtocolVersion)) ErrWorkerProtocolUnsupported;
    _ ← fail_if (negb (MatchesToken sha256 sessionToken (w_token_hash w))) ErrWorkerSessionInvalid;
    _ ← fail_if (bool_decide (operation ∉ [OperationClaim; OperationHeartbeat; OperationComplete; OperationDrain]))
          ErrWorkerSessionInvalid;
    _ ← fail_if (bool_decide (w_status w = WorkerOffline) || bool_decide (w_status w = WorkerStopped)) ErrWorkerSessionInvalid;
    _ ← fail_if (bool_decide (w_status w = WorkerDraining) && bool_decide (operation = OperationClaim)) ErrWorkerDraining;
    mret (mkWorkerSession workerID (w_protocol_version w) (w_executor_kinds w) (w_max_concurrency w) (w_status w))
  end.

(** ** Draining *)
Definition summary_of (workerID : string) (leases : Z) (w : worker_row) : WorkerSummary :=
  mkWorkerSummary workerID (w_display_name w) (w_protocol_version w) (w_executor_kinds w) (w_max_concurrency w) (w_status w)
    leases (w_registered_at w) (w_last_heartbeat_at w) (w_stopped_at w).

Definition DrainWorker (end_ : fate) (now : time) (workerID : string) : go database WorkerSummary :=
  transaction end_ (
    db ← get;
    match workers db !! workerID with
    | None => throw ErrWorkerSessionInvalid
    | Some w =>
      _ ← fail_if (bool_decide (w_status w ∉ [WorkerActive; WorkerDraining])) ErrWorkerSessionInvalid;
      let leases := count_leases workerID db in
      let next := if (leases =? 0)%Z then WorkerStopped else WorkerDraining in
      let w' := set_worker_status next (if bool_decide (next = WorkerStopped) then Some now else None) w in
      _ ← update_worker workerID w';
      mret (summary_of workerID leases w')
    end).

(** ** Listings *)
Definition queryWorkerSummaries (workerID afterWorkerID : string) (limit : nat) (exact : bool) (db : database) : list WorkerSummary :=
  (fun '(id, w) => summary_of id (count_leases id db) w) <$>
    take limit (order_by (fun a b => text_le a.1 b.1)
      (filter (fun '(id, _) => (if exact then bool_decide (id = workerID) else negb (text_le id afterWorkerID)) = true)
        (map_to_list (workers db)))).
Definition GetWorkerSummary (workerID : string) : go database WorkerSummary :=
  summaries ← gets (queryWorkerSummaries workerID "" 1 true);
  match summaries with [] => throw ErrWorkerNotFound | summary :: _ => mret summary end.
Definition ListWorkerSummaries (afterWorkerID : string) (limit : Z) : go database (list WorkerSummary * bool) :=
  _ ← fail_if ((limit <=? 0)%Z || (maxWorkerPageSize <? limit)%Z) (Errorf "Worker page limit must be between 1 and %d");
  summaries ← gets (queryWorkerSummaries "" afterWorkerID (Z.to_nat limit + 1) false);
  let more := (Z.to_nat limit <? length summaries)%nat in
  mret (if more then take (Z.to_nat limit) summaries else summaries, more).
End repository.
