(* ===== verification/Encoding.v ===== *)
(** * Base64, RFC 3339 and flat JSON objects

    The parts of encoding/base64, time and encoding/json that page cursors go
    through on their way to a client and back: reading is defined on every
    byte string a client may send, as Go reads it, and reading what was written
    gives it back. *)
From S2P Require Import Prelude GoStrings Json Model SnapshotJson CanonicalJson Workers.

(** ** [base64.RawURLEncoding.DecodeString] *)
Definition base64_value (b : N) : option N :=
  if in_range 65 90 b then Some (b - 65)%N else if in_range 97 122 b then Some (b - 71)%N
  else if in_range 48 57 b then Some (b + 4)%N else if (b =? 45)%N then Some 62%N else if (b =? 95)%N then Some 63%N else None.
(** Line breaks are skipped; the unused bits of the last character are ignored. *)
Definition base64_skipped (b : N) : bool := (b =? 10)%N || (b =? 13)%N.
Fixpoint base64_groups (l : list N) : option (list N) :=
  match l with
  | a :: b :: c :: d :: rest =>
    bytes ← base64_groups rest;
    Some ((a * 4 + b / 16) :: (b mod 16 * 16 + c / 4) :: (c mod 4 * 64 + d) :: bytes)%N
  | [a; b; c] => Some [a * 4 + b / 16; b mod 16 * 16 + c / 4]%N
  | [a; b] => Some [a * 4 + b / 16]%N
  | [_] => None
  | [] => Some []
  end.
Definition base64url_decode (l : list N) : option (list N) :=
  values ← mapM base64_value (filter (fun b => base64_skipped b = false) l); base64_groups values.
(** [DecodedLen], an upper bound taken before decoding. *)
Definition base64_decoded_len (n : nat) : nat := n * 6 / 8.

(** ** Decimal digits *)
Definition digit (n : Z) : N := Z.to_N (48 + n).
Fixpoint digits (width : nat) (n : Z) : list N :=
  match width with
  | 0 => []
  | S w => digit (n / 10 ^ Z.of_nat w mod 10)%Z :: digits w n
  end.
Definition digit_value (b : N) : option Z := if is_digit b then Some (Z.of_N b - 48)%Z else None.
(** The value of the next [width] digits, and what follows. *)
Fixpoint take_digits (width : nat) (acc : Z) (l : list N) : option (Z * list N) :=
  match width, l with
  | 0, _ => Some (acc, l)
  | S w, b :: l' => d ← digit_value b; take_digits w (acc * 10 + d)%Z l'
  | _, [] => None
  end.
Definition expect (b : N) (l : list N) : option (list N) :=
  match l with b' :: l' => if (b' =? b)%N then Some l' else None | [] => None end.

(** ** The calendar

    Days are counted from the first of January of year 1; a calendar year of
    the computation starts in March. *)
Definition civil_from_days (days : Z) : Z * Z * Z :=
  (let z := days + 306 in
  let era := z / 146097 in
  let doe := z mod 146097 in
  let yoe := (doe - doe / 1460 + doe / 36524 - doe / 146096) / 365 in
  let doy := doe - (365 * yoe + yoe / 4 - yoe / 100) in
  let mp := (5 * doy + 2) / 153 in
  let d := doy - (153 * mp + 2) / 5 + 1 in
  let m := if mp <? 10 then mp + 3 else mp - 9 in
  (yoe + era * 400 + (if m <=? 2 then 1 else 0), m, d))%Z.
Definition days_from_civil (y m d : Z) : Z :=
  (let y' := if m <=? 2 then y - 1 else y in
  let era := y' / 400 in
  let yoe := y' mod 400 in
  let doy := (153 * (if 2 <? m then m - 3 else m + 9) + 2) / 5 + d - 1 in
  let doe := yoe * 365 + yoe / 4 - yoe / 100 + doy in
  era * 146097 + doe - 306)%Z.
Definition leap_year (y : Z) : bool := ((y mod 4 =? 0) && (negb (y mod 100 =? 0) || (y mod 400 =? 0)))%Z.
Definition days_in (m y : Z) : Z :=
  if bool_decide (m = 2%Z) then (if leap_year y then 29 else 28)%Z
  else if bool_decide (m ∈ [4; 6; 9; 11]%Z) then 30%Z else 31%Z.

(** ** [time.RFC3339Nano], as [MarshalJSON] and [UnmarshalJSON] use it *)
Fixpoint trim_zeros (l : list N) : list N :=
  match l with
  | [] => []
  | b :: l' => match trim_zeros l' with [] => if (b =? 48)%N then [] else [b] | rest => b :: rest end
  end.
Definition format_fraction (ns : Z) : list N :=
  match trim_zeros (digits 9 ns) with [] => [] | ds => 46%N :: ds end.
Definition format_zone (zone : Z) : list N :=
  if (zone =? 0)%Z then [90%N]
  else (if (zone <? 0)%Z then 45%N else 43%N) :: digits 2 (Z.abs zone / 60) ++ [58%N] ++ digits 2 (Z.abs zone mod 60).
(** [zone] is the offset of the local time from UTC in minutes; years and
    offsets that RFC 3339 does not have are refused. *)
Definition format_time (zone : Z) (t : time) : option (list N) :=
  let t := (t + zone * Minute)%Z in
  let '(y, m, d) := civil_from_days (t / Day) in
  let second := (t mod Day / Second)%Z in
  if ((y <? 0) || (9999 <? y) || (24 * 60 <=? Z.abs zone))%Z then None
  else Some (digits 4 y ++ [45%N] ++ digits 2 m ++ [45%N] ++ digits 2 d ++ [84%N]
    ++ digits 2 (second / 3600) ++ [58%N] ++ digits 2 (second / 60 mod 60) ++ [58%N] ++ digits 2 (second mod 60)
    ++ format_fraction (t mod Second) ++ format_zone zone).

(** The fraction of a second after the point: at least one digit, of which nine
    count. *)
Fixpoint take_while_digits (l : list N) : list N * list N :=
  match l with
  | b :: l' => if is_digit b then let '(ds, rest) := take_while_digits l' in (b :: ds, rest) else ([], l)
  | [] => ([], [])
  end.
Definition parse_fraction (l : list N) : option (Z * list N) :=
  match l with
  | b :: l' =>
    if (b =? 46)%N then
      let '(ds, rest) := take_while_digits l' in
      if bool_decide (ds = []) then None
      else '(ns, _) ← take_digits 9 0 (ds ++ replicate 9 48%N); Some (ns, rest)
    else Some (0%Z, l)
  | [] => Some (0%Z, l)
  end.
Definition parse_zone (l : list N) : option Z :=
  match l with
  | b :: l' =>
    if (b =? 90)%N then (if bool_decide (l' = []) then Some 0%Z else None)
    else if (b =? 43)%N || (b =? 45)%N then
      '(h, l) ← take_digits 2 0 l'; l ← expect 58 l; '(m, l) ← take_digits 2 0 l;
      if (h <=? 23)%Z && (m <=? 59)%Z && bool_decide (l = []) then Some ((if (b =? 45)%N then -1 else 1) * (h * 60 + m))%Z else None
    else None
  | [] => None
  end.
Definition parse_time (l : list N) : option time :=
  '(y, l) ← take_digits 4 0 l; l ← expect 45 l; '(mo, l) ← take_digits 2 0 l; l ← expect 45 l; '(d, l) ← take_digits 2 0 l;
  l ← expect 84 l;
  '(h, l) ← take_digits 2 0 l; l ← expect 58 l; '(mi, l) ← take_digits 2 0 l; l ← expect 58 l; '(s, l) ← take_digits 2 0 l;
  '(ns, l) ← parse_fraction l;
  zone ← parse_zone l;
  if ((1 <=? mo) && (mo <=? 12) && (1 <=? d) && (d <=? days_in mo y) && (h <=? 23) && (mi <=? 59) && (s <=? 59))%Z
  then Some (days_from_civil y mo d * Day + (h * 3600 + mi * 60 + s) * Second + ns - zone * Minute)%Z
  else None.

(** ** [json.Unmarshal] into a struct of strings, integers and times

    With [DisallowUnknownFields]: every error counts, so the first one ends the
    reading.  [null] leaves a field as it is, a repeated key overwrites it. *)
Definition json_space (b : N) : bool := (b =? 32)%N || (b =? 9)%N || (b =? 10)%N || (b =? 13)%N.
Fixpoint skip_space (l : list N) : list N :=
  match l with b :: l' => if json_space b then skip_space l' else l | [] => [] end.

Definition hex_value (b : N) : option N :=
  if is_digit b then Some (b - 48)%N else if in_range 97 102 b then Some (b - 87)%N
  else if in_range 65 70 b then Some (b - 55)%N else None.
Definition take_hex4 (l : list N) : option (N * list N) :=
  match l with
  | a :: b :: c :: d :: rest =>
    a ← hex_value a; b ← hex_value b; c ← hex_value c; d ← hex_value d; Some (((a * 16 + b) * 16 + c) * 16 + d, rest)%N
  | _ => None
  end.
Definition replacement : list N := [239; 191; 189]%N.
(** [utf8.AppendRune] *)
Definition encode_rune (r : N) : list N :=
  (if r <? 128 then [r]
   else if r <? 2048 then [192 + r / 64; 128 + r mod 64]
   else if in_range 55296 57343 r then replacement
   else if r <? 65536 then [224 + r / 4096; 128 + r / 64 mod 64; 128 + r mod 64]
   else if r <? 1114112 then [240 + r / 262144; 128 + r / 4096 mod 64; 128 + r / 64 mod 64; 128 + r mod 64]
   else replacement)%N.
(** The low half of a surrogate pair, if one is written next. *)
Definition low_surrogate (l : list N) : option (N * list N) :=
  match l with
  | a :: b :: l' => if (a =? 92)%N && (b =? 117)%N then '(u, rest) ← take_hex4 l'; if in_range 56320 57343 u then Some (u, rest) else None else None
  | _ => None
  end.
Definition simple_escape (b : N) : option N :=
  (if (b =? 34) || (b =? 92) || (b =? 47) then Some b
   else if b =? 98 then Some 8 else if b =? 102 then Some 12 else if b =? 110 then Some 10
   else if b =? 114 then Some 13 else if b =? 116 then Some 9 else None)%N.
(** The contents of a string, up to the closing quote, and what follows it. *)
Fixpoint unquote (fuel : nat) (l : list N) : option (list N * list N) :=
  match fuel, l with
  | S fuel, b :: l' =>
    if (b =? 34)%N then Some ([], l')
    else if (b =? 92)%N then
      match l' with
      | e :: l2 =>
        if (e =? 117)%N then
          '(u, l3) ← take_hex4 l2;
          let '(bytes, l4) :=
            if in_range 55296 56319 u then
              match low_surrogate l3 with
              | Some (v, l4) => (encode_rune (65536 + (u - 55296) * 1024 + (v - 56320))%N, l4)
              | None => (replacement, l3)
              end
            else (encode_rune u, l3) in
          '(rest, after) ← unquote fuel l4; Some (bytes ++ rest, after)
        else c ← simple_escape e; '(rest, after) ← unquote fuel l2; Some (c :: rest, after)
      | [] => None
      end
    else if (b <? 32)%N then None
    else
      let '(_, n, ok) := decode_rune l in
      '(rest, after) ← unquote fuel (drop n l); Some ((if ok then take n l else replacement) ++ rest, after)
  | _, _ => None
  end.

(** The names of the fields are matched up to letter case, as Unicode folds it:
    two letters beyond ASCII fold to [s] and [k]. *)
Definition fold_rune (x : N * list N * bool) : list N :=
  let '(r, raw, _) := x in
  if in_range 97 122 r then [r - 32]%N else if (r =? 383)%N then [83%N] else if (r =? 8490)%N then [75%N] else raw.
Definition fold_name (s : string) : list N := mjoin (fold_rune <$> runes s).

Inductive field_kind : Type := KString | KInt | KUint | KTime.
Inductive field_value : Type := VString (s : string) | VInt (z : Z) | VTime (t : time).
Definition zero_value (k : field_kind) : field_value :=
  match k with KString => VString "" | KInt | KUint => VInt 0 | KTime => VTime 0 end.

Definition read_digits (l : list N) : option (Z * list N) :=
  let '(ds, rest) := take_while_digits l in
  if bool_decide (ds = []) || (bool_decide (head ds = Some 48%N) && (1 <? length ds)%nat) then None
  else '(n, _) ← take_digits (length ds) 0 ds; Some (n, rest).
Definition read_value (k : field_kind) (old : field_value) (l : list N) : option (field_value * list N) :=
  if bool_decide (take 4 l = bytes_of "null") then Some (old, drop 4 l)
  else match k with
  | KString => l ← expect 34 l; '(s, rest) ← unquote (length l) l; Some (VString (string_of_bytes s), rest)
  | KInt =>
    let negative := bool_decide (head l = Some 45%N) in
    '(n, rest) ← read_digits (if negative then tail l else l);
    let n := (if negative then - n else n)%Z in
    if (n <? - 2 ^ 63)%Z || (2 ^ 63 <=? n)%Z then None else Some (VInt n, rest)
  | KUint => '(n, rest) ← read_digits l; if (2 ^ 64 <=? n)%Z then None else Some (VInt n, rest)
  | KTime =>
    l ← expect 34 l;
    let raw := fst <$> list_find (fun b => b = 34%N) l in
    n ← raw; t ← parse_time (take n l); Some (VTime t, drop (S n) l)
  end.

Abbreviation schema := (list (string * field_kind)) (only parsing).
Fixpoint read_members (fuel : nat) (fields : schema) (values : list field_value) (l : list N) : option (list field_value * list N) :=
  match fuel with
  | 0 => None
  | S fuel =>
    l ← expect 34 l; '(key, l) ← unquote (length l) l;
    l ← expect 58 (skip_space l);
    '(i, (_, kind)) ← list_find (fun field => fold_name field.1 = fold_name (string_of_bytes key)) fields;
    old ← values !! i;
    '(v, l) ← read_value kind old (skip_space l);
    let values := <[i := v]> values in
    match skip_space l with
    | b :: l => if (b =? 44)%N then read_members fuel fields values (skip_space l) else if (b =? 125)%N then Some (values, l) else None
    | [] => None
    end
  end.
Definition read_object (fields : schema) (l : list N) : option (list field_value * list N) :=
  let values := zero_value <$> fields.*2 in
  let l := skip_space l in
  if bool_decide (take 4 l = bytes_of "null") then Some (values, drop 4 l)
  else
    l ← expect 123 l;
    match expect 125 (skip_space l) with
    | Some rest => Some (values, rest)
    | None => read_members (length l) fields values (skip_space l)
    end.
(** One value, and nothing but space after it. *)
Definition decode_object (fields : schema) (l : list N) : option (list field_value) :=
  '(values, rest) ← read_object fields l;
  if bool_decide (skip_space rest = []) then Some values else None.

(** ** [json.Marshal] of such a struct *)
Definition encode_value (zone : Z) (v : field_value) : option (list N) :=
  match v with
  | VString s => Some (json_string s)
  | VInt z => Some (json_int z)
  | VTime t => b ← format_time zone t; Some ([34%N] ++ b ++ [34%N])
  end.
Definition encode_object (zone : Z) (names : list string) (values : list field_value) : option (list N) :=
  members ← mapM (fun '(name, v) => b ← encode_value zone v; Some (json_member name b)) (zip names values);
  Some (json_object members).
