(* ===== verification/EncodingFacts.v ===== *)
(** * What was written is read back

    For the encodings of Encoding.v: base64url, RFC 3339 times, JSON strings,
    integers and flat objects. *)
From S2P Require Import Prelude GoStrings Json Model SnapshotJson CanonicalJson Workers Encoding.

(** ** Base64 *)
Lemma base64_char_value n : (n < 64)%N -> base64_value (base64_char n) = Some n /\ base64_skipped (base64_char n) = false.
Proof.
  intros Hn.
  assert (H : forallb (fun k => let n := N.of_nat k in bool_decide (base64_value (base64_char n) = Some n) && negb (base64_skipped (base64_char n))) (seq 0 64) = true)
    by (vm_compute; reflexivity).
  rewrite forallb_forall in H. specialize (H (N.to_nat n)). cbv zeta in H. rewrite N2Nat.id, andb_true_iff, bool_decide_eq_true, negb_true_iff in H.
  apply H, in_seq. lia.
Qed.

Lemma base64_groups_spec l : Forall (fun b => b < 256)%N l ->
  exists vs, base64url l = base64_char <$> vs /\ Forall (fun v => v < 64)%N vs /\ base64_groups vs = Some l.
Proof.
  induction l as [l IH] using (induction_ltof1 _ length). unfold ltof in IH. intros Hl.
  destruct l as [|a [|b [|c rest]]].
  - by exists [].
  - apply Forall_cons in Hl as [Ha _]. exists [a / 4; a mod 4 * 16]%N. split; [done|]. split.
    + repeat constructor; [apply N.Div0.div_lt_upper_bound; lia|]. pose proof (N.mod_lt a 4 ltac:(done)). lia.
    + cbn [base64_groups]. do 2 f_equal. rewrite N.div_mul by done. pose proof (N.div_mod a 4 ltac:(done)). lia.
  - apply Forall_cons in Hl as [Ha [Hb _]%Forall_cons]. exists [a / 4; a mod 4 * 16 + b / 16; b mod 16 * 4]%N. split; [done|].
    pose proof (N.mod_lt a 4 ltac:(done)). pose proof (N.mod_lt b 16 ltac:(done)).
    assert (b / 16 < 16)%N by (apply N.Div0.div_lt_upper_bound; lia). split.
    + repeat constructor; [apply N.Div0.div_lt_upper_bound; lia|lia|lia].
    + cbn [base64_groups]. pose proof (N.div_mod a 4 ltac:(done)). pose proof (N.div_mod b 16 ltac:(done)).
      assert (E1 : ((a mod 4 * 16 + b / 16) / 16 = a mod 4)%N) by (rewrite N.div_add_l by done; rewrite (N.div_small (b / 16) 16) by done; lia).
      assert (E2 : ((a mod 4 * 16 + b / 16) mod 16 = b / 16)%N) by (rewrite N.add_comm, N.Div0.mod_add; by apply N.mod_small).
      rewrite E1, E2, N.div_mul by done. do 2 f_equal; [lia|]. f_equal. lia.
  - apply Forall_cons in Hl as [Ha [Hb [Hc Hrest]%Forall_cons]%Forall_cons].
    destruct (IH rest) as (vs & Er & Hvs & Hg); [cbn; lia|done|].
    exists ((a / 4) :: (a mod 4 * 16 + b / 16) :: (b mod 16 * 4 + c / 64) :: (c mod 64) :: vs)%N. split; [cbn [base64url]; by rewrite Er|].
    pose proof (N.mod_lt a 4 ltac:(done)). pose proof (N.mod_lt b 16 ltac:(done)). pose proof (N.mod_lt c 64 ltac:(done)).
    assert (b / 16 < 16)%N by (apply N.Div0.div_lt_upper_bound; lia). assert (c / 64 < 4)%N by (apply N.Div0.div_lt_upper_bound; lia). split.
    + repeat constructor; [apply N.Div0.div_lt_upper_bound; lia|lia..|done].
    + cbn [base64_groups]. rewrite Hg. cbn.
      pose proof (N.div_mod a 4 ltac:(done)). pose proof (N.div_mod b 16 ltac:(done)). pose proof (N.div_mod c 64 ltac:(done)).
      assert (E1 : ((a mod 4 * 16 + b / 16) / 16 = a mod 4)%N) by (rewrite N.div_add_l by done; rewrite (N.div_small (b / 16) 16) by done; lia).
      assert (E2 : ((a mod 4 * 16 + b / 16) mod 16 = b / 16)%N) by (rewrite N.add_comm, N.Div0.mod_add; by apply N.mod_small).
      assert (E3 : ((b mod 16 * 4 + c / 64) / 4 = b mod 16)%N) by (rewrite N.div_add_l by done; rewrite (N.div_small (c / 64) 4) by done; lia).
      assert (E4 : ((b mod 16 * 4 + c / 64) mod 4 = c / 64)%N) by (rewrite N.add_comm, N.Div0.mod_add; by apply N.mod_small).
      rewrite E1, E2, E3, E4. do 2 f_equal; [lia|]. f_equal; [lia|]. f_equal. lia.
Qed.

Lemma base64url_roundtrip l : Forall (fun b => b < 256)%N l -> base64url_decode (base64url l) = Some l.
Proof.
  intros (vs & -> & Hvs & Hg)%base64_groups_spec. unfold base64url_decode.
  assert (E : filter (fun b => base64_skipped b = false) (base64_char <$> vs) = base64_char <$> vs).
  { clear Hg. induction Hvs as [|v vs Hv _ IH]; [done|]. rewrite fmap_cons, filter_cons, decide_True by by apply base64_char_value. by rewrite IH. }
  rewrite E. assert (Em : mapM base64_value (base64_char <$> vs) = Some vs).
  { clear Hg E. apply mapM_Some. induction Hvs as [|v vs Hv _ IH]; constructor; [by apply base64_char_value|done]. }
  by rewrite Em.
Qed.

(** ** Decimal digits *)
Ltac dlia := Z.to_euclidean_division_equations; lia.

Lemma digit_value_digit n : (0 <= n < 10)%Z -> digit_value (digit n) = Some n.
Proof.
  intros H. unfold digit_value, digit, is_digit, in_range.
  rewrite (proj2 (N.leb_le _ _)), (proj2 (N.leb_le _ _)) by lia. cbn [andb]. f_equal. lia.
Qed.

Lemma take_digits_app w : forall n acc l, (0 <= n)%Z ->
  take_digits w acc (digits w n ++ l) = Some (acc * 10 ^ Z.of_nat w + n mod 10 ^ Z.of_nat w, l)%Z.
Proof.
  induction w as [|w IH]; intros n acc l Hn; cbn [digits take_digits app].
  - rewrite Z.mod_1_r. by rewrite Z.mul_1_r, Z.add_0_r.
  - rewrite digit_value_digit by (apply Z.mod_pos_bound; lia). cbn. rewrite IH by done. do 2 f_equal.
    rewrite Nat2Z.inj_succ, Z.pow_succ_r, (Z.mul_comm 10) by lia. rewrite Z.rem_mul_r by lia. lia.
Qed.
Lemma take_digits_small w n l : (0 <= n < 10 ^ Z.of_nat w)%Z -> take_digits w 0 (digits w n ++ l) = Some (n, l).
Proof. intros H. rewrite take_digits_app by lia. by rewrite Z.mod_small. Qed.

(** ** The calendar *)
Lemma yoe_range doe : (0 <= doe < 146097 ->
  let y := (doe - doe / 1460 + doe / 36524 - doe / 146096) / 365 in
  0 <= y < 400 /\ 0 <= doe - (365 * y + y / 4 - y / 100) /\
  (y = 399 \/ doe < 365 * (y + 1) + (y + 1) / 4 - (y + 1) / 100))%Z.
Proof.
  intros H. cbv zeta. split; [dlia|]. set (y := (_ / 365)%Z). assert (Hy : (0 <= y < 400)%Z) by (subst y; dlia).
  split; [subst y; dlia|]. destruct (decide (y = 399%Z)); [by left|right]. subst y. dlia.
Qed.

Lemma days_in_era m y era : days_in m (y + era * 400) = days_in m y.
Proof.
  unfold days_in, leap_year.
  replace ((y + era * 400) mod 400)%Z with (y mod 400)%Z by (by rewrite Z.mod_add).
  replace ((y + era * 400) mod 4)%Z with (y mod 4)%Z by dlia. by replace ((y + era * 400) mod 100)%Z with (y mod 100)%Z by dlia.
Qed.

Lemma civil_roundtrip days :
  let '(y, m, d) := civil_from_days days in
  days_from_civil y m d = days /\ (1 <= m <= 12 /\ 1 <= d <= days_in m y)%Z.
Proof.
  unfold civil_from_days. cbv zeta. set (z := (days + 306)%Z). pose proof (Z.mod_pos_bound z 146097 ltac:(lia)) as Hdoe.
  pose proof (Z.div_mod z 146097 ltac:(lia)) as Hz. set (doe := (z mod 146097)%Z) in *. set (era := (z / 146097)%Z) in *.
  destruct (yoe_range doe Hdoe) as (Hy & Hlo & Hhi). set (yoe := ((doe - _ + _ - _) / 365)%Z) in *. clearbody yoe.
  set (doy := (doe - _)%Z) in *.
  assert (Hdoy : (0 <= doy <= 365)%Z) by (subst doy; destruct Hhi; dlia).
  set (mp := ((5 * doy + 2) / 153)%Z). assert (Hmp : (0 <= mp <= 11)%Z) by (subst mp; dlia).
  assert (Hstart : ((153 * mp + 2) / 5 <= doy /\ 5 * doy + 2 < 153 * (mp + 1))%Z) by (subst mp; dlia).
  set (m := (if mp <? 10 then mp + 3 else mp - 9)%Z).
  assert (Hm : (1 <= m <= 12 /\ (if 2 <? m then m - 3 else m + 9) = mp)%Z)
    by (subst m; destruct (Z.ltb_spec mp 10); destruct (Z.ltb_spec 2 (mp + 3)), (Z.ltb_spec 2 (mp - 9)); lia).
  destruct Hm as [Hm Emp]. split; [|split; [exact Hm|split; [lia|]]].
  - unfold days_from_civil. cbv zeta. rewrite Emp.
    replace (if m <=? 2 then yoe + era * 400 + (if m <=? 2 then 1 else 0) - 1 else yoe + era * 400 + (if m <=? 2 then 1 else 0))%Z
      with (yoe + era * 400)%Z by (destruct (m <=? 2)%Z; lia).
    rewrite Z.div_add, (Z.div_small yoe 400), Z.mod_add, (Z.mod_small yoe 400) by lia. subst doy z. lia.
  - destruct Hstart as [_ Hnext]. clearbody mp doe era. replace (yoe + era * 400 + (if m <=? 2 then 1 else 0))%Z
      with ((yoe + (if m <=? 2 then 1 else 0)) + era * 400)%Z by lia. rewrite days_in_era. subst m.
    clear Emp Hm. assert (Hcase : (mp = 11 \/ mp = 0 \/ mp = 1 \/ mp = 2 \/ mp = 3 \/ mp = 4 \/ mp = 5 \/ mp = 6 \/ mp = 7 \/ mp = 8 \/ mp = 9 \/ mp = 10)%Z) by lia.
    destruct Hcase as [->|Hcase].
    2:{ unfold days_in. rewrite bool_decide_eq_false_2 by (case_match eqn:E; [|apply Z.ltb_ge in E]; lia).
        clear Hhi Hlo. clearbody doy. case_bool_decide as E; [rewrite list_elem_of_In in E; cbn [In] in E; cbn|]; repeat (destruct Hcase as [->|Hcase]; [cbn in *; dlia|]); subst mp; cbn in *; dlia. }
    change (11 <? 10)%Z with false. cbn [negb]. change (11 - 9)%Z with 2%Z. change (2 <=? 2)%Z with true. unfold days_in, leap_year.
    rewrite bool_decide_eq_true_2 by done. change ((153 * 11 + 2) / 5)%Z with 337%Z. subst doy.
    destruct (Z.eqb_spec ((yoe + 1) mod 4) 0); cbn; [|destruct Hhi; dlia].
    destruct (Z.eqb_spec ((yoe + 1) mod 100) 0); cbn; [|destruct Hhi; dlia].
    destruct (Z.eqb_spec ((yoe + 1) mod 400) 0); cbn; destruct Hhi; dlia.
Qed.

(** ** Times *)
Lemma trim_zeros_app l : exists k, l = trim_zeros l ++ replicate k 48%N.
Proof.
  induction l as [|b l [k IH]]; [by exists 0|]. cbn [trim_zeros]. destruct (trim_zeros l) as [|x r] eqn:E; [|exists k; cbn; by rewrite <-app_comm_cons in IH; rewrite IH at 1].
  cbn in IH. destruct (b =? 48)%N eqn:Eb; [|exists k; by rewrite IH].
  apply N.eqb_eq in Eb as ->. exists (S k). cbn. by rewrite IH.
Qed.
Lemma trim_zeros_length l : length (trim_zeros l) <= length l.
Proof. destruct (trim_zeros_app l) as [k E]. rewrite E at 2. rewrite length_app. lia. Qed.

Lemma digits_length w n : length (digits w n) = w.
Proof. induction w; cbn; congruence. Qed.
Lemma digits_digits w n : forallb is_digit (digits w n) = true.
Proof.
  induction w as [|w IH]; [done|]. cbn [digits forallb]. rewrite IH, andb_true_r. unfold digit, is_digit, in_range.
  pose proof (Z.mod_pos_bound (n / 10 ^ Z.of_nat w) 10 ltac:(lia)). rewrite andb_true_iff, !N.leb_le. lia.
Qed.

Lemma take_while_digits_app ds b l : forallb is_digit ds = true -> is_digit b = false -> take_while_digits (ds ++ b :: l) = (ds, b :: l).
Proof. intros Hd Hb. induction ds as [|d ds IH]; cbn in *; [by rewrite Hb|]. apply andb_true_iff in Hd as [-> Hd]. by rewrite IH. Qed.

Lemma parse_fraction_format ns b l : (0 <= ns < 10 ^ 9)%Z -> is_digit b = false -> (b =? 46)%N = false ->
  parse_fraction (format_fraction ns ++ b :: l) = Some (ns, b :: l).
Proof.
  intros Hns Hb Hp. unfold format_fraction. destruct (trim_zeros_app (digits 9 ns)) as [k Hk]. pose proof (digits_length 9 ns) as Hlen.
  pose proof (digits_digits 9 ns) as Hdig. pose proof (take_digits_small 9 ns [] Hns) as Htake. rewrite app_nil_r in Htake.
  destruct (trim_zeros (digits 9 ns)) as [|d ds] eqn:E.
  - cbn [app]. unfold parse_fraction. rewrite Hp. rewrite Hk in Htake. cbn [app] in Htake. rewrite Hk in Hlen. cbn in Hlen. rewrite length_replicate in Hlen. subst k.
    vm_compute in Htake. by injection Htake as <-.
  - cbn [app]. unfold parse_fraction. rewrite N.eqb_refl. rewrite Hk, forallb_app in Hdig. apply andb_true_iff in Hdig as [Hdig _].
    change (d :: ds ++ b :: l) with ((d :: ds) ++ b :: l). rewrite take_while_digits_app by done. rewrite bool_decide_eq_false_2 by done.
    assert (Hext : (d :: ds) ++ replicate 9 48%N = digits 9 ns ++ replicate (9 - k) 48%N).
    { rewrite Hk, <-app_assoc, <-replicate_add. do 2 f_equal. rewrite Hk, length_app, length_replicate in Hlen. lia. }
    rewrite Hext, take_digits_small by done. done.
Qed.

Lemma parse_zone_format zone : (Z.abs zone < 24 * 60)%Z -> parse_zone (format_zone zone) = Some zone.
Proof.
  intros Hz. unfold format_zone. destruct (Z.eqb_spec zone 0) as [->|Hne]; [done|].
  set (b := if (zone <? 0)%Z then 45%N else 43%N). unfold parse_zone.
  assert (Hb : (b =? 90)%N = false /\ (b =? 43)%N || (b =? 45)%N = true /\ (if (b =? 45)%N then (-1) else 1)%Z = Z.sgn zone).
  { subst b. destruct (Z.ltb_spec zone 0); cbn; split_and!; try done; lia. }
  destruct Hb as (-> & -> & ->). rewrite take_digits_small by (change (10 ^ Z.of_nat 2)%Z with 100%Z; dlia). cbn [mbind option_bind app].
  unfold expect. rewrite N.eqb_refl. cbn [mbind option_bind]. rewrite <-(app_nil_r (digits 2 (Z.abs zone mod 60))).
  rewrite take_digits_small by (change (10 ^ Z.of_nat 2)%Z with 100%Z; dlia). cbn [mbind option_bind].
  rewrite (proj2 (Z.leb_le _ 23)), (proj2 (Z.leb_le _ 59)) by dlia. cbn. f_equal. dlia.
Qed.
Lemma format_zone_head zone : exists b l, format_zone zone = b :: l /\ is_digit b = false /\ (b =? 46)%N = false.
Proof. unfold format_zone. destruct (zone =? 0)%Z; [by eexists _, _|]. by destruct (zone <? 0)%Z; eexists _, _. Qed.

Lemma expect_here b l : expect b (b :: l) = Some l.
Proof. unfold expect. by rewrite N.eqb_refl. Qed.
Ltac next_field bound :=
  rewrite take_digits_small by (match goal with |- (_ <= _ < 10 ^ ?w)%Z => change (10 ^ w)%Z with bound end; first [lia|dlia]);
  cbn [mbind option_bind app]; rewrite ?expect_here; cbn [mbind option_bind].
Lemma time_roundtrip zone t b : format_time zone t = Some b -> parse_time b = Some t.
Proof.
  unfold format_time. cbv zeta. set (u := (t + zone * Minute)%Z). pose proof (civil_roundtrip (u / Day)) as Hciv.
  destruct (civil_from_days (u / Day)) as [[y m] d]. destruct Hciv as (Hdays & Hm & Hd).
  destruct (_ || _) eqn:E; [done|]. intros <-%(inj Some). rewrite !orb_false_iff, !Z.ltb_ge, Z.leb_gt in E. destruct E as [[Hy1 Hy2] Hz].
  assert (Hdd : (d <= 31)%Z) by (unfold days_in in Hd; repeat case_match; lia).
  set (second := (u mod Day / Second)%Z). assert (Hs : (0 <= second < 86400)%Z) by (subst second; unfold Day, Second; dlia).
  assert (Hns : (0 <= u mod Second < 10 ^ 9)%Z) by (apply Z.mod_pos_bound; done).
  unfold parse_time. next_field 10000%Z. do 4 next_field 100%Z. next_field 100%Z.
  destruct (format_zone_head zone) as (z & l & Ez & Hz1 & Hz2). rewrite Ez, parse_fraction_format by done. cbn [mbind option_bind].
  rewrite <-Ez, parse_zone_format by done. cbn [mbind option_bind].
  assert (Hguard : ((1 <=? m) && (m <=? 12) && (1 <=? d) && (d <=? days_in m y) && (second / 3600 <=? 23) && (second / 60 mod 60 <=? 59) && (second mod 60 <=? 59))%Z = true).
  { rewrite !andb_true_iff, !Z.leb_le. split_and!; try lia; dlia. }
  rewrite Hguard, Hdays. f_equal. subst second u. clear. unfold Day, Second, Minute. dlia.
Qed.

(** ** Strings *)
Definition valid_text (s : string) : bool := forallb (fun x => x.2) (runes s).

Ltac ndlia := zify; Z.to_euclidean_division_equations; lia.

(** A rune that was read is read in any context, and written as the bytes it was
    read from. *)
Lemma decode_rune_prefix l r n R : decode_rune l = (r, n, true) -> decode_rune (take n l ++ R) = (r, n, true) /\ 1 <= n <= length l.
Proof.
  intros H. unfold decode_rune in H. repeat (case_match; try discriminate H); simplify_eq; cbn [take length app]; (split; [|lia]);
    unfold decode_rune; repeat match goal with Hx : ?c = _ |- context [?c] => rewrite Hx end; try done.
Qed.

Lemma encode_rune_decoded l r n : decode_rune l = (r, n, true) -> encode_rune r = take n l.
Proof.
  unfold decode_rune, cont, in_range. intros H.
  repeat (case_match; try discriminate H); simplify_eq; cbn [take];
    rewrite ?andb_true_iff, ?N.ltb_lt, ?N.ltb_ge, ?N.leb_le, ?N.eqb_eq, ?N.eqb_neq in *; unfold encode_rune, in_range;
    repeat match goal with
    | |- context [(?a <? ?b)%N] => first [rewrite (proj2 (N.ltb_lt a b)) by lia | rewrite (proj2 (N.ltb_ge a b)) by lia]
    | |- context [(55296 <=? ?a)%N && (?a <=? 57343)%N] => replace ((55296 <=? a)%N && (a <=? 57343)%N) with false by (symmetry; apply andb_false_iff; rewrite !N.leb_gt; lia)
    end; rewrite ?take_0; repeat f_equal; try lia; ndlia.
Qed.

Lemma hex_digit_value n : (n < 16)%N -> hex_value (hex_digit n) = Some n.
Proof.
  intros Hn. assert (H : forallb (fun k => bool_decide (hex_value (hex_digit (N.of_nat k)) = Some (N.of_nat k))) (seq 0 16) = true) by (vm_compute; reflexivity).
  rewrite forallb_forall in H. specialize (H (N.to_nat n)). rewrite N2Nat.id, bool_decide_eq_true in H. apply H, in_seq. lia.
Qed.

Lemma unquote_rune fuel b l r n T : decode_rune (b :: l) = (r, n, true) ->
  unquote (S fuel) (json_rune (r, take n (b :: l), true) ++ T) =
    ('(rest, after) ← unquote fuel T; Some (take n (b :: l) ++ rest, after)).
Proof.
  intros H. destruct (decode_rune_prefix _ _ _ T H) as [Hpre Hn]. pose proof (encode_rune_decoded _ _ _ H) as Henc.
  assert (Hraw : (r < 128)%N -> take n (b :: l) = [r]).
  { intros Hr. rewrite <-Henc. unfold encode_rune. by rewrite (proj2 (N.ltb_lt r 128)). }
  assert (Hlist : forall c, (r =? c)%N = true -> (c < 128)%N -> take n (b :: l) = [c]) by (intros c ->%N.eqb_eq Hc; by apply Hraw).
  assert (Hhex : forall a c, (a < 16)%N -> (c < 16)%N -> take_hex4 (48 :: 48 :: hex_digit a :: hex_digit c :: T)%N = Some (a * 16 + c, T)%N).
  { intros a c Ha Hc. cbn. rewrite !hex_digit_value by done. cbn. done. }
  unfold json_rune. cbn [negb].
  destruct ((r =? 34)%N || (r =? 92)%N) eqn:E1.
  { apply orb_true_iff in E1 as [E|E]; rewrite (Hlist _ E) by done; by apply N.eqb_eq in E as ->. }
  apply orb_false_iff in E1 as [E34 E92].
  destruct (r =? 8)%N eqn:E; [by rewrite (Hlist _ E)|clear E].
  destruct (r =? 12)%N eqn:E; [by rewrite (Hlist _ E)|clear E].
  destruct (r =? 10)%N eqn:E; [by rewrite (Hlist _ E)|clear E].
  destruct (r =? 13)%N eqn:E; [by rewrite (Hlist _ E)|clear E].
  destruct (r =? 9)%N eqn:E; [by rewrite (Hlist _ E)|clear E].
  destruct ((r <? 32) || (r =? 60) || (r =? 62) || (r =? 38))%N eqn:E2.
  { assert (Hr : (r < 128)%N) by (rewrite !orb_true_iff, N.ltb_lt, !N.eqb_eq in E2; lia).
    rewrite (Hraw Hr). cbn [app unquote N.eqb Pos.eqb]. rewrite Hhex by ndlia. cbn [mbind option_bind].
    replace (r / 16 * 16 + r mod 16)%N with r by ndlia.
    unfold in_range. rewrite (proj2 (N.leb_gt 55296 r)) by lia. cbn [andb]. rewrite Henc, (Hraw Hr). done. }
  destruct ((r =? 8232) || (r =? 8233))%N eqn:E3.
  { apply orb_true_iff in E3 as [->%N.eqb_eq | ->%N.eqb_eq]; rewrite <-Henc; done. }
  rewrite !orb_false_iff, N.ltb_ge in E2. destruct E2 as [[[E2 _] _] _].
  destruct (take n (b :: l)) as [|c raw] eqn:Eraw; [apply (f_equal length) in Eraw; rewrite length_take in Eraw; cbn in *; lia|].
  assert (Hc : (32 <= c)%N /\ c ≠ 34%N /\ c ≠ 92%N).
  { apply decode_rune_raw in H as [[Hr _]|Hge]; [|specialize (Hge c); rewrite Eraw in Hge; specialize (Hge (list_elem_of_here _ _)); lia].
    rewrite Eraw in Hr. injection Hr as -> _. apply N.eqb_neq in E34, E92. done. }
  cbn [app unquote]. rewrite (proj2 (N.eqb_neq c 34)), (proj2 (N.eqb_neq c 92)), (proj2 (N.ltb_ge c 32)) by naive_solver.
  change (c :: raw ++ T) with ((c :: raw) ++ T). rewrite Hpre. cbn [mbind option_bind].
  assert (Hlen : length (c :: raw) = n) by (rewrite <-Eraw, length_take; lia).
  rewrite <-Hlen at 1. rewrite drop_app_length. rewrite <-Hlen, take_app_length. done.
Qed.

Lemma unquote_runes f : forall l fuel R, length l <= f -> forallb (fun x => x.2) (runes_fuel f l) = true ->
  length (runes_fuel f l) < fuel -> unquote fuel (mjoin (json_rune <$> runes_fuel f l) ++ 34%N :: R) = Some (l, R).
Proof.
  induction f as [|f IH]; intros l fuel R Hl Hok Hfuel; (destruct fuel as [|fuel]; [lia|]).
  { destruct l; [done|cbn in Hl; lia]. }
  destruct l as [|b l]; [done|]. cbn [runes_fuel] in *. destruct (decode_rune (b :: l)) as [[r n] ok] eqn:E.
  cbn [forallb] in Hok. apply andb_true_iff in Hok as [Hok' Hok]. cbn in Hok'. subst ok.
  rewrite fmap_cons. cbn [mjoin list_join]. rewrite <-app_assoc. rewrite (unquote_rune _ _ _ _ _ _ E).
  destruct (decode_rune_prefix _ _ _ [] E) as [_ Hn]. cbn [length] in *.
  rewrite IH; [|rewrite length_drop; cbn; lia|done|lia]. cbn [mbind option_bind]. by rewrite take_drop.
Qed.

Lemma bytes_of_length s : length (bytes_of s) = String.length s.
Proof. unfold bytes_of. rewrite length_fmap. induction s; cbn; congruence. Qed.
Lemma runes_length f : forall l, length (runes_fuel f l) <= f.
Proof. induction f as [|f IH]; intros l; cbn; [lia|]. destruct l; [cbn; lia|]. destruct (decode_rune _) as [[r k] ok]. cbn. specialize (IH (drop k (n :: l))). lia. Qed.

Lemma json_rune_length x : 1 <= length (x.1.2) -> 1 <= length (json_rune x).
Proof. destruct x as [[r raw] ok]. unfold json_rune. cbn. intros H. repeat case_match; cbn; lia. Qed.
Lemma runes_raw f : forall l, Forall (fun x => 1 <= length (x.1.2)) (runes_fuel f l).
Proof.
  induction f as [|f IH]; intros l; [constructor|]. destruct l as [|b l]; [constructor|]. cbn [runes_fuel].
  destruct (decode_rune (b :: l)) as [[r n] ok] eqn:E. constructor; [|by apply IH]. cbn.
  assert (1 <= n) by (unfold decode_rune in E; repeat case_match; simplify_eq; lia). rewrite length_take. cbn. lia.
Qed.

Lemma json_runes_length xs : Forall (fun x => 1 <= length (x.1.2)) xs -> length xs <= length (mjoin (json_rune <$> xs)).
Proof.
  induction 1 as [|x xs Hx _ IH]; [done|].
  change (mjoin (json_rune <$> x :: xs)) with (json_rune x ++ mjoin (json_rune <$> xs)). rewrite length_app.
  pose proof (json_rune_length x Hx). cbn [length]. lia.
Qed.
Lemma unquote_string s R : valid_text s = true ->
  let l := mjoin (json_rune <$> runes s) ++ 34%N :: R in unquote (length l) l = Some (bytes_of s, R).
Proof.
  intros H l. unfold l at 2. unfold runes. apply unquote_runes; [by rewrite bytes_of_length|done|].
  subst l. unfold runes. rewrite length_app. cbn [length].
  eapply Nat.le_lt_trans; [by apply json_runes_length, runes_raw|]. apply Nat.lt_add_pos_r, Nat.lt_0_succ.
Qed.

(** ** Integers *)
Lemma take_digits_more l1 : forall acc n l2 k, take_digits (length l1) acc l1 = Some (n, []) ->
  take_digits (length l1 + k) acc (l1 ++ l2) = take_digits k n l2.
Proof.
  induction l1 as [|b l1 IH]; intros acc n l2 k H; cbn [length take_digits app Nat.add] in *; [by injection H as ->|].
  destruct (digit_value b); [|done]. cbn in *. by apply IH.
Qed.

Lemma pretty_char_digit r : (r < 10)%N -> Ascii.N_of_ascii (pretty_N_char r) = digit (Z.of_N r).
Proof.
  intros Hr. assert (H : forallb (fun k => bool_decide (Ascii.N_of_ascii (pretty_N_char (N.of_nat k)) = digit (Z.of_nat k))) (seq 0 10) = true) by (vm_compute; reflexivity).
  rewrite forallb_forall in H. specialize (H (N.to_nat r)). rewrite N2Nat.id, bool_decide_eq_true, N_nat_Z in H. apply H, in_seq. lia.
Qed.

Lemma pretty_go_digits x : forall s, exists p, bytes_of (pretty_N_go x s) = p ++ bytes_of s /\ forallb is_digit p = true /\
  take_digits (length p) 0 p = Some (Z.of_N x, []) /\ (x = 0%N -> p = []) /\ (x ≠ 0%N -> p ≠ [] /\ head p ≠ Some 48%N).
Proof.
  induction (N.lt_wf_0 x) as [x _ IH]; intros s. destruct (decide (x = 0%N)) as [->|Hx].
  { exists []. by rewrite pretty_N_go_0. }
  rewrite pretty_N_go_step by lia. assert (Hlt : (x / 10 < x)%N) by (apply N.div_lt; lia).
  destruct (IH _ Hlt (String (pretty_N_char (x mod 10)) s)) as (p & -> & Hd & Ht & Hz & Hh).
  assert (Hm : (x mod 10 < 10)%N) by (apply N.mod_lt; lia). pose proof (N.div_mod x 10 ltac:(done)) as Hx'.
  set (r := (x mod 10)%N) in *. set (q := (x / 10)%N) in *. clearbody r q.
  exists (p ++ [digit (Z.of_N r)]). split_and!.
  - rewrite <-app_assoc. f_equal. change (Ascii.N_of_ascii (pretty_N_char r) :: bytes_of s = digit (Z.of_N r) :: bytes_of s).
    by rewrite pretty_char_digit.
  - rewrite forallb_app, Hd. cbn [forallb andb]. unfold digit, is_digit, in_range. rewrite andb_true_r, andb_true_iff, !N.leb_le. lia.
  - rewrite length_app. rewrite (take_digits_more _ _ _ _ _ Ht). cbn [length take_digits]. rewrite digit_value_digit by lia. cbn [mbind option_bind].
    do 2 f_equal. lia.
  - done.
  - intros _. destruct p as [|b p]; [|split; [done|]; apply Hh; intros E; by specialize (Hz E)].
    split; [done|]. cbn. intros [= E]. injection Ht as Ht. unfold digit in E. lia.
Qed.

Lemma json_int_digits z : (0 <= z)%Z -> forallb is_digit (json_int z) = true /\ json_int z ≠ [] /\
  (head (json_int z) = Some 48%N -> length (json_int z) = 1) /\ take_digits (length (json_int z)) 0 (json_int z) = Some (z, []).
Proof.
  intros Hz. destruct z as [|q|q]; [by vm_compute| |lia].
  assert (E : json_int (Z.pos q) = bytes_of (pretty_N_go (N.pos q) "")) by done.
  destruct (pretty_go_digits (N.pos q) "") as (p & Ep & Hd & Ht & _ & Hh). cbn [bytes_of] in Ep. rewrite app_nil_r in Ep.
  rewrite E, Ep. destruct Hh as [Hne Hhead]; [done|]. by split_and!.
Qed.

Lemma read_digits_int z b R : (0 <= z)%Z -> is_digit b = false -> read_digits (json_int z ++ b :: R) = Some (z, b :: R).
Proof.
  intros Hz Hb. destruct (json_int_digits z Hz) as (Hd & Hne & Hh & Ht). unfold read_digits. rewrite take_while_digits_app by done.
  rewrite (bool_decide_eq_false_2 (json_int z = [])) by done. case_bool_decide as E; cbn [orb andb].
  - assert (E1 : (1 <? length (json_int z))%nat = false) by by rewrite (Hh E). by rewrite E1, Ht.
  - by rewrite Ht.
Qed.
Lemma json_int_neg z : (z < 0)%Z -> json_int z = 45%N :: json_int (- z).
Proof. by destruct z. Qed.
Lemma json_int_head z : (0 <= z)%Z -> exists b l, json_int z = b :: l /\ is_digit b = true.
Proof.
  intros Hz. destruct (json_int_digits z Hz) as (Hd & Hne & _). destruct (json_int z) as [|b l]; [done|].
  cbn in Hd. apply andb_true_iff in Hd as [Hd _]. by exists b, l.
Qed.

(** ** Objects *)
Definition fits (k : field_kind) (v : field_value) : Prop :=
  match k, v with
  | KString, VString s => valid_text s = true
  | KInt, VInt z => (- 2 ^ 63 <= z < 2 ^ 63)%Z
  | KUint, VInt z => (0 <= z < 2 ^ 64)%Z
  | KTime, VTime _ => True
  | _, _ => False
  end.

Lemma format_time_unquoted zone t b : format_time zone t = Some b -> Forall (fun x => x ≠ 34%N) b.
Proof.
  assert (Hd : forall w n, Forall (fun x => x ≠ 34%N) (digits w n)).
  { intros w n. apply Forall_forall. intros x Hx. pose proof (digits_digits w n) as H. rewrite forallb_forall in H.
    specialize (H x (proj1 (list_elem_of_In _ _) Hx)). unfold is_digit, in_range in H. rewrite andb_true_iff, !N.leb_le in H. lia. }
  unfold format_time. cbv zeta. destruct (civil_from_days _) as [[y m] d]. destruct (_ || _); [done|]. intros <-%(inj Some).
  repeat (apply Forall_app; split); try apply Hd; try (by repeat constructor).
  - unfold format_fraction. destruct (trim_zeros_app (digits 9 ((t + zone * Minute) mod Second))) as [k E].
    pose proof (Hd 9 ((t + zone * Minute) mod Second)%Z) as H. rewrite E, Forall_app in H. destruct H as [H _].
    destruct (trim_zeros _); [done|]. by constructor.
  - unfold format_zone. destruct (zone =? 0)%Z; [by repeat constructor|]. destruct (zone <? 0)%Z; constructor; try done;
      repeat (apply Forall_app; split); try apply Hd; by repeat constructor.
Qed.

Lemma list_find_quote b R : Forall (fun x => x ≠ 34%N) b -> list_find (fun x => x = 34%N) (b ++ 34%N :: R) = Some (length b, 34%N).
Proof.
  induction 1 as [|x b Hx _ IH]; cbn; [by rewrite decide_True|]. rewrite decide_False by done. by rewrite IH.
Qed.

Definition separator (c : N) : bool := (c =? 44)%N || (c =? 125)%N.
Lemma separator_not c : separator c = true -> is_digit c = false /\ json_space c = false /\ (c =? 34)%N = false.
Proof. unfold separator. by intros [->%N.eqb_eq | ->%N.eqb_eq]%orb_true_iff. Qed.

Lemma read_value_encoded zone k old v b c R :
  fits k v -> encode_value zone v = Some b -> separator c = true -> read_value k old (b ++ c :: R) = Some (v, c :: R).
Proof.
  intros Hf He [Hc _]%separator_not. unfold read_value.
  assert (Hnull : forall x l, x ≠ 110%N -> take 4 ((x :: l) ++ c :: R) ≠ bytes_of "null") by (intros x l Hx [= E _]; by apply Hx).
  destruct k, v as [s|z|t]; try done; cbn [encode_value] in He.
  - apply (inj Some) in He as <-. rewrite bool_decide_eq_false_2 by by apply Hnull. unfold json_string. rewrite <-!app_assoc. cbn [app].
    rewrite expect_here. cbn [mbind option_bind]. rewrite unquote_string by done. cbn [mbind option_bind]. by rewrite string_of_bytes_of.
  - apply (inj Some) in He as <-. cbn [fits] in Hf. destruct (Z.ltb_spec z 0) as [Hz|Hz].
    + rewrite json_int_neg by done. rewrite bool_decide_eq_false_2 by by apply Hnull. cbn [app head tail].
      rewrite bool_decide_eq_true_2 by done. cbv zeta. rewrite read_digits_int by (done || lia). cbn [mbind option_bind].
      rewrite (proj2 (Z.ltb_ge _ _)), (proj2 (Z.leb_gt _ _)) by lia. cbn [orb]. by rewrite Z.opp_involutive.
    + destruct (json_int_head z Hz) as (x & l & E & Hx). assert (x ≠ 110%N /\ x ≠ 45%N) as [Hn Hm] by (split; intros ->; done).
      rewrite bool_decide_eq_false_2 by (rewrite E; by apply Hnull).
      rewrite bool_decide_eq_false_2 by (rewrite E; cbn; congruence). cbv zeta. rewrite read_digits_int by done. cbn [mbind option_bind].
      by rewrite (proj2 (Z.ltb_ge _ _)), (proj2 (Z.leb_gt _ _)) by lia.
  - apply (inj Some) in He as <-. cbn [fits] in Hf. destruct (json_int_head z) as (x & l & E & Hx); [lia|]. assert (x ≠ 110%N) as Hn by (intros ->; done).
    rewrite bool_decide_eq_false_2 by (rewrite E; by apply Hnull). rewrite read_digits_int by (done || lia). cbn [mbind option_bind].
    by rewrite (proj2 (Z.leb_gt _ _)) by lia.
  - destruct (format_time zone t) as [l|] eqn:Et; [|done]. apply (inj Some) in He as <-. rewrite bool_decide_eq_false_2 by by apply Hnull.
    rewrite <-!app_assoc. cbn [app]. rewrite expect_here. cbn [mbind option_bind].
    rewrite list_find_quote by by eapply format_time_unquoted. cbn [fmap option_fmap option_map fst mbind option_bind].
    rewrite take_app_length, (time_roundtrip _ _ _ Et). cbn [mbind option_bind]. do 2 f_equal.
    change (l ++ 34%N :: c :: R) with (l ++ [34%N] ++ c :: R). rewrite app_assoc.
    replace (S (length l)) with (length (l ++ [34%N])) by (rewrite length_app; cbn; lia). apply drop_app_length.
Qed.

(** The names of a struct differ, whatever the case of their letters. *)
Record well_named (fields : schema) : Prop := {
  wn_text : Forall (fun name => valid_text name = true) fields.*1;
  wn_distinct : NoDup (fold_name <$> fields.*1);
}.

Lemma find_field fields i name k : well_named fields -> fields !! i = Some (name, k) ->
  list_find (fun field => fold_name field.1 = fold_name name) fields = Some (i, (name, k)).
Proof.
  intros [_ Hd] Hi. apply list_find_Some. split_and!; [done|done|]. intros j [name' k'] Hj Hlt E. cbn in E.
  assert (j = i); [|lia]. apply (NoDup_lookup (fold_name <$> fields.*1) j i (fold_name name) Hd).
  - rewrite !list_lookup_fmap, Hj. cbn. by rewrite E.
  - by rewrite !list_lookup_fmap, Hi.
Qed.

Lemma encode_value_head zone v b : encode_value zone v = Some b -> exists x l, b = x :: l /\ json_space x = false.
Proof.
  destruct v as [s|z|t]; cbn [encode_value].
  - intros <-%(inj Some). unfold json_string. cbn [app]. by eexists _, _.
  - intros <-%(inj Some). destruct (Z.ltb_spec z 0) as [Hz|Hz]; [rewrite json_int_neg by done; by eexists _, _|].
    destruct (json_int_head z Hz) as (x & l & -> & Hx). exists x, l. split; [done|]. unfold is_digit, in_range, json_space in *.
    rewrite andb_true_iff, !N.leb_le in Hx. rewrite !orb_false_iff, !N.eqb_neq. lia.
  - destruct (format_time zone t) as [l|]; [|done]. intros <-%(inj Some). cbn [app]. by eexists _, _.
Qed.

Definition encoded_member (zone : Z) (f : string * field_kind) (v : field_value) (m : list N) : Prop :=
  fits f.2 v /\ exists b, encode_value zone v = Some b /\ m = json_member f.1 b.

Lemma read_member fuel fields zone i name k v old values m c R :
  well_named fields -> fields !! i = Some (name, k) -> values !! i = Some old -> encoded_member zone (name, k) v m -> separator c = true ->
  read_members (S fuel) fields values (m ++ c :: R) =
    (if (c =? 44)%N then read_members fuel fields (<[i := v]> values) (skip_space R) else Some (<[i := v]> values, R)).
Proof.
  intros Hw Hi Hold (Hf & b & Hb & ->) Hc. cbn [fst snd] in *. cbn [read_members]. unfold json_member, json_string. rewrite <-!app_assoc. cbn [app].
  rewrite expect_here. cbn [mbind option_bind].
  assert (Hname : valid_text name = true).
  { pose proof (wn_text _ Hw) as H. rewrite Forall_forall in H. apply H, list_elem_of_fmap. exists (name, k). split; [done|]. by eapply list_elem_of_lookup_2. }
  rewrite unquote_string by done. cbn [mbind option_bind]. change (skip_space (58%N :: b ++ c :: R)) with (58%N :: b ++ c :: R).
  rewrite expect_here. cbn [mbind option_bind]. rewrite string_of_bytes_of, (find_field _ _ _ _ Hw Hi). cbn [mbind option_bind].
  rewrite Hold. cbn [mbind option_bind]. destruct (encode_value_head _ _ _ Hb) as (x & l & E & Hx).
  assert (Hskip : skip_space (b ++ c :: R) = b ++ c :: R) by (rewrite E; cbn; by rewrite Hx). rewrite Hskip.
  rewrite (read_value_encoded zone k old v b c R) by done. cbn [mbind option_bind]. cbv zeta.
  destruct (separator_not _ Hc) as (_ & Hs & _). cbn [skip_space]. rewrite Hs.
  unfold separator in Hc. destruct (c =? 44)%N eqn:E44; [done|]. cbn in Hc. by rewrite Hc.
Qed.

Lemma member_head name b R : exists r, json_member name b ++ R = 34%N :: r.
Proof. unfold json_member, json_string. cbn [app]. by eexists. Qed.

Lemma read_members_encoded fields zone R : well_named fields -> forall post pre vs ws ms fuel, fields = pre ++ post ->
  post ≠ [] -> length vs = length pre -> Forall2 (fun f '(v, m) => encoded_member zone f v m) post (zip ws ms) -> length ws = length ms ->
  length post <= fuel -> read_members fuel fields (vs ++ (zero_value <$> post.*2)) (json_join ms ++ 125%N :: R) = Some (vs ++ ws, R).
Proof.
  intros Hw. induction post as [|[name k] post IH]; intros pre vs ws ms fuel Hfields Hne Hlen Hall Hlw Hfuel; [done|].
  destruct ws as [|v ws]; [by inversion Hall|]. destruct ms as [|m ms]; [by inversion Hall|].
  apply Forall2_cons_1 in Hall as [Hm Hall]. destruct fuel as [|fuel]; [cbn in Hfuel; lia|].
  assert (Hi : fields !! length pre = Some (name, k)) by (subst fields; by rewrite list_lookup_middle).
  assert (Hold : (vs ++ (zero_value <$> ((name, k) :: post).*2)) !! length pre = Some (zero_value k)) by (cbn; by rewrite list_lookup_middle).
  assert (Hins : <[length pre := v]> (vs ++ (zero_value <$> ((name, k) :: post).*2)) = (vs ++ [v]) ++ (zero_value <$> post.*2)).
  { rewrite <-Hlen, <-app_assoc. cbn. rewrite insert_app_r_alt by lia. by rewrite Nat.sub_diag. }
  destruct post as [|f post].
  - apply Forall2_nil_inv_l in Hall. destruct ws; [|destruct ms; done]. destruct ms; [|done]. cbn [json_join].
    rewrite (read_member _ _ _ (length pre) name k v _ _ _ _ _ Hw Hi Hold Hm) by done. cbn [N.eqb Pos.eqb]. rewrite Hins. cbn. by rewrite app_nil_r.
  - destruct ms as [|m2 ms]; [destruct ws; by inversion Hall|]. rewrite json_join_cons by done. rewrite <-!app_assoc. cbn [app].
    rewrite (read_member _ _ _ (length pre) name k v _ _ _ _ _ Hw Hi Hold Hm) by done. cbn [N.eqb Pos.eqb]. rewrite Hins.
    assert (Hskip : skip_space (json_join (m2 :: ms) ++ 125%N :: R) = json_join (m2 :: ms) ++ 125%N :: R).
    { destruct ws as [|v2 ws]; [by inversion Hall|]. pose proof Hall as Hall2. apply Forall2_cons_1 in Hall2 as [(_ & b & _ & ->) _].
      destruct ms as [|m3 ms]; [cbn [json_join]|rewrite json_join_cons, <-app_assoc by done];
        match goal with |- skip_space (?x ++ ?y) = _ => destruct (member_head f.1 b y) as [r Er]; rewrite Er; done end. }
    rewrite Hskip. rewrite (IH (pre ++ [(name, k)]) (vs ++ [v]) ws (m2 :: ms)).
    + by rewrite <-app_assoc.
    + by rewrite Hfields, <-app_assoc.
    + done.
    + rewrite !length_app. cbn. lia.
    + done.
    + by injection Hlw.
    + cbn in *. lia.
Qed.

Lemma encode_object_members zone fields : forall values body, Forall2 fits fields.*2 values -> encode_object zone fields.*1 values = Some body ->
  exists ms, body = json_object ms /\ length ms = length values /\ Forall2 (fun f '(v, m) => encoded_member zone f v m) fields (zip values ms).
Proof.
  intros values body Hf (ms & Hms & <-%(inj Some))%bind_Some. exists ms. split; [done|]. apply mapM_Some in Hms. revert ms values Hf Hms.
  induction fields as [|[name k] fields IH]; intros ms values Hf Hms; cbn in *.
  - apply Forall2_nil_inv_l in Hf as ->. apply Forall2_nil_inv_l in Hms as ->. by split.
  - apply Forall2_cons_inv_l in Hf as (v & vs & Hv & Hf & ->). cbn in Hms. apply Forall2_cons_inv_l in Hms as (m & ms' & Hm & Hms & ->).
    apply bind_Some in Hm as (b & Hb & <-%(inj Some)). destruct (IH ms' vs Hf Hms) as [Hl Hall]. split; [cbn; lia|].
    constructor; [|done]. split; [done|]. by exists b.
Qed.

(** What [json.Marshal] writes for a struct is read back into it. *)
Lemma object_roundtrip zone fields values body : well_named fields -> fields ≠ [] -> Forall2 fits fields.*2 values ->
  encode_object zone fields.*1 values = Some body -> decode_object fields body = Some values.
Proof.
  intros Hw Hne Hf He. destruct (encode_object_members _ _ _ _ Hf He) as (ms & -> & Hlen & Hall).
  unfold decode_object, read_object. cbv zeta. unfold json_object. cbn [app].
  change (skip_space (123%N :: json_join ms ++ [125%N])) with (123%N :: json_join ms ++ [125%N]).
  rewrite bool_decide_eq_false_2 by done. rewrite expect_here. cbn [mbind option_bind].
  assert (Hhead : exists r, json_join ms ++ [125%N] = 34%N :: r /\ length fields <= length (json_join ms ++ [125%N])).
  { destruct fields as [|f fields]; [done|]. destruct values as [|v values]; [by inversion Hf|]. destruct ms as [|m ms]; [done|].
    assert (Hl : length (f :: fields) = length (m :: ms)) by (apply Forall2_length in Hall; rewrite length_zip in Hall; lia).
    assert (Hjoin : length (m :: ms) <= length (json_join (m :: ms) ++ [125%N])).
    { clear. revert m. induction ms as [|m2 ms IH]; intros m; [cbn; rewrite length_app; cbn; lia|].
      rewrite json_join_cons by done. rewrite !length_app. specialize (IH m2). rewrite length_app in IH. cbn [length] in *. lia. }
    apply Forall2_cons_1 in Hall as [(_ & b & _ & ->) _]. rewrite Hl.
    destruct ms as [|m2 ms]; [cbn [json_join] in *|rewrite json_join_cons, <-app_assoc in * by done];
      match goal with |- context [json_member _ _ ++ ?y] => destruct (member_head f.1 b y) as [r Er]; rewrite Er in *; by exists r end. }
  destruct Hhead as (r & Er & Hfuel).
  assert (Hskip : skip_space (json_join ms ++ [125%N]) = json_join ms ++ [125%N]) by (rewrite Er; done). rewrite Hskip.
  assert (Hexp : expect 125 (json_join ms ++ [125%N]) = None) by (rewrite Er; done). rewrite Hexp.
  rewrite (read_members_encoded fields zone [] Hw fields [] [] values ms) by done. cbn. done.
Qed.

(** ** Bytes *)
Abbreviation is_byte := (fun b : N => (b < 256)%N).
Lemma bytes_of_bytes s : Forall is_byte (bytes_of s).
Proof.
  unfold bytes_of. apply Forall_fmap, Forall_forall. intros a _. cbn. apply Ascii.N_ascii_bounded.
Qed.
Lemma bytes_of_string l : Forall is_byte l -> bytes_of (string_of_bytes l) = l.
Proof.
  intros H. unfold bytes_of, string_of_bytes. rewrite String.list_ascii_of_string_of_list_ascii, <-list_fmap_compose.
  induction H as [|b l Hb _ IH]; [done|]. cbn. rewrite IH. f_equal. by apply Ascii.N_ascii_embedding.
Qed.

Lemma hex_digit_bound n : (n < 16)%N -> (hex_digit n < 256)%N.
Proof. unfold hex_digit. case_match; lia. Qed.
Lemma json_rune_bytes x : Forall is_byte x.1.2 -> Forall is_byte (json_rune x).
Proof.
  destruct x as [[r raw] ok]. cbn. intros Hraw. unfold json_rune.
  repeat case_match; repeat constructor; try done; rewrite ?orb_true_iff, ?N.ltb_lt, ?N.eqb_eq in *; try lia; apply hex_digit_bound; ndlia.
Qed.
Lemma runes_bytes f : forall l, Forall is_byte l -> Forall (fun x => Forall is_byte x.1.2) (runes_fuel f l).
Proof.
  induction f as [|f IH]; intros l Hl; [constructor|]. destruct l as [|b l]; [constructor|]. cbn [runes_fuel].
  destruct (decode_rune (b :: l)) as [[r n] ok]. constructor; [by apply Forall_take|]. by apply IH, Forall_drop.
Qed.
Lemma json_string_bytes s : Forall is_byte (json_string s).
Proof.
  unfold json_string. constructor; [done|]. apply Forall_app. split; [|by repeat constructor].
  pose proof (runes_bytes (String.length s) (bytes_of s) (bytes_of_bytes s)) as H. unfold runes.
  induction H as [|x xs Hx _ IH]; [constructor|]. change (mjoin (json_rune <$> x :: xs)) with (json_rune x ++ mjoin (json_rune <$> xs)).
  apply Forall_app. split; [by apply json_rune_bytes|done].
Qed.
Lemma digits_bytes w n : Forall is_byte (digits w n).
Proof.
  apply Forall_forall. intros b Hb. pose proof (digits_digits w n) as H. rewrite forallb_forall in H.
  specialize (H b (proj1 (list_elem_of_In _ _) Hb)). unfold is_digit, in_range in H. rewrite andb_true_iff, !N.leb_le in H. lia.
Qed.
Lemma format_time_bytes zone t b : format_time zone t = Some b -> Forall is_byte b.
Proof.
  unfold format_time. cbv zeta. destruct (civil_from_days _) as [[y m] d]. destruct (_ || _); [done|]. intros <-%(inj Some).
  repeat (apply Forall_app; split); try apply digits_bytes; try (by repeat constructor).
  - unfold format_fraction. destruct (trim_zeros_app (digits 9 ((t + zone * Minute) mod Second))) as [k E].
    pose proof (digits_bytes 9 ((t + zone * Minute) mod Second)%Z) as H. rewrite E, Forall_app in H. destruct H as [H _].
    destruct (trim_zeros _); [done|]. by constructor.
  - unfold format_zone. destruct (zone =? 0)%Z; [by repeat constructor|]. destruct (zone <? 0)%Z; constructor; try done;
      repeat (apply Forall_app; split); try apply digits_bytes; by repeat constructor.
Qed.
Lemma encode_value_bytes zone v b : encode_value zone v = Some b -> Forall is_byte b.
Proof.
  destruct v as [s|z|t]; cbn [encode_value]; [intros <-%(inj Some); apply json_string_bytes|intros <-%(inj Some); apply bytes_of_bytes|].
  destruct (format_time zone t) as [l|] eqn:E; [|done]. intros <-%(inj Some).
  repeat (apply Forall_app; split); [by repeat constructor|by eapply format_time_bytes|by repeat constructor].
Qed.
Lemma encode_object_bytes zone names values body : encode_object zone names values = Some body -> Forall is_byte body.
Proof.
  intros (ms & Hms & <-%(inj Some))%bind_Some. unfold json_object. repeat (apply Forall_app; split); try by repeat constructor.
  apply mapM_Some in Hms. assert (H : Forall (Forall is_byte) ms).
  { induction Hms as [|[name v] m l ms' Hm _ IH]; constructor; [|done]. apply bind_Some in Hm as (b & Hb & <-%(inj Some)).
    unfold json_member. apply Forall_app; split; [apply json_string_bytes|]. apply Forall_app; split; [by repeat constructor|by eapply encode_value_bytes]. }
  clear Hms. induction H as [|m ms Hm _ IH]; [constructor|]. destruct ms as [|m2 ms]; [done|]. rewrite json_join_cons by done.
  repeat (apply Forall_app; split); [done|by repeat constructor|done].
Qed.

Lemma base64_char_byte n : (base64_char n < 256)%N \/ (64 <= n)%N.
Proof. unfold base64_char. repeat case_match; rewrite ?N.ltb_lt, ?N.ltb_ge in *; try (left; lia); right; lia. Qed.
Lemma base64url_decoded_len l : base64_decoded_len (length (base64url l)) = length l.
Proof.
  unfold base64_decoded_len. induction l as [l IH] using (induction_ltof1 _ (@length N)). unfold ltof in IH.
  destruct l as [|a [|b [|c rest]]]; try done. cbn [base64url length]. specialize (IH rest ltac:(cbn; lia)).
  rewrite <-IH. set (n := length (base64url rest)). replace (S (S (S (S n))) * 6) with (3 * 8 + n * 6) by lia.
  rewrite Nat.div_add_l by done. lia.
Qed.

Lemma base64url_bytes l : Forall is_byte l -> Forall is_byte (base64url l).
Proof.
  intros (vs & -> & Hvs & _)%base64_groups_spec. apply Forall_fmap. eapply Forall_impl; [exact Hvs|].
  intros v Hv. cbn in Hv |- *. destruct (base64_char_byte v); [done|lia].
Qed.

(** ** Lengths *)
Lemma json_rune_bound x : 1 <= length x.1.2 -> length (json_rune x) <= 6 * length x.1.2.
Proof. destruct x as [[r raw] ok]. unfold json_rune. cbn. intros H. repeat case_match; cbn; lia. Qed.
Lemma json_runes_bound f : forall l, length (mjoin (json_rune <$> runes_fuel f l)) <= 6 * length l.
Proof.
  induction f as [|f IH]; intros l; [cbn; lia|]. destruct l as [|b l]; [cbn; lia|].
  pose proof (runes_raw (S f) (b :: l)) as Hraw. cbn [runes_fuel] in *. destruct (decode_rune (b :: l)) as [[r n] ok].
  apply Forall_cons in Hraw as [Hraw _]. rewrite fmap_cons. cbn [mjoin list_join]. rewrite length_app.
  pose proof (json_rune_bound _ Hraw) as H1. specialize (IH (drop n (b :: l))). cbn [fst snd] in H1.
  rewrite length_take in H1. rewrite length_drop in IH.
  eapply Nat.le_trans; [by apply Nat.add_le_mono|lia].
Qed.
Lemma json_string_bound s : length (json_string s) <= 6 * String.length s + 2.
Proof.
  unfold json_string, runes. rewrite !length_app. cbn [length]. pose proof (json_runes_bound (String.length s) (bytes_of s)) as H.
  rewrite bytes_of_length in H. lia.
Qed.
Lemma pretty_go_bound k : forall x s, (x < 10 ^ N.of_nat k)%N -> String.length (pretty_N_go x s) <= k + String.length s.
Proof.
  induction k as [|k IH]; intros x s Hx.
  - assert (x = 0%N) as -> by (cbn in Hx; lia). by rewrite pretty_N_go_0.
  - destruct (decide (x = 0%N)) as [->|Hne]; [rewrite pretty_N_go_0; lia|]. rewrite pretty_N_go_step by lia.
    eapply Nat.le_trans; [apply IH|cbn; lia]. rewrite Nat2N.inj_succ, N.pow_succ_r' in Hx. apply N.Div0.div_lt_upper_bound. lia.
Qed.
Lemma json_int_bound k z : 1 <= k -> (0 <= z < 10 ^ Z.of_nat k)%Z -> length (json_int z) <= k.
Proof.
  intros Hk Hz. destruct z as [|q|q]; [cbn; lia| |lia].
  change (json_int (Z.pos q)) with (bytes_of (pretty_N_go (N.pos q) "")). rewrite bytes_of_length.
  pose proof (pretty_go_bound k (N.pos q) "") as H. cbn [String.length] in H. rewrite Nat.add_0_r in H. apply H.
  apply N2Z.inj_lt. rewrite N2Z.inj_pow, nat_N_Z. cbn. lia.
Qed.
Lemma format_time_bound zone t b : format_time zone t = Some b -> length b <= 35.
Proof.
  unfold format_time. cbv zeta. destruct (civil_from_days _) as [[y m] d]. destruct (_ || _); [done|]. intros <-%(inj Some).
  rewrite !length_app, !digits_length. assert (Hf : length (format_fraction ((t + zone * Minute) mod Second)) <= 10).
  { unfold format_fraction. pose proof (trim_zeros_length (digits 9 ((t + zone * Minute) mod Second))) as H. rewrite digits_length in H.
    destruct (trim_zeros _); cbn in *; lia. }
  assert (Hz : length (format_zone zone) <= 6).
  { unfold format_zone. destruct (zone =? 0)%Z; [cbn; lia|]. destruct (zone <? 0)%Z; cbn [length]; rewrite !length_app, !digits_length; cbn; lia. }
  cbn [length]. lia.
Qed.
(** A member for each field, with a comma after it, and the braces. *)
Definition value_bound (v : field_value) : nat :=
  match v with VString s => 6 * String.length s + 2 | VInt _ => 20 | VTime _ => 37 end.
Definition small_value (v : field_value) : Prop := match v with VInt z => (0 <= z < 10 ^ 20)%Z | _ => True end.
Lemma encode_value_bound zone v b : small_value v -> encode_value zone v = Some b -> length b <= value_bound v.
Proof.
  destruct v as [s|z|t]; cbn [encode_value value_bound small_value]; intros Hs.
  - intros <-%(inj Some). apply (json_string_bound s).
  - intros <-%(inj Some). apply (json_int_bound 20); [lia|exact Hs].
  - destruct (format_time zone t) as [l|] eqn:E; [|done]. intros <-%(inj Some). apply format_time_bound in E.
    rewrite !length_app. cbn [length]. lia.
Qed.
Definition object_bound (names : list string) (values : list field_value) : nat :=
  2 + sum_list ((fun name => 6 * String.length name + 4) <$> names) + sum_list (value_bound <$> values).
Lemma encode_object_bound zone names : forall values body, Forall small_value values -> length names = length values ->
  encode_object zone names values = Some body -> length body <= object_bound names values.
Proof.
  intros values body Hs Hlen (ms & Hms & <-%(inj Some))%bind_Some. unfold json_object, object_bound. rewrite !length_app. cbn [length].
  apply mapM_Some in Hms. revert values ms Hs Hlen Hms.
  assert (Hjoin : forall m ms, length (json_join (m :: ms)) <= length m + 1 + length (json_join ms)).
  { intros m [|m2 ms]; [cbn; lia|]. rewrite json_join_cons by done. rewrite !length_app. cbn [length]. lia. }
  induction names as [|name names IH]; intros [|v values] ms Hs Hlen Hms; try done; cbn [zip zip_with] in Hms.
  - apply Forall2_nil_inv_l in Hms as ->. cbn. lia.
  - apply Forall2_cons_inv_l in Hms as (m & ms' & Hm & Hms & ->). apply bind_Some in Hm as (b & Hb & <-%(inj Some)).
    apply Forall_cons in Hs as [Hv Hs]. cbn in Hlen. specialize (IH values ms' Hs ltac:(lia) Hms). specialize (Hjoin (json_member name b) ms').
    apply encode_value_bound in Hb; [|done]. unfold json_member in *. rewrite !length_app in Hjoin. cbn [length] in Hjoin.
    pose proof (json_string_bound name). cbn [fmap list_fmap sum_list sum_list_with] in *. unfold id in *. lia.
Qed.
