(* ===== verification/WorkerApi.v ===== *)
(** * The workers' HTTP interface

    src/internal/workerapi/server.go over the repository: routing, credentials,
    the operations of a session and the stable error codes.  A request is what
    net/http hands to the handler, with what decoding its body gives for each
    type; metrics, spans and logging are left out. *)
From S2P Require Import Prelude GoStrings Json Model State ChangeSet Stores Database Dispatch Workers Encoding.

(** ** Strings *)
Fixpoint split_at (sep : N) (l : list N) : list (list N) :=
  match l with
  | [] => [[]]
  | b :: l => if (b =? sep)%N then [] :: split_at sep l else match split_at sep l with [] => [[b]] | part :: parts => (b :: part) :: parts end
  end.
(** [strings.Trim(path, "/")] *)
Fixpoint drop_byte (b : N) (l : list N) : list N := match l with [] => [] | x :: l' => if (x =? b)%N then drop_byte b l' else l end.
Definition trim_byte (b : N) (l : list N) : list N := reverse (drop_byte b (reverse (drop_byte b l))).
Definition splitPath (path : string) : list string :=
  let path := trim_byte 47 (bytes_of path) in
  match path with [] => [] | _ => string_of_bytes <$> split_at 47 path end.
(** [url.PathUnescape] *)
Fixpoint unescape (l : list N) : option (list N) :=
  match l with
  | [] => Some []
  | 37%N :: rest =>
    match rest with
    | a :: b :: rest => x ← hex_value a; y ← hex_value b; cons (x * 16 + y)%N <$> unescape rest
    | _ => None
    end
  | b :: rest => cons b <$> unescape rest
  end.
Definition PathUnescape (s : string) : option string := string_of_bytes <$> unescape (bytes_of s).
(** [strconv.Atoi] *)
Definition Atoi (s : string) : option Z :=
  let '(negative, l) := match bytes_of s with 45%N :: l => (true, l) | 43%N :: l => (false, l) | l => (false, l) end in
  match l with
  | [] => None
  | _ =>
    '(n, rest) ← take_digits (length l) 0 l;
    let n := if negative then (- n)%Z else n in
    if bool_decide (rest = []) && (- 2 ^ 63 <=? n)%Z && (n <? 2 ^ 63)%Z then Some n else None
  end.

(** ** Credentials (src/internal/auth/token.go) *)
Definition ErrUnauthorized : error := Sentinel "auth.ErrUnauthorized".
Definition ParseBearerToken (header : string) : outcome string :=
  match split_at 32 (bytes_of header) with
  | [scheme; token] =>
    if bool_decide (string_of_bytes scheme ≠ "Bearer") || bool_decide (token = []) || existsb (fun b => (b =? 9)%N || (b =? 13)%N || (b =? 10)%N) token
    then Err ErrUnauthorized else Ok (string_of_bytes token)
  | _ => Err ErrUnauthorized
  end.
Definition matchesBootstrapToken (bootstrapToken header : string) : bool :=
  match ParseBearerToken header with Ok token => bool_decide (token = bootstrapToken) | _ => false end.

(** ** Errors *)
Record APIError := mkAPIError { api_Status : Z; api_Code : string; api_Message : string; api_Cause : option error }.
Definition apiError : Z -> string -> string -> option error -> APIError := mkAPIError.
Definition mapError (err : error) : APIError :=
  let known := errors_Is err in
  if known ErrWorkerSessionInvalid then apiError 401 "worker_session_invalid" "Worker session is invalid" (Some err)
  else if known ErrWorkerProtocolUnsupported then apiError 400 "worker_protocol_unsupported" "Worker protocol version is not supported" (Some err)
  else if known ErrWorkerDraining then apiError 409 "worker_draining" "Worker is draining" (Some err)
  else if known ErrWorkerCapacityExceeded then apiError 409 "worker_capacity_exceeded" "Worker capacity is exceeded" (Some err)
  else if known ErrLeaseLost then apiError 409 "lease_lost" "Worker lease is no longer current" (Some err)
  else if known ErrResultConflict then apiError 409 "result_conflict" "Worker lease result conflicts with an earlier result" (Some err)
  else if known ErrInvalidWorkerRegistration || known ErrInvalidResult then apiError 400 "invalid_request" "request is invalid" (Some err)
  else if known ErrWorkerNotFound then apiError 404 "not_found" "resource not found" (Some err)
  else apiError 500 "internal_error" "internal server error" (Some err).
Definition methodError : APIError := apiError 405 "method_not_allowed" "method not allowed" None.
Definition notFound : APIError := apiError 404 "not_found" "resource not found" None.

(** ** Requests and answers *)
Record bodies := mkBodies {
  as_register : outcome RegisterRequest;
  as_claim : outcome Z;
  as_heartbeat : outcome (list LeaseRef);
  as_complete : outcome (string * ExecutionResponse);
  as_drain : outcome unit;
}.
Record http_request := mkHttpRequest {
  rq_method : string;
  rq_path : string;
  rq_authorization : string;
  rq_protocol : string;
  rq_limit : string;
  rq_cursor : string;
  rq_body : bodies;
}.
Record RegisterResponse := mkRegisterResponse {
  rr_WorkerID : string;
  rr_SessionToken : string;
  rr_HeartbeatIntervalMillis : Z;
  rr_LeaseDurationMillis : Z;
  rr_ProtocolVersion : Z;
}.
Inductive payload : Type :=
| PRegistered (r : RegisterResponse)
| PLeases (leases : list Lease)
| PHeartbeat (leases : list LeaseHeartbeat)
| PApplied (applied : bool)
| PSummary (summary : WorkerSummary)
| PNothing
| PPage (items : list WorkerSummary) (next : option string).
(** [Broken]: the handler panicked, and the connection is closed. *)
Inductive answer : Type := Answered (status : Z) (p : payload) | Refused (e : APIError) | Broken.

Definition defaultPageLimit : Z := 50.
Definition maxPageLimit : Z := 100.
Definition pageLimit (value : string) : outcome Z :=
  if is_empty value then Ok defaultPageLimit
  else match Atoi value with
  | Some limit => if (limit <=? 0)%Z || (maxPageLimit <? limit)%Z then Err (Errorf "limit must be between 1 and %d") else Ok limit
  | None => Err (Errorf "limit must be between 1 and %d")
  end.
Definition worker_encodeCursor (workerID : string) : string := string_of_bytes (base64url (bytes_of workerID)).
Definition worker_decodeCursor (cursor : string) : outcome string :=
  if is_empty cursor then Ok ""
  else match base64url_decode (bytes_of cursor) with
  | Some (b :: decoded) => Ok (string_of_bytes (b :: decoded))
  | _ => Err (Errorf "invalid cursor")
  end.

(** ** Routes *)
Definition Matches (path : string) : bool :=
  match splitPath path with "api" :: "v1" :: "workers" :: _ => true | _ => false end.
Definition RequiresWorkerCredentials (path : string) : bool :=
  let parts := splitPath path in
  ((length parts =? 4) && bool_decide (parts !! 3 = Some "register"))%nat || (5 <=? length parts)%nat.
Definition workerOperation (parts : list string) : option (WorkerOperation * string) :=
  match parts with
  | [_; _; _; _; "claims"] => Some (OperationClaim, "")
  | [_; _; _; _; "heartbeat"] => Some (OperationHeartbeat, "")
  | [_; _; _; _; "drain"] => Some (OperationDrain, "")
  | [_; _; _; _; "leases"; dispatch; "complete"] =>
    dispatchID ← PathUnescape dispatch;
    if is_empty (TrimSpace dispatchID) then None else Some (OperationComplete, dispatchID)
  | _ => None
  end%string.
Definition requestProtocolVersion (value : string) : outcome Z :=
  match Atoi value with
  | Some version => if bool_decide (version ≠ ProtocolVersion) then Err ErrWorkerProtocolUnsupported else Ok version
  | None => Err ErrWorkerProtocolUnsupported
  end.

(** ** The server *)
Record Server := mkServer { srv_bootstrapToken : string; srv_heartbeatInterval : duration; srv_leaseDuration : duration }.
Definition NewServer (store : bool) (bootstrapToken : string) (heartbeatInterval leaseDuration : duration) : outcome Server :=
  check (negb store) (Errorf "Worker store is required") $
  check (is_empty (TrimSpace bootstrapToken)) (Errorf "Worker bootstrap token is required") $
  check ((heartbeatInterval <=? 0) || (leaseDuration <=? heartbeatInterval))%Z (Errorf "Worker lease duration must exceed the heartbeat interval") $
  Ok (mkServer bootstrapToken heartbeatInterval leaseDuration).

(** What the environment chooses for one request: how its transactions end,
    the database clock, random bytes and tokens, locked rows. *)
Record choices := mkChoices {
  ch_auth : fate;
  ch_end : fate;
  ch_ends : nat -> fate;
  ch_entropy : nat -> outcome (list N);
  ch_clock : nat -> time;
  ch_skipped : string -> bool;
  ch_tokens : nat -> outcome string;
}.

(** The tables, whether the coordinator is woken, and the answer. *)
Definition handled : Type := database * bool * answer.
Definition refuse (e : APIError) (db : database) : handled := (db, false, Refused e).
Definition invalid_body (err : error) : APIError := apiError 400 "invalid_request" "invalid request body" (Some err).
Definition serve {A} (m : go database A) (status : Z) (wake : bool) (k : A -> payload) (db : database) : handled :=
  match m db with
  | (db, Ok a) => (db, wake, Answered status (k a))
  | (db, Err err) => refuse (mapError err) db
  | (db, _) => (db, false, Broken)
  end.
Definition with_body {A} (body : outcome A) (k : A -> database -> handled) (db : database) : handled :=
  match body with
  | Ok a => k a db
  | Err err => refuse (invalid_body err) db
  | _ => (db, false, Broken)
  end.

Section repository.
Context (sha256 : string -> string) (text_le : string -> string -> bool) (repositoryLease : duration).
Context (server : Server) (ch : choices).

Definition handle_register (request : http_request) (db : database) : handled :=
  if bool_decide (rq_method request ≠ "POST") then refuse methodError db
  else if negb (matchesBootstrapToken (srv_bootstrapToken server) (rq_authorization request))
  then refuse (apiError 401 "unauthorized" "authentication required" (Some ErrUnauthorized)) db
  else with_body (as_register (rq_body request)) (fun body =>
    serve (RegisterWorker sha256 (ch_ends ch) (ch_entropy ch) (ch_clock ch) body) 201 true (fun registration =>
      PRegistered (mkRegisterResponse (sum_WorkerID (Summary registration)) (SessionToken registration)
        (srv_heartbeatInterval server ÷ 1000000)%Z (srv_leaseDuration server ÷ 1000000)%Z ProtocolVersion))) db.

Definition handle_list (request : http_request) (db : database) : handled :=
  if bool_decide (rq_method request ≠ "GET") then refuse methodError db
  else match pageLimit (rq_limit request), worker_decodeCursor (rq_cursor request) with
  | Ok limit, Ok after =>
    serve (ListWorkerSummaries text_le after limit) 200 false (fun '(items, more) =>
      PPage items (match last items with Some item => if (more : bool) then Some (worker_encodeCursor (sum_WorkerID item)) else None | None => None end)) db
  | Err err, _ => refuse (apiError 400 "invalid_request" "limit must be between 1 and 100" (Some err)) db
  | _, Err err => refuse (apiError 400 "invalid_request" "invalid Worker cursor" (Some err)) db
  | _, _ => (db, false, Broken)
  end.

Definition handle_operation (operation : WorkerOperation) (workerID dispatchID : string) (body : bodies) : database -> handled :=
  match operation with
  | OperationClaim => with_body (as_claim body) (fun slots =>
      serve (Claim sha256 text_le repositoryLease (ch_end ch) (ch_skipped ch) (ch_tokens ch) (ch_clock ch 0) workerID slots) 200 false PLeases)
  | OperationHeartbeat => with_body (as_heartbeat body) (fun leases =>
      serve (Heartbeat sha256 repositoryLease (ch_end ch) (ch_clock ch 0) workerID leases) 200 false PHeartbeat)
  | OperationComplete => with_body (as_complete body) (fun '(token, result) =>
      serve (Complete sha256 (ch_end ch) (ch_clock ch 0) workerID dispatchID token result) 200 true PApplied)
  | OperationDrain => with_body (as_drain body) (fun _ => serve (DrainWorker (ch_end ch) (ch_clock ch 0) workerID) 200 false PSummary)
  | OperationOther _ => fun db => (db, false, Answered 200 PNothing)
  end.

(** The operation of a session, with its credentials. *)
Definition session_call (operation : WorkerOperation) (workerID token : string) (version : Z) (dispatchID : string) (body : bodies) (db : database) : handled :=
  match AuthenticateWorker sha256 (ch_auth ch) workerID token version operation db with
  | (db, Ok _) => handle_operation operation workerID dispatchID body db
  | (db, Err err) => refuse (mapError err) db
  | (db, _) => (db, false, Broken)
  end.

Definition handle_session (request : http_request) (parts : list string) (workerID : string) (db : database) : handled :=
  if bool_decide (rq_method request ≠ "POST") then refuse methodError db
  else match workerOperation parts with
  | None => refuse notFound db
  | Some (operation, dispatchID) =>
    match requestProtocolVersion (rq_protocol request) with
    | Ok version =>
      match ParseBearerToken (rq_authorization request) with
      | Ok token =>
        session_call operation workerID token version dispatchID (rq_body request) db
      | Err err => refuse (apiError 401 "worker_session_invalid" "Worker session is invalid" (Some err)) db
      | _ => (db, false, Broken)
      end
    | Err err => refuse (apiError 400 "worker_protocol_unsupported" "Worker protocol version is not supported" (Some err)) db
    | _ => (db, false, Broken)
    end
  end.

Definition Handle (request : http_request) (db : database) : handled :=
  let parts := splitPath (rq_path request) in
  if negb (Matches (rq_path request)) then refuse notFound db
  else if bool_decide (length parts = 4) && bool_decide (parts !! 3 = Some "register") then handle_register request db
  else if bool_decide (length parts = 3) then handle_list request db
  else match PathUnescape (default "" (parts !! 3)) with
  | None => refuse (apiError 400 "invalid_request" "invalid Worker ID" (Some (Errorf "invalid URL escape"))) db
  | Some workerID =>
    if is_empty (TrimSpace workerID) then refuse (apiError 400 "invalid_request" "invalid Worker ID" None) db
    else if bool_decide (length parts = 4) then
      if bool_decide (rq_method request ≠ "GET") then refuse methodError db
      else serve (GetWorkerSummary text_le workerID) 200 false PSummary db
    else handle_session request parts workerID db
  end.
End repository.
