(* ===== verification/Definitions.v ===== *)
(** * Storing definitions and runs

    src/internal/postgres/definitions.go, the idempotency records of
    repository.go, and the creation of runs in run_store.go.  What PostgreSQL
    keeps of a JSON document is an argument: [jsonb d] is the definition that
    is decoded from the JSONB column the JSON of [d] was stored in, [None] if
    the column refuses it. *)
From S2P Require Import Prelude Hoare GoStrings Json Model State Graph Compiler SnapshotJson CanonicalJson Distributed ChangeSet Stores Database Dispatch Workers.

Definition ErrIdempotencyConflict : error := Sentinel "ErrIdempotencyConflict".
Definition ErrWorkflowExists : error := Sentinel "ErrWorkflowExists".
Definition ErrWorkflowNotFound : error := Sentinel "ErrWorkflowNotFound".
Definition ErrDefinitionNotFound : error := Sentinel "ErrDefinitionNotFound".
Definition operationCreateWorkflow : string := "create_workflow".
Definition operationCreateVersion : string := "create_workflow_version".
Definition operationStartRun : string := "start_run".
Definition resourceWorkflowVersion : string := "workflow_version".
Definition resourceRun : string := "run".

Record DefinitionRecord := mkDefinitionRecord { rec_WorkflowID : string; rec_Version : Z }.

(** ** Idempotency records *)
Definition validateIdempotencyInput (principal key requestHash : string) : outcome unit :=
  check (is_empty (TrimSpace principal)) (Errorf "principal is required") $
  check (is_empty (TrimSpace key)) (Errorf "idempotency key is required") $
  check (is_empty (TrimSpace requestHash)) (Errorf "request hash is required") $
  Ok tt.

(** The advisory lock serialises the requests with the same key; its argument
    is a text, so it has to be valid UTF-8. *)
Definition lockIdempotency (principal operation key : string) : go database unit :=
  fail_if (negb (pg_text principal && pg_text operation && pg_text key))
    (Wrapf "lock idempotency key: %w" (Errorf "invalid byte sequence for encoding")).
Definition loadIdempotency (principal operation key : string) : go database (option idempotency_row) :=
  gets (fun db => idempotency db !! (principal, operation, key)).
Definition insertIdempotency (principal operation key : string) (row : idempotency_row) : go database unit :=
  db ← get;
  _ ← fail_if (is_empty principal || is_empty operation || is_empty key || is_empty (i_request_hash row)
               || is_empty (i_resource_type row) || is_empty (i_resource_id row)
               || negb (pg_text (i_request_hash row)) || negb (pg_text (i_resource_id row)))
        (Wrapf "insert idempotency record: %w" constraint_violation);
  _ ← fail_if (has (idempotency db !! (principal, operation, key)))
        (Wrapf "insert idempotency record: %w" (unique_violation "idempotency_records_pkey"));
  modify (set_idempotency (<[(principal, operation, key) := row]> (idempotency db))).
Definition validateReplay (record : idempotency_row) (requestHash resourceType : string) : outcome unit :=
  check (bool_decide (i_request_hash record ≠ requestHash) || bool_decide (i_resource_type record ≠ resourceType))
    ErrIdempotencyConflict (Ok tt).

Section repository.
Context (jsonb : WorkflowDefinition -> option WorkflowDefinition).

(** ** Workflows and versions *)
Definition insert_workflow (id : string) (row : workflow_row) : go database unit :=
  db ← get;
  _ ← fail_if (negb (match_identifier id) || (wr_latest_version row <=? 0)%Z || is_empty (wr_created_by row))
        (Wrapf "insert workflow: %w" constraint_violation);
  _ ← fail_if (has (workflows db !! id)) ErrWorkflowExists;
  modify (set_workflows (<[id := row]> (workflows db))).

(** [version] is an INTEGER column. *)
Definition max_integer : Z := 2147483647.
Definition insert_version (id : string) (version : Z) (definition : WorkflowDefinition) (hash : string) (now : time) (by_ : string)
    : go database unit :=
  db ← get;
  stored ← lift (match jsonb definition with
                 | Some stored => Ok stored
                 | None => Err (Wrapf "insert workflow version: %w" (Errorf "unsupported JSON"))
                 end);
  _ ← fail_if ((version <=? 0)%Z || (max_integer <? version)%Z || is_empty hash || is_empty by_
               || negb (has (workflows db !! id)) || has (versions db !! (id, version)))
        (Wrapf "insert workflow version: %w" constraint_violation);
  modify (set_versions (<[(id, version) := mkVersion stored hash now by_]> (versions db))).

(** [json.Marshal], whose result the column stores. *)
Definition encodeDefinition (definition : WorkflowDefinition) : outcome (list N) :=
  match json_definition definition with
  | Some body => Ok body
  | None => Err (Wrapf "encode workflow definition: %w" (Errorf "json: unsupported value"))
  end.

Definition replay_version (record : idempotency_row) (requestHash : string) : go database DefinitionRecord :=
  _ ← lift (validateReplay record requestHash resourceWorkflowVersion);
  match i_resource_version record with
  | None => throw (Errorf "stored workflow idempotency record has no version")
  | Some version => mret (mkDefinitionRecord (i_resource_id record) version)
  end.

Definition CreateDefinition (end_ : fate) (now : time) (definition : WorkflowDefinition) (principal idemKey requestHash : string)
    : go database DefinitionRecord :=
  _ ← lift (validateIdempotencyInput principal idemKey requestHash);
  _ ← lift (encodeDefinition definition);
  transaction end_ (
    _ ← lockIdempotency principal operationCreateWorkflow idemKey;
    record ← loadIdempotency principal operationCreateWorkflow idemKey;
    match record with
    | Some record => replay_version record requestHash
    | None =>
      let id := wf_ID definition in
      _ ← insert_workflow id (mkWorkflow 1 now principal);
      _ ← insert_version id 1 definition requestHash now principal;
      _ ← insertIdempotency principal operationCreateWorkflow idemKey (mkIdempotency requestHash resourceWorkflowVersion id (Some 1%Z));
      mret (mkDefinitionRecord id 1)
    end).

Definition CreateVersion (end_ : fate) (now : time) (workflowID : string) (definition : WorkflowDefinition)
    (principal idemKey requestHash : string) : go database DefinitionRecord :=
  _ ← fail_if (bool_decide (wf_ID definition ≠ workflowID)) (Errorf "definition ID %q does not match workflow ID %q");
  _ ← lift (validateIdempotencyInput principal idemKey requestHash);
  _ ← lift (encodeDefinition definition);
  transaction end_ (
    _ ← lockIdempotency principal operationCreateVersion idemKey;
    record ← loadIdempotency principal operationCreateVersion idemKey;
    match record with
    | Some record => replay_version record requestHash
    | None =>
      db ← get;
      match workflows db !! workflowID with
      | None => throw ErrWorkflowNotFound
      | Some workflow =>
        let version := (wr_latest_version workflow + 1)%Z in
        _ ← fail_if (max_integer <? version)%Z (Wrapf "update latest workflow version: %w" (Errorf "integer out of range"));
        _ ← modify (set_workflows (<[workflowID := mkWorkflow version (wr_created_at workflow) (wr_created_by workflow)]> (workflows db)));
        _ ← insert_version workflowID version definition requestHash now principal;
        _ ← insertIdempotency principal operationCreateVersion idemKey
              (mkIdempotency requestHash resourceWorkflowVersion workflowID (Some version));
        mret (mkDefinitionRecord workflowID version)
      end
    end).

(** [compiled.Definition()] of a stored document. *)
Definition compileStored (format : string) (stored : WorkflowDefinition) : outcome WorkflowDefinition :=
  match Compile stored with
  | Ok compiled => Definition_of (Some compiled)
  | Err e => Err (Wrapf format e)
  | Panic => Panic
  | Diverge => Diverge
  end.
Definition LoadDefinition (end_ : fate) (workflowID : string) (version : Z) : go database WorkflowDefinition :=
  row ← wrapped "load workflow definition: %w" (transaction end_ (gets (fun db => versions db !! (workflowID, version))));
  match row with
  | None => throw ErrDefinitionNotFound
  | Some row => lift (compileStored "compile stored workflow definition: %w" (v_definition row))
  end.

(** ** New runs *)
Fixpoint checkInitialTasks (tasks : list TaskRun) (definitions : list TaskDefinition) (remaining : list Z) : outcome unit :=
  match tasks, definitions, remaining with
  | [], _, _ => Ok tt
  | t :: tasks, d :: definitions, r :: remaining =>
    check (bool_decide (Key t ≠ def_Key d)) (Errorf "task key %q does not match definition index %d") $
    check (r <? 0)%Z (Errorf "task %q has negative remaining dependencies") $
    checkInitialTasks tasks definitions remaining
  | _, _, _ => Panic
  end.
Definition validateInitialSnapshot (snapshot : RunSnapshot) : outcome unit :=
  let run := Run snapshot in
  check (Version snapshot <=? 0)%Z (Errorf "snapshot version must be positive") $
  match Definition_ snapshot with
  | None => Err (Errorf "snapshot definition is required")
  | Some definition =>
    check (is_empty (ID run)) (Errorf "RunID is required") $
    check (bool_decide (DefinitionID run ≠ wf_ID definition)) (Errorf "Run definition ID %q does not match snapshot definition ID %q") $
    check (DefinitionVersion run <=? 0)%Z (Errorf "Run definition version must be positive") $
    check (bool_decide (run_Status run ≠ WorkflowPending) || negb (Revision run =? 0)%Z)
      (Errorf "new Run must be pending at revision 0") $
    check (negb (length (Tasks run) =? length (def_Tasks definition)) || negb (length (Tasks run) =? length (RemainingDependencies run)))
      (Errorf "Run task, definition, and dependency counts must match") $
    _ ← checkInitialTasks (Tasks run) (def_Tasks definition) (RemainingDependencies run);
    check (negb (events_contiguous 1 (Events snapshot))) (Errorf "initial event sequence %d must be %d") $
    check (negb (LastEventSequence run =? Z.of_nat (length (Events snapshot)))%Z) (Errorf "Run last event sequence %d must be %d") $
    Ok tt
  end.

(** The stored version and the snapshot's definition compile to the same JSON. *)
Definition ensureDefinitionMatches (snapshot : RunSnapshot) : go database unit :=
  db ← get;
  match versions db !! (DefinitionID (Run snapshot), DefinitionVersion (Run snapshot)) with
  | None => throw ErrDefinitionNotFound
  | Some row =>
    stored ← lift (compileStored "compile stored Run definition: %w" (v_definition row));
    definition ← deref (Definition_ snapshot);
    wanted ← lift (compileStored "compile Run definition: %w" definition);
    storedCanonical ← lift (encodeDefinition stored);
    wantedCanonical ← lift (encodeDefinition wanted);
    fail_if (bool_decide (storedCanonical ≠ wantedCanonical)) (Errorf "Run snapshot definition does not match workflow version")
  end.

(** The row of workflow_runs; its definition is the version it refers to. *)
Definition insert_run (snapshot : RunSnapshot) : go database unit :=
  db ← get;
  let run := Run snapshot in
  match versions db !! (DefinitionID run, DefinitionVersion run) with
  | None => throw (Wrapf "insert workflow Run: %w" constraint_violation)
  | Some row =>
    _ ← fail_if ((DefinitionVersion run <=? 0)%Z || (Version snapshot <=? 0)%Z || negb (workflow_status_valid (run_Status run))
                 || (int64 (Revision run) <? 0)%Z || (int64 (LastEventSequence run) <? 0)%Z || negb (pg_text (ID run)))
          (Wrapf "insert workflow Run: %w" constraint_violation);
    _ ← fail_if (has (runs db !! ID run)) (Wrapf "insert workflow Run: %w" (unique_violation "workflow_runs_pkey"));
    modify (set_runs (<[ID run := mkRunSnapshot (Version snapshot) (Some (v_definition row))
      (mkWorkflowRun (ID run) (DefinitionID run) (DefinitionVersion run) (run_Status run) (int64 (Revision run))
        (int64 (LastEventSequence run)) (CancelRequestedAt run) [] [] (CreatedAt run) (run_StartedAt run) (run_FinishedAt run)) []]> (runs db)))
  end.

(** The rows of task_runs, in the order of their index. *)
Definition insert_task (run : RunID) (task : TaskRun) (remaining : Z) : go database unit :=
  db ← get;
  match runs db !! run with
  | None => throw (Wrapf "insert TaskRun %q: %w" constraint_violation)
  | Some s =>
    _ ← fail_if (negb (task_status_valid (Status task)) || (remaining <? 0)%Z || bool_decide (Key task ∈ Key <$> Tasks (Run s)))
          (Wrapf "insert TaskRun %q: %w" constraint_violation);
    modify (set_runs (<[run := upd_Remaining (fun l => l ++ [remaining])
      (upd_Tasks (fun l => l ++ [mkTaskRun (Key task) (Status task) [] (ReadyAt task) (FinishedAt task)]) s)]> (runs db)))
  end.
Fixpoint insert_tasks (run : RunID) (index : nat) (tasks : list TaskRun) (remaining : list Z) : go database unit :=
  match tasks with
  | [] => mret tt
  | task :: rest =>
    r ← deref (head remaining);
    _ ← insert_task run task r;
    _ ← for_each (Attempts task) (insertAttempt run (Key task) (Z.of_nat index));
    insert_tasks run (S index) rest (tail remaining)
  end.
Definition insertSnapshot (snapshot : RunSnapshot) : go database unit :=
  _ ← ensureDefinitionMatches snapshot;
  _ ← insert_run snapshot;
  _ ← insert_tasks (ID (Run snapshot)) 0 (Tasks (Run snapshot)) (RemainingDependencies (Run snapshot));
  for_each (Events snapshot) (insertEvent (ID (Run snapshot))).

(** [ErrRunExists] for a run that is stored already. *)
Definition insert_new (snapshot : RunSnapshot) : go database unit :=
  inserted ← result_of (insertSnapshot snapshot);
  match inserted with
  | inl _ => mret tt
  | inr err => throw (if isUniqueViolation err "workflow_runs_pkey" then ErrRunExists else err)
  end.

Definition Create (end_ : fate) (snapshot : RunSnapshot) : go database unit :=
  _ ← lift (validateInitialSnapshot snapshot);
  transaction end_ (insert_new snapshot).
Definition CreateRun (end_ : fate) (snapshot : RunSnapshot) (principal idemKey requestHash : string) : go database (RunID * bool) :=
  _ ← lift (validateInitialSnapshot snapshot);
  _ ← lift (validateIdempotencyInput principal idemKey requestHash);
  transaction end_ (
    _ ← lockIdempotency principal operationStartRun idemKey;
    record ← loadIdempotency principal operationStartRun idemKey;
    match record with
    | Some record =>
      _ ← lift (validateReplay record requestHash resourceRun);
      mret (i_resource_id record, false)
    | None =>
      _ ← insert_new snapshot;
      _ ← insertIdempotency principal operationStartRun idemKey
            (mkIdempotency requestHash resourceRun (ID (Run snapshot)) None);
      mret (ID (Run snapshot), true)
    end).
End repository.
