(* ===== verification/Services.v ===== *)
(** * The control plane's services

    src/internal/app/workflow_service.go and run_service.go: creating workflow
    versions from compiled definitions, with the cache of compiled versions,
    and starting runs of a version.  The state is the database with the cache
    of the process; a restart empties the cache. *)
From S2P Require Import Prelude Hoare GoStrings Json Model State Graph Compiler SnapshotJson CanonicalJson Distributed ChangeSet Stores Database Dispatch Workers Definitions.

Definition ErrInvalidArgument : error := Sentinel "ErrInvalidArgument".
Definition defaultPageSize : Z := 50.
Definition maxPageSize : Z := 100.

Record DefinitionRef := mkDefinitionRef { df_WorkflowID : string; df_Version : Z }.
Record StartRunResponse := mkStartRunResponse { sr_RunID : RunID; sr_Status : WorkflowStatus }.

Record platform := mkPlatform {
  pf_database : database;
  pf_cache : gmap (string * Z) CompiledWorkflow;
}.
Definition in_database {A} (m : go database A) : go platform A := fun p =>
  let '(db, r) := m (pf_database p) in (mkPlatform db (pf_cache p), r).

(** [hex.EncodeToString] *)
Definition hex (s : string) : string :=
  string_of_bytes (b ← bytes_of s; [hex_digit (b / 16); hex_digit (b mod 16)]%N).

Definition normalizeLimit (limit : Z) : outcome Z :=
  if (limit =? 0)%Z then Ok defaultPageSize
  else check ((limit <? 0)%Z || (maxPageSize <? limit)%Z)
    (Wrapf "%w: page limit must be between 1 and %d" ErrInvalidArgument) (Ok limit).

(** [%016x%016x] of the two halves of 16 random bytes: two digits per byte. *)
Definition randomRunID (raw : outcome (list N)) : outcome RunID :=
  bytes ← raw; Ok (hex (string_of_bytes bytes)).

Section services.
Context (sha256 : string -> string) (jsonb : WorkflowDefinition -> option WorkflowDefinition).

(** ** Workflows *)
Definition putCache (ref : DefinitionRef) (compiled : CompiledWorkflow) : go platform unit :=
  modify (fun p => mkPlatform (pf_database p) (<[(df_WorkflowID ref, df_Version ref) := compiled]> (pf_cache p))).

(** The default executor may be left out, so it does not count. *)
Definition blank_executor (t : TaskDefinition) : TaskDefinition :=
  mkTaskDefinition (def_Key t) (if bool_decide (def_Executor t = ExecutorMock) then ExecutorOther "" else def_Executor t)
    (def_Action t) (def_Input t) (DependsOn t) (Retry t) (TimeoutMillis t).
Definition definitionHash (definition : WorkflowDefinition) : string :=
  let blank := mkWorkflowDefinition (wf_ID definition) (Concurrency definition) (blank_executor <$> def_Tasks definition) in
  hex (sha256 (string_of_bytes (default [] (json_definition blank)))).

(** [Create] and [CreateVersion] of the service differ in the repository's
    operation. *)
Definition create_with (repository : WorkflowDefinition -> string -> go database DefinitionRecord) (definition : WorkflowDefinition)
    : go platform DefinitionRef :=
  compiled ← lift (match Compile definition with Err e => Err (Wrapf "%w: %w" ErrInvalidArgument) | r => r end);
  canonical ← lift (Definition_of (Some compiled));
  record ← in_database (repository canonical (definitionHash canonical));
  let ref := mkDefinitionRef (rec_WorkflowID record) (rec_Version record) in
  _ ← putCache ref compiled;
  mret ref.
Definition CreateWorkflow (end_ : fate) (now : time) (principal key : string) (definition : WorkflowDefinition) : go platform DefinitionRef :=
  create_with (fun canonical hash => CreateDefinition jsonb end_ now canonical principal key hash) definition.
Definition CreateWorkflowVersion (end_ : fate) (now : time) (principal workflowID key : string) (definition : WorkflowDefinition)
    : go platform DefinitionRef :=
  _ ← fail_if (bool_decide (wf_ID definition ≠ workflowID))
        (Wrapf "%w: definition ID %q does not match workflow ID %q" ErrInvalidArgument);
  create_with (fun canonical hash => CreateVersion jsonb end_ now workflowID canonical principal key hash) definition.

Definition compiled_version (read : fate) (workflowID : string) (version : Z) : go platform CompiledWorkflow :=
  p ← get;
  match pf_cache p !! (workflowID, version) with
  | Some compiled => mret compiled
  | None =>
    definition ← in_database (LoadDefinition read workflowID version);
    compiled ← lift (match Compile definition with Err e => Err (Wrapf "compile workflow %s@%d: %w" e) | r => r end);
    _ ← putCache (mkDefinitionRef workflowID version) compiled;
    mret compiled
  end.

(** ** Runs *)
Definition startRequestHash (workflowID : string) (version : Z) : string :=
  hex (sha256 (workflowID ++ "@" ++ pretty version)%string).

(** The response names the run, and whether the controller is woken. *)
Definition Start (read end_ : fate) (now : time) (newRunID : outcome RunID) (principal workflowID : string) (version : Z) (key : string)
    : go platform (StartRunResponse * bool) :=
  compiled ← compiled_version read workflowID version;
  id ← lift newRunID;
  snapshot ← lift (NewRunSnapshotForVersion id (Some compiled) version now);
  '(createdID, created) ← in_database (CreateRun end_ snapshot principal key (startRequestHash workflowID version));
  mret (mkStartRunResponse createdID WorkflowPending, created).
End services.
