(* ===== verification/Cursors.v ===== *)
(** * Page cursors

    src/internal/app/cursor.go: what a listing gives a client to continue with.
    A cursor is base64url of a JSON object with a version, a kind and the sort
    key of the last row; a client may send anything back. *)
From S2P Require Import Prelude GoStrings Json Model SnapshotJson CanonicalJson Workers Encoding Database Services.

Definition cursorVersion : Z := 1.
Definition maxCursorBytes : nat := 4 * 1024.
Definition workflowCursorKind : string := "workflow".
Definition versionCursorKind : string := "version".
Definition runCursorKind : string := "run".
Definition taskCursorKind : string := "task".
Definition eventCursorKind : string := "event".

Record workflowCursor := mkWorkflowCursor { wc_Version : Z; wc_Kind : string; wc_WorkflowID : string }.
Record versionCursor := mkVersionCursor { vc_Version : Z; vc_Kind : string; vc_WorkflowID : string; vc_AfterVersion : Z }.
Record runCursor := mkRunCursor { rc_Version : Z; rc_Kind : string; rc_CreatedAt : time; rc_RunID : RunID; rc_FilterHash : string }.
Record taskCursor := mkTaskCursor { tc_Version : Z; tc_Kind : string; tc_Run : RunID; tc_TaskIndex : Z }.
Record eventCursor := mkEventCursor { ec_Version : Z; ec_Kind : string; ec_Run : RunID; ec_Sequence : Z }.

(** The struct tags. *)
Definition workflow_schema : schema := [("v", KInt); ("kind", KString); ("workflow_id", KString)].
Definition version_schema : schema := [("v", KInt); ("kind", KString); ("workflow_id", KString); ("after_version", KInt)].
Definition run_schema : schema := [("v", KInt); ("kind", KString); ("created_at", KTime); ("run_id", KString); ("filter_hash", KString)].
Definition task_schema : schema := [("v", KInt); ("kind", KString); ("run_id", KString); ("task_index", KInt)].
Definition event_schema : schema := [("v", KInt); ("kind", KString); ("run_id", KString); ("sequence", KUint)].

Definition invalidCursor : error := Wrapf "%w: invalid page cursor" ErrInvalidArgument.

Definition encodeCursor (zone : Z) (fields : schema) (values : list field_value) : outcome string :=
  match encode_object zone fields.*1 values with
  | None => Err (Wrapf "encode page cursor: %w" (Errorf "json: unsupported value"))
  | Some body => check (maxCursorBytes <? length body)%nat invalidCursor (Ok (string_of_bytes (base64url body)))
  end.
Definition decodeCursor (fields : schema) (value : string) : outcome (list field_value) :=
  check (is_empty value || (maxCursorBytes <? base64_decoded_len (String.length value))%nat) invalidCursor $
  match base64url_decode (bytes_of value) with
  | None => Err invalidCursor
  | Some body =>
    check (maxCursorBytes <? length body)%nat invalidCursor $
    match decode_object fields body with
    | Some values => Ok values
    | None => Err invalidCursor
    end
  end.

Definition encodeWorkflowCursor (workflowID : string) : outcome string :=
  encodeCursor 0 workflow_schema [VInt cursorVersion; VString workflowCursorKind; VString workflowID].
Definition decodeWorkflowCursor (value : string) : outcome workflowCursor :=
  values ← decodeCursor workflow_schema value;
  match values with
  | [VInt version; VString kind; VString workflowID] =>
    let cursor := mkWorkflowCursor version kind workflowID in
    check (bool_decide (wc_Version cursor ≠ cursorVersion) || bool_decide (wc_Kind cursor ≠ workflowCursorKind) || is_empty (wc_WorkflowID cursor))
      invalidCursor (Ok cursor)
  | _ => Panic
  end.

Definition encodeVersionCursor (workflowID : string) (version : Z) : outcome string :=
  encodeCursor 0 version_schema [VInt cursorVersion; VString versionCursorKind; VString workflowID; VInt version].
Definition decodeVersionCursor (value workflowID : string) : outcome versionCursor :=
  values ← decodeCursor version_schema value;
  match values with
  | [VInt version; VString kind; VString id; VInt after] =>
    let cursor := mkVersionCursor version kind id after in
    check (bool_decide (vc_Version cursor ≠ cursorVersion) || bool_decide (vc_Kind cursor ≠ versionCursorKind)
           || bool_decide (vc_WorkflowID cursor ≠ workflowID) || (vc_AfterVersion cursor <=? 0)%Z)
      invalidCursor (Ok cursor)
  | _ => Panic
  end.

Definition encodeTaskCursor (runID : RunID) (taskIndex : Z) : outcome string :=
  encodeCursor 0 task_schema [VInt cursorVersion; VString taskCursorKind; VString runID; VInt taskIndex].
Definition decodeTaskCursor (value : string) (runID : RunID) : outcome taskCursor :=
  values ← decodeCursor task_schema value;
  match values with
  | [VInt version; VString kind; VString run; VInt taskIndex] =>
    let cursor := mkTaskCursor version kind run taskIndex in
    check (bool_decide (tc_Version cursor ≠ cursorVersion) || bool_decide (tc_Kind cursor ≠ taskCursorKind)
           || bool_decide (tc_Run cursor ≠ runID) || (tc_TaskIndex cursor <? 0)%Z)
      invalidCursor (Ok cursor)
  | _ => Panic
  end.

Definition encodeEventCursor (runID : RunID) (sequence : Z) : outcome string :=
  encodeCursor 0 event_schema [VInt cursorVersion; VString eventCursorKind; VString runID; VInt sequence].
Definition decodeEventCursor (value : string) (runID : RunID) : outcome eventCursor :=
  values ← decodeCursor event_schema value;
  match values with
  | [VInt version; VString kind; VString run; VInt sequence] =>
    let cursor := mkEventCursor version kind run sequence in
    check (bool_decide (ec_Version cursor ≠ cursorVersion) || bool_decide (ec_Kind cursor ≠ eventCursorKind)
           || bool_decide (ec_Run cursor ≠ runID) || (ec_Sequence cursor =? 0)%Z)
      invalidCursor (Ok cursor)
  | _ => Panic
  end.

Definition parseRunStatus (value : string) : outcome WorkflowStatus :=
  let status := workflow_status_of_string value in
  if bool_decide (status ∈ [WorkflowOther ""; WorkflowPending; WorkflowRunning; WorkflowSucceeded; WorkflowFailed; WorkflowCanceled])
  then Ok status
  else Err (Wrapf "%w: invalid Run status %q" ErrInvalidArgument).

Section cursor.
Context (sha256 : string -> string).

(** The filters of the listing are part of a run cursor. *)
Definition runFilterHash (workflowID : string) (status : WorkflowStatus) : string :=
  hex (sha256 (workflowID ++ String Ascii.zero (workflow_status_string status))%string).

(** Times come from the database in the server's local time. *)
Definition encodeRunCursor (local : time -> Z) (createdAt : time) (runID : RunID) (workflowID : string) (status : WorkflowStatus) : outcome string :=
  encodeCursor (local createdAt) run_schema
    [VInt cursorVersion; VString runCursorKind; VTime createdAt; VString runID; VString (runFilterHash workflowID status)].
Definition decodeRunCursor (value workflowID : string) (status : WorkflowStatus) : outcome runCursor :=
  values ← decodeCursor run_schema value;
  match values with
  | [VInt version; VString kind; VTime createdAt; VString run; VString filter] =>
    let cursor := mkRunCursor version kind createdAt run filter in
    check (bool_decide (rc_Version cursor ≠ cursorVersion) || bool_decide (rc_Kind cursor ≠ runCursorKind) || (rc_CreatedAt cursor =? 0)%Z
           || is_empty (rc_RunID cursor) || bool_decide (rc_FilterHash cursor ≠ runFilterHash workflowID status))
      invalidCursor (Ok cursor)
  | _ => Panic
  end.
End cursor.
