(* ===== verification/CursorFacts.v ===== *)
(** * Cursors come back as they were sent

    What [encodeCursor] writes is decoded into the same fields, and everything
    else a client sends is refused or has fields of the right types. *)
From S2P Require Import Prelude GoStrings Json Model SnapshotJson CanonicalJson Workers Encoding EncodingFacts Database Services Cursors.

(** ** What was encoded *)
Lemma string_of_bytes_length l : String.length (string_of_bytes l) = length l.
Proof. unfold string_of_bytes. induction l; cbn; congruence. Qed.
Lemma base64url_empty l : base64url l = [] -> l = [].
Proof. by destruct l as [|a [|b [|c l]]]. Qed.

Lemma encodeCursor_decoded zone fields values s : well_named fields -> fields ≠ [] -> Forall2 fits fields.*2 values ->
  encodeCursor zone fields values = Ok s -> s ≠ "" /\ decodeCursor fields s = Ok values.
Proof.
  intros Hw Hne Hf. unfold encodeCursor. destruct (encode_object zone fields.*1 values) as [body|] eqn:E; [|done].
  unfold check. destruct (maxCursorBytes <? length body) eqn:Hmax; [done|]. intros [= <-].
  pose proof (encode_object_bytes _ _ _ _ E) as Hbytes. pose proof (object_roundtrip _ _ _ _ Hw Hne Hf E) as Hback.
  assert (Hs : string_of_bytes (base64url body) ≠ "").
  { intros Hs. apply (f_equal String.length) in Hs. rewrite string_of_bytes_length in Hs. cbn in Hs.
    apply nil_length_inv, base64url_empty in Hs as ->. by destruct fields. }
  split; [done|]. unfold decodeCursor. rewrite string_of_bytes_length, base64url_decoded_len, Hmax, orb_false_r.
  unfold is_empty. rewrite bool_decide_eq_false_2 by done. cbn [check].
  rewrite bytes_of_string by by apply base64url_bytes. rewrite base64url_roundtrip by done. unfold check. by rewrite Hmax, Hback.
Qed.

Definition writable (zone : Z) (v : field_value) : Prop := is_Some (encode_value zone v).
Lemma encodeCursor_ok zone fields values : length fields = length values -> Forall (writable zone) values -> Forall small_value values ->
  object_bound fields.*1 values <= maxCursorBytes -> exists s, encodeCursor zone fields values = Ok s.
Proof.
  intros Hlen Hw Hs Hb. assert (H : exists body, encode_object zone fields.*1 values = Some body).
  { assert (Hm : exists ms, mapM (fun '(name, v) => b ← encode_value zone v; Some (json_member name b)) (zip fields.*1 values) = Some ms);
      [|destruct Hm as [ms Hm]; eexists; unfold encode_object; by rewrite Hm].
    apply mapM_is_Some, Forall_forall. intros [name v] Hin. apply list_elem_of_lookup in Hin as [i Hi]. apply lookup_zip_with_Some in Hi as (n & v' & [= <- <-] & _ & Hv).
    rewrite Forall_lookup in Hw. destruct (Hw _ _ Hv) as [b Eb]. unfold compose. rewrite Eb. by eexists. }
  destruct H as [body E]. unfold encodeCursor. rewrite E.
  assert (Hlt : (maxCursorBytes <? length body)%nat = false).
  { apply Nat.ltb_ge. etrans; [eapply encode_object_bound|exact Hb]; [done| |exact E]. by rewrite length_fmap. }
  unfold check. rewrite Hlt. by eexists.
Qed.

(** ** The names in the structs *)
Ltac names := split; [by repeat constructor|by apply (bool_decide_unpack _); vm_compute].
Lemma workflow_named : well_named workflow_schema. Proof. names. Qed.
Lemma version_named : well_named version_schema. Proof. names. Qed.
Lemma run_named : well_named run_schema. Proof. names. Qed.
Lemma task_named : well_named task_schema. Proof. names. Qed.
Lemma event_named : well_named event_schema. Proof. names. Qed.
#[export] Hint Resolve workflow_named version_named run_named task_named event_named : core.

(** ** What a client may send *)
Definition of_kind (k : field_kind) (v : field_value) : bool :=
  match k, v with KString, VString _ | KInt, VInt _ | KUint, VInt _ | KTime, VTime _ => true | _, _ => false end.
Lemma zero_of_kind k : of_kind k (zero_value k) = true.
Proof. by destruct k. Qed.
Lemma read_value_kind k old l v rest : of_kind k old = true -> read_value k old l = Some (v, rest) -> of_kind k v = true.
Proof.
  intros Hold. unfold read_value. case_bool_decide; [by intros [= <- _]|].
  destruct k; intros Hr; cbv zeta in Hr; repeat (apply bind_Some in Hr as ([? ?] & _ & Hr) || apply bind_Some in Hr as (? & _ & Hr) || case_match); try done; by injection Hr as <- _.
Qed.
Lemma read_members_kind fuel fields : forall values l values' rest, Forall2 (fun k v => of_kind k v = true) fields.*2 values ->
  read_members fuel fields values l = Some (values', rest) -> Forall2 (fun k v => of_kind k v = true) fields.*2 values'.
Proof.
  induction fuel as [|fuel IH]; intros values l values' rest Hv; cbn [read_members]; [done|].
  intros (l1 & _ & H)%bind_Some. apply bind_Some in H as ([key l2] & _ & H). apply bind_Some in H as (l3 & _ & H).
  apply bind_Some in H as ([i [name kind]] & Hi & H). apply bind_Some in H as (old & Hold & H). apply bind_Some in H as ([v l4] & Hval & H).
  apply list_find_Some in Hi as [Hi _]. assert (Hk : fields.*2 !! i = Some kind) by by rewrite list_lookup_fmap, Hi.
  apply read_value_kind in Hval; [|by eapply (Forall2_lookup_lr _ _ _ _ _ _ Hv)]. cbv zeta in H.
  assert (Hv' : Forall2 (fun k v => of_kind k v = true) fields.*2 (<[i := v]> values)).
  { rewrite <-(list_insert_id _ _ _ Hk). by apply Forall2_insert. }
  destruct (skip_space l4) as [|b l5]; [done|]. destruct (b =? 44)%N; [by eapply IH|]. destruct (b =? 125)%N; [by injection H as <- _|done].
Qed.
Lemma decode_object_kind fields l values : decode_object fields l = Some values -> Forall2 (fun k v => of_kind k v = true) fields.*2 values.
Proof.
  assert (H0 : Forall2 (fun k v => of_kind k v = true) fields.*2 (zero_value <$> fields.*2)).
  { apply Forall2_fmap_r, Forall_Forall2_diag, Forall_forall. intros k _. apply zero_of_kind. }
  intros ([vs rest] & Hr & H)%bind_Some. case_bool_decide; [|done]. injection H as <-. unfold read_object in Hr. cbv zeta in Hr.
  case_bool_decide; [by injection Hr as <- _|]. apply bind_Some in Hr as (l1 & _ & Hr).
  destruct (expect 125 _); [by injection Hr as <- _|]. by eapply read_members_kind.
Qed.
Lemma decodeCursor_cases fields value : decodeCursor fields value = Err invalidCursor \/
  exists values, decodeCursor fields value = Ok values /\ Forall2 (fun k v => of_kind k v = true) fields.*2 values.
Proof.
  unfold decodeCursor, check. destruct (_ || _); [by left|]. destruct (base64url_decode _) as [body|]; [|by left].
  destruct (_ <? _); [by left|]. destruct (decode_object fields body) as [values|] eqn:E; [|by left].
  right. exists values. by split; [|eapply decode_object_kind].
Qed.

(** ** Texts *)
Lemma valid_bytes s : Forall (fun b => b < 128)%N (bytes_of s) -> valid_text s = true.
Proof.
  unfold valid_text, runes. generalize (String.length s) as f, (bytes_of s) as l. induction f as [|f IH]; intros l Hl; [done|].
  destruct Hl as [|b l Hb Hl]; [done|]. cbn [runes_fuel decode_rune]. apply N.ltb_lt in Hb. rewrite Hb. cbn [forallb snd andb]. by apply IH.
Qed.
Lemma identifier_valid_text s : match_identifier s = true -> valid_text s = true /\ s ≠ "" /\ String.length s <= 64.
Proof.
  unfold match_identifier. cbv zeta. rewrite !andb_true_iff, !Nat.leb_le, bytes_of_length. intros [[H1 H2] H]. split_and!; [|intros ->; cbn in H1; lia|done].
  apply valid_bytes, Forall_forall. intros b Hb. rewrite forallb_forall in H. specialize (H b (proj1 (list_elem_of_In _ _) Hb)).
  unfold identifier_byte, in_range in H. rewrite !orb_true_iff, !andb_true_iff, !N.leb_le, !N.eqb_eq in H. lia.
Qed.
Lemma pg_text_valid s : pg_text s = true -> valid_text s = true.
Proof.
  unfold pg_text, valid_text. induction (runes s) as [|x l IH]; [done|]. cbn. rewrite !andb_true_iff. intros [[-> _] H]. by split; [|apply IH].
Qed.
Lemma identifier_pg_text s : match_identifier s = true -> pg_text s = true.
Proof.
  unfold match_identifier, pg_text, runes. cbv zeta. rewrite !andb_true_iff. intros [_ H]. rewrite <-(bytes_of_length s).
  revert H. generalize (bytes_of s) as l. induction l as [|b l IH]; [done|]. cbn [forallb]. rewrite andb_true_iff. intros [Hb Hl].
  assert (Hr : (b <? 128)%N = true /\ b ≠ 0%N).
  { unfold identifier_byte, in_range in Hb. rewrite !orb_true_iff, !andb_true_iff, !N.leb_le, !N.eqb_eq in Hb. rewrite N.ltb_lt. lia. }
  destruct Hr as [Hr Hz]. apply N.eqb_neq in Hz. cbn [length runes_fuel decode_rune]. rewrite Hr. cbn [forallb fst snd drop]. rewrite Hz. by apply IH.
Qed.
Lemma hex_digit_ascii n : (n < 16)%N -> (hex_digit n < 128)%N.
Proof. unfold hex_digit. case_match; rewrite ?N.ltb_lt, ?N.ltb_ge in *; lia. Qed.
Lemma hex_bytes s : Forall (fun b => b < 128)%N (bytes_of (hex s)) /\ String.length (hex s) = 2 * String.length s.
Proof.
  unfold hex. rewrite string_of_bytes_length, <-(bytes_of_length s). pose proof (bytes_of_bytes s) as H.
  set (f := fun b : N => [hex_digit (b / 16); hex_digit (b mod 16)]).
  assert (Hf : Forall (fun b => b < 128)%N (mbind f (bytes_of s)) /\ length (mbind f (bytes_of s)) = 2 * length (bytes_of s)).
  { induction H as [|b l Hb _ [IH1 IH2]]; [done|]. cbn [mbind list_bind] in *. rewrite length_app. split.
    - apply Forall_app. split; [|done]. unfold f. repeat constructor; apply hex_digit_ascii; ndlia.
    - rewrite IH2. cbn. lia. }
  destruct Hf as [H1 H2]. split; [|done]. rewrite bytes_of_string; [done|]. eapply Forall_impl; [exact H1|]. cbn. lia.
Qed.
Lemma hex_text s : valid_text (hex s) = true.
Proof. apply valid_bytes, hex_bytes. Qed.

(** ** Each cursor *)
Ltac decoded H := apply encodeCursor_decoded in H as [Hne Hd]; [split; [exact Hne|]|auto|done|repeat (apply Forall2_cons; split); try apply Forall2_nil; cbn [fits snd]; auto; try apply hex_text; try done; try lia].

Lemma workflow_cursor id c : valid_text id = true -> id ≠ "" -> encodeWorkflowCursor id = Ok c ->
  c ≠ "" /\ decodeWorkflowCursor c = Ok (mkWorkflowCursor cursorVersion workflowCursorKind id).
Proof.
  intros Hid Hne0 H. decoded H. unfold decodeWorkflowCursor. rewrite Hd. cbn. unfold is_empty. by rewrite (bool_decide_eq_false_2 (id = _)).
Qed.
Lemma version_cursor id v c id' : valid_text id = true -> (0 < v < 2 ^ 63)%Z -> encodeVersionCursor id v = Ok c ->
  c ≠ "" /\ decodeVersionCursor c id' = if decide (id' = id) then Ok (mkVersionCursor cursorVersion versionCursorKind id v) else Err invalidCursor.
Proof.
  intros Hid Hv H. decoded H.
  unfold decodeVersionCursor. rewrite Hd. cbn. destruct (decide (id' = id)) as [->|Hn].
  - rewrite (bool_decide_eq_false_2 (id ≠ id)) by (intros E; by apply E). assert (E : (v <=? 0)%Z = false) by (apply Z.leb_gt; lia). by rewrite E.
  - by rewrite (bool_decide_eq_true_2 (id ≠ id')) by congruence.
Qed.
Lemma task_cursor id i c id' : valid_text id = true -> (0 <= i < 2 ^ 63)%Z -> encodeTaskCursor id i = Ok c ->
  c ≠ "" /\ decodeTaskCursor c id' = if decide (id' = id) then Ok (mkTaskCursor cursorVersion taskCursorKind id i) else Err invalidCursor.
Proof.
  intros Hid Hv H. decoded H.
  unfold decodeTaskCursor. rewrite Hd. cbn. destruct (decide (id' = id)) as [->|Hn].
  - rewrite (bool_decide_eq_false_2 (id ≠ id)) by (intros E; by apply E). assert (E : (i <? 0)%Z = false) by (apply Z.ltb_ge; lia). by rewrite E.
  - by rewrite (bool_decide_eq_true_2 (id ≠ id')) by congruence.
Qed.
Lemma event_cursor id n c id' : valid_text id = true -> (0 < n < 2 ^ 64)%Z -> encodeEventCursor id n = Ok c ->
  c ≠ "" /\ decodeEventCursor c id' = if decide (id' = id) then Ok (mkEventCursor cursorVersion eventCursorKind id n) else Err invalidCursor.
Proof.
  intros Hid Hv H. decoded H.
  unfold decodeEventCursor. rewrite Hd. cbn. destruct (decide (id' = id)) as [->|Hn].
  - rewrite (bool_decide_eq_false_2 (id ≠ id)) by (intros E; by apply E). assert (E : (n =? 0)%Z = false) by (apply Z.eqb_neq; lia). by rewrite E.
  - by rewrite (bool_decide_eq_true_2 (id ≠ id')) by congruence.
Qed.
Lemma run_cursor sha256 local at_ id workflow status c workflow' status' : valid_text id = true -> id ≠ "" -> at_ ≠ 0%Z ->
  encodeRunCursor sha256 local at_ id workflow status = Ok c ->
  c ≠ "" /\ decodeRunCursor sha256 c workflow' status' =
    if decide (runFilterHash sha256 workflow' status' = runFilterHash sha256 workflow status)
    then Ok (mkRunCursor cursorVersion runCursorKind at_ id (runFilterHash sha256 workflow status)) else Err invalidCursor.
Proof.
  intros Hid Hn Ht H. decoded H.
  unfold decodeRunCursor. rewrite Hd. cbn. apply Z.eqb_neq in Ht. rewrite Ht. unfold is_empty. rewrite (bool_decide_eq_false_2 (id = _)) by done. cbn.
  destruct (decide (_ = _)) as [->|Hf]; [rewrite (bool_decide_eq_false_2 (_ ≠ runFilterHash _ _ _)) by (intros E; by apply E)|rewrite (bool_decide_eq_true_2 (_ ≠ runFilterHash _ _ _)) by congruence]; done.
Qed.

(** ** Cursors that fit *)
Definition short (id : string) : Prop := String.length id <= 512.
Ltac fits_cursor := apply encodeCursor_ok;
  [done|repeat (apply Forall_cons_2 || apply Forall_nil_2); try by eexists|repeat (apply Forall_cons_2 || apply Forall_nil_2); cbn [small_value]; try done; try lia|].
Lemma workflow_cursor_ok id : short id -> exists c, encodeWorkflowCursor id = Ok c.
Proof. unfold short. intros H. fits_cursor. unfold object_bound, maxCursorBytes. cbn. lia. Qed.
Lemma version_cursor_ok id v : short id -> (0 < v < 2 ^ 63)%Z -> exists c, encodeVersionCursor id v = Ok c.
Proof. unfold short. intros H Hv. fits_cursor. unfold object_bound, maxCursorBytes. cbn. lia. Qed.
Lemma task_cursor_ok id i : short id -> (0 <= i < 2 ^ 63)%Z -> exists c, encodeTaskCursor id i = Ok c.
Proof. unfold short. intros H Hv. fits_cursor. unfold object_bound, maxCursorBytes. cbn. lia. Qed.
Lemma event_cursor_ok id n : short id -> (0 < n < 2 ^ 64)%Z -> exists c, encodeEventCursor id n = Ok c.
Proof. unfold short. intros H Hv. fits_cursor. unfold object_bound, maxCursorBytes. cbn. lia. Qed.
Lemma run_cursor_ok sha256 local at_ id workflow status : (forall s, String.length (sha256 s) = 32) -> short id ->
  is_Some (format_time (local at_) at_) -> exists c, encodeRunCursor sha256 local at_ id workflow status = Ok c.
Proof.
  unfold short. intros Hsha H [b Hb]. fits_cursor.
  - unfold writable. cbn [encode_value]. rewrite Hb. by eexists.
  - unfold object_bound, maxCursorBytes. cbn [fmap list_fmap fst snd run_schema value_bound sum_list sum_list_with].
    unfold runFilterHash. rewrite (proj2 (hex_bytes _)), Hsha. cbn. lia.
Qed.

(** C24: A page cursor comes back as it was sent: the key of the last row is read
    from what was written, for every listing, and a cursor of another workflow,
    of another run or of a listing with other filters is refused. *)
Theorem cursor_roundtrip sha256 local id at_ n workflow status c id' workflow' status' :
  valid_text id = true -> id ≠ "" ->
  (encodeWorkflowCursor id = Ok c -> decodeWorkflowCursor c = Ok (mkWorkflowCursor cursorVersion workflowCursorKind id)) /\
  (encodeVersionCursor id n = Ok c -> (0 < n < 2 ^ 63)%Z -> decodeVersionCursor c id' =
     if decide (id' = id) then Ok (mkVersionCursor cursorVersion versionCursorKind id n) else Err invalidCursor) /\
  (encodeTaskCursor id n = Ok c -> (0 <= n < 2 ^ 63)%Z -> decodeTaskCursor c id' =
     if decide (id' = id) then Ok (mkTaskCursor cursorVersion taskCursorKind id n) else Err invalidCursor) /\
  (encodeEventCursor id n = Ok c -> (0 < n < 2 ^ 64)%Z -> decodeEventCursor c id' =
     if decide (id' = id) then Ok (mkEventCursor cursorVersion eventCursorKind id n) else Err invalidCursor) /\
  (encodeRunCursor sha256 local at_ id workflow status = Ok c -> at_ ≠ 0%Z -> decodeRunCursor sha256 c workflow' status' =
     if decide (runFilterHash sha256 workflow' status' = runFilterHash sha256 workflow status)
     then Ok (mkRunCursor cursorVersion runCursorKind at_ id (runFilterHash sha256 workflow status)) else Err invalidCursor).
Proof.
  intros Hid Hne. split_and!; intros H; intros.
  - by eapply workflow_cursor.
  - by eapply version_cursor.
  - by eapply task_cursor.
  - by eapply event_cursor.
  - by eapply run_cursor.
Qed.

Ltac cursor_case fields value :=
  destruct (decodeCursor_cases fields value) as [->|(values & -> & Hv)]; [by left|]; cbn [mbind outcome_bind];
  repeat (apply Forall2_cons_inv_l in Hv as (? & ? & ? & Hv & ->)); apply Forall2_nil_inv_l in Hv as ->;
  repeat match goal with H : of_kind _ ?v = true |- _ => destruct v; try done; clear H end;
  match goal with |- context [check ?b _ _] => let H := fresh "Hrefused" in destruct b eqn:H; [by left|right; cbn [check]; revert H] end;
  cbn [wc_Version wc_Kind wc_WorkflowID vc_Version vc_Kind vc_WorkflowID vc_AfterVersion tc_Version tc_Kind tc_Run tc_TaskIndex
    ec_Version ec_Kind ec_Run ec_Sequence rc_Version rc_Kind rc_CreatedAt rc_RunID rc_FilterHash]; unfold is_empty;
  rewrite !orb_false_iff, ?Z.leb_gt, ?Z.ltb_ge, ?Z.eqb_neq, !bool_decide_eq_false; intros ?;
  destruct_and?; repeat match goal with H : ~ (_ ≠ _) |- _ => apply dec_stable in H as -> end.

(** Whatever a client sends as a cursor, decoding it ends: it is refused as an
    invalid argument, or it has the version and the kind of the listing, belongs
    to it, and its key is one a row can have. *)
Theorem cursors_checked sha256 value id workflow status :
  (decodeWorkflowCursor value = Err invalidCursor \/
     exists key, decodeWorkflowCursor value = Ok (mkWorkflowCursor cursorVersion workflowCursorKind key) /\ key ≠ "") /\
  (decodeVersionCursor value id = Err invalidCursor \/
     exists n, decodeVersionCursor value id = Ok (mkVersionCursor cursorVersion versionCursorKind id n) /\ (0 < n)%Z) /\
  (decodeTaskCursor value id = Err invalidCursor \/
     exists n, decodeTaskCursor value id = Ok (mkTaskCursor cursorVersion taskCursorKind id n) /\ (0 <= n)%Z) /\
  (decodeEventCursor value id = Err invalidCursor \/
     exists n, decodeEventCursor value id = Ok (mkEventCursor cursorVersion eventCursorKind id n) /\ n ≠ 0%Z) /\
  (decodeRunCursor sha256 value workflow status = Err invalidCursor \/
     exists at_ key, decodeRunCursor sha256 value workflow status =
       Ok (mkRunCursor cursorVersion runCursorKind at_ key (runFilterHash sha256 workflow status)) /\ at_ ≠ 0%Z /\ key ≠ "").
Proof.
  split_and!.
  - unfold decodeWorkflowCursor. cursor_case workflow_schema value. by eexists.
  - unfold decodeVersionCursor. cursor_case version_schema value. by eexists.
  - unfold decodeTaskCursor. cursor_case task_schema value. by eexists.
  - unfold decodeEventCursor. cursor_case event_schema value. by eexists.
  - unfold decodeRunCursor. cursor_case run_schema value. by do 2 eexists.
Qed.
Lemma cursor_roundtrip_witness : exists c, encodeVersionCursor "demo" 3 = Ok c /\
  decodeVersionCursor c "demo" = Ok (mkVersionCursor cursorVersion versionCursorKind "demo" 3) /\
  decodeVersionCursor c "other" = Err invalidCursor.
Proof.
  eexists. split; [vm_compute; reflexivity|]. split.
  - refine (proj1 (proj2 (cursor_roundtrip (fun s => s) (fun _ => 0%Z) "demo" 1 3 "" WorkflowPending _ "demo" "" WorkflowPending _ _)) _ _);
      [done..|by vm_compute|lia].
  - refine (proj1 (proj2 (cursor_roundtrip (fun s => s) (fun _ => 0%Z) "demo" 1 3 "" WorkflowPending _ "other" "" WorkflowPending _ _)) _ _);
      [done..|by vm_compute|lia].
Defined.
