(* ===== verification/Queries.v ===== *)
(** * Read-only queries

    src/internal/postgres/queries.go.  A listing reads the rows behind a key in
    the order of the key, one more than asked for, which tells whether there
    are more.  [read] says how the query ends; a query fails, too, when a
    parameter cannot be sent: text with a NUL or that is not UTF-8, and integers
    beyond those of the column.  The collation is an argument.  The check that an
    empty page belongs to something is taken in the state the page was read in. *)
From S2P Require Import Prelude GoStrings Json Model State SnapshotJson CanonicalJson Distributed ChangeSet Stores Database Dispatch Workers Definitions.

Record WorkflowRecord := mkWorkflowRecord { wfr_WorkflowID : string; wfr_LatestVersion : Z; wfr_CreatedAt : time; wfr_CreatedBy : string }.
Record VersionRecord := mkVersionRecord { vrr_WorkflowID : string; vrr_Version : Z; vrr_CreatedAt : time; vrr_CreatedBy : string }.
Record RunRecord := mkRunRecord {
  rr_ID : RunID; rr_DefinitionID : string; rr_DefinitionVersion : Z; rr_Status : WorkflowStatus; rr_Revision : Z; rr_TaskCount : Z;
  rr_CreatedAt : time; rr_StartedAt : option time; rr_FinishedAt : option time;
}.
Record RunQuery := mkRunQuery { rq_WorkflowID : string; rq_Status : WorkflowStatus; rq_AfterCreated : option time; rq_AfterRunID : RunID }.
Record TaskRecord := mkTaskRecord { tr_Index : Z; tr_Task : TaskRun }.

Definition ErrTaskNotFound : error := Sentinel "ErrTaskNotFound".

Definition is_integer (z : Z) : bool := (- max_integer - 1 <=? z)%Z && (z <=? max_integer)%Z.
(** A time parameter has microseconds. *)
Definition microseconds (t : time) : time := (t / 1000 * 1000)%Z.

(** [SELECT ... WHERE ... ORDER BY ... LIMIT limit+1] into a slice with that
    capacity; the rows are those the statement finds, in its order. *)
Definition select {A} (format : string) (read : fate) (sendable : bool) (limit : Z) (rows : database -> list A) : go database (list A) :=
  let n := wrap64 (limit + 1) in
  _ ← fail_if (negb sendable) (Wrapf format (Errorf "failed to encode args"));
  if (n <? 0)%Z then panic
  else wrapped format (transaction read (gets (fun db => take (Z.to_nat n) (rows db)))).
Definition select_row {A} (format : string) (read : fate) (sendable : bool) (row : database -> option A) : go database (option A) :=
  _ ← fail_if (negb sendable) (Wrapf format (Errorf "failed to encode args"));
  wrapped format (transaction read (gets row)).
(** [more := len(items) > limit], and the slice without the additional row. *)
Definition cut {A} (limit : Z) (items : list A) : outcome (list A * bool) :=
  let more := (limit <? Z.of_nat (length items))%Z in
  if more then if (limit <? 0)%Z then Panic else Ok (take (Z.to_nat limit) items, true) else Ok (items, false).

Definition ensureRunExists (read : fate) (id : RunID) : go database unit :=
  found ← select_row "check Run existence: %w" read (pg_text id) (fun db => runs db !! id);
  fail_if (negb (has found)) ErrRunNotFound.
Definition ensureWorkflowExists (read : fate) (id : string) : go database unit :=
  found ← select_row "check workflow existence: %w" read (pg_text id) (fun db => workflows db !! id);
  fail_if (negb (has found)) ErrWorkflowNotFound.

(** ** Workflows and versions *)
Definition workflow_record (id : string) (w : workflow_row) : WorkflowRecord :=
  mkWorkflowRecord id (wr_latest_version w) (wr_created_at w) (wr_created_by w).
Definition LoadWorkflowSummary (read : fate) (id : string) : go database WorkflowRecord :=
  row ← select_row "load workflow summary: %w" read (pg_text id) (fun db => workflows db !! id);
  match row with
  | None => throw ErrWorkflowNotFound
  | Some w => mret (workflow_record id w)
  end.

Definition version_rows (id : string) (db : database) : list (Z * version_row) :=
  order_by (fun a b => (a.1 <=? b.1)%Z)
    ((fun '((_, v), row) => (v, row)) <$> filter (fun '((i, _), _) => i = id) (map_to_list (versions db))).
Definition ListVersions (read exists_ : fate) (workflowID : string) (afterVersion limit : Z) : go database (list VersionRecord * bool) :=
  items ← select "query workflow versions: %w" read (pg_text workflowID && is_integer afterVersion) limit (fun db =>
    (fun '(v, row) => mkVersionRecord workflowID v (v_created_at row) (v_created_by row)) <$>
      filter (fun '(v, _) => (afterVersion < v)%Z) (version_rows workflowID db));
  _ ← (if bool_decide (items = []) then ensureWorkflowExists exists_ workflowID else mret tt);
  lift (cut limit items).

(** ** Tasks *)
Definition LoadRun (read : fate) (id : RunID) : go database WorkflowRun :=
  row ← select_row "load Run summary: %w" read (pg_text id) (fun db => runs db !! id);
  match row with
  | None => throw ErrRunNotFound
  | Some s =>
    let r := Run s in
    _ ← fail_if ((Revision r <? 0) || (LastEventSequence r <? 0))%Z (Errorf "stored Run has negative revision or event sequence");
    mret (mkWorkflowRun (ID r) (DefinitionID r) (DefinitionVersion r) (run_Status r) (Revision r) (LastEventSequence r)
      (CancelRequestedAt r) (replicate (length (Tasks r)) (mkTaskRun "" (TaskOther "") [] None None)) [] (CreatedAt r) (run_StartedAt r) (run_FinishedAt r))
  end.

(** The rows of task_runs by their index. *)
Definition task_rows (id : RunID) (db : database) : list TaskRecord :=
  match runs db !! id with
  | None => []
  | Some s => imap (fun i t => mkTaskRecord (Z.of_nat i) (mkTaskRun (Key t) (Status t) [] (ReadyAt t) (FinishedAt t))) (Tasks (Run s))
  end.
Definition ListTaskRuns (read exists_ : fate) (id : RunID) (afterIndex limit : Z) : go database (list TaskRecord * bool) :=
  items ← select "query TaskRun page: %w" read (pg_text id && is_integer afterIndex) limit (fun db =>
    filter (fun r => (afterIndex < tr_Index r)%Z) (task_rows id db));
  _ ← (if bool_decide (items = []) then ensureRunExists exists_ id else mret tt);
  lift (cut limit items).

(** One statement for the task and one for its attempts: [between] is what other
    transactions do to the tables between the two. *)
Definition LoadTaskRun (read read_attempts exists_ : fate) (id : RunID) (key : TaskKey) (between : database -> database) : go database TaskRun :=
  row ← select_row "load TaskRun: %w" read (pg_text id && pg_text key) (fun db =>
    s ← runs db !! id; snd <$> list_find (fun t => Key t = key) (Tasks (Run s)));
  match row with
  | None => _ ← ensureRunExists exists_ id; throw ErrTaskNotFound
  | Some t =>
    _ ← modify between;
    attempts ← select_row "query task Attempts: %w" read_attempts true (fun db =>
      s ← runs db !! id; Attempts <$> (snd <$> list_find (fun t => Key t = key) (Tasks (Run s))));
    mret (mkTaskRun (Key t) (Status t) (default [] attempts) (ReadyAt t) (FinishedAt t))
  end.

(** ** Events *)
(** A sequence number that does not fit BIGINT wraps around. *)
Definition event_rows (id : RunID) (db : database) : list StateEvent := from_option Events [] (runs db !! id).
Definition ListStateEvents (read exists_ : fate) (id : RunID) (after limit : Z) : go database (list StateEvent * bool) :=
  items ← select "query StateEvent page: %w" read (pg_text id) limit (fun db =>
    filter (fun e => (int64 after < Sequence e)%Z) (event_rows id db));
  _ ← fail_if (existsb (fun e => (Sequence e <=? 0)%Z) items) (Errorf "stored StateEvent has invalid sequence %d");
  _ ← (if bool_decide (items = []) then ensureRunExists exists_ id else mret tt);
  lift (cut limit items).

Section collation.
Context (text_le : string -> string -> bool).

Definition workflow_rows (db : database) : list (string * workflow_row) :=
  order_by (fun a b => text_le a.1 b.1) (map_to_list (workflows db)).
Definition ListWorkflows (read : fate) (afterID : string) (limit : Z) : go database (list WorkflowRecord * bool) :=
  items ← select "query workflows: %w" read (pg_text afterID) limit (fun db =>
    (fun '(id, w) => workflow_record id w) <$> filter (fun '(id, _) => text_le id afterID = false) (workflow_rows db));
  lift (cut limit items).

(** ** Runs *)
Definition run_le : time * string -> time * string -> bool := time_then_text text_le.
Definition run_key (a : RunID * RunSnapshot) : time * string := (CreatedAt (Run a.2), a.1).
Definition run_rows (db : database) : list (RunID * RunSnapshot) :=
  order_by (fun a b => run_le (run_key a) (run_key b)) (map_to_list (runs db)).
Definition run_record (a : RunID * RunSnapshot) : RunRecord :=
  let r := Run a.2 in
  mkRunRecord a.1 (DefinitionID r) (DefinitionVersion r) (run_Status r) (Revision r) (Z.of_nat (length (Tasks r)))
    (CreatedAt r) (run_StartedAt r) (run_FinishedAt r).
(** The [WHERE] clause. *)
Definition run_selected (query : RunQuery) (a : RunID * RunSnapshot) : bool :=
  (is_empty (rq_WorkflowID query) || bool_decide (DefinitionID (Run a.2) = rq_WorkflowID query)) &&
  (bool_decide (rq_Status query = WorkflowOther "") || bool_decide (run_Status (Run a.2) = rq_Status query)).
Definition run_after (query : RunQuery) (a : RunID * RunSnapshot) : bool :=
  match rq_AfterCreated query with
  | None => true
  | Some t => negb (run_le (run_key a) (microseconds t, rq_AfterRunID query))
  end.
Definition ListRunSummaries (read : fate) (query : RunQuery) (limit : Z) : go database (list RunRecord * bool) :=
  _ ← fail_if (xorb (bool_decide (rq_AfterCreated query = None)) (is_empty (rq_AfterRunID query)))
        (Errorf "Run keyset cursor requires both created_at and run_id");
  items ← select "query Run summaries: %w" read
    (pg_text (rq_WorkflowID query) && pg_text (workflow_status_string (rq_Status query)) && pg_text (rq_AfterRunID query)) limit (fun db =>
    filter (fun a => run_selected query a && run_after query a = true) (run_rows db));
  _ ← fail_if (existsb (fun a => (Revision (Run a.2) <? 0)%Z) items) (Errorf "stored Run has negative revision");
  lift (cut limit (run_record <$> items)).
End collation.
