(* ===== verification/Listings.v ===== *)
(** * Listings, details and cancellation

    The rest of src/internal/app/workflow_service.go and run_service.go: pages
    of workflows, versions, runs, tasks and events with the cursor of the next
    page, single records, and cancelling a run. *)
From S2P Require Import Prelude GoStrings Json Model State SnapshotJson CanonicalJson Distributed ChangeSet Stores Database Dispatch Workers Definitions Services Cursors Queries.

Record WorkflowSummary := mkWorkflowSummary { ws_WorkflowID : string; ws_LatestVersion : Z; ws_CreatedAt : time; ws_CreatedBy : string }.
Record VersionSummary := mkVersionSummary { vs_WorkflowID : string; vs_Version : Z; vs_CreatedAt : time; vs_CreatedBy : string }.
Record RunSummary := mkRunSummary {
  rs_ID : RunID; rs_DefinitionID : string; rs_DefinitionVersion : Z; rs_Status : WorkflowStatus; rs_Revision : Z; rs_TaskCount : Z;
  rs_CreatedAt : time; rs_StartedAt : option time; rs_FinishedAt : option time;
}.
Record RunListOptions := mkRunListOptions { ro_Cursor : string; ro_Limit : Z; ro_WorkflowID : string; ro_Status : string }.
Record TaskSummary := mkTaskSummary { ts_Key : TaskKey; ts_Status : TaskStatus; ts_ReadyAt : option time; ts_FinishedAt : option time }.
Record TaskDetail := mkTaskDetail { td_Task : TaskRun }.
Record CancelRunResponse := mkCancelRunResponse { cr_RunID : RunID; cr_Status : WorkflowStatus; cr_CancelRequestedAt : time }.
(** [WorkflowPage], [VersionPage], [RunPage], [TaskPage] and [EventPage]. *)
Record page (A : Type) := mkPage { Items : list A; NextCursor : string }.
Arguments mkPage {A} _ _.
Arguments Items {A} _.
Arguments NextCursor {A} _.

(** What every listing ends with: the items of the page and, if there are more,
    the cursor of the last one. *)
Definition make_page {A B} (summary : A -> B) (encode : A -> outcome string) (found : list A * bool) : outcome (page B) :=
  let '(items, more) := found in
  match last items with
  | Some item =>
    if more then next ← encode item; Ok (mkPage (summary <$> items) next)
    else Ok (mkPage (summary <$> items) "")
  | None => Ok (mkPage (summary <$> items) "")
  end.
(** The key a cursor stands for, or the start of the listing. *)
Definition start_after {C K} (cursor : string) (start : K) (decode : string -> outcome C) (key : C -> K) : outcome K :=
  if is_empty cursor then Ok start else decoded ← decode cursor; Ok (key decoded).

(** ** The workflow service *)
Definition workflowSummary (record : WorkflowRecord) : WorkflowSummary :=
  mkWorkflowSummary (wfr_WorkflowID record) (wfr_LatestVersion record) (wfr_CreatedAt record) (wfr_CreatedBy record).
Definition workflowService_Get (read : fate) (workflowID : string) (version : Z) : go database WorkflowDefinition :=
  LoadDefinition read workflowID version.
Definition workflowService_GetSummary (read : fate) (workflowID : string) : go database WorkflowSummary :=
  record ← LoadWorkflowSummary read workflowID;
  mret (workflowSummary record).
Definition workflowService_List (text_le : string -> string -> bool) (read : fate) (cursor : string) (limit : Z) : go database (page WorkflowSummary) :=
  size ← lift (normalizeLimit limit);
  afterID ← lift (start_after cursor "" decodeWorkflowCursor wc_WorkflowID);
  found ← ListWorkflows text_le read afterID size;
  lift (make_page workflowSummary (fun item => encodeWorkflowCursor (wfr_WorkflowID item)) found).
Definition versionSummary (item : VersionRecord) : VersionSummary :=
  mkVersionSummary (vrr_WorkflowID item) (vrr_Version item) (vrr_CreatedAt item) (vrr_CreatedBy item).
Definition workflowService_ListVersions (read exists_ : fate) (workflowID cursor : string) (limit : Z) : go database (page VersionSummary) :=
  size ← lift (normalizeLimit limit);
  afterVersion ← lift (start_after cursor 0%Z (fun c => decodeVersionCursor c workflowID) vc_AfterVersion);
  found ← ListVersions read exists_ workflowID afterVersion size;
  lift (make_page versionSummary (fun item => encodeVersionCursor workflowID (vrr_Version item)) found).

(** ** The run service *)
Definition runService_Get (read : fate) (id : RunID) : go database RunSummary :=
  run ← LoadRun read id;
  mret (mkRunSummary (ID run) (DefinitionID run) (DefinitionVersion run) (run_Status run) (Revision run) (Z.of_nat (length (Tasks run)))
    (CreatedAt run) (run_StartedAt run) (run_FinishedAt run)).
Definition runSummary (item : RunRecord) : RunSummary :=
  mkRunSummary (rr_ID item) (rr_DefinitionID item) (rr_DefinitionVersion item) (rr_Status item) (rr_Revision item) (rr_TaskCount item)
    (rr_CreatedAt item) (rr_StartedAt item) (rr_FinishedAt item).
(** The [query] of a page. *)
Definition run_query (sha256 : string -> string) (options : RunListOptions) (status : WorkflowStatus) : outcome RunQuery :=
  start_after (ro_Cursor options) (mkRunQuery (ro_WorkflowID options) status None "")
    (fun c => decodeRunCursor sha256 c (ro_WorkflowID options) status)
    (fun c => mkRunQuery (ro_WorkflowID options) status (Some (rc_CreatedAt c)) (rc_RunID c)).
Definition runService_List (sha256 : string -> string) (text_le : string -> string -> bool) (local : time -> Z) (read : fate) (options : RunListOptions)
    : go database (page RunSummary) :=
  size ← lift (normalizeLimit (ro_Limit options));
  status ← lift (parseRunStatus (ro_Status options));
  query ← lift (run_query sha256 options status);
  found ← ListRunSummaries text_le read query size;
  lift (make_page runSummary (fun item => encodeRunCursor sha256 local (rr_CreatedAt item) (rr_ID item) (ro_WorkflowID options) status) found).
Definition taskSummary (record : TaskRecord) : TaskSummary :=
  let task := tr_Task record in mkTaskSummary (Key task) (Status task) (ReadyAt task) (FinishedAt task).
Definition runService_ListTasks (read exists_ : fate) (id : RunID) (cursor : string) (limit : Z) : go database (page TaskSummary) :=
  size ← lift (normalizeLimit limit);
  afterIndex ← lift (start_after cursor (-1)%Z (fun c => decodeTaskCursor c id) tc_TaskIndex);
  found ← ListTaskRuns read exists_ id afterIndex size;
  lift (make_page taskSummary (fun record => encodeTaskCursor id (tr_Index record)) found).
Definition runService_GetTask (read read_attempts exists_ : fate) (id : RunID) (taskKey : TaskKey) (between : database -> database)
    : go database TaskDetail :=
  task ← LoadTaskRun read read_attempts exists_ id taskKey between;
  mret (mkTaskDetail task).
Definition runService_ListEvents (read exists_ : fate) (id : RunID) (cursor : string) (limit : Z) : go database (page StateEvent) :=
  size ← lift (normalizeLimit limit);
  startSequence ← lift (start_after cursor 0%Z (fun c => decodeEventCursor c id) ec_Sequence);
  found ← ListStateEvents read exists_ id startSequence size;
  lift (make_page (fun event => event) (fun event => encodeEventCursor id (Sequence event)) found).

(** The request is stored before the controller is told; [controller] is what
    its [Cancel] does. *)
Definition runService_Cancel (end_ : fate) (now : time) (controller : go database unit) (id : RunID) : go database CancelRunResponse :=
  run ← RequestCancel end_ id now;
  _ ← controller;
  match CancelRequestedAt run with
  | None => throw (Errorf "cancel request for Run %s was not persisted")
  | Some at_ => mret (mkCancelRunResponse (ID run) (run_Status run) at_)
  end.
