(* ===== verification/Pages.v ===== *)
(** * Reading a listing page by page

    A client asks for pages, each with the cursor of the one before, until there
    is no next cursor ([follow]); each request is answered from the tables as
    they are then.  Two kinds of listings: those of rows that are only appended
    ([log]), and those of rows ordered by a key ([keyset]). *)
From S2P Require Import Prelude GoStrings Json Model State SnapshotJson CanonicalJson Distributed ChangeSet Stores Database Dispatch Workers Definitions Services Cursors Queries Listings.
From stdpp Require Export sorting.
From Stdlib Require Export Sorted.

Lemma sorted_lookup {A} (R : relation A) l : (forall i j x y, i < j -> l !! i = Some x -> l !! j = Some y -> R x y) -> StronglySorted R l.
Proof.
  induction l as [|a l IH]; intros H; constructor.
  - apply IH. intros i j x y Hij Hx Hy. by apply (H (S i) (S j) x y ltac:(lia)).
  - apply Forall_lookup. intros i x Hx. by apply (H 0 (S i) a x ltac:(lia)).
Qed.
Lemma sorted_lookup_1 {A} (R : relation A) l : StronglySorted R l -> forall i j x y, i < j -> l !! i = Some x -> l !! j = Some y -> R x y.
Proof.
  induction 1 as [|a l _ IH Ha]; intros i j x y Hij Hx Hy; [done|]. destruct i as [|i], j as [|j]; [lia| |lia|].
  - injection Hx as <-. rewrite Forall_lookup in Ha. by eapply Ha.
  - apply (IH i j); [lia|done|done].
Qed.
Lemma prefix_lookup_iff {A} (l l' : list A) : (forall i x, l !! i = Some x -> l' !! i = Some x) -> l `prefix_of` l'.
Proof.
  revert l'. induction l as [|a l IH]; intros l' H; [apply prefix_nil|]. destruct l' as [|a' l']; [by specialize (H 0 a eq_refl)|].
  pose proof (H 0 a eq_refl) as [= ->]. apply prefix_cons, IH. intros i x Hx. by apply (H (S i)).
Qed.

(** The items of all pages.  [dbs] are the tables at each request; the client
    gives up when there are no more. *)
Fixpoint follow {B} (request : string -> database -> outcome (page B)) (cursor : string) (dbs : list database) : outcome (list B) :=
  match dbs with
  | [] => Diverge
  | db :: dbs =>
    p ← request cursor db;
    if is_empty (NextCursor p) then Ok (Items p)
    else rest ← follow request (NextCursor p) dbs; Ok (Items p ++ rest)
  end.

Lemma follow_last {B} (request : string -> database -> outcome (page B)) cursor db dbs items :
  request cursor db = Ok (mkPage items "") -> follow request cursor (db :: dbs) = Ok items.
Proof. intros H. cbn. by rewrite H. Qed.
Lemma follow_more {B} (request : string -> database -> outcome (page B)) cursor db dbs items next rest :
  request cursor db = Ok (mkPage items next) -> next ≠ "" -> follow request next dbs = Ok rest ->
  follow request cursor (db :: dbs) = Ok (items ++ rest).
Proof. intros H Hne Hr. cbn. rewrite H. cbn. unfold is_empty. rewrite bool_decide_eq_false_2 by done. by rewrite Hr. Qed.

(** ** One page *)
Lemma select_ok {A} format limit (rows : database -> list A) db n : limit = Z.of_nat n -> (limit < 2 ^ 62)%Z ->
  select format Committed true limit rows db = (db, Ok (take (S n) (rows db))).
Proof.
  intros -> Hn. unfold select. cbv zeta. assert (E : wrap64 (Z.of_nat n + 1) = Z.of_nat (S n)).
  { unfold wrap64. rewrite Z.mod_small; [lia|]. split; [lia|]. assert (2 ^ 64 = 4 * 2 ^ 62)%Z by done. lia. }
  rewrite E. assert (Hlt : (Z.of_nat (S n) <? 0)%Z = false) by (apply Z.ltb_ge; lia). cbn [negb fail_if].
  unfold mbind, go_bind, mret, go_ret. rewrite Hlt. unfold wrapped, transaction, gets. by rewrite Nat2Z.id.
Qed.
Lemma cut_take {A} n (l : list A) : cut (Z.of_nat n) (take (S n) l) = Ok (take n l, (n <? length l)%nat).
Proof.
  unfold cut. cbv zeta. rewrite length_take, Nat2Z.id. destruct (n <? length l)%nat eqn:E.
  - apply Nat.ltb_lt in E. assert (H : (Z.of_nat n <? Z.of_nat (S n `min` length l))%Z = true) by (apply Z.ltb_lt; lia). rewrite H.
    assert (H0 : (Z.of_nat n <? 0)%Z = false) by (apply Z.ltb_ge; lia). rewrite H0, take_take. by rewrite Nat.min_l by lia.
  - apply Nat.ltb_ge in E. assert (H : (Z.of_nat n <? Z.of_nat (S n `min` length l))%Z = false) by (apply Z.ltb_ge; lia).
    by rewrite H, !take_ge by lia.
Qed.
Lemma make_page_last {A B} (summary : A -> B) encode l : make_page summary encode (l, false) = Ok (mkPage (summary <$> l) "").
Proof. unfold make_page. by destruct (last l). Qed.
Lemma make_page_more {A B} (summary : A -> B) encode l a next : last l = Some a -> encode a = Ok next ->
  make_page summary encode (l, true) = Ok (mkPage (summary <$> l) next).
Proof. unfold make_page. by intros -> ->. Qed.

(** ** Rows that are appended *)
Section log.
Context {A B : Type} (request : string -> database -> outcome (page B)) (summary : A -> B) (rows : database -> list A).
Context (good : database -> Prop) (stands : string -> nat -> Prop) (n : nat) (Hn : 0 < n).

(** A cursor that stands for the first [m] rows gets the next ones. *)
Definition answers_log : Prop := forall cursor m db, stands cursor m -> good db -> m <= length (rows db) ->
  exists next, request cursor db = Ok (mkPage (summary <$> take n (drop m (rows db))) next) /\
    if (m + n <? length (rows db))%nat then next ≠ "" /\ stands next (m + n) else next = "".
Definition appends (db db' : database) : Prop := rows db `prefix_of` rows db'.

Lemma log_pages N : answers_log -> forall dbs cursor m, StronglySorted appends dbs -> Forall good dbs ->
  Forall (fun db => m <= length (rows db) <= N) dbs -> stands cursor m -> m <= N < m + n * length dbs ->
  exists db, db ∈ dbs /\ follow request cursor dbs = Ok (summary <$> drop m (rows db)).
Proof.
  intros Hreq. induction dbs as [|db dbs IH]; intros cursor m Hs Hg HN Hst Hlen; [cbn in Hlen; lia|].
  apply StronglySorted_inv in Hs as [Hs Happ]. apply Forall_cons in Hg as [Hgood Hg]. apply Forall_cons in HN as [[Hm HmN] HN].
  destruct (Hreq cursor m db Hst Hgood Hm) as (next & Hp & Hnext). destruct (_ <? _)%nat eqn:E.
  - apply Nat.ltb_lt in E. destruct Hnext as [Hne Hst']. assert (HN' : Forall (fun db' => m + n <= length (rows db') <= N) dbs).
    { apply Forall_forall. intros db' Hin. rewrite Forall_forall in HN, Happ. specialize (HN db' Hin). specialize (Happ db' Hin).
      apply prefix_length in Happ. lia. }
    destruct (IH next (m + n) Hs Hg HN' Hst') as (db' & Hin & Hf); [cbn [length] in Hlen; lia|].
    exists db'. split; [by right|]. rewrite (follow_more _ _ _ _ _ _ _ Hp Hne Hf), <-fmap_app. do 2 f_equal.
    rewrite Forall_forall in Happ. destruct (Happ db' Hin) as [l El]. rewrite El, !drop_app_le by lia. rewrite app_assoc. f_equal.
    by rewrite <-drop_drop, take_drop.
  - apply Nat.ltb_ge in E. exists db. split; [by left|]. rewrite Hnext in Hp. rewrite (follow_last _ _ _ _ _ Hp).
    by rewrite take_ge by (rewrite length_drop; lia).
Qed.
End log.

(** ** Rows in the order of a key

    A page holds the rows behind a position; [pos] is the position of a row. *)
Section keyset.
Context {A B K P : Type} `{!EqDecision K} (request : string -> database -> outcome (page B)) (summary : A -> B) (rows : database -> list A).
Context (key : A -> K) (beyond : P -> K -> bool) (pos : K -> P).
Context (good : database -> Prop) (stands : string -> P -> Prop) (n : nat) (Hn : 0 < n).

Definition behind (p : P) (db : database) : list A := filter (fun a => beyond p (key a) = true) (rows db).
Definition answers_keyset : Prop := forall cursor p db, stands cursor p -> good db -> let found := behind p db in
  exists next, request cursor db = Ok (mkPage (summary <$> take n found) next) /\
    if (n <? length found)%nat then next ≠ "" /\ exists a, last (take n found) = Some a /\ stands next (pos (key a)) else next = "".

Definition key_lt (a b : A) : Prop := beyond (pos (key a)) (key b) = true.
Record ordered : Prop := {
  or_sorted : forall db, good db -> StronglySorted key_lt (rows db);
  or_irreflexive : forall k, beyond (pos k) k = false;
  or_trans : forall p k k', beyond p k = true -> beyond (pos k) k' = true -> beyond p k' = true;
}.

Lemma filter_sorted (Q : A -> Prop) `{!forall a, Decision (Q a)} (R : relation A) l : StronglySorted R l -> StronglySorted R (filter Q l).
Proof.
  induction 1 as [|a l _ IH Ha]; [constructor|]. rewrite filter_cons. destruct (decide (Q a)); [|done]. constructor; [done|].
  rewrite Forall_forall in *. intros b [_ Hb]%list_elem_of_filter. by apply Ha.
Qed.
Lemma sorted_app (R : relation A) l1 l2 : StronglySorted R (l1 ++ l2) <->
  StronglySorted R l1 /\ StronglySorted R l2 /\ forall a b, a ∈ l1 -> b ∈ l2 -> R a b.
Proof.
  induction l1 as [|x l1 IH]; cbn [app].
  - split; [intros H; split_and!; [constructor|done|by intros a b ?%elem_of_nil]|by intros (_ & H & _)].
  - split.
    + intros [H Hx]%StronglySorted_inv. apply IH in H as (H1 & H2 & H3). apply Forall_app in Hx as [Hx1 Hx2]. split_and!; [by constructor|done|].
      intros a b [->|Ha]%elem_of_cons Hb; [|by apply H3]. rewrite Forall_forall in Hx2. by apply Hx2.
    + intros (H1 & H2 & H3). apply StronglySorted_inv in H1 as [H1 Hx]. constructor.
      * apply IH. split_and!; [done|done|]. intros a b Ha. apply H3. by right.
      * apply Forall_app. split; [done|]. apply Forall_forall. intros b Hb. apply H3; [by left|done].
Qed.

Context (Hreq : answers_keyset) (Hord : ordered).

(** What a page leaves out comes after its last row. *)
Lemma page_splits p db a0 : good db -> last (take n (behind p db)) = Some a0 ->
  forall a, a ∈ behind p db -> a ∈ take n (behind p db) \/ key_lt a0 a.
Proof.
  intros Hg Hlast a Ha. rewrite <-(take_drop n (behind p db)) in Ha. apply elem_of_app in Ha as [Ha|Ha]; [by left|right].
  assert (Hs : StronglySorted key_lt (behind p db)) by by apply filter_sorted, Hord.
  rewrite <-(take_drop n (behind p db)) in Hs. apply sorted_app in Hs as (_ & _ & Hs). apply Hs; [|done].
  apply last_Some in Hlast as [l ->]. apply elem_of_app. right. by left.
Qed.
Lemma page_sorted p db : good db -> StronglySorted key_lt (take n (behind p db)).
Proof.
  intros Hg. assert (Hs : StronglySorted key_lt (behind p db)) by by apply filter_sorted, Hord.
  rewrite <-(take_drop n (behind p db)) in Hs. by apply sorted_app in Hs as [Hs _].
Qed.
Lemma page_rows p db a : a ∈ take n (behind p db) -> beyond p (key a) = true /\ a ∈ rows db.
Proof. intros Ha. apply (list_elem_of_filter (fun a => beyond p (key a) = true)). apply elem_of_take in Ha as (i & Hi & _). by eapply list_elem_of_lookup_2. Qed.
(** The last row of a page comes after the others. *)
Lemma page_last p db a0 a : good db -> last (take n (behind p db)) = Some a0 -> a ∈ take n (behind p db) -> a = a0 \/ key_lt a a0.
Proof.
  intros Hg [l El]%last_Some Ha. pose proof (page_sorted p db Hg) as Hs. rewrite El in Ha, Hs.
  apply elem_of_app in Ha as [Ha|Ha]; [right|left; by apply list_elem_of_singleton in Ha].
  apply sorted_app in Hs as (_ & _ & Hs). apply Hs; [done|by left].
Qed.

Lemma keyset_sound dbs : forall cursor p bs, stands cursor p -> Forall good dbs -> follow request cursor dbs = Ok bs ->
  exists listed, bs = summary <$> listed /\ StronglySorted key_lt listed /\ Forall (fun a => beyond p (key a) = true) listed /\
    (forall a, a ∈ listed -> exists db, db ∈ dbs /\ a ∈ rows db) /\
    forall k, beyond p k = true -> (forall db, db ∈ dbs -> k ∈ key <$> rows db) -> k ∈ key <$> listed.
Proof.
  induction dbs as [|db dbs IH]; intros cursor p bs Hst Hg H; [done|]. apply Forall_cons in Hg as [Hgood Hg].
  destruct (Hreq cursor p db Hst Hgood) as (next & Hp & Hnext). pose proof (page_sorted p db Hgood) as Hsorted.
  assert (Hin : forall k, beyond p k = true -> k ∈ key <$> rows db -> exists a, k = key a /\ a ∈ behind p db).
  { intros k Hk (a & -> & Ha)%list_elem_of_fmap. exists a. split; [done|]. by apply list_elem_of_filter. }
  destruct (_ <? _)%nat eqn:E.
  - destruct Hnext as (Hne & a0 & Hlast & Hst'). cbn [follow] in H. rewrite Hp in H. cbn in H. unfold is_empty in H.
    rewrite bool_decide_eq_false_2 in H by done. destruct (follow request next dbs) as [rest| | |] eqn:Ef; [|done..]. injection H as <-.
    destruct (IH next _ _ Hst' Hg Ef) as (listed & -> & Hl1 & Hl2 & Hl3 & Hl4).
    assert (Ha0 : a0 ∈ take n (behind p db)) by (apply last_Some in Hlast as [l ->]; apply elem_of_app; right; by left).
    destruct (page_rows _ _ _ Ha0) as [Hb0 _]. rewrite Forall_forall in Hl2.
    exists (take n (behind p db) ++ listed). split_and!.
    + by rewrite fmap_app.
    + apply sorted_app. split_and!; [done|done|]. intros a b Ha Hb. specialize (Hl2 b Hb). unfold key_lt.
      destruct (page_last _ _ _ _ Hgood Hlast Ha) as [->|Hlt]; [done|]. by eapply or_trans.
    + apply Forall_app. split; apply Forall_forall; [intros a Ha; by apply page_rows in Ha as [Ha _]|]. intros a Ha. eapply or_trans; [done|exact Hb0|by apply Hl2].
    + intros a [Ha|Ha]%elem_of_app; [exists db; split; [by left|by apply page_rows in Ha as [_ Ha]]|].
      destruct (Hl3 a Ha) as (db' & Hdb' & Ha'). exists db'. by split; [right|].
    + intros k Hk Hall. rewrite fmap_app, elem_of_app. destruct (Hin k Hk) as (a & -> & Ha); [apply Hall; by left|].
      destruct (page_splits p db a0 Hgood Hlast a Ha) as [Ha'|Hlt]; [left; by apply list_elem_of_fmap_2|right].
      apply Hl4; [exact Hlt|]. intros db' Hdb'. apply Hall. by right.
  - apply Nat.ltb_ge in E. rewrite Hnext in Hp. rewrite (follow_last _ _ _ _ _ Hp) in H. injection H as <-.
    exists (take n (behind p db)). split_and!; [done|done| | |].
    + apply Forall_forall. intros a Ha. by apply page_rows in Ha as [Ha _].
    + intros a Ha. exists db. split; [by left|by apply page_rows in Ha as [_ Ha]].
    + intros k Hk Hall. destruct (Hin k Hk) as (a & -> & Ha); [apply Hall; by left|]. apply list_elem_of_fmap_2. by rewrite take_ge.
Qed.

Lemma sorted_keys l : StronglySorted key_lt l -> NoDup (key <$> l).
Proof.
  induction 1 as [|a l _ IH Ha]; [constructor|]. cbn. constructor; [|done]. intros (b & E & Hb)%list_elem_of_fmap.
  rewrite Forall_forall in Ha. specialize (Ha b Hb). unfold key_lt in Ha. rewrite <-E in Ha. by rewrite (or_irreflexive Hord) in Ha.
Qed.

(** [keys] are the keys there ever are. *)
Lemma keyset_answers keys : NoDup keys -> forall dbs cursor p, stands cursor p -> Forall good dbs ->
  (forall db, db ∈ dbs -> forall a, a ∈ rows db -> key a ∈ keys) ->
  length (filter (fun k => beyond p k = true) keys) < n * length dbs -> exists bs, follow request cursor dbs = Ok bs.
Proof.
  intros Hnd. induction dbs as [|db dbs IH]; intros cursor p Hst Hg Hkeys Hlen; [cbn in Hlen; lia|]. apply Forall_cons in Hg as [Hgood Hg].
  destruct (Hreq cursor p db Hst Hgood) as (next & Hp & Hnext). destruct (_ <? _)%nat eqn:E.
  - apply Nat.ltb_lt in E. destruct Hnext as (Hne & a0 & Hlast & Hst').
    assert (Ha0 : a0 ∈ take n (behind p db)) by (apply last_Some in Hlast as [l ->]; apply elem_of_app; right; by left).
    destruct (page_rows _ _ _ Ha0) as [Hb0 _].
    destruct (IH next (pos (key a0)) Hst' Hg) as [rest Hrest].
    + intros db' Hdb'. apply Hkeys. by right.
    + set (page := key <$> take n (behind p db)). assert (Hlp : length page = n) by (unfold page; rewrite length_fmap, length_take; lia).
      assert (Hsub : page ++ filter (fun k => beyond (pos (key a0)) k = true) keys ⊆+ filter (fun k => beyond p k = true) keys).
      { apply NoDup_submseteq.
        - apply NoDup_app. split_and!; [by apply sorted_keys, page_sorted| |by apply NoDup_filter].
          intros k (a & -> & Ha)%list_elem_of_fmap [Hk _]%list_elem_of_filter.
          destruct (page_last _ _ _ _ Hgood Hlast Ha) as [->|Hlt]; [by rewrite (or_irreflexive Hord) in Hk|].
          pose proof (or_trans Hord _ _ _ Hlt Hk) as Hx. by rewrite (or_irreflexive Hord) in Hx.
        - intros k [(a & -> & Ha)%list_elem_of_fmap|[Hk Hin]%list_elem_of_filter]%elem_of_app; apply list_elem_of_filter.
          + destruct (page_rows _ _ _ Ha) as [Hb Hr]. split; [done|]. eapply Hkeys; [by left|done].
          + split; [by eapply or_trans|done]. }
      apply submseteq_length in Hsub. rewrite length_app, Hlp in Hsub. cbn [length] in Hlen. lia.
    + eexists. by apply (follow_more _ _ _ _ _ _ _ Hp Hne Hrest).
  - rewrite Hnext in Hp. eexists. by apply (follow_last _ _ _ _ _ Hp).
Qed.
(** From a position before all rows. *)
Definition lists_all (dbs : list database) (listed : list A) : Prop :=
  StronglySorted key_lt listed /\ (forall a, a ∈ listed -> exists db, db ∈ dbs /\ a ∈ rows db) /\
  forall k, (forall db, db ∈ dbs -> k ∈ key <$> rows db) -> k ∈ key <$> listed.
Definition covers (keys : list K) (dbs : list database) : Prop :=
  NoDup keys /\ forall db, db ∈ dbs -> forall a, a ∈ rows db -> key a ∈ keys.
Lemma keyset_pages keys dbs cursor p : stands cursor p -> Forall good dbs -> covers keys dbs ->
  (forall db, good db -> forall a, a ∈ rows db -> beyond p (key a) = true) -> length keys < n * length dbs ->
  exists listed, follow request cursor dbs = Ok (summary <$> listed) /\ lists_all dbs listed.
Proof.
  intros Hst Hg [Hnd Hkeys] Hall Hlen. destruct (keyset_answers keys Hnd dbs cursor p Hst Hg Hkeys) as [bs Hf].
  { eapply Nat.le_lt_trans; [apply length_filter|exact Hlen]. }
  destruct (keyset_sound dbs cursor p bs Hst Hg Hf) as (listed & -> & Hs & _ & Hin & Hcomplete).
  exists listed. split; [done|]. split_and!; [done|done|]. intros k Hk. apply Hcomplete; [|done].
  destruct dbs as [|db dbs]; [cbn in Hlen; lia|]. assert (Hdb := Hk db ltac:(by left)). apply list_elem_of_fmap in Hdb as (a & -> & Ha).
  apply Forall_cons in Hg as [Hg _]. by eapply Hall.
Qed.
End keyset.
