(* ===== verification/DatabaseFacts.v ===== *)
(** * The relational store agrees with the change-set semantics

    [applyChangeSetTx] of Database.v works row by row with the conditions in
    SQL; [applyChangeSet] of ChangeSet.v is the reference the file store uses.
    On a run that can be loaded both give the same result whenever both accept
    the change set, so a run can be followed through the database with the
    theorems about snapshots. *)
From S2P Require Import Prelude Hoare GoStrings Json Model State Graph Compiler Scheduling Distributed Effects RunInvariant RunOperations RunResults RunProperties RunTheorems ChangeSet Stores Database Dispatch Workers Preserves.

(** A transaction that answers has run its body. *)
Lemma transaction_Ok {A} end_ (body : go database A) db db' a : transaction end_ body db = (db', Ok a) -> body db = (db', Ok a).
Proof. unfold transaction. destruct (body db) as [? [b| | |]]; try done. by destruct end_; intros [= <- <-]. Qed.

(** ** Calls on the database, statement by statement *)
Section rules.
Context (R : relation database) `{!PreOrder R}.

Lemma preserves_on_copy {A} (op : go RunSnapshot A) s : preserves R (on_copy op s).
Proof. apply preserves_same; [apply _|]. intros db db' a H. unfold on_copy in H. destruct (op _) as [? []]; by simplify_eq. Qed.

Lemma always_transaction {A} end_ (body : go database A) : preserves R body -> always R (transaction end_ body).
Proof.
  intros H db db' r. unfold transaction. destruct (body db) as [db1 [a|e| |]] eqn:E; [|by intros [= <- <-]..].
  pose proof (H _ _ _ E). by destruct end_; intros [= <- <-].
Qed.

Lemma always_wrapped {A} format (m : go database A) : always R m -> always R (wrapped format m).
Proof. intros H db db' r. unfold wrapped. destruct (m db) as [db1 o] eqn:E. pose proof (H _ _ _ E). by destruct o; intros [= <- <-]. Qed.

Lemma always_result_of {A B} (m : go database A) (f : A + error -> go database B) :
  always R m -> (forall x, always R (f x)) -> always R (x ← result_of m; f x).
Proof.
  intros H Hf db db' r. unfold mbind, go_bind, result_of. destruct (m db) as [db1 o] eqn:E. pose proof (H _ _ _ E) as H1.
  destruct o; [..|by intros [= <- <-]|by intros [= <- <-]]; intros H2; (etrans; [exact H1|by eapply Hf]).
Qed.
Lemma always_ret {A} (a : A) : always R (mret a).
Proof. by intros db db' r [= <- _]. Qed.
Lemma always_throw {A} e : @always _ R A (throw e).
Proof. by intros db db' r [= <- _]. Qed.

(** A registration is a sequence of insertions that may each fail. *)
Lemma RegisterWorker_always sha256 ends entropy clock request :
  (forall w row, w_status row = WorkerActive -> preserves R (insert_worker w row)) ->
  always R (RegisterWorker sha256 ends entropy clock request).
Proof.
  intros Hinsert. apply always_lift; [apply _|]. intros normalized _. generalize 0.
  induction workerRegistrationRetries as [|retries IH]; intros k; cbn [registerLoop]; [apply always_throw|].
  apply always_lift; [apply _|]. intros suffix _. apply always_lift; [apply _|]. intros token _. cbv zeta.
  apply always_result_of; [by apply always_transaction, Hinsert|].
  intros [[]|err]; [apply always_ret|]. case_match; [apply always_throw|apply IH].
Qed.
End rules.
#[export] Hint Resolve preserves_on_copy : keeps.

(** ** Runs that can be loaded *)
Record loadable (s : RunSnapshot) : Prop := {
  ld_attempts : forall t, t ∈ Tasks (Run s) -> attempts_contiguous 1 (Attempts t) = true;
  ld_events : events_contiguous 1 (Events s) = true;
  ld_last : LastEventSequence (Run s) = Z.of_nat (length (Events s));
  ld_revision : (0 <= Revision (Run s) < 2 ^ 63)%Z;
}.

Lemma attempts_contiguous_spec l : forall n,
  attempts_contiguous n l = true <-> forall k a, l !! k = Some a -> Number a = (n + Z.of_nat k)%Z.
Proof.
  induction l as [|a l IH]; intros n; cbn; [by split|]. rewrite andb_true_iff, IH, Z.eqb_eq. split.
  - intros [H1 H2] [|k] b Hk; simplify_eq/=; [lia|]. rewrite (H2 k b Hk). lia.
  - intros H. split; [rewrite (H 0 a eq_refl); lia|]. intros k b Hk. rewrite (H (S k) b Hk). lia.
Qed.

Lemma events_contiguous_spec l : forall n,
  events_contiguous n l = true <-> forall k e, l !! k = Some e -> Sequence e = (n + Z.of_nat k)%Z.
Proof.
  induction l as [|a l IH]; intros n; cbn; [by split|]. rewrite andb_true_iff, IH, Z.eqb_eq. split.
  - intros [H1 H2] [|k] b Hk; simplify_eq/=; [lia|]. rewrite (H2 k b Hk). lia.
  - intros H. split; [rewrite (H 0 a eq_refl); lia|]. intros k b Hk. rewrite (H (S k) b Hk). lia.
Qed.

Lemma attempts_contiguous_app l a n :
  attempts_contiguous n l = true -> Number a = (n + Z.of_nat (length l))%Z -> attempts_contiguous n (l ++ [a]) = true.
Proof.
  rewrite !attempts_contiguous_spec. intros H Ha k b [Hk|[Hge Hk]]%lookup_app_Some; [by apply H|].
  apply list_lookup_singleton_Some in Hk as [Hz <-]. rewrite Ha. lia.
Qed.

Lemma attempts_contiguous_insert l k a b n :
  attempts_contiguous n l = true -> l !! k = Some b -> Number a = Number b ->
  attempts_contiguous n (<[k := a]> l) = true.
Proof.
  rewrite !attempts_contiguous_spec. intros H Hb Ha j x [(<- & <- & _)|[_ Hj]]%list_lookup_insert_Some; [|by apply H].
  rewrite Ha. by apply H.
Qed.

(** ** Stages of a transaction *)
Section stages.
Context (id : RunID).

(** Only the entry of run [id] changes. *)
Definition run_becomes (s : RunSnapshot) (db db' : database) : Prop := db' = set_runs (<[id := s]> (runs db)) db.

Lemma run_becomes_lookup s db db' : run_becomes s db db' -> runs db' !! id = Some s.
Proof. intros ->. apply lookup_insert_eq. Qed.

Lemma run_becomes_trans s1 s2 db db1 db2 :
  run_becomes s1 db db1 -> run_becomes s2 db1 db2 -> run_becomes s2 db db2.
Proof. intros -> ->. unfold run_becomes, set_runs. cbn. by rewrite insert_insert_eq. Qed.

Lemma run_becomes_same s db : runs db !! id = Some s -> run_becomes s db db.
Proof. intros H. unfold run_becomes, set_runs. rewrite insert_id by done. by destruct db. Qed.

Lemma updateRun_inv s row er el db db' :
  runs db !! id = Some s -> updateRun id row er el db = (db', Ok tt) ->
  run_becomes (upd_Run (run_columns row) s) db db' /\ Revision (Run s) = int64 er /\
  LastEventSequence (Run s) = int64 el /\ (0 <= int64 (Revision row))%Z /\ (0 <= int64 (LastEventSequence row))%Z.
Proof.
  intros Hs H. unfold updateRun in H. go_inv. rewrite Hs in H.
  destruct (bool_decide _ && bool_decide _) eqn:E; go_inv.
  - rewrite andb_true_iff, !bool_decide_eq_true in E. rewrite !orb_false_iff, !Z.ltb_ge in Hc. split_and!; try done; lia || apply E.
Qed.

Lemma updateTask_inv change s t i db db' :
  runs db !! id = Some s -> tc_RunID change = id -> i = Z.to_nat (tc_Index change) -> Tasks (Run s) !! i = Some t ->
  updateTask change db = (db', Ok tt) ->
  run_becomes (upd_Remaining (<[i := tc_RemainingDependencies change]>)
    (upd_Tasks (<[i := set_task_Attempts (Attempts t) (tc_Task change)]>) s)) db db'.
Proof.
  intros Hs Hid -> Ht H. unfold updateTask in H. go_inv. cbv zeta in H. rewrite Hid, Hs, Ht in H.
  case_bool_decide as Hk; go_inv. unfold run_becomes. do 3 f_equal. unfold upd_Tasks, upd_Run, set_Run. f_equal.
  unfold set_task_Attempts. by rewrite Hk.
Qed.

Lemma updateTasks_agree changes : forall seen s ts rs db db',
  runs db !! id = Some s ->
  applyTaskChanges id changes seen (Tasks (Run s)) (RemainingDependencies (Run s)) = Ok (ts, rs) ->
  for_each changes updateTask db = (db', Ok tt) ->
  run_becomes (upd_Remaining (fun _ => rs) (upd_Tasks (fun _ => ts) s)) db db'.
Proof.
  induction changes as [|ch changes IH]; intros seen s ts rs db db' Hs Happ Hrun; cbn in Happ, Hrun; go_inv.
  { apply run_becomes_same. rewrite Hs. f_equal. destruct s as [? ? [] ?]. reflexivity. }
  destruct (Tasks (Run s) !! Z.to_nat (tc_Index ch)) as [t|] eqn:Ht; [|done]. cbn in *. simplify_eq.
  rewrite bool_decide_eq_false in Hc. apply dec_stable in Hc.
  destruct a. pose proof (updateTask_inv ch s _ _ db _ Hs Hc eq_refl Ht Hm) as Hb.
  eapply run_becomes_trans; [exact Hb|].
  apply run_becomes_lookup in Hb. exact (IH _ _ _ _ _ _ Hb Happ Hrun).
Qed.

(** Attempts: the next number is the length plus one, and a number is a
    position, because histories are contiguous. *)
Definition contiguous_tasks (s : RunSnapshot) : Prop :=
  forall t, t ∈ Tasks (Run s) -> attempts_contiguous 1 (Attempts t) = true.

Lemma contiguous_put s t i atts :
  contiguous_tasks s -> attempts_contiguous 1 atts = true ->
  contiguous_tasks (upd_Tasks (<[i := set_task_Attempts atts t]>) s).
Proof.
  intros H Ha u [j Hj]%list_elem_of_lookup. cbn in Hj. apply list_lookup_insert_Some in Hj as [(_ & <- & _)|[_ Hj]]; [done|].
  apply H. by eapply list_elem_of_lookup_2.
Qed.

Lemma task_row_Some db s key index t :
  runs db !! id = Some s -> Tasks (Run s) !! Z.to_nat index = Some t -> Key t = key ->
  task_row db id key index = Some (s, t).
Proof. intros Hs Ht Hk. unfold task_row. rewrite Hs. cbn. rewrite Ht. cbn. by rewrite bool_decide_eq_true_2. Qed.

Lemma applyAttempt_agree change s t t' db db' :
  runs db !! id = Some s -> contiguous_tasks s -> ac_RunID change = id ->
  Tasks (Run s) !! Z.to_nat (ac_TaskIndex change) = Some t -> ac_TaskKey change = Key t ->
  applyAttemptChange t change = Ok t' -> applyAttemptTx change db = (db', Ok tt) ->
  run_becomes (upd_Tasks (<[Z.to_nat (ac_TaskIndex change) := t']>) s) db db' /\
  contiguous_tasks (upd_Tasks (<[Z.to_nat (ac_TaskIndex change) := t']>) s).
Proof.
  intros Hs Hcont Hid Ht Hkey Happ Hrun. unfold applyAttemptChange in Happ. unfold applyAttemptTx in Hrun.
  assert (Hct : attempts_contiguous 1 (Attempts t) = true) by (apply Hcont; by eapply list_elem_of_lookup_2).
  destruct (ac_Operation change); cbv zeta in Happ; [| |done]; go_inv.
  - rewrite bool_decide_eq_false in Hc. apply dec_stable in Hc.
    unfold insertAttempt in Hrun. go_inv. rewrite Hid in Hrun. rewrite (task_row_Some _ _ _ _ _ Hs Ht) in Hrun by done.
    cbv zeta in Hrun. case_bool_decide; go_inv. unfold put_attempts in Hrun. go_inv. split; [done|].
    apply contiguous_put; [done|]. apply attempts_contiguous_app; [done|lia].
  - destruct (Attempts t !! _) as [old|] eqn:Hold; [|done]. go_inv.
    rewrite bool_decide_eq_false in Hc0. apply dec_stable in Hc0.
    unfold updateAttempt in Hrun. go_inv. rewrite Hid in Hrun. rewrite (task_row_Some _ _ _ _ _ Hs Ht) in Hrun by done.
    pose proof (proj1 (attempts_contiguous_spec _ 1) Hct) as Hnum.
    destruct (list_find _ _) as [[k b]|] eqn:E; [|done]. apply list_find_Some in E as (Hk & Hb & _). go_inv.
    assert (k = Z.to_nat (Number (ac_Attempt change) - 1)) as ->.
    { pose proof (Hnum _ _ Hk). rewrite Hb in *. lia. }
    unfold put_attempts in Hrun. go_inv. split; [done|].
    apply contiguous_put; [done|]. by eapply attempts_contiguous_insert.
Qed.

Lemma applyAttempts_agree changes : forall seen s ts db db',
  runs db !! id = Some s -> contiguous_tasks s ->
  applyAttemptChanges id changes seen (Tasks (Run s)) = Ok ts ->
  for_each changes applyAttemptTx db = (db', Ok tt) ->
  run_becomes (upd_Tasks (fun _ => ts) s) db db'.
Proof.
  induction changes as [|ch changes IH]; intros seen s ts db db' Hs Hcont Happ Hrun; cbn in Happ, Hrun; go_inv.
  { apply run_becomes_same. rewrite Hs. f_equal. destruct s as [? ? [] ?]. reflexivity. }
  destruct (Tasks (Run s) !! Z.to_nat (ac_TaskIndex ch)) as [t|] eqn:Ht; [|done]. cbn in *. simplify_eq.
  go_inv.
  repeat match goal with Hx : bool_decide (_ ≠ _) = false |- _ => rewrite bool_decide_eq_false in Hx; apply dec_stable in Hx end.
  match goal with Hone : applyAttemptChange ?t ch = Ok ?t', Htx : applyAttemptTx ch db = (?db1, Ok ?u) |- _ =>
    destruct u; destruct (applyAttempt_agree ch s t t' db db1 Hs Hcont) as [Hb Hcont']; [done..|] end.
  eapply run_becomes_trans; [exact Hb|]. apply run_becomes_lookup in Hb. exact (IH _ _ _ _ _ Hb Hcont' Happ Hrun).
Qed.

(** Events: appended, because the sequence numbers go up. *)
Lemma insert_by_sequence_last e l :
  (forall x, x ∈ l -> Sequence x < Sequence e)%Z -> insert_by_sequence e l = l ++ [e].
Proof.
  intros H. unfold insert_by_sequence. f_equal.
  - apply filter_all. exact H.
  - f_equal. induction l as [|x l IH]; [done|]. rewrite filter_cons, decide_False.
    + apply IH. intros y Hy. apply H. by right.
    + pose proof (H x (list_elem_of_here _ _)). lia.
Qed.

Lemma int64_id z : (0 <= z < 2 ^ 64)%Z -> (0 <= int64 z)%Z -> int64 z = z /\ (z < 2 ^ 63)%Z.
Proof.
  intros Hz Hi. unfold int64, wrap64 in *. destruct (decide (z < 2 ^ 63)%Z) as [Hlt|Hge].
  - rewrite Z.mod_small by lia. lia.
  - replace (z + 2 ^ 63)%Z with (z - 2 ^ 63 + 1 * 2 ^ 64)%Z in Hi by lia.
    rewrite Z.mod_add, Z.mod_small in Hi by lia. lia.
Qed.

Lemma int64_small z : (0 <= z < 2 ^ 63)%Z -> int64 z = z.
Proof. intros H. apply wrap64_id. lia. Qed.

Lemma insertEvents_agree evs : forall s db db',
  runs db !! id = Some s -> events_contiguous 1 (Events s) = true ->
  (Z.of_nat (length (Events s)) < 2 ^ 63)%Z ->
  (forall k e, evs !! k = Some e -> Sequence e = u64 (Z.of_nat (length (Events s)) + 1 + Z.of_nat k)) ->
  for_each evs (insertEvent id) db = (db', Ok tt) ->
  run_becomes (set_Events (Events s ++ evs) s) db db' /\
  events_contiguous 1 (Events s ++ evs) = true /\ (Z.of_nat (length (Events s ++ evs)) < 2 ^ 63)%Z.
Proof.
  induction evs as [|e evs IH]; intros s db db' Hs Hcont Hlen Hseq Hrun; cbn in Hrun; go_inv.
  { rewrite app_nil_r. split_and!; [|done..]. apply run_becomes_same. rewrite Hs. f_equal. by destruct s. }
  destruct a. unfold insertEvent in Hm. go_inv. rewrite Hs in Hm. cbv zeta in Hm. go_inv.
  cbn in Hc. rewrite !orb_false_iff, Z.leb_gt in Hc. destruct Hc as [[Hpos _] _].
  pose proof (Hseq 0 e eq_refl) as He. rewrite Z.add_0_r in He. rewrite u64_id in He by lia.
  destruct (int64_id (Sequence e)) as [Hint Hlt]; [lia|lia|].
  assert (Hrow : mkStateEvent (int64 (Sequence e)) (At e) (Entity e) (ev_Key e) (From e) (To e) (Reason e) = e).
  { rewrite Hint. by destruct e. }
  rewrite Hrow in Hrun. pose proof (proj1 (events_contiguous_spec _ 1) Hcont) as Hnum.
  rewrite insert_by_sequence_last in Hrun.
  2:{ intros x [k Hk]%list_elem_of_lookup. rewrite (Hnum k x Hk). apply lookup_lt_Some in Hk. lia. }
  set (s1 := set_Events (Events s ++ [e]) s) in *.
  assert (Hs1 : runs (set_runs (<[id := s1]> (runs db)) db) !! id = Some s1) by apply lookup_insert_eq.
  destruct (IH s1 _ db' Hs1) as (Hb & Hc1 & Hl1); [| | |exact Hrun|].
  - cbn. apply events_contiguous_spec. intros k x [Hk|[Hge Hk]]%lookup_app_Some; [by apply Hnum|].
    apply list_lookup_singleton_Some in Hk as [Hz <-]. lia.
  - cbn. rewrite length_app. cbn. lia.
  - intros k x Hk. rewrite (Hseq (S k) x Hk). cbn. rewrite length_app. cbn. f_equal. lia.
  - cbn in Hb, Hc1, Hl1. rewrite <-app_assoc in Hb, Hc1, Hl1. split_and!; [|done..].
    eapply run_becomes_trans; [|exact Hb]. done.
Qed.
End stages.

Lemma validateEventShapes_next evs : forall n m, validateEventShapes (u64 n) evs = Ok m ->
  m = u64 (n + Z.of_nat (length evs)).
Proof.
  induction evs as [|e evs IH]; intros n m H; cbn in H; go_inv.
  - injection H as <-. by rewrite Z.add_0_r.
  - rewrite u64_succ in H. rewrite (IH _ _ H). f_equal. cbn [length]. lia.
Qed.

Lemma loadable_sequence s : loadable s -> audit_ok s -> snapshotLastEventSequence s = LastEventSequence (Run s).
Proof. intros _ Ha. by rewrite (audit_last_sequence _ Ha), (audit_last _ Ha). Qed.

(** Whenever both accept a change set for a run that can be loaded, the
    row-by-row transaction leaves exactly the snapshot [applyChangeSet]
    computes, and touches nothing else. *)
Lemma applyChangeSetTx_effect s s' change row db db' :
  loadable s -> audit_ok s -> runs db !! cs_RunID change = Some s -> cs_Run change = Some row ->
  DefinitionID row = DefinitionID (Run s) -> DefinitionVersion row = DefinitionVersion (Run s) ->
  applyChangeSet s change = Ok s' -> applyChangeSetTx change db = (db', Ok tt) ->
  db' = set_runs (<[cs_RunID change := s']> (runs db)) db /\
  events_contiguous 1 (Events s') = true /\ LastEventSequence (Run s') = Z.of_nat (length (Events s')) /\
  (0 <= Revision (Run s') < 2 ^ 63)%Z.
Proof.
  intros Hload Haudit Hs Hrow Hdef Hver Happ Hrun. pose proof Hload as [Hatt Hev Hlast Hrevision].
  pose proof (loadable_sequence s Hload Haudit) as Hsl.
  unfold applyChangeSet in Happ. unfold applyChangeSetTx in Hrun. rewrite Hrow in Happ, Hrun.
  rewrite cloneRunSnapshot_id in Happ. cbv zeta in Happ. cbn in Hrun. go_inv.
  destruct a0 as [ts rs]. cbn in Happ. go_inv. injection Hm as <- _. passed.
  destruct (updateRun_inv _ _ _ _ _ _ _ Hs Hm1) as (Hb1 & _ & Hlastdb & Hr1 & Hl1).
  pose proof (updateTasks_agree _ _ _ _ _ _ _ _ (run_becomes_lookup _ _ _ _ Hb1) Hm0 Hm2) as Hb2.
  match goal with Hx : applyAttemptChanges _ _ _ _ = Ok ?x |- _ => rename x into ts', Hx into Hats end.
  assert (Hcont : contiguous_tasks (upd_Tasks (fun _ => ts) s)).
  { intros t [i Hi]%list_elem_of_lookup. destruct (applyTaskChanges_keys _ _ _ _ _ _ _ Hm0) as (_ & Hsame & _).
    cbn in Hi. apply (f_equal (fun l => l !! i)) in Hsame. rewrite !list_lookup_fmap, Hi in Hsame.
    destruct (Tasks (Run s) !! i) as [t0|] eqn:Ht0; [|done]. injection Hsame as ->. apply Hatt. by eapply list_elem_of_lookup_2. }
  pose proof (applyAttempts_agree _ _ _ _ _ _ _ (run_becomes_lookup _ _ _ _ Hb2) Hcont Hats Hm3) as Hb3.
  set (s3' := upd_Tasks _ _) in Hb3.
  assert (Hn : (Z.of_nat (length (Events s)) < 2 ^ 63)%Z).
  { rewrite <-Hlast, Hlastdb. unfold int64, wrap64.
    pose proof (Z.mod_pos_bound (match cs_Events change with [] => LastEventSequence row | e :: _ => u64 (Sequence e - 1) end + 2 ^ 63) (2 ^ 64)). lia. }
  match goal with Hx : checkEventSequences _ _ = Ok ?u |- _ => destruct u; rename Hx into Hseq end.
  rewrite Hsl, Hlast in Hseq. pose proof (checkEventSequences_inv _ _ Hseq) as Hnum.
  destruct (insertEvents_agree _ (cs_Events change) s3' _ db' (run_becomes_lookup _ _ _ _ Hb3)) as (Hb4 & Hc4' & Hl4);
    [exact Hev|exact Hn|exact Hnum|exact Hrun|].
  pose proof (run_becomes_trans _ _ _ _ _ _ Hb1 (run_becomes_trans _ _ _ _ _ _ Hb2 (run_becomes_trans _ _ _ _ _ _ Hb3 Hb4))) as Hb.
  cbn in Hb, Hc4', Hl4.
  assert (HR : int64 (Revision row) = Revision row /\ (0 <= Revision row < 2 ^ 63)%Z).
  { destruct (int64_id (Revision row)) as [E ?]; [|done|rewrite E in *].
    - match goal with Hx : Revision row = u64 _ |- _ => rewrite Hx end. apply Z.mod_pos_bound. lia.
    - split; [done|]. lia. }
  assert (HL : LastEventSequence row = Z.of_nat (length (Events s ++ cs_Events change))).
  { match goal with Hx : LastEventSequence row = _ |- _ => rewrite Hx end. rewrite Hsl, Hlast, length_app.
    destruct (cs_Events change) as [|e evs _] using rev_ind; [cbn; lia|]. rewrite last_snoc.
    rewrite (Hnum (length evs) e) by (by apply list_lookup_middle). rewrite (length_app _ (evs ++ _)), (length_app evs) in Hl4.
    rewrite !length_app. cbn in Hl4 |- *.
    rewrite u64_id by lia. lia. }
  split; [|split; [exact Hc4'|split; [exact HL|apply HR]]].
  rewrite Hb. unfold run_becomes. do 2 f_equal. unfold s3', set_Events, upd_Run, set_Run. cbn. f_equal.
  destruct HR as [HR _]. unfold run_columns. cbn. rewrite HR, int64_small by lia. rewrite <-Hdef, <-Hver.
  match goal with H1 : cs_RunID change = ID (Run s), H2 : ID row = _ |- _ => rewrite <-H1, <-H2 end.
  by destruct row.
Qed.

(** ** Saving a run writes the rows of that run only *)
Definition runs_only (db db' : database) : Prop := dispatches db' = dispatches db /\ workers db' = workers db.
#[export] Instance runs_only_preorder : PreOrder runs_only.
Proof. split; [done|]. intros db1 db2 db3 [] []. split; congruence. Qed.

Lemma updateRun_only id row er el : preserves runs_only (updateRun id row er el).
Proof. intros db db' u H. unfold updateRun in H. go_inv. destruct (runs db !! id); [|go_inv]. case_match; by go_inv. Qed.
Lemma updateTask_only change : preserves runs_only (updateTask change).
Proof.
  intros db db' u H. unfold updateTask in H. go_inv. cbv zeta in H. destruct (runs db !! _) as [s|]; [|done].
  destruct (Tasks (Run s) !! _); [|done]. case_match; by go_inv.
Qed.
Lemma applyAttemptTx_only change : preserves runs_only (applyAttemptTx change).
Proof.
  intros db db' u H. unfold applyAttemptTx, insertAttempt, updateAttempt, put_attempts in H.
  destruct (ac_Operation change); [| |done]; go_inv; destruct (task_row _ _ _ _) as [[s t]|]; try done; cbv zeta in H.
  - case_match; by go_inv.
  - destruct (list_find _ _) as [[k ?]|]; by go_inv.
Qed.
Lemma insertEvent_only id e : preserves runs_only (insertEvent id e).
Proof. intros db db' u H. unfold insertEvent in H. go_inv. destruct (runs db !! id); [|done]. cbv zeta in H. by go_inv. Qed.
#[export] Hint Resolve updateRun_only updateTask_only applyAttemptTx_only insertEvent_only : keeps.

Lemma applyChangeSetTx_only change : preserves runs_only (applyChangeSetTx change).
Proof. unfold applyChangeSetTx. keep. Qed.
#[export] Hint Resolve applyChangeSetTx_only : keeps.
Lemma save_changes_only s s' : preserves runs_only (save_changes s s').
Proof. unfold save_changes. keep. Qed.

Lemma loadSnapshot_same id db db' s : loadSnapshot id db = (db', Ok s) -> db' = db.
Proof. intros H. symmetry. revert db db' s H. change (preserves eq (loadSnapshot id)). unfold loadSnapshot. keep. Qed.
