(* ===== verification/DispatchSteps.v ===== *)
(** * What one dispatched operation does to the working tasks of its run

    A task is working while it is queued or running, that is, while a dispatch
    of it is active.  Each operation of the dispatcher moves one task in or out
    of that condition and leaves every other working task of the run as it is;
    cancellation stops them all. *)
From S2P Require Import Prelude GoStrings Json Model State Graph Compiler Scheduling Distributed Effects RunInvariant RunOperations RunResults RunProperties.

Definition working (st : TaskStatus) : bool :=
  match st with TaskQueued | TaskRunning => true | _ => false end.

(** Task [i] becomes [t'], the working tasks elsewhere are the same. *)
Record moves (i : nat) (t' : TaskRun) (s s' : RunSnapshot) : Prop := {
  mv_task : Tasks (Run s') !! i = Some t';
  mv_rest : forall j u, j ≠ i -> working (Status u) = true ->
    Tasks (Run s') !! j = Some u <-> Tasks (Run s) !! j = Some u;
}.

Lemma only_task_moves i t t' s s' : Tasks (Run s) !! i = Some t -> only_task i t' s s' -> moves i t' s s'.
Proof.
  intros Ht [T _]. split; rewrite T.
  - apply list_lookup_insert_eq. by eapply lookup_lt_Some.
  - intros j u Hj _. by rewrite list_lookup_insert_ne.
Qed.

Lemma imap_moves f i t t0 s s' :
  Tasks (Run s) !! i = Some t -> Tasks (Run s') = imap f (<[i := t0]> (Tasks (Run s))) ->
  (forall j u, j ≠ i -> Tasks (Run s) !! j = Some u ->
     f j u = u \/ (working (Status u) = false /\ working (Status (f j u)) = false)) ->
  moves i (f i t0) s s'.
Proof.
  intros Hi T Hf. split; rewrite T.
  - by rewrite list_lookup_imap, list_lookup_insert_eq by (by eapply lookup_lt_Some).
  - intros j u Hj Hw. rewrite list_lookup_imap, list_lookup_insert_ne by done.
    destruct (Tasks (Run s) !! j) as [v|] eqn:Hv; [|done]. cbn.
    destruct (Hf j v Hj Hv) as [->|[H1 H2]]; [done|]. split; intros [= E]; subst u; congruence.
Qed.

Section steps.
Context (c : CompiledWorkflow) (Hc : compiled_wf c).

Lemma succeeds_moves i t t0 at_ s s' :
  run_wf c s -> Tasks (Run s) !! i = Some t -> Status t = TaskRunning -> Status t0 = TaskSucceeded ->
  succeeds c i t0 at_ s s' -> exists t', moves i t' s s' /\ working (Status t') = false.
Proof.
  intros Hwf Ht Hr H0 (_ & T & _).
  assert (Hws : run_Status (Run s) = WorkflowRunning).
  { eapply running_run; [exact Hwf|exact Ht|by rewrite Hr|by rewrite Hr]. }
  pose proof (status_lookup _ _ _ Ht) as Hsti. rewrite Hr in Hsti.
  eexists. split; [eapply imap_moves; [exact Ht|exact T|]|].
  - intros j u Hj Hu. unfold release_task.
    destruct (bool_decide (j ∈ default [] (successors c !! i)) && bool_decide (RemainingDependencies (Run s) !! j = Some 1%Z))
      eqn:E; [right|by left]. apply andb_true_iff in E as [E1%bool_decide_eq_true E2%bool_decide_eq_true].
    destruct (successors c !! i) as [l|] eqn:Hl; [|by apply not_elem_of_nil in E1].
    destruct (release_ready c Hc i j s 1 u (rw_core _ _ Hwf)) as (_ & Hw & _); try done.
    + by rewrite Hws.
    + by exists l.
    + by rewrite Hw.
  - unfold release_task. case_match; [done|by rewrite H0].
Qed.

Lemma fails_moves i t t0 at_ s s' :
  run_wf c s -> Tasks (Run s) !! i = Some t -> Status t = TaskRunning -> Status t0 = TaskFailed ->
  fails c i t0 at_ s s' -> exists t', moves i t' s s' /\ working (Status t') = false.
Proof.
  intros Hwf Ht Hr H0 (_ & (reached & Hreach & T & _) & _).
  assert (Hws : run_Status (Run s) = WorkflowRunning).
  { eapply running_run; [exact Hwf|exact Ht|by rewrite Hr|by rewrite Hr]. }
  pose proof (status_lookup _ _ _ Ht) as Hsti. rewrite Hr in Hsti.
  eexists. split; [eapply imap_moves; [exact Ht|exact T|]|].
  - intros j u Hj Hu. unfold skip_if. destruct (reached j && negb (isTaskTerminal (Status u))) eqn:E; [right|by left].
    apply andb_true_iff in E as [E1 E2%negb_true_iff]. split; [|done].
    rewrite (skip_legal c Hc s j TaskRunning u (rw_core _ _ Hwf)); [done|by rewrite Hws| |done|done].
    exists i. split; [by apply Hreach|done].
  - unfold skip_if. case_match; [done|by rewrite H0].
Qed.

Lemma retries_or_fails_moves i t d result to at_ s s' :
  run_wf c s -> Tasks (Run s) !! i = Some t -> Status t = TaskRunning ->
  retries_or_fails c i t d result to at_ s s' -> exists t', moves i t' s s' /\ working (Status t') = false.
Proof.
  intros Hwf Ht Hr H. unfold retries_or_fails in H. case_match; [|by eapply fails_moves; [..|exact H]].
  destruct H as (_ & Ho & _). eexists. split; [by eapply only_task_moves|done].
Qed.

Lemma applied_moves i t d response at_ s s' :
  run_wf c s -> Tasks (Run s) !! i = Some t -> Status t = TaskRunning ->
  applied c i t d response at_ s s' -> exists t', moves i t' s s' /\ working (Status t') = false.
Proof.
  intros Hwf Ht Hr H. unfold applied in H. destruct (Kind response); try done.
  - by eapply succeeds_moves; [..|exact H].
  - by eapply retries_or_fails_moves.
  - by eapply fails_moves; [..|exact H].
Qed.

(** ** The operations the dispatcher calls *)
Lemma queue_moves i t at_ s s' r :
  run_wf c s -> Tasks (Run s) !! i = Some t -> Status t = TaskReady -> QueueTask (Z.of_nat i) at_ s = (s', r) ->
  r = Ok tt /\ good_step c s s' /\ moves i (task_after TaskQueued at_ t) s s'.
Proof.
  intros H Ht Hst Hrun. destruct (QueueTask_run c Hc i t at_ s H Ht Hst) as (s1 & Hrun1 & Hadv & Ho & _).
  rewrite Hrun1 in Hrun. injection Hrun as <- <-. split_and!; [done|by eapply step_queue|by eapply only_task_moves].
Qed.

Lemma return_moves i t at_ reason s s' r :
  run_wf c s -> Tasks (Run s) !! i = Some t -> Status t = TaskQueued ->
  ReturnQueuedTaskToReady (Z.of_nat i) at_ reason s = (s', r) ->
  r = Ok tt /\ good_step c s s' /\ moves i (task_after TaskReady at_ t) s s'.
Proof.
  intros H Ht Hst Hrun. destruct (ReturnQueued_run c Hc i t at_ reason s H Ht Hst) as (s1 & Hrun1 & Hadv & Ho & _).
  rewrite Hrun1 in Hrun. injection Hrun as <- <-. split_and!; [done| |by eapply only_task_moves].
  eapply step_return; [done|exact H| |exact Hrun1]. cbn. rewrite Nat2Z.id. intros u ?. by simplify_eq.
Qed.

Lemma start_moves i t at_ worker dispatch s s' r :
  run_wf c s -> Tasks (Run s) !! i = Some t -> Status t = TaskQueued ->
  StartQueuedAttempt (Some c) (Z.of_nat i) at_ worker dispatch s = (s', Ok r) ->
  (req_Attempt r = (Z.of_nat (length (Attempts t)) + 1)%Z /\ req_RunID r = ID (Run s) /\ req_TaskKey r = Key t) /\
  worker ≠ "" /\ dispatch ≠ "" /\ good_step c s s' /\
  moves i (started_task at_ (new_attempt t worker dispatch at_) t) s s'.
Proof.
  intros H Ht Hst Hrun.
  assert (Hws : run_Status (Run s) = WorkflowRunning).
  { eapply running_run; [done|done|by rewrite Hst|by rewrite Hst]. }
  pose proof (step_claim c Hc s s' _ _ _ _ _ H Hws Hrun) as Hgood.
  destruct (task_definition c Hc s i t (rw_core _ _ H) Ht) as (d & Hd & _ & _).
  destruct (start_attempt c i t d (new_attempt t worker dispatch at_) at_ "lease claimed" s)
    as (s1 & s2 & Hrun1 & Hrun2 & _ & Ho & _); auto.
  unfold StartQueuedAttempt in Hrun. go_inv. rewrite Nat2Z.id in *. simplify_eq. cbn in *.
  pose proof (executionRequest_same _ _ _ _ _ _ Hrun) as ->.
  match goal with Hx : is_empty _ || is_empty _ = false |- _ => apply orb_false_iff in Hx as [E1 E2] end.
  unfold is_empty in E1, E2. rewrite !bool_decide_eq_false in E1, E2.
  unfold executionRequest in Hrun. go_inv. cbn. split_and!; [done| | |done|done|done|].
  { destruct Hgood as (_ & [Hf _ _] & _). by injection Hf. }
  { match goal with Hx : bool_decide (Key t ≠ _) = false |- _ => rewrite bool_decide_eq_false in Hx; by apply dec_stable in Hx end. }
  repeat match goal with u : unit |- _ => destruct u end.
  match goal with Hx : transitionTask i _ _ _ s = (?s0, _) |- _ => rewrite Hrun1 in Hx; injection Hx as <- end.
  match goal with Hx : appendAttempt i _ s1 = (?s0, _) |- _ =>
    unfold new_attempt in Hrun2; rewrite Hrun2 in Hx; injection Hx as <- end.
  by eapply only_task_moves.
Qed.

Lemma retry_moves i t a at_ s s' :
  run_wf c s -> Tasks (Run s) !! i = Some t -> last (Attempts t) = Some a -> 
  MakeRetryReady (Z.of_nat i) (Number a) at_ s = (s', Ok true) ->
  Status t = TaskWaitingRetry /\ good_step c s s' /\ moves i (task_after TaskReady at_ t) s s'.
Proof.
  intros H Ht Ha Hrun. pose proof (step_retry c Hc s s' _ _ _ _ H Hrun) as Hgood.
  pose proof Hrun as Hrun0. unfold MakeRetryReady in Hrun. erewrite bind_run in Hrun by reflexivity.
  rewrite (in_range _ _ _ Ht) in Hrun. do 2 (erewrite bind_run in Hrun by (rewrite ?Nat2Z.id, ?Ht; reflexivity)).
  destruct (Status t) eqn:Hst; try done. destruct (ReadyAt t) as [ra|] eqn:Hra; [|done]. rewrite Ha in Hrun.
  destruct (bool_decide _ || before at_ ra) eqn:E; [done|]. apply orb_false_iff in E as [_ E].
  unfold before in E. rewrite Z.ltb_ge in E.
  destruct (retry_ready_run c Hc i t at_ ra a s H Ht Hst Hra E Ha) as (s1 & Hrun1 & _ & Ho & _).
  rewrite Hrun0 in Hrun1. injection Hrun1 as <-. split_and!; [done|done|by eapply only_task_moves].
Qed.

(** A result, a timeout or an interruption for the running attempt. *)
Definition stops (i : nat) (s s' : RunSnapshot) : Prop :=
  good_step c s s' /\ exists t', moves i t' s s' /\ working (Status t') = false.

Lemma retries_or_fails_stops i t d result to at_ s s' :
  run_wf c s -> Tasks (Run s) !! i = Some t -> Status t = TaskRunning ->
  retries_or_fails c i t d result to at_ s s' -> stops i s s'.
Proof.
  intros H Ht Hst Hrf. destruct (retries_or_fails_evolves c Hc _ _ _ _ _ _ _ _ H Ht Hst Hrf) as [[? ?] ?].
  split; [by split_and!|]. by eapply retries_or_fails_moves.
Qed.

Lemma apply_stops i t response at_ s s' r :
  run_wf c s -> Tasks (Run s) !! i = Some t -> Status t = TaskRunning -> known_result (Kind response) = true ->
  ApplyAttemptResult (Some c) (Z.of_nat i) (Z.of_nat (length (Attempts t))) response at_ s = (s', r) ->
  r = Ok true /\ stops i s s'.
Proof.
  intros H Ht Hst Hk Hrun. destruct (task_definition c Hc s i t (rw_core _ _ H) Ht) as (d & Hd & _ & _).
  destruct (apply_active c Hc i t d response at_ s H Ht Hst Hd Hk) as (s1 & Hrun1 & Happ).
  rewrite Hrun1 in Hrun. injection Hrun as <- <-. split; [done|]. split; [by eapply applied_good|by eapply applied_moves].
Qed.

Lemma timeout_stops i t at_ s s' r :
  run_wf c s -> Tasks (Run s) !! i = Some t -> Status t = TaskRunning ->
  TimeoutAttempt (Some c) (Z.of_nat i) (Z.of_nat (length (Attempts t))) at_ s = (s', r) -> r = Ok true /\ stops i s s'.
Proof.
  intros H Ht Hst Hrun. destruct (task_definition c Hc s i t (rw_core _ _ H) Ht) as (d & Hd & _ & _).
  destruct (timeout_active c Hc i t d at_ s H Ht Hst Hd) as (s1 & Hrun1 & Happ).
  rewrite Hrun1 in Hrun. injection Hrun as <- <-. split; [done|by eapply retries_or_fails_stops].
Qed.

Lemma interrupt_stops i t at_ reason s s' r :
  run_wf c s -> Tasks (Run s) !! i = Some t -> Status t = TaskRunning ->
  InterruptAttempt (Some c) (Z.of_nat i) (Z.of_nat (length (Attempts t))) at_ reason s = (s', r) -> r = Ok true /\ stops i s s'.
Proof.
  intros H Ht Hst Hrun. destruct (task_definition c Hc s i t (rw_core _ _ H) Ht) as (d & Hd & _ & _).
  destruct (interrupt_active c Hc i t d at_ reason s H Ht Hst Hd) as (s1 & Hrun1 & Happ).
  rewrite Hrun1 in Hrun. injection Hrun as <- <-. split; [done|by eapply retries_or_fails_stops].
Qed.

Lemma cancel_stops at_ s :
  run_wf c s -> isWorkflowTerminal (run_Status (Run s)) = false ->
  exists s', CancelRunSnapshot s at_ = Ok s' /\ good_step c s s' /\ run_Status (Run s') = WorkflowCanceled /\
    forall t, t ∈ Tasks (Run s') -> working (Status t) = false.
Proof.
  intros H Hnt. destruct (cancel_run c at_ s H Hnt) as (s' & Hrun & _ & T & _ & Hws).
  exists s'. split_and!; [done|by eapply step_cancel|done|]. rewrite T.
  intros t (u & -> & Hu)%list_elem_of_fmap. unfold cancel_after.
  destruct (isTaskTerminal (Status u)) eqn:E; [by destruct (Status u)|]. case_match; try case_match; done.
Qed.
End steps.
