(* ===== verification/DispatchInvariant.v ===== *)
(** * The invariant of the dispatch tables

    [db_ok db]: every stored run is valid and can be loaded, the rows satisfy
    the constraints of the tables, and the active dispatches are exactly the
    working tasks: a pending dispatch belongs to a queued task, a leased one to
    a running task whose last attempt names the dispatch and its worker. *)
From S2P Require Import Prelude Hoare GoStrings Json Model State Graph Compiler Scheduling Distributed Effects RunInvariant RunOperations RunResults RunProperties RunTheorems ChangeSet Stores Database Dispatch Workers DatabaseFacts DispatchSteps.
From stdpp Require Import sorting.

(** ** Stored runs *)

(** The definition a run refers to is stored in its compiled form, which
    compiling and cloning leave as it is. *)
Record stored_run (c : CompiledWorkflow) (s : RunSnapshot) : Prop := {
  sr_wf : run_wf c s;
  sr_loadable : loadable s;
  sr_definition : Definition_ s = Some (definition c);
  sr_compiled : Compile (definition c) = Ok c;
  sr_clone : cloneDefinition (definition c) = Ok (definition c);
}.

Lemma stored_compiled c s : stored_run c s -> compiled_wf c.
Proof. intros [_ _ _ H _]. by eapply compiled_ok. Qed.

Lemma loadSnapshot_stored c s id db :
  runs db !! id = Some s -> stored_run c s -> loadSnapshot id db = (db, Ok s).
Proof.
  intros Hs [Hwf [Hatt Hev Hlast Hrev] Hdef Hcomp Hclone]. unfold loadSnapshot. go_step. rewrite Hs, Hdef.
  rewrite (proj2 (Z.ltb_ge (Revision (Run s)) 0)), (proj2 (Z.ltb_ge (LastEventSequence (Run s)) 0)) by lia.
  go_step. rewrite Hcomp. go_step. cbn [Definition_of]. rewrite Hclone. go_step.
  rewrite (run_core_length c s (rw_core _ _ Hwf)), differs_false by done. go_step.
  replace (forallb _ (Tasks (Run s))) with true
    by (symmetry; apply forallb_forall; intros t Ht; apply Hatt; by apply list_elem_of_In).
  go_step. rewrite Hev. go_step. rewrite Hlast, Z.eqb_refl. go_step. rewrite <-Hdef. by destruct s.
Qed.

(** ** Saving a step *)
Lemma saved_revision s s' : audit_ok s' ->
  upd_Run (set_run_Revision (u64 (Revision (Run s) + 1))) s' = nextRevision s s'.
Proof.
  intros Ha. pose proof (audit_last_sequence _ Ha) as H1. pose proof (audit_last _ Ha) as H2.
  unfold nextRevision, upd_Run, set_Run. f_equal. rewrite H1, <-H2. by destruct (Run s').
Qed.

Lemma run_wf_contiguous c s : compiled_wf c -> run_wf c s -> forall t, t ∈ Tasks (Run s) -> attempts_contiguous 1 (Attempts t) = true.
Proof.
  intros Hc H t [i Hi]%list_elem_of_lookup. destruct (task_definition c Hc s i t (rw_core _ _ H) Hi) as (d & _ & Hok & _).
  apply attempts_contiguous_spec. intros k a Hk. rewrite (aw_numbers _ _ (tk_attempts _ _ Hok) _ _ Hk). lia.
Qed.

Lemma save_run c s s' id db db' :
  stored_run c s -> good_step c s s' -> runs db !! id = Some s -> ID (Run s) = id ->
  save_changes s s' db = (db', Ok tt) ->
  db' = set_runs (<[id := nextRevision s s']> (runs db)) db /\ stored_run c (nextRevision s s').
Proof.
  intros Hst Hgood Hs Hid Hrun. pose proof (stored_compiled _ _ Hst) as Hc.
  pose proof Hst as [Hwf Hload Hdef Hcomp Hclone].
  assert (Hwf' : run_wf c (nextRevision s s')).
  { destruct Hgood as [[[H1 H2 H3 H4 H5 H6] H7] _]. split; [|exact H7].
    split; [exact H1|exact H2|by apply nextRevision_audit|exact H4|exact H5|exact H6]. }
  destruct (changeSet_roundtrip _ _ (step_saveable c s s' Hc Hwf Hgood)) as (cs & Hcs & Hcid & Hexp & Happ).
  unfold save_changes in Hrun. rewrite saved_revision in Hrun by exact (rc_audit _ _ (rw_core _ _ (proj1 Hgood))). go_inv.
  unfold ChangeSetBetween in *. unfold lift in Hm. injection Hm as <- Hm. go_inv. rewrite Hcs in Hm. injection Hm as <-.
  destruct Hgood as (_ & [Hf _ _] & _). injection Hf as Hver Hdef' Hid' Hdid Hdv Hrev Hcan Hcr.
  destruct (cs_Run cs) as [row|] eqn:Hrow; [|unfold applyChangeSet in Happ; rewrite Hrow in Happ; do 2 (apply check_inv in Happ as [_ Happ]); discriminate Happ].
  assert (Hrowid : DefinitionID row = DefinitionID (Run s) /\ DefinitionVersion row = DefinitionVersion (Run s)).
  { unfold changeSetFromSnapshots in Hcs. case_bool_decide; [done|].
    destruct (diffTasks _ _ _ _). injection Hcs as <-. cbn in Hrow. injection Hrow as <-. cbn. done. }
  destruct (applyChangeSetTx_effect s (nextRevision s s') cs row db db' Hload) as (-> & Hev & Hlast & Hr); try done.
  - exact (rc_audit _ _ (rw_core _ _ Hwf)).
  - by rewrite Hcid.
  - apply Hrowid.
  - apply Hrowid.
  - rewrite Hcid. split; [done|]. split; [done| |by cbn; rewrite Hdef'|done|done].
    split; [by eapply run_wf_contiguous|done..].
Qed.

Lemma task_keys_inj c s i j t u :
  stored_run c s -> Tasks (Run s) !! i = Some t -> Tasks (Run s) !! j = Some u -> Key t = Key u -> i = j.
Proof.
  intros Hst Ht Hu Hk. pose proof (stored_compiled _ _ Hst) as Hc. pose proof (sr_wf _ _ Hst) as Hwf.
  destruct (task_definition c Hc s i t (rw_core _ _ Hwf) Ht) as (d & Hd & Hok & _).
  destruct (task_definition c Hc s j u (rw_core _ _ Hwf) Hu) as (e & He & Hoku & _).
  eapply (NoDup_lookup (def_Key <$> def_Tasks (definition c))).
  - apply (cw_keys c Hc).
  - by rewrite list_lookup_fmap, Hd.
  - rewrite list_lookup_fmap, He. cbn. f_equal. rewrite <-(tk_key _ _ Hok), <-(tk_key _ _ Hoku). done.
Qed.

Lemma stored_same c c' s : stored_run c s -> stored_run c' s -> c' = c.
Proof. intros [_ _ H1 H2 _] [_ _ H3 H4 _]. rewrite H1 in H3. injection H3 as E. rewrite <-E, H2 in H4. by injection H4. Qed.

(** ** The constraints of the dispatch and session tables *)
Record constraints (db : database) : Prop := {
  ct_rows : forall n d, dispatches db !! n = Some d -> dispatch_shape d = true /\ dispatch_values n d = true;
  ct_workers : forall n d l, dispatches db !! n = Some d -> d_lease d = Some l -> is_Some (workers db !! le_worker l);
  ct_unique : forall n1 n2 d1 d2, n1 ≠ n2 -> dispatches db !! n1 = Some d1 -> dispatches db !! n2 = Some d2 ->
    dispatches_clash d1 d2 = false;
  ct_sessions : forall w row, workers db !! w = Some row -> worker_values w row = true;
  ct_tokens : forall w1 w2 r1 r2, workers db !! w1 = Some r1 -> workers db !! w2 = Some r2 ->
    w_token_hash r1 = w_token_hash r2 -> w1 = w2;
}.

Lemma clash_sym d1 d2 : dispatches_clash d1 d2 = dispatches_clash d2 d1.
Proof.
  unfold dispatches_clash.
  rewrite (bool_decide_ext (d_run d1 = d_run d2) (d_run d2 = d_run d1)), (bool_decide_ext (d_task d1 = d_task d2) (d_task d2 = d_task d1)) by done.
  rewrite (andb_comm (is_active (d_status d1))). f_equal.
  destruct (d_lease d1) as [l1|], (d_lease d2) as [l2|]; try done.
  by rewrite (bool_decide_ext (le_token_hash l1 = le_token_hash l2) (le_token_hash l2 = le_token_hash l1)),
    (bool_decide_ext (le_attempt l1 = le_attempt l2) (le_attempt l2 = le_attempt l1)) by done.
Qed.

Lemma has_Some {A} (o : option A) : has o = true <-> is_Some o.
Proof. destruct o; split; [by eexists|done|done|by intros []]. Qed.

Lemma dispatch_allowed_inv db n d : dispatch_allowed db n d = true ->
  dispatch_shape d = true /\ dispatch_values n d = true /\
  (forall l, d_lease d = Some l -> is_Some (workers db !! le_worker l)) /\
  forall n' d', n' ≠ n -> dispatches db !! n' = Some d' -> dispatches_clash d d' = false.
Proof.
  unfold dispatch_allowed. rewrite !andb_true_iff. intros [[[H1 H2] H3] H4]. split_and!; [done|done| |].
  - intros l Hl. rewrite Hl in H3. by apply has_Some.
  - intros n' d' Hne Hd. rewrite forallb_forall in H4. specialize (H4 (n', d')).
    rewrite <-list_elem_of_In, elem_of_map_to_list, bool_decide_eq_false_2 in H4 by done. specialize (H4 Hd).
    by destruct (dispatches_clash d d').
Qed.

Lemma constraints_put db n d : dispatch_allowed db n d = true -> constraints db ->
  constraints (set_dispatches (<[n := d]> (dispatches db)) db).
Proof.
  intros (H1 & H2 & H3 & H4)%dispatch_allowed_inv [C1 C2 C3 C4 C5]. split; cbn; [| | |done|done].
  - intros n' d' [[<- <-]|[_ Hd]]%lookup_insert_Some; [done|by apply C1].
  - intros n' d' l [[<- <-]|[_ Hd]]%lookup_insert_Some; [by apply H3|by eapply C2].
  - intros n1 n2 d1 d2 Hne [[<- <-]|[Hn1 Hd1]]%lookup_insert_Some [[<- <-]|[Hn2 Hd2]]%lookup_insert_Some.
    + by destruct Hne.
    + by eapply H4.
    + rewrite clash_sym. by eapply H4.
    + eapply (C3 n1 n2); done.
Qed.

Lemma constraints_runs db rs : constraints db -> constraints (set_runs rs db).
Proof. intros []. by split. Qed.

(** The row of one worker is written. *)
Lemma constraints_worker db w row : constraints db -> worker_values w row = true ->
  (forall v r, workers db !! v = Some r -> w_token_hash r = w_token_hash row -> v = w) ->
  constraints (set_workers (<[w := row]> (workers db)) db).
Proof.
  intros [C1 C2 C3 C4 C5] Hv Hu. split; cbn; [done| |done| |].
  - intros n d l Hd Hl. apply lookup_insert_is_Some'. right. by eapply C2.
  - intros v r [[<- <-]|[_ Hr]]%lookup_insert_Some; [done|by apply C4].
  - intros v1 v2 r1 r2 [[<- <-]|[_ H1]]%lookup_insert_Some [[<- <-]|[_ H2]]%lookup_insert_Some E; [done| |by eapply Hu|by eapply C5].
    symmetry. by eapply Hu.
Qed.

Lemma token_hash_unused hash db : token_hash_used hash db = false ->
  forall w row, workers db !! w = Some row -> w_token_hash row ≠ hash.
Proof.
  intros H w row Hw E. apply not_true_iff_false in H. apply H. unfold token_hash_used. apply existsb_exists. exists (w, row).
  split; [by apply list_elem_of_In, elem_of_map_to_list|by rewrite E, bool_decide_eq_true_2].
Qed.

(** What may become of a session: it drains, stops or falls silent, and never
    comes back; its identity and its limits stay. *)
Definition status_may (st st' : WorkerStatus) : bool :=
  match st, st' with
  | WorkerActive, _ => true
  | WorkerDraining, (WorkerDraining | WorkerOffline | WorkerStopped) => true
  | WorkerOffline, WorkerOffline | WorkerStopped, WorkerStopped => true
  | _, _ => false
  end.
Record session_evolves (row row' : worker_row) : Prop := {
  sv_display_name : w_display_name row' = w_display_name row;
  sv_protocol_version : w_protocol_version row' = w_protocol_version row;
  sv_executor_kinds : w_executor_kinds row' = w_executor_kinds row;
  sv_max_concurrency : w_max_concurrency row' = w_max_concurrency row;
  sv_token_hash : w_token_hash row' = w_token_hash row;
  sv_registered_at : w_registered_at row' = w_registered_at row;
  sv_status : status_may (w_status row) (w_status row') = true;
}.
#[export] Instance session_evolves_refl : Reflexive session_evolves.
Proof. intros row. split; try done. by destruct (w_status row). Qed.
#[export] Instance session_evolves_trans : Transitive session_evolves.
Proof.
  intros r1 r2 r3 [] []. split; try congruence.
  by destruct (w_status r1), (w_status r2), (w_status r3).
Qed.

Lemma heartbeat_session now w row : worker_values w row = true -> (now <? w_registered_at row)%Z = false ->
  worker_values w (set_heartbeat now row) = true /\ session_evolves row (set_heartbeat now row).
Proof.
  intros H Hnow. split; [|split; cbn; [done..|by destruct (w_status row)]].
  unfold worker_values in *. cbn. rewrite !andb_true_iff in *. passed. split_and!; try tauto. by apply Z.leb_le.
Qed.
Lemma silent_session before w row : worker_values w row = true -> silent before row = true ->
  worker_values w (set_worker_status WorkerOffline (w_stopped_at row) row) = true /\
  session_evolves row (set_worker_status WorkerOffline (w_stopped_at row) row).
Proof.
  intros H [Hs _]%andb_true_iff. unfold worker_values in *. rewrite !andb_true_iff, !bool_decide_eq_true in *.
  rewrite orb_true_iff, !bool_decide_eq_true in Hs. destruct H as [H E]. split; [split; [tauto|]|split; cbn; [done..|]].
  - cbn. by destruct Hs as [Hs|Hs]; rewrite Hs in E.
  - by destruct Hs as [-> | ->].
Qed.
Lemma drained_session (st : WorkerStatus) now w row : worker_values w (set_worker_status st now row) = true ->
  w_status row ∈ [WorkerActive; WorkerDraining] -> st ∈ [WorkerDraining; WorkerStopped] ->
  session_evolves row (set_worker_status st now row).
Proof.
  rewrite !list_elem_of_In. cbn. intros _ Hr Hs. split; cbn; [done..|]. by destruct Hr as [<-|[<-|[]]], Hs as [<-|[<-|[]]].
Qed.

Lemma insert_worker_inv w row db db' u : insert_worker w row db = (db', Ok u) ->
  workers db !! w = None /\ worker_values w row = true /\ token_hash_used (w_token_hash row) db = false /\
  db' = set_workers (<[w := row]> (workers db)) db.
Proof. intros H. unfold insert_worker in H. go_inv. passed. by destruct (workers db !! w). Qed.
Lemma update_worker_inv w row db db' u : update_worker w row db = (db', Ok u) ->
  worker_values w row = true /\ db' = set_workers (<[w := row]> (workers db)) db.
Proof. intros H. unfold update_worker in H. go_inv. by passed. Qed.
Lemma update_worker_run w row db : worker_values w row = true ->
  update_worker w row db = (set_workers (<[w := row]> (workers db)) db, Ok tt).
Proof. intros H. unfold update_worker. go_step. by rewrite H. Qed.

Lemma put_dispatch_inv n d db db' : put_dispatch n d db = (db', Ok tt) ->
  dispatch_allowed db n d = true /\ db' = set_dispatches (<[n := d]> (dispatches db)) db.
Proof. unfold put_dispatch. intros H. go_inv. by passed. Qed.

Lemma insert_dispatch_inv n d db db' : insert_dispatch n d db = (db', Ok tt) ->
  dispatches db !! n = None /\ dispatch_allowed db n d = true /\ db' = set_dispatches (<[n := d]> (dispatches db)) db.
Proof.
  unfold insert_dispatch. intros H. go_inv. apply put_dispatch_inv in H as [? ->].
  destruct (dispatches db !! n); [done|]. done.
Qed.

Lemma update_dispatch_inv n st f e db db' : update_dispatch n st f e db = (db', Ok tt) ->
  exists d, dispatches db !! n = Some d /\ d_status d = st /\ dispatch_allowed db n (f d) = true /\
    db' = set_dispatches (<[n := f d]> (dispatches db)) db.
Proof.
  unfold update_dispatch. intros H. go_inv. destruct (dispatches db !! n) as [d|] eqn:E; [|done].
  case_bool_decide; [|done]. apply put_dispatch_inv in H as [? ->]. by exists d.
Qed.

(** ** The invariant *)
Definition serves (n : string) (d : dispatch_row) (t : TaskRun) : Prop :=
  match d_status d with
  | DispatchPending => Status t = TaskQueued
  | DispatchLeased => Status t = TaskRunning /\ exists l a, d_lease d = Some l /\ last (Attempts t) = Some a /\
      Number a = le_attempt l /\ WorkerID a = le_worker l /\ DispatchID a = n
  | _ => False
  end.

Record db_ok (db : database) : Prop := {
  db_runs : forall id s, runs db !! id = Some s -> ID (Run s) = id /\ exists c, stored_run c s;
  db_constraints : constraints db;
  db_references : forall n d, dispatches db !! n = Some d -> is_Some (runs db !! d_run d);
  db_active : forall n d, dispatches db !! n = Some d -> is_active (d_status d) = true ->
    exists s i t, runs db !! d_run d = Some s /\ Tasks (Run s) !! i = Some t /\ Key t = d_task d /\ serves n d t;
  db_working : forall id s i t, runs db !! id = Some s -> Tasks (Run s) !! i = Some t -> working (Status t) = true ->
    exists n d, dispatches db !! n = Some d /\ is_active (d_status d) = true /\ d_run d = id /\ d_task d = Key t;
}.

Lemma serves_working n d t : serves n d t -> working (Status t) = true.
Proof. unfold serves. destruct (d_status d); try done; [by intros ->|by intros [-> _]]. Qed.

Lemma active_clash d1 d2 : is_active (d_status d1) = true -> is_active (d_status d2) = true ->
  d_run d1 = d_run d2 -> d_task d1 = d_task d2 -> dispatches_clash d1 d2 = true.
Proof. intros H1 H2 H3 H4. unfold dispatches_clash. by rewrite H1, H2, !bool_decide_eq_true_2 by done. Qed.

(** At most one active dispatch per task. *)
Lemma one_active db n1 n2 d1 d2 :
  constraints db -> dispatches db !! n1 = Some d1 -> dispatches db !! n2 = Some d2 ->
  is_active (d_status d1) = true -> is_active (d_status d2) = true ->
  d_run d1 = d_run d2 -> d_task d1 = d_task d2 -> n1 = n2.
Proof.
  intros Hct H1 H2 A1 A2 Hr Ht. destruct (decide (n1 = n2)) as [|Hne]; [done|exfalso].
  pose proof (ct_unique _ Hct _ _ _ _ Hne H1 H2) as Hf. by rewrite active_clash in Hf.
Qed.

(** ** Counting dispatches *)
Definition b2n (b : bool) : nat := if b then 1 else 0.

Lemma filter_length_cons {A} (P : A -> bool) x l :
  length (filter (fun y => P y = true) (x :: l)) = b2n (P x) + length (filter (fun y => P y = true) l).
Proof. rewrite filter_cons. destruct (P x); cbn; case_decide; done. Qed.

Definition item_test (P : string -> dispatch_row -> bool) (item : string * dispatch_row) : bool := P item.1 item.2.

Lemma dispatch_list_test P db : length (dispatch_list P db) = length (filter (fun y => item_test P y = true) (map_to_list (dispatches db))).
Proof.
  unfold dispatch_list. f_equal. apply list_filter_iff. by intros [].
Qed.

Lemma count_store P db n d :
  length (dispatch_list P (set_dispatches (<[n := d]> (dispatches db)) db)) +
    match dispatches db !! n with Some d0 => b2n (P n d0) | None => 0 end =
  length (dispatch_list P db) + b2n (P n d).
Proof.
  rewrite !dispatch_list_test. cbn [dispatches set_dispatches].
  assert (Hnew : map_to_list (<[n := d]> (dispatches db)) ≡ₚ (n, d) :: map_to_list (delete n (dispatches db))).
  { rewrite <-insert_delete_eq. apply map_to_list_insert, lookup_delete_eq. }
  rewrite Hnew, filter_length_cons. destruct (dispatches db !! n) as [d0|] eqn:E.
  - rewrite <-(map_to_list_delete _ _ _ E), filter_length_cons. unfold item_test. cbn. lia.
  - rewrite delete_id by done. unfold item_test. cbn. lia.
Qed.

Lemma count_runs P rs db : dispatch_list P (set_runs rs db) = dispatch_list P db.
Proof. done. Qed.

Lemma count_map P f db : (forall n d, P n (f d) = true -> P n d = true) ->
  length (dispatch_list P (set_dispatches (f <$> dispatches db) db)) <= length (dispatch_list P db).
Proof.
  intros Hf. rewrite !dispatch_list_test. cbn [dispatches set_dispatches]. rewrite map_to_list_fmap.
  induction (map_to_list (dispatches db)) as [|[n d] l IH]; [done|]. rewrite fmap_cons, !filter_length_cons.
  change (item_test P (prod_map id f (n, d))) with (P n (f d)). change (item_test P (n, d)) with (P n d). specialize (Hf n d). destruct (P n (f d)); cbn [b2n].
  - rewrite Hf by done. cbn [b2n]. lia.
  - destruct (P n d); cbn [b2n]; lia.
Qed.

(** ** Counting working tasks *)
Lemma in_flight_flags s : in_flight s = Z.of_nat (length (filter (fun b : bool => b = true) ((fun t => working (Status t)) <$> Tasks (Run s)))).
Proof.
  unfold in_flight. f_equal. induction (Tasks (Run s)) as [|t l IH]; [done|]. rewrite fmap_cons, !filter_cons.
  destruct (working (Status t)) eqn:E; repeat case_decide; cbn; try lia; destruct (Status t); naive_solver.
Qed.

Lemma moves_flags i t t' s s' : Tasks (Run s) !! i = Some t -> length (Tasks (Run s')) = length (Tasks (Run s)) -> moves i t' s s' ->
  (fun t => working (Status t)) <$> Tasks (Run s') = <[i := working (Status t')]> ((fun t => working (Status t)) <$> Tasks (Run s)).
Proof.
  intros Ht Hlen [Ht' Hrest]. apply list_eq. intros j. destruct (decide (j = i)) as [->|Hne].
  - rewrite list_lookup_insert_eq by (rewrite length_fmap; by eapply lookup_lt_Some). by rewrite list_lookup_fmap, Ht'.
  - rewrite list_lookup_insert_ne, !list_lookup_fmap by done.
    destruct (Tasks (Run s) !! j) as [u|] eqn:Hu, (Tasks (Run s') !! j) as [u'|] eqn:Hu'; cbn; [| | |done].
    + f_equal. destruct (working (Status u)) eqn:E.
      * apply (Hrest j u Hne E) in Hu. congruence.
      * apply not_true_is_false. intros E'. apply (Hrest j u' Hne E') in Hu'. congruence.
    + apply lookup_lt_Some in Hu. apply lookup_ge_None in Hu'. lia.
    + apply lookup_lt_Some in Hu'. apply lookup_ge_None in Hu. lia.
Qed.

Lemma count_flag (l : list bool) i b b' : l !! i = Some b ->
  length (filter (fun x : bool => x = true) (<[i := b']> l)) + b2n b = length (filter (fun x : bool => x = true) l) + b2n b'.
Proof.
  revert i. induction l as [|x l IH]; intros i H; [done|]. destruct i as [|i]; cbn in H.
  - injection H as ->. change (<[0 := b']> (b :: l)) with (b' :: l). rewrite !filter_cons. destruct b, b'; repeat case_decide; cbn; try done; lia.
  - specialize (IH i H). change (<[S i := b']> (x :: l)) with (x :: <[i := b']> l). rewrite !filter_cons. case_decide; cbn [length]; lia.
Qed.

Lemma in_flight_moves i t t' s s' : Tasks (Run s) !! i = Some t -> length (Tasks (Run s')) = length (Tasks (Run s)) -> moves i t' s s' ->
  (in_flight s' + Z.of_nat (b2n (working (Status t))) = in_flight s + Z.of_nat (b2n (working (Status t'))))%Z.
Proof.
  intros Ht Hlen Hm. rewrite !in_flight_flags, (moves_flags i t t' s s' Ht Hlen Hm).
  pose proof (count_flag ((fun t => working (Status t)) <$> Tasks (Run s)) i (working (Status t)) (working (Status t'))) as H.
  rewrite list_lookup_fmap, Ht in H. specialize (H eq_refl). lia.
Qed.
