(* ===== verification/NewRuns.v ===== *)
(** * New runs are runs of the stored version

    The control plane builds a run from the definition it compiled, which it
    may have kept in memory, and stores it under a version whose definition
    went through the database.  Two compiled definitions with the same JSON
    give the same run, so the run that is stored belongs to the version that is
    stored with it. *)
From S2P Require Import Prelude Hoare GoStrings Json Model State Graph Compiler SnapshotJson CanonicalJson Scheduling Distributed Effects RunInvariant RunOperations RunResults RunProperties RunTheorems ChangeSet Stores Database Dispatch Workers Definitions DatabaseFacts DispatchSteps DispatchInvariant.

(** ** Compiled definitions *)
Lemma compiled_canonical c : compiled_wf c ->
  match_identifier (wf_ID (definition c)) = true /\ Forall canonical_task (def_Tasks (definition c)).
Proof.
  intros Hc. split; [apply Hc|]. apply Forall_lookup. intros i t Ht. pose proof (cw_tasks c Hc) as Hall. rewrite Forall_lookup in Hall.
  destruct (Hall i t Ht) as (Hk & _ & He & _). split; [done| |].
  - rewrite list_elem_of_In in He. by destruct He as [<-|[<-|[]]].
  - destruct (cw_dependencies c Hc i t Ht) as (ds & _ & Hds). apply Forall_lookup. intros k key Hkey.
    assert (E : ((index c !!.) <$> DependsOn t) !! k = (Some <$> ds) !! k) by by rewrite Hds.
    rewrite !list_lookup_fmap, Hkey in E. cbn in E. destruct (ds !! k) as [j|]; [|done]. cbn in E. injection E as E.
    apply (cw_index c Hc) in E as (u & Hu & <-). by destruct (Hall j u Hu).
Qed.

Lemma compiled_shape def c : Compile def = Ok c -> shape <$> def_Tasks (definition c) = shape <$> def_Tasks def.
Proof.
  intros (_ & _ & _ & _ & H)%Compile_sound. induction H as [|t t' l l' (t0 & Ht0 & ->) _ IH]; [done|]. rewrite !fmap_cons, IH. f_equal.
  destruct (cloneTask_same _ _ Ht0) as (Hk & _ & _ & Hd & _ & _). unfold shape. cbn. by rewrite Hk, Hd.
Qed.

Lemma clone_same d d' : cloneDefinition d = Ok d' -> wf_ID d' = wf_ID d /\ shape <$> def_Tasks d' = shape <$> def_Tasks d /\
  (Forall canonical_task (def_Tasks d) -> Forall canonical_task (def_Tasks d')).
Proof.
  unfold cloneDefinition. intros H. go_inv. split; [done|]. cbn [def_Tasks].
  match goal with Hx : cloneTasks _ = Ok _ |- _ => apply cloneTasks_inv in Hx; induction Hx as [|t t0 l l' Ht _ [IH1 IH2]] end; [done|].
  destruct (cloneTask_same _ _ Ht) as (Hk & He & _ & Hd & _ & _). split.
  - rewrite !fmap_cons, IH1. unfold shape at 1 3. by rewrite Hk, Hd.
  - intros [Hc Hl]%Forall_cons. constructor; [|by apply IH2]. destruct Hc. by split; [rewrite Hk|rewrite He|rewrite Hd].
Qed.

(** A document that decoding leaves as it is and whose defaults are filled in
    is its own compiled form. *)
Definition canonical_document (d : WorkflowDefinition) : Prop :=
  cloneDefinition d = Ok d /\ Forall (fun t => normalize t = t) (def_Tasks d).

Lemma canonical_compiled d c : canonical_document d -> Compile d = Ok c -> definition c = d.
Proof.
  intros [Hclone Hnorm] (_ & _ & Hid & Hcon & Htasks)%Compile_sound. unfold cloneDefinition in Hclone. go_inv.
  pose proof (f_equal def_Tasks Hclone) as Hts. cbn in Hts. clear Hclone. destruct d as [id con ts], (definition c) as [id' con' ts']. cbn in *. subst id' con'. f_equal.
  match goal with Hx : cloneTasks _ = Ok _ |- _ => apply cloneTasks_inv in Hx; rename Hx into Hcl end. subst a.
  revert ts' Htasks. induction ts as [|t ts IH]; intros ts' Htasks; [by apply Forall2_nil_inv_l in Htasks as ->|].
  apply Forall2_cons_inv_l in Htasks as (t' & ts2 & (t0 & Ht0 & ->) & Htasks & ->). apply Forall_cons in Hnorm as [Hn Hnorm].
  apply Forall2_cons_1 in Hcl as [Ht Hcl]. rewrite Ht in Ht0. injection Ht0 as <-. f_equal; [done|by apply IH].
Qed.

(** ** The initial tasks *)
Lemma initTasks_shape D D' T : forall T' i, shape <$> T' = shape <$> T ->
  (forall k, k < length T -> length <$> D' !! (i + k) = length <$> D !! (i + k)) ->
  forall r, initTasks i T D = Ok r -> initTasks i T' D' = Ok r.
Proof.
  induction T as [|t T IH]; intros [|t' T'] i Hshape HD r H; try done. rewrite !fmap_cons in Hshape.
  pose proof (f_equal head Hshape) as Ht. apply (inj Some) in Ht. apply (f_equal tail) in Hshape. cbn [tail] in Hshape.
  cbn [initTasks] in *. pose proof (HD 0 (Nat.lt_0_succ _)) as H0. rewrite Nat.add_0_r in H0.
  destruct (D !! i) as [ds|] eqn:E; [|done]. destruct (D' !! i) as [ds'|] eqn:E'; [|done]. cbn in H0. injection H0 as H0.
  cbn [or_panic] in *. go_inv. destruct a0 as [ts rs].
  rewrite (IH T' (S i) Hshape) with (r := (ts, rs)); [|intros k Hk; rewrite Nat.add_succ_comm; apply HD; cbn; lia|done].
  rewrite <-H. cbn. by rewrite Ht, H0.
Qed.

Lemma compiled_dependencies c c' : compiled_wf c -> compiled_wf c' -> shape <$> def_Tasks (definition c') = shape <$> def_Tasks (definition c) ->
  forall k, k < length (def_Tasks (definition c)) -> length <$> dependencies c' !! k = length <$> dependencies c !! k.
Proof.
  intros Hc Hc' Hshape k Hk. destruct (lookup_lt_is_Some_2 _ _ Hk) as [t Ht].
  assert (E : (shape <$> def_Tasks (definition c')) !! k = Some (shape t)) by by rewrite Hshape, list_lookup_fmap, Ht.
  rewrite list_lookup_fmap in E. apply fmap_Some in E as (t' & Ht' & E). unfold shape in E. injection E as _ Hdep.
  destruct (cw_dependencies c Hc k t Ht) as (ds & -> & Hds), (cw_dependencies c' Hc' k t' Ht') as (ds' & -> & Hds').
  cbn. f_equal. apply (f_equal length) in Hds, Hds'. rewrite !length_fmap in *. congruence.
Qed.

(** The run that would be made of the stored version. *)
Lemma new_run_of_stored c c' id version now s : compiled_wf c -> compiled_wf c' ->
  wf_ID (definition c') = wf_ID (definition c) -> shape <$> def_Tasks (definition c') = shape <$> def_Tasks (definition c) ->
  NewRunSnapshotForVersion id (Some c) version now = Ok s ->
  NewRunSnapshotForVersion id (Some c') version now = Ok (mkRunSnapshot (Version s) (Some (definition c')) (Run s) (Events s)).
Proof.
  intros Hc Hc' Hid Hshape H. unfold NewRunSnapshotForVersion in *. go_inv. unfold newRunSnapshot in *. go_inv.
  match goal with Hx : initTasks _ _ _ = Ok ?r |- _ =>
    apply (initTasks_shape _ (dependencies c') _ _ 0 Hshape) in Hx; [destruct r as [ts rs]|intros k Hk; by apply compiled_dependencies] end.
  go_inv. repeat match goal with Hx : ?b = false |- context [check ?b] => rewrite Hx end. rewrite !check_false.
  match goal with Hx : initTasks _ _ _ = Ok _ |- _ => rewrite Hx end. cbn. match goal with Hx : Ok _ = Ok ?a |- _ => injection Hx as <- end. cbn. by rewrite Hid.
Qed.

(** ** Storing a new run *)
Lemma insert_task_inv run task r s db db' u : runs db !! run = Some s -> insert_task run task r db = (db', Ok u) ->
  db' = set_runs (<[run := upd_Remaining (fun l => l ++ [r])
    (upd_Tasks (fun l => l ++ [mkTaskRun (Key task) (Status task) [] (ReadyAt task) (FinishedAt task)]) s)]> (runs db)) db.
Proof. intros Hs H. unfold insert_task in H. go_inv. rewrite Hs in H. by go_inv. Qed.

Lemma insert_tasks_effect run ts : forall i rs s db db' u, runs db !! run = Some s -> (forall t, t ∈ ts -> Attempts t = []) ->
  length rs = length ts -> insert_tasks run i ts rs db = (db', Ok u) ->
  db' = set_runs (<[run := upd_Remaining (fun l => l ++ rs) (upd_Tasks (fun l => l ++ ts) s)]> (runs db)) db.
Proof.
  induction ts as [|t ts IH]; intros i rs s db db' u Hs Hatt Hlen H; cbn [insert_tasks] in H.
  - destruct rs; [|done]. go_inv. apply (run_becomes_same run). rewrite Hs. f_equal.
    unfold upd_Remaining, upd_Tasks, upd_Run, set_Run. cbn. rewrite !app_nil_r. by destruct s as [? ? [] ?].
  - destruct rs as [|r rs]; [done|]. cbn [head tail] in H. go_inv.
    match goal with Hx : insert_task _ _ _ _ = _ |- _ => apply (insert_task_inv _ _ _ s) in Hx as ->; [|done] end.
    match goal with Hx : for_each _ _ _ = _ |- _ => rewrite (Hatt t) in Hx by (by left); cbn in Hx; go_inv end.
    set (s1 := upd_Remaining _ (upd_Tasks _ s)) in *.
    apply (IH (S i) rs s1) in H as ->; [|apply lookup_insert_eq|intros t' Ht'; apply Hatt; by right|lia].
    unfold set_runs. cbn. rewrite insert_insert_eq. do 2 f_equal.
    unfold s1, upd_Remaining, upd_Tasks, upd_Run, set_Run. cbn. rewrite <-!app_assoc. cbn.
    replace (mkTaskRun (Key t) (Status t) [] (ReadyAt t) (FinishedAt t)) with t; [done|].
    specialize (Hatt t (list_elem_of_here _ _)). destruct t. cbn in *. by subst.
Qed.

(** A snapshot as [NewRunSnapshotForVersion] makes it. *)
Record fresh_run (s : RunSnapshot) : Prop := {
  fh_events : Events s = [];
  fh_last : LastEventSequence (Run s) = 0%Z;
  fh_revision : Revision (Run s) = 0%Z;
  fh_attempts : forall t, t ∈ Tasks (Run s) -> Attempts t = [];
  fh_remaining : length (RemainingDependencies (Run s)) = length (Tasks (Run s));
  fh_counts : forall n, n ∈ RemainingDependencies (Run s) -> (0 <= n)%Z;
  fh_idle : forall t, t ∈ Tasks (Run s) -> Status t ∈ [TaskReady; TaskWaitingDependencies];
}.

Lemma new_run_fresh c id version now s : compiled_wf c -> NewRunSnapshotForVersion id (Some c) version now = Ok s ->
  fresh_run s /\ ID (Run s) = id /\ DefinitionVersion (Run s) = version /\ DefinitionID (Run s) = wf_ID (definition c) /\
  Definition_ s = Some (definition c) /\ id ≠ "" /\ (0 < version)%Z /\ Version s = currentSnapshotVersion /\
  run_Status (Run s) = WorkflowPending /\ CancelRequestedAt (Run s) = None.
Proof.
  intros Hc H. unfold NewRunSnapshotForVersion in H. go_inv. unfold newRunSnapshot in *. go_inv. unfold is_empty in *. passed.
  destruct (initTasks_run 0 (def_Tasks (definition c)) (dependencies c)) as (ts & rs & Hrun & Hl1 & Hl2 & Hin).
  { intros k Hk. apply lookup_lt_is_Some_2. by rewrite (cw_dep_length c Hc). }
  match goal with Hx : initTasks _ _ _ = Ok _ |- _ => rewrite Hrun in Hx; injection Hx as <- end.
  match goal with Hx : _ = Ok ?a |- _ => injection Hx as <- end. cbn. split_and!; try done.
  assert (Htask : forall t, t ∈ ts -> exists d ds, t = initial_task d ds).
  { intros t [k Hk]%list_elem_of_lookup. destruct (lookup_lt_is_Some_2 (def_Tasks (definition c)) k) as [d Hd].
    { rewrite <-Hl1. by eapply lookup_lt_Some. }
    destruct (Hin k d Hd) as (ds & _ & Ht & _). exists d, ds. congruence. }
  split; cbn; try done; [|by rewrite Hl1, Hl2| |].
  - intros t Ht. by destruct (Htask t Ht) as (d & ds & ->).
  - intros n [k Hk]%list_elem_of_lookup. destruct (lookup_lt_is_Some_2 (def_Tasks (definition c)) k) as [d Hd].
    { rewrite <-Hl2. by eapply lookup_lt_Some. }
    destruct (Hin k d Hd) as (ds & _ & _ & Hr). assert (n = Z.of_nat (length ds)) as -> by congruence. lia.
  - intros t Ht. destruct (Htask t Ht) as (d & ds & ->). cbn. case_match; [by left|by right; left].
Qed.

Lemma insertSnapshot_fresh s db db' u : fresh_run s -> insertSnapshot s db = (db', Ok u) ->
  exists row, versions db !! (DefinitionID (Run s), DefinitionVersion (Run s)) = Some row /\ runs db !! ID (Run s) = None /\
    ensureDefinitionMatches s db = (db, Ok tt) /\
    db' = set_runs (<[ID (Run s) := mkRunSnapshot (Version s) (Some (v_definition row)) (Run s) []]> (runs db)) db.
Proof.
  intros [Hev Hlast Hrev Hatt Hrem _ _] H. unfold insertSnapshot in H. rewrite Hev in H. go_inv.
  match goal with Hx : ensureDefinitionMatches s db = (?d, Ok ?v) |- _ => assert (d = db) as ->; [|destruct v; rename Hx into Hens] end.
  { match goal with Hx : ensureDefinitionMatches s db = _ |- _ => unfold ensureDefinitionMatches in Hx; go_inv; destruct (versions _ !! _); [|done]; go_inv end.
    repeat match goal with Hx : lift _ _ = _ |- _ => injection Hx as <- _ end. done. }
  match goal with Hx : insert_run _ _ = _ |- _ => unfold insert_run in Hx; go_inv; rename Hx into Hrun end. cbv zeta in Hrun.
  destruct (versions db !! _) as [row|] eqn:Hrow; [|done]. go_inv. passed. exists row.
  match goal with Hx : for_each [] _ _ = _ |- _ => cbn in Hx; go_inv end.
  match goal with Hx : insert_tasks _ _ _ _ _ = _ |- _ => eapply insert_tasks_effect in Hx; [|cbn; apply lookup_insert_eq|done|done] end.
  split_and!; [done|by destruct (runs db !! _)|done|]. subst. unfold set_runs. cbn. rewrite insert_insert_eq. do 3 f_equal.
  unfold upd_Remaining, upd_Tasks, upd_Run, set_Run. cbn. rewrite Hlast, Hrev. destruct s as [? ? [] ?]. cbn in *. by subst.
Qed.

Lemma new_run_exists c id version now : compiled_wf c -> id ≠ "" -> (0 < version)%Z ->
  exists s, NewRunSnapshotForVersion id (Some c) version now = Ok s.
Proof.
  intros Hc Hid Hv. unfold NewRunSnapshotForVersion, newRunSnapshot, is_empty, check. rewrite bool_decide_eq_false_2 by done.
  rewrite (proj2 (Z.leb_gt version 0)) by done.
  destruct (initTasks_run 0 (def_Tasks (definition c)) (dependencies c)) as (ts & rs & -> & _); [|by eexists].
  intros k Hk. apply lookup_lt_is_Some_2. by rewrite (cw_dep_length c Hc).
Qed.

Lemma checkInitialTasks_ok ts : forall ds rs, Key <$> ts = def_Key <$> ds -> length rs = length ts -> (forall n, n ∈ rs -> (0 <= n)%Z) ->
  checkInitialTasks ts ds rs = Ok tt.
Proof.
  induction ts as [|t ts IH]; intros [|d ds] [|r rs] Hk Hl Hr; try done. rewrite !fmap_cons in Hk. cbn [checkInitialTasks].
  pose proof (f_equal head Hk) as Ht. apply (inj Some) in Ht. apply (f_equal tail) in Hk. cbn in Hk. unfold check.
  rewrite bool_decide_eq_false_2 by (intros H; by apply H). rewrite (proj2 (Z.ltb_ge r 0)) by (apply Hr; by left).
  apply IH; [done|by injection Hl|]. intros n Hn. apply Hr. by right.
Qed.

(** The service's snapshots pass the repository's checks. *)
Lemma new_run_valid c id version now s : compiled_wf c -> NewRunSnapshotForVersion id (Some c) version now = Ok s ->
  validateInitialSnapshot s = Ok tt.
Proof.
  intros Hc H. destruct (new_run_fresh c id version now s Hc H) as (Hf & Hid & Hver & Hdid & Hd & Hne & Hpos & Hv & Hst & _).
  destruct (reachable_run_wf c Hc s (reachable_new _ _ _ _ _ H)) as [Hcore _].
  pose proof (run_core_length c s Hcore) as Hlen.
  assert (Hkeys : Key <$> Tasks (Run s) = def_Key <$> def_Tasks (definition c)).
  { apply list_eq_same_length with (n := length (Tasks (Run s))); [by rewrite length_fmap|by rewrite length_fmap|].
    intros i k k' _ (t & -> & Ht)%list_lookup_fmap_Some (d & -> & Hdi)%list_lookup_fmap_Some. by apply (rc_tasks _ _ Hcore i). }
  unfold validateInitialSnapshot. rewrite Hv, Hd, Hid, Hver, Hdid, Hst, (fh_revision _ Hf), (fh_events _ Hf), (fh_last _ Hf), (fh_remaining _ Hf), Hlen.
  unfold check, is_empty. rewrite !Nat.eqb_refl, (proj2 (Z.leb_gt version 0)), !bool_decide_eq_false_2 by (done || congruence). cbn.
  by rewrite checkInitialTasks_ok; [|done|apply Hf|apply Hf].
Qed.

Lemma fresh_idle s t : fresh_run s -> t ∈ Tasks (Run s) -> working (Status t) = false /\ task_status_valid (Status t) = true.
Proof. intros Hf Ht. pose proof (fh_idle _ Hf t Ht) as Hs. rewrite list_elem_of_In in Hs. by destruct Hs as [<-|[<-|[]]]. Qed.

(** ** The version a new run belongs to *)
Lemma compileStored_inv format d d' : compileStored format d = Ok d' -> exists c, Compile d = Ok c /\ cloneDefinition (definition c) = Ok d'.
Proof. unfold compileStored. destruct (Compile d) as [c| | |]; [|done..]. intros H. by exists c. Qed.

Lemma compileStored_canonical format d d' : compileStored format d = Ok d' ->
  match_identifier (wf_ID d') = true /\ Forall canonical_task (def_Tasks d') /\ wf_ID d' = wf_ID d /\ shape <$> def_Tasks d' = shape <$> def_Tasks d.
Proof.
  intros (c & Hc & Hclone)%compileStored_inv. destruct (clone_same _ _ Hclone) as (Hid & Hshape & Hcan).
  pose proof Hc as (_ & Hwf & Hid' & _)%Compile_sound. destruct (compiled_canonical c Hwf) as [H1 H2].
  split_and!; [congruence|by apply Hcan|congruence|by rewrite Hshape, (compiled_shape _ _ Hc)].
Qed.

Lemma ensureDefinitionMatches_inv s d db db' u : Definition_ s = Some d -> ensureDefinitionMatches s db = (db', Ok u) ->
  exists row c', versions db !! (DefinitionID (Run s), DefinitionVersion (Run s)) = Some row /\ Compile (v_definition row) = Ok c' /\
    wf_ID (v_definition row) = wf_ID d /\ shape <$> def_Tasks (v_definition row) = shape <$> def_Tasks d.
Proof.
  intros Hd H. unfold ensureDefinitionMatches in H. go_inv. destruct (versions db !! _) as [row|] eqn:Hrow; [|done]. go_inv.
  repeat match goal with Hx : lift _ _ = (_, Ok _) |- _ => unfold lift in Hx end. simplify_eq. passed.
  repeat match goal with Hx : encodeDefinition ?x = Ok _ |- _ => unfold encodeDefinition in Hx; destruct (json_definition x) eqn:?; [|done] end.
  simplify_eq.
  repeat match goal with Hx : compileStored ?f ?x = Ok ?y |- _ =>
    pose proof (compileStored_canonical _ _ _ Hx) as (? & ? & ? & ?); apply compileStored_inv in Hx as (? & ? & _) end.
  match goal with H1 : json_definition ?x = Some ?b, H2 : json_definition ?y = Some ?b |- _ =>
    destruct (json_definition_shape x y b) as [Eid Eshape]; [done..|] end.
  match goal with Hx : Compile (v_definition row) = Ok ?c |- _ => exists row, c end. split_and!; [done|done| |]; congruence.
Qed.

Lemma fresh_stored c s : compiled_wf c -> fresh_run s -> run_wf c s -> Definition_ s = Some (definition c) ->
  Compile (definition c) = Ok c -> cloneDefinition (definition c) = Ok (definition c) -> stored_run c s.
Proof.
  intros Hc [Hev Hlast Hrev _ _ _ _] Hwf Hd Hcomp Hclone. split; [done| |done..]. split.
  - by eapply run_wf_contiguous.
  - by rewrite Hev.
  - by rewrite Hlast, Hev.
  - rewrite Hrev. lia.
Qed.

(** What the database holds after a new run was stored: a run of the stored
    version, as it would have been made from it. *)
Lemma new_run_stored c id version now s db db' u :
  (forall ref row, versions db !! ref = Some row -> canonical_document (v_definition row)) ->
  compiled_wf c -> NewRunSnapshotForVersion id (Some c) version now = Ok s -> insertSnapshot s db = (db', Ok u) ->
  exists row c' s', versions db !! (wf_ID (definition c), version) = Some row /\ runs db !! id = None /\
    Compile (v_definition row) = Ok c' /\ NewRunSnapshotForVersion id (Some c') version now = Ok s' /\ Definition_ s' = Some (v_definition row) /\
    Run s' = Run s /\ stored_run c' s' /\ fresh_run s' /\ db' = set_runs (<[id := s']> (runs db)) db.
Proof.
  intros Hcanon Hc Hnew H. destruct (new_run_fresh c id version now s Hc Hnew) as (Hfr & Hid & Hver & Hdid & Hd & Hne & Hpos & Hv & _).
  destruct (insertSnapshot_fresh s db db' u Hfr H) as (row & Hrow & Hno & Hens & ->).
  destruct (ensureDefinitionMatches_inv s _ db db tt Hd Hens) as (row' & c' & Hrow' & Hcomp & Eid & Eshape).
  rewrite Hrow in Hrow'. injection Hrow' as <-. rewrite Hid in *. rewrite Hdid, Hver in Hrow.
  pose proof (canonical_compiled _ _ (Hcanon _ _ Hrow) Hcomp) as Hdef. pose proof (compiled_ok _ _ Hcomp) as Hc'.
  exists row, c', (mkRunSnapshot (Version s) (Some (v_definition row)) (Run s) []).
  assert (Hnew' : NewRunSnapshotForVersion id (Some c') version now = Ok (mkRunSnapshot (Version s) (Some (v_definition row)) (Run s) [])).
  { rewrite <-Hdef, <-(fh_events _ Hfr). by apply (new_run_of_stored c); [..|rewrite Hdef|rewrite Hdef|]. }
  split_and!; try done.
  - apply fresh_stored; [done|by eapply (new_run_fresh c' id version now)|by eapply reachable_run_wf, reachable_new|cbn; congruence|congruence|].
    rewrite Hdef. apply (Hcanon _ _ Hrow).
  - by eapply (new_run_fresh c' id version now).
Qed.

Lemma insert_new_inv s db db' u : insert_new s db = (db', Ok u) -> insertSnapshot s db = (db', Ok tt).
Proof.
  unfold insert_new, result_of, mbind, go_bind. destruct (insertSnapshot s db) as [db1 [[]|e| |]]; try done. by intros [= <- _].
Qed.
