(* ===== verification/Protocol.v ===== *)
(** * The dispatch protocol

    The abstract specification of the dispatcher: [protocol_step] lists what a
    transaction may do to the tables, one task at a time.  It says nothing of
    queries, locks, queues or orders.  Every operation of Dispatch.v is a
    sequence of such steps (Refinement.v); what is proved about the steps here
    and in ProtocolTheorems.v holds for all of them, in any interleaving. *)
From S2P Require Import Prelude GoStrings Json Model State Graph Compiler Scheduling Distributed Effects RunInvariant RunOperations RunResults RunProperties RunTheorems ChangeSet Stores Database Dispatch DatabaseFacts DispatchSteps DispatchInvariant.
From stdpp Require Import relations.

(** ** Moving one task *)

(** One operation on run [id] moves its task [i] from [t] to [t']. *)
Record run_moves (db : database) (id : RunID) (c : CompiledWorkflow) (s s' : RunSnapshot) (i : nat) (t t' : TaskRun) : Prop := {
  rm_run : runs db !! id = Some s;
  rm_stored : stored_run c s;
  rm_saved : stored_run c (nextRevision s s');
  rm_step : step c s s';
  rm_task : Tasks (Run s) !! i = Some t;
  rm_moves : moves i t' s s';
}.

Definition save (id : RunID) (s s' : RunSnapshot) (db : database) : database :=
  set_runs (<[id := nextRevision s s']> (runs db)) db.
Definition store_dispatch (n : string) (d : dispatch_row) (db : database) : database :=
  set_dispatches (<[n := d]> (dispatches db)) db.

(** ** Steps *)
Inductive protocol_step (db : database) : database -> Prop :=
| RetryPromoted id c s s' i t t' :
    run_moves db id c s s' i t t' -> Status t = TaskWaitingRetry -> Status t' = TaskReady ->
    protocol_step db (save id s s' db)
| Created id c s s' i t t' n kind now :
    run_moves db id c s s' i t t' -> Status t = TaskReady -> Status t' = TaskQueued ->
    not_canceled s = true -> has_slot s = true -> dispatches db !! n = None ->
    let d := mkDispatch id (Key t) kind DispatchPending None None now None in
    dispatch_allowed db n d = true ->
    protocol_step db (save id s s' (store_dispatch n d db))
| Returned id c s s' i t t' n d now :
    run_moves db id c s s' i t t' -> Status t = TaskQueued -> Status t' = TaskReady ->
    dispatches db !! n = Some d -> d_status d = DispatchPending -> d_run d = id -> d_task d = Key t ->
    let d' := set_closed DispatchCanceled None now d in
    dispatch_allowed db n d' = true ->
    protocol_step db (save id s s' (store_dispatch n d' db))
| Claimed id c s s' i t t' n d def l w a :
    run_moves db id c s s' i t t' -> Status t = TaskQueued -> Status t' = TaskRunning ->
    dispatches db !! n = Some d -> d_status d = DispatchPending -> d_run d = id -> d_task d = Key t ->
    not_canceled s = true ->
    workers db !! le_worker l = Some w -> w_status w = WorkerActive -> d_kind d ∈ w_executor_kinds w ->
    (count_leases (le_worker l) db < w_max_concurrency w)%Z ->
    def_Tasks (definition c) !! i = Some def -> le_deadline l = time_add (le_leased_at l) (millis (TimeoutMillis def)) ->
    last (Attempts t') = Some a -> Number a = le_attempt l -> WorkerID a = le_worker l -> DispatchID a = n ->
    dispatch_allowed db n (set_leased l d) = true ->
    protocol_step db (save id s s' (store_dispatch n (set_leased l d) db))
| Renewed n d l expires now :
    dispatches db !! n = Some d -> d_status d = DispatchLeased -> d_lease d = Some l ->
    (now < le_expires_at l)%Z -> (now < le_deadline l)%Z -> (expires <= le_deadline l)%Z ->
    let l' := mkLease (le_worker l) (le_attempt l) (le_token_hash l) expires (le_deadline l) (le_leased_at l) in
    dispatch_allowed db n (set_leased l' d) = true ->
    protocol_step db (store_dispatch n (set_leased l' d) db)
| Finished id c s s' i t t' n d l st hash now :
    run_moves db id c s s' i t t' -> Status t = TaskRunning -> working (Status t') = false ->
    dispatches db !! n = Some d -> d_status d = DispatchLeased -> d_run d = id -> d_task d = Key t ->
    d_lease d = Some l ->
    (st = DispatchCompleted /\ (now < le_expires_at l)%Z /\ (now < le_deadline l)%Z \/
     st = DispatchExpired /\ (le_expires_at l <= now \/ le_deadline l <= now)%Z) ->
    let d' := set_closed st hash now d in
    dispatch_allowed db n d' = true ->
    protocol_step db (save id s s' (store_dispatch n d' db))
| Canceled id c s s' now :
    runs db !! id = Some s -> stored_run c s -> stored_run c (nextRevision s s') -> step c s s' ->
    not_canceled s = false -> run_Status (Run s') = WorkflowCanceled ->
    (forall t, t ∈ Tasks (Run s') -> working (Status t) = false) ->
    (forall n d, dispatches db !! n = Some d -> dispatch_shape (revoke now id d) = true /\ dispatch_values n (revoke now id d) = true) ->
    protocol_step db (set_dispatches (revoke now id <$> dispatches db) (save id s s' db))
| CancelRequested id s at_ :
    runs db !! id = Some s -> isWorkflowTerminal (run_Status (Run s)) = false -> not_canceled s = true ->
    (Revision (Run s) + 1 < 2 ^ 63)%Z ->
    protocol_step db (set_runs (<[id := upd_Run (fun r => set_run_Revision (Revision r + 1)%Z (set_run_CancelRequestedAt (Some at_) r)) s]> (runs db)) db)
| WorkerRegistered w row :
    workers db !! w = None -> w_status row = WorkerActive -> worker_values w row = true ->
    token_hash_used (w_token_hash row) db = false ->
    protocol_step db (set_workers (<[w := row]> (workers db)) db)
| WorkerChanged w row row' :
    workers db !! w = Some row -> session_evolves row row' -> worker_values w row' = true ->
    protocol_step db (set_workers (<[w := row']> (workers db)) db).

Abbreviation protocol := (rtc protocol_step).

(** ** The invariant is kept *)
Lemma run_moves_good db id c s s' i t t' : run_moves db id c s s' i t t' -> good_step c s s'.
Proof.
  intros [_ Hst _ Hstep _ _]. pose proof (sr_compiled _ _ Hst) as Hcomp.
  eapply step_good; [by eapply compiled_ok|exact (sr_wf _ _ Hst)|exact Hstep].
Qed.

Lemma good_step_key c s s' i t : good_step c s s' -> Tasks (Run s) !! i = Some t ->
  exists t', Tasks (Run s') !! i = Some t' /\ Key t' = Key t.
Proof. intros (_ & _ & _ & He) Ht. destruct (He i t Ht) as (t' & Ht' & Hev). exists t'. split; [done|apply Hev]. Qed.

Lemma good_step_id c s s' : good_step c s s' -> ID (Run s') = ID (Run s).
Proof. intros (_ & [Hf _ _] & _). by injection Hf. Qed.

(** Which active dispatches a table has for a task. *)
Definition dispatch_of (id : RunID) (key : TaskKey) (d : dispatch_row) : Prop := d_run d = id /\ d_task d = key.

Lemma serves_active n d t : serves n d t -> is_active (d_status d) = true.
Proof. unfold serves. by destruct (d_status d). Qed.

(** Task [i] of run [id] moves to [t'], its dispatches follow and all others
    stay. *)
Lemma task_moved db db' id c s s' i t t' :
  db_ok db -> run_moves db id c s s' i t t' -> constraints db' -> runs db' = <[id := nextRevision s s']> (runs db) ->
  (forall n d, dispatches db' !! n = Some d -> d_run d = id \/ is_Some (runs db !! d_run d)) ->
  (forall n d, dispatches db' !! n = Some d -> is_active (d_status d) = true ->
     dispatch_of id (Key t) d /\ serves n d t' \/ dispatches db !! n = Some d /\ ~ dispatch_of id (Key t) d) ->
  (forall n d, dispatches db !! n = Some d -> is_active (d_status d) = true -> ~ dispatch_of id (Key t) d ->
     dispatches db' !! n = Some d) ->
  (working (Status t') = true -> exists n d, dispatches db' !! n = Some d /\ is_active (d_status d) = true /\ dispatch_of id (Key t) d) ->
  db_ok db'.
Proof.
  intros [D1 D2 D0 D3 D4] Hm Hct Hruns Href Hnew Hold Hworking. pose proof (run_moves_good _ _ _ _ _ _ _ _ Hm) as Hgood.
  destruct Hm as [Hs Hst Hsv _ Ht [Ht' Hrest]].
  assert (Hkey : Key t' = Key t).
  { destruct (good_step_key _ _ _ _ _ Hgood Ht) as (u & Hu & Hku). by simplify_eq. }
  split; [|done| | |]; rewrite Hruns.
  - intros id2 s2 [[<- <-]|[_ H]]%lookup_insert_Some; [|by apply D1].
    split; [|by exists c]. cbn. rewrite (good_step_id _ _ _ Hgood). by apply D1.
  - intros n d Hd. apply lookup_insert_is_Some'. destruct (Href n d Hd) as [->|?]; [by left|by right].
  - intros n d H Ha. destruct (Hnew n d H Ha) as [[[Hr Hk] Hsn]|[Hd Hno]].
    + exists (nextRevision s s'), i, t'. rewrite Hr, lookup_insert_eq. split_and!; [done|done|congruence|done].
    + destruct (D3 n d Hd Ha) as (s0 & j & u & Hs0 & Hu & Hku & Hsn). destruct (decide (d_run d = id)) as [E|Hne].
      2:{ exists s0, j, u. by rewrite lookup_insert_ne. }
      rewrite E, Hs in Hs0. injection Hs0 as <-. exists (nextRevision s s'), j, u. rewrite E, lookup_insert_eq.
      split_and!; [done| |done|done]. apply Hrest; [|by eapply serves_working|done].
      intros ->. apply Hno. split; congruence.
  - intros id2 s2 j u [[<- <-]|[Hne H]]%lookup_insert_Some Hu Hw.
    + destruct (decide (j = i)) as [->|Hji].
      * change (Tasks (Run s') !! i = Some u) in Hu. rewrite Ht' in Hu. injection Hu as <-. rewrite Hkey.
        destruct (Hworking Hw) as (n & d & ? & ? & ? & ?). by exists n, d.
      * change (Tasks (Run s') !! j = Some u) in Hu. rewrite (Hrest j u Hji Hw) in Hu.
        destruct (D4 _ _ _ _ Hs Hu Hw) as (n & d & Hd & Ha & Hr & Hk). exists n, d. split_and!; [|done..].
        apply Hold; [done|done|]. intros [_ Hk']. apply Hji. eapply (task_keys_inj c s); [done|done|done|congruence].
    + destruct (D4 _ _ _ _ H Hu Hw) as (n & d & Hd & Ha & Hr & Hk). exists n, d. split_and!; [|done..].
      apply Hold; [done|done|]. intros [Hr' _]. congruence.
Qed.

(** The active dispatches of the task of an active dispatch. *)
Lemma only_dispatch db n d : constraints db -> dispatches db !! n = Some d -> is_active (d_status d) = true ->
  forall n2 d2, dispatches db !! n2 = Some d2 -> is_active (d_status d2) = true ->
    n2 = n /\ d2 = d \/ n2 ≠ n /\ ~ dispatch_of (d_run d) (d_task d) d2.
Proof.
  intros Hct Hd Ha n2 d2 Hd2 Ha2. destruct (decide (n2 = n)) as [->|Hne]; [left|right]; [by simplify_eq|].
  split; [done|]. intros [Hr Hk]. apply Hne. by eapply one_active.
Qed.

Lemma no_dispatch db id s i t : db_ok db -> runs db !! id = Some s -> Tasks (Run s) !! i = Some t ->
  working (Status t) = false ->
  forall n d, dispatches db !! n = Some d -> is_active (d_status d) = true -> ~ dispatch_of id (Key t) d.
Proof.
  intros Hok Hs Ht Hw n d Hd Ha [Hr Hk]. destruct (db_active _ Hok n d Hd Ha) as (s0 & j & u & Hs0 & Hu & Hku & Hsn).
  rewrite Hr, Hs in Hs0. injection Hs0 as <-. destruct (db_runs _ Hok _ _ Hs) as (_ & c & Hst).
  assert (j = i) as -> by (eapply (task_keys_inj c s); [done|done|done|congruence]).
  simplify_eq. apply serves_working in Hsn. congruence.
Qed.

(** The dispatch of the task becomes [d']. *)
Lemma dispatch_moved db id c s s' i t t' n d d' :
  db_ok db -> run_moves db id c s s' i t t' -> dispatches db !! n = Some d -> is_active (d_status d) = true ->
  dispatch_of id (Key t) d -> dispatch_of id (Key t) d' -> dispatch_allowed db n d' = true ->
  (if is_active (d_status d') then serves n d' t' else working (Status t') = false) ->
  db_ok (save id s s' (store_dispatch n d' db)).
Proof.
  intros Hok Hm Hd Ha [Hr Hk] Hof Hallowed Hsn. pose proof (only_dispatch db n d (db_constraints _ Hok) Hd Ha) as Honly.
  rewrite Hr, Hk in Honly.
  eapply task_moved; [exact Hok|exact Hm| |done|..]; cbn.
  - apply (constraints_runs (store_dispatch n d' db)), (constraints_put _ _ _ Hallowed), Hok.
  - intros n2 d2 [[<- <-]|[_ H]]%lookup_insert_Some; [left; apply Hof|right; by eapply db_references].
  - intros n2 d2 [[<- <-]|[Hn H]]%lookup_insert_Some Ha2; [left|right]; [by rewrite Ha2 in Hsn|].
    split; [done|]. by destruct (Honly n2 d2 H Ha2) as [[? _]|[_ ?]].
  - intros n2 d2 H Ha2 Hno. destruct (Honly n2 d2 H Ha2) as [[_ ->]|[Hne _]]; [by destruct Hno|]. by rewrite lookup_insert_ne.
  - intros Hw. exists n, d'. rewrite lookup_insert_eq. split_and!; [done| |done].
    destruct (is_active (d_status d')); [done|congruence].
Qed.

Lemma dispatch_added db id c s s' i t t' n d :
  db_ok db -> run_moves db id c s s' i t t' -> working (Status t) = false -> dispatches db !! n = None ->
  dispatch_of id (Key t) d -> serves n d t' -> dispatch_allowed db n d = true ->
  db_ok (save id s s' (store_dispatch n d db)).
Proof.
  intros Hok Hm Hw Hn Hof Hsn Hallowed.
  pose proof (no_dispatch db id s i t Hok (rm_run _ _ _ _ _ _ _ _ Hm) (rm_task _ _ _ _ _ _ _ _ Hm) Hw) as Hnone.
  eapply task_moved; [exact Hok|exact Hm| |done|..]; cbn.
  - apply (constraints_runs (store_dispatch n d db)), (constraints_put _ _ _ Hallowed), Hok.
  - intros n2 d2 [[<- <-]|[_ H]]%lookup_insert_Some; [left; apply Hof|right; by eapply db_references].
  - intros n2 d2 [[<- <-]|[_ H]]%lookup_insert_Some Ha2; [by left|right]. split; [done|by eapply Hnone].
  - intros n2 d2 H Ha2 _. rewrite lookup_insert_ne; [done|]. congruence.
  - intros _. exists n, d. rewrite lookup_insert_eq. split_and!; [done|by eapply serves_active|done].
Qed.

Lemma idle_moved db id c s s' i t t' :
  db_ok db -> run_moves db id c s s' i t t' -> working (Status t) = false -> working (Status t') = false ->
  db_ok (save id s s' db).
Proof.
  intros Hok Hm Hw Hw'.
  pose proof (no_dispatch db id s i t Hok (rm_run _ _ _ _ _ _ _ _ Hm) (rm_task _ _ _ _ _ _ _ _ Hm) Hw) as Hnone.
  eapply task_moved; [exact Hok|exact Hm| |done|..]; cbn.
  - apply constraints_runs, Hok.
  - intros n d H. right. by eapply db_references.
  - intros n d H Ha. right. split; [done|by eapply Hnone].
  - done.
  - congruence.
Qed.

Lemma revoke_shape now id d : d_run (revoke now id d) = d_run d /\ d_task (revoke now id d) = d_task d /\
  d_lease (revoke now id d) = d_lease d /\ d_created_at (revoke now id d) = d_created_at d.
Proof. unfold revoke. by case_match. Qed.

Lemma revoke_active now id d : is_active (d_status (revoke now id d)) = true <-> is_active (d_status d) = true /\ d_run d ≠ id.
Proof.
  unfold revoke. case_bool_decide as E; cbn; [|naive_solver]. destruct (is_active (d_status d)) eqn:Ha; cbn; [|rewrite Ha; naive_solver].
  split; [done|]. intros [_ []]. done.
Qed.

Lemma revoke_other now id d : is_active (d_status (revoke now id d)) = true -> revoke now id d = d.
Proof. intros [Ha Hne]%revoke_active. unfold revoke. by rewrite bool_decide_eq_false_2. Qed.

Lemma revoke_clash now id d1 d2 : dispatches_clash d1 d2 = false ->
  dispatches_clash (revoke now id d1) (revoke now id d2) = false.
Proof.
  unfold dispatches_clash. destruct (revoke_shape now id d1) as (-> & -> & -> & _), (revoke_shape now id d2) as (-> & -> & -> & _).
  rewrite !orb_false_iff. intros [H1 H2]. split; [|done].
  apply not_true_is_false. rewrite !andb_true_iff, !revoke_active. intros [[[[A1 _] [A2 _]] B1] B2].
  by rewrite A1, A2, B1, B2 in H1.
Qed.

Lemma constraints_revoke now id db : constraints db ->
  (forall n d, dispatches db !! n = Some d -> dispatch_shape (revoke now id d) = true /\ dispatch_values n (revoke now id d) = true) ->
  constraints (set_dispatches (revoke now id <$> dispatches db) db).
Proof.
  intros [C1 C2 C3 C4 C5] Hrows. split; cbn; [| | |done|done].
  - intros n d. rewrite lookup_fmap. destruct (dispatches db !! n) as [d0|] eqn:E; [|done]. intros [= <-]. by apply Hrows.
  - intros n d l. rewrite lookup_fmap. destruct (dispatches db !! n) as [d0|] eqn:E; [|done]. intros [= <-].
    destruct (revoke_shape now id d0) as (_ & _ & -> & _). by eapply C2.
  - intros n1 n2 d1 d2 Hne. rewrite !lookup_fmap.
    destruct (dispatches db !! n1) as [e1|] eqn:E1; [|done]. destruct (dispatches db !! n2) as [e2|] eqn:E2; [|done].
    intros [= <-] [= <-]. by eapply revoke_clash, C3.
Qed.

Lemma canceled_ok db id c s s' now :
  db_ok db -> runs db !! id = Some s -> stored_run c s -> stored_run c (nextRevision s s') -> good_step c s s' ->
  (forall t, t ∈ Tasks (Run s') -> working (Status t) = false) ->
  (forall n d, dispatches db !! n = Some d -> dispatch_shape (revoke now id d) = true /\ dispatch_values n (revoke now id d) = true) ->
  db_ok (set_dispatches (revoke now id <$> dispatches db) (save id s s' db)).
Proof.
  intros [D1 D2 D0 D3 D4] Hs Hst Hsv Hgood Hidle Hrows. split; cbn.
  - intros id2 s2 [[<- <-]|[_ H]]%lookup_insert_Some; [|by apply D1].
    split; [|by exists c]. cbn. rewrite (good_step_id _ _ _ Hgood). by apply D1.
  - refine (constraints_runs (set_dispatches (revoke now id <$> dispatches db) db) (<[id := nextRevision s s']> (runs db)) _).
    by apply constraints_revoke.
  - intros n d. rewrite lookup_fmap. destruct (dispatches db !! n) as [d0|] eqn:E; [|done]. intros [= <-].
    destruct (revoke_shape now id d0) as (-> & _). apply lookup_insert_is_Some'. right. by eapply D0.
  - intros n d. rewrite lookup_fmap. destruct (dispatches db !! n) as [d0|] eqn:E; [|done]. intros [= <-] Ha.
    rewrite (revoke_other _ _ _ Ha). apply revoke_active in Ha as [Ha Hne]. rewrite lookup_insert_ne by done. by apply D3.
  - intros id2 s2 i t [[<- <-]|[Hne H]]%lookup_insert_Some Ht Hw.
    + apply list_elem_of_lookup_2 in Ht. rewrite (Hidle t Ht) in Hw. done.
    + destruct (D4 _ _ _ _ H Ht Hw) as (n & d & Hd & Ha & Hr & Hk). exists n, (revoke now id d).
      rewrite lookup_fmap, Hd. split_and!; [done|apply revoke_active; split; [done|congruence]| |].
      * by destruct (revoke_shape now id d) as (-> & _).
      * by destruct (revoke_shape now id d) as (_ & -> & _).
Qed.

(** A run with a cancellation request. *)
Definition with_request (at_ : time) (s : RunSnapshot) : RunSnapshot :=
  upd_Run (fun r => set_run_Revision (Revision r + 1)%Z (set_run_CancelRequestedAt (Some at_) r)) s.

Lemma request_stored c s at_ : stored_run c s -> (Revision (Run s) + 1 < 2 ^ 63)%Z -> stored_run c (with_request at_ s).
Proof.
  intros [[[H1 H2 H3 H4 H5 H6] H7] [L1 L2 L3 L4] Hd Hcomp Hclone] Hr. split; [|split; [done|done|done|cbn; lia]|done|done|done].
  split; [|exact H7]. split; [exact H1|exact H2|by eapply audit_ok_ext; [..|exact H3]|exact H4|exact H5|exact H6].
Qed.

Lemma request_ok db id s at_ :
  db_ok db -> runs db !! id = Some s -> (Revision (Run s) + 1 < 2 ^ 63)%Z ->
  db_ok (set_runs (<[id := with_request at_ s]> (runs db)) db).
Proof.
  intros [D1 D2 D0 D3 D4] Hs Hr. split; cbn; [|by apply constraints_runs|..].
  - intros id2 s2 [[<- <-]|[_ H]]%lookup_insert_Some; [|by apply D1].
    destruct (D1 _ _ Hs) as (Hid & c & Hst). split; [done|]. exists c. by apply request_stored.
  - intros n d Hd. apply lookup_insert_is_Some'. right. by eapply D0.
  - intros n d H Ha. destruct (D3 n d H Ha) as (s0 & i & t & Hs0 & Ht & Hk & Hsn).
    destruct (decide (d_run d = id)) as [E|Hne]; [|exists s0, i, t; by rewrite lookup_insert_ne].
    rewrite E, Hs in Hs0. injection Hs0 as <-. exists (with_request at_ s), i, t. by rewrite E, lookup_insert_eq.
  - intros id2 s2 i t [[<- <-]|[Hne H]]%lookup_insert_Some Ht Hw; [by apply (D4 _ s i)|by eapply D4].
Qed.

Lemma workers_ok db w row : db_ok db -> worker_values w row = true ->
  (forall v r, workers db !! v = Some r -> w_token_hash r = w_token_hash row -> v = w) ->
  db_ok (set_workers (<[w := row]> (workers db)) db).
Proof. intros [D1 D2 D0 D3 D4] Hv Hu. split; [done|by apply constraints_worker|done|done|done]. Qed.

Lemma renewed_ok db n d l l' :
  db_ok db -> dispatches db !! n = Some d -> d_status d = DispatchLeased -> d_lease d = Some l ->
  le_worker l' = le_worker l -> le_attempt l' = le_attempt l ->
  dispatch_allowed db n (set_leased l' d) = true -> db_ok (store_dispatch n (set_leased l' d) db).
Proof.
  intros [D1 D2 D0 D3 D4] Hd Hst Hl Hw Ha Hallowed. split; cbn; [done|by apply (constraints_put _ _ _ Hallowed)|..].
  - intros n2 d2 [[<- <-]|[_ H]]%lookup_insert_Some; [exact (D0 n d Hd)|by eapply D0].
  - intros n2 d2 [[<- <-]|[_ H]]%lookup_insert_Some Ha2; [|by apply D3].
    destruct (D3 n d Hd) as (s & i & t & Hs & Ht & Hk & Hsn); [by rewrite Hst|].
    exists s, i, t. split_and!; [done..|]. unfold serves in Hsn |- *. rewrite Hst in Hsn. cbn.
    destruct Hsn as (Hrun & l0 & a & Hl0 & Hlast & H1 & H2 & H3). rewrite Hl in Hl0. injection Hl0 as <-.
    split; [done|]. exists l', a. split_and!; congruence.
  - intros id s i t Hs Ht Hwk. destruct (D4 _ _ _ _ Hs Ht Hwk) as (n2 & d2 & Hd2 & Ha2 & Hr & Hk).
    destruct (decide (n2 = n)) as [->|Hne]; [|exists n2, d2; by rewrite lookup_insert_ne].
    rewrite Hd in Hd2. injection Hd2 as <-. exists n, (set_leased l' d). by rewrite lookup_insert_eq.
Qed.

Lemma protocol_step_ok db db' : db_ok db -> protocol_step db db' -> db_ok db'.
Proof.
  intros Hok Hstep. destruct Hstep.
  - eapply idle_moved; [done..|by rewrite H0|by rewrite H1].
  - eapply dispatch_added; [done..|by rewrite H0|done|done|by cbn|done].
  - eapply dispatch_moved; [done|done|exact H2|by rewrite H3|done|done|done|by cbn; rewrite H1].
  - eapply dispatch_moved; [done|done|exact H2|by rewrite H3|done|done|done|].
    cbn. split; [done|]. by exists l, a.
  - by eapply renewed_ok.
  - eapply dispatch_moved; [done|done|exact H2|by rewrite H3|done|done|done|].
    by destruct H7 as [[-> _]|[-> _]].
  - eapply canceled_ok; [done..| |done|done].
    eapply step_good; [by eapply compiled_ok, sr_compiled|exact (sr_wf _ _ H0)|done].
  - by apply request_ok.
  - apply workers_ok; [done|done|]. intros v r Hv E. by destruct (token_hash_unused _ _ H2 v r Hv).
  - apply workers_ok; [done|done|]. intros v r Hv E. eapply (ct_tokens _ (db_constraints _ Hok)); [done..|].
    by rewrite E, (sv_token_hash _ _ H0).
Qed.

(** ** Dispatch rows keep their identity *)
Record same_lease (l l' : lease_columns) : Prop := {
  sl_worker : le_worker l' = le_worker l;
  sl_attempt : le_attempt l' = le_attempt l;
  sl_token : le_token_hash l' = le_token_hash l;
  sl_deadline : le_deadline l' = le_deadline l;
  sl_leased_at : le_leased_at l' = le_leased_at l;
}.
Record row_evolves (d d' : dispatch_row) : Prop := {
  re_run : d_run d' = d_run d;
  re_task : d_task d' = d_task d;
  re_kind : d_kind d' = d_kind d;
  re_created : d_created_at d' = d_created_at d;
  re_lease : forall l, d_lease d = Some l -> exists l', d_lease d' = Some l' /\ same_lease l l';
  re_closed : is_active (d_status d) = false -> d' = d;
}.
#[export] Instance row_evolves_refl : Reflexive row_evolves.
Proof. intros d. split; try done. intros l Hl. by exists l. Qed.
#[export] Instance row_evolves_trans : Transitive row_evolves.
Proof.
  intros d1 d2 d3 [] []. split; try congruence.
  - intros l Hl. destruct (re_lease0 l Hl) as (l2 & Hl2 & []). destruct (re_lease1 l2 Hl2) as (l3 & Hl3 & []).
    exists l3. split; [done|split; congruence].
  - intros Ha. rewrite (re_closed0 Ha) in *. by apply re_closed1.
Qed.

Lemma row_stored db n d d' n0 d0 : dispatches db !! n = Some d -> row_evolves d d' -> dispatches db !! n0 = Some d0 ->
  exists d1, <[n := d']> (dispatches db) !! n0 = Some d1 /\ row_evolves d0 d1.
Proof.
  intros Hd Hev Hd0. destruct (decide (n0 = n)) as [->|Hne].
  - simplify_eq. exists d'. by rewrite lookup_insert_eq.
  - exists d0. by rewrite lookup_insert_ne.
Qed.

Lemma row_closes d st hash now : is_active (d_status d) = true -> row_evolves d (set_closed st hash now d).
Proof. intros Ha. split; try done; [intros l Hl; by exists l|congruence]. Qed.

Lemma row_leased d l' : is_active (d_status d) = true -> (forall l, d_lease d = Some l -> same_lease l l') ->
  row_evolves d (set_leased l' d).
Proof. intros Ha Hl. split; try done; [intros l ?; exists l'; split; [done|by apply Hl]|congruence]. Qed.

Lemma row_revoked now id d : row_evolves d (revoke now id d).
Proof.
  unfold revoke. destruct (bool_decide (d_run d = id) && is_active (d_status d)) eqn:E; [|done].
  apply andb_true_iff in E as [_ Ha]. by apply row_closes.
Qed.

Lemma step_rows db db' n d : constraints db -> protocol_step db db' -> dispatches db !! n = Some d ->
  exists d', dispatches db' !! n = Some d' /\ row_evolves d d'.
Proof.
  intros Hct Hstep Hd. destruct Hstep; cbn; try (by exists d).
  - exists d. rewrite lookup_insert_ne; [done|congruence].
  - eapply row_stored; [done| |done]. apply row_closes. by rewrite H3.
  - eapply row_stored; [done| |done]. apply row_leased; [by rewrite H3|]. intros l0 Hl0.
    destruct (ct_rows _ Hct _ _ H2) as [Hsh _]. unfold dispatch_shape in Hsh. rewrite H3, Hl0 in Hsh. done.
  - eapply row_stored; [done| |done]. apply row_leased; [by rewrite H0|]. intros l0 Hl0. simplify_eq. done.
  - eapply row_stored; [done| |done]. apply row_closes. by rewrite H3.
  - exists (revoke now id d). rewrite lookup_fmap, Hd. split; [done|apply row_revoked].
Qed.
