(* ===== verification/Refinement.v ===== *)
(** * The dispatcher implements the protocol

    Every operation of Dispatch.v, and recording a cancellation request, is a
    sequence of steps of Protocol.v when it commits and nothing when it does
    not.  The dead error branches are discharged on the way: in a state that
    satisfies the invariant a run is found, loads, and compiles. *)
From S2P Require Import Prelude Hoare GoStrings Json Model State Graph Compiler Scheduling Distributed Effects RunInvariant RunOperations RunResults RunProperties RunTheorems ChangeSet Stores Database Dispatch Workers Preserves DatabaseFacts DispatchSteps DispatchInvariant Protocol.
From stdpp Require Import relations sorting.

Lemma protocol_ok db db' : db_ok db -> protocol db db' -> db_ok db'.
Proof. intros H Hr. induction Hr; [done|]. by apply IHHr, (protocol_step_ok x). Qed.

Lemma protocol_rows db db' n d : db_ok db -> protocol db db' -> dispatches db !! n = Some d ->
  exists d', dispatches db' !! n = Some d' /\ row_evolves d d'.
Proof.
  intros Hok Hr. revert d. induction Hr as [db|db1 db2 db3 Hs Hr IH]; intros d Hd; [by exists d|].
  destruct (step_rows _ _ _ _ (db_constraints _ Hok) Hs Hd) as (d2 & Hd2 & E2).
  destruct (IH (protocol_step_ok _ _ Hok Hs) _ Hd2) as (d3 & Hd3 & E3). exists d3. split; [done|by etrans].
Qed.

(** A body that succeeds is a sequence of steps; a call is one in any case. *)
Definition implemented (db db' : database) : Prop := db_ok db -> protocol db db'.
#[export] Instance implemented_preorder : PreOrder implemented.
Proof.
  split; [intros db _; apply rtc_refl|]. intros db1 db2 db3 H1 H2 Hok. pose proof (H1 Hok) as Hr. etrans; [exact Hr|].
  by eapply H2, protocol_ok.
Qed.
Abbreviation refines := (preserves implemented).
Abbreviation call_refines := (always implemented).

(** Each iteration may rely on a fact that steps do not change. *)
Lemma refines_for_each {A} (P : A -> database -> Prop) (l : list A) (f : A -> go database unit) db db' a :
  (forall x db1 db2, db_ok db1 -> P x db1 -> protocol db1 db2 -> P x db2) ->
  (forall x db1 db2 u, db_ok db1 -> P x db1 -> f x db1 = (db2, Ok u) -> protocol db1 db2) ->
  (forall x, x ∈ l -> P x db) -> db_ok db -> for_each l f db = (db', Ok a) -> protocol db db'.
Proof.
  intros HP Hf. revert db. induction l as [|x l IH]; intros db Hl Hok H; cbn in H; go_inv; [apply rtc_refl|].
  pose proof (Hf x _ _ _ Hok (Hl x (list_elem_of_here _ _)) Hm) as H1. etrans; [exact H1|].
  eapply IH; [|by eapply protocol_ok|exact H]. intros y Hy. eapply HP; [exact Hok| |exact H1]. apply Hl. by right.
Qed.

(** ** Loading and saving *)
Lemma loadSnapshot_inv db db' id s : db_ok db -> loadSnapshot id db = (db', Ok s) ->
  db' = db /\ runs db !! id = Some s /\ exists c, stored_run c s /\ compiled_wf c.
Proof.
  intros Hok H. destruct (runs db !! id) as [s0|] eqn:E.
  - destruct (db_runs _ Hok _ _ E) as (Hid & c & Hst). rewrite (loadSnapshot_stored c s0 id db E Hst) in H. injection H as <- <-.
    split_and!; [done..|]. exists c. split; [done|by eapply stored_compiled].
  - unfold loadSnapshot in H. go_inv. by rewrite E in H.
Qed.

Lemma on_copy_inv {A} (op : go RunSnapshot A) s db db' s' a : on_copy op s db = (db', Ok (s', a)) ->
  db' = db /\ op s = (s', Ok a).
Proof. unfold on_copy, cloneRepositorySnapshot. destruct (op s) as [s1 []]; intros H; by simplify_eq. Qed.

Ltac copied s' r Hrun :=
  match goal with Hx : on_copy _ _ _ = (_, Ok ?p) |- _ =>
    destruct p as [s' r]; apply on_copy_inv in Hx as [-> Hrun] end.

Lemma step_of c op s s' : enabled op s -> exec c op s = (s', Ok tt) -> step c s s'.
Proof. intros. by exists op. Qed.

Lemma exec_bind {A} (m : go RunSnapshot A) s s' a : m s = (s', Ok a) -> (_ ← m; mret tt) s = (s', Ok tt).
Proof. intros H. by rewrite (bind_run _ _ _ _ _ H). Qed.

(** The row of the dispatch may be written before the run is saved. *)
Lemma save_moves db0 db db' id c s s' i t t' :
  db_ok db0 -> runs db0 !! id = Some s -> stored_run c s -> good_step c s s' ->
  Tasks (Run s) !! i = Some t -> moves i t' s s' -> save_changes s s' db = (db', Ok tt) -> runs db = runs db0 -> step c s s' ->
  run_moves db0 id c s s' i t t' /\ db' = save id s s' db.
Proof.
  intros Hok Hs Hst Hgood Ht Hm Hsave Hr Hstep. destruct (db_runs _ Hok _ _ Hs) as [Hid _].
  destruct (save_run c s s' id db db' Hst Hgood) as [-> Hsv]; [by rewrite Hr|done|done|]. split; [by split|done].
Qed.

Lemma taskIndexByKey_Some tasks key i : taskIndexByKey tasks key = Some i ->
  exists t, tasks !! i = Some t /\ Key t = key.
Proof.
  unfold taskIndexByKey. destruct (list_find _ _) as [[j t]|] eqn:E; [|done]. intros [= <-].
  apply list_find_Some in E as (? & ? & _). by exists t.
Qed.

(** The dispatch names a queued task of its run. *)
Lemma queued_task tasks key e (db db' : database) i :
  (match taskIndexByKey tasks key with
   | Some i => task ← deref (tasks !! i); if bool_decide (Status task ≠ TaskQueued) then throw e else mret i
   | None => throw e
   end) db = (db', Ok i) ->
  db' = db /\ exists t, tasks !! i = Some t /\ Key t = key /\ Status t = TaskQueued.
Proof.
  destruct (taskIndexByKey _ _) as [j|] eqn:Hj; [|done]. intros H. apply taskIndexByKey_Some in Hj as (t & Ht & Hk).
  go_inv. simplify_eq. case_bool_decide as Hq; go_inv. split; [done|by exists t].
Qed.

Ltac loaded Hs Hst Hcw :=
  match goal with Hx : loadSnapshot _ _ = (_, Ok ?s) |- _ =>
    let c := fresh "c" in apply loadSnapshot_inv in Hx as (-> & Hs & c & Hst & Hcw); [|done] end.

(** ** Retries *)
Lemma promoteDueRetry_refines at_ id : refines (promoteDueRetry at_ id).
Proof.
  intros db db' [] H Hok. unfold promoteDueRetry in H. go_inv.
  apply loadSnapshot_inv in Hm as (-> & Hs & c & Hst & Hc); [|done]. rename a into s.
  unfold firstDueRetry in H. destruct (list_find _ _) as [[i t]|] eqn:E; [|cbn in H; go_inv; apply rtc_refl].
  apply list_find_Some in E as (Ht & _ & _). cbn in H. go_inv. copied s' r Hrun. go_inv. passed. subst r. simplify_eq.
  match goal with Hx : last _ = Some ?a |- _ => rename Hx into Hlast end.
  destruct (retry_moves c Hc i _ _ _ _ _ (sr_wf _ _ Hst) Ht Hlast Hrun) as (Hw & Hgood & Hmv).
  destruct (save_moves db db db' id c s s' i _ _ Hok Hs Hst Hgood Ht Hmv H eq_refl) as [Hrm ->].
  - eapply (step_of c (OpRetryReady _ _ _)); [done|]. by eapply exec_bind.
  - apply rtc_once. by eapply RetryPromoted.
Qed.

Lemma promoteDueRetries_refines skipped at_ limit text_le : refines (promoteDueRetries text_le skipped at_ limit).
Proof.
  intros db db' a H Hok. unfold promoteDueRetries in H. go_inv.
  eapply (refines_for_each (fun _ _ => True)); [done| |done|exact Hok|exact H].
  intros id db1 db2 u Hok1 _ H1. by eapply promoteDueRetry_refines.
Qed.

(** ** Orphans *)

(** What a query has read about a dispatch and later statements rely on. *)
Definition scanned (item : string * dispatch_row) (db : database) : Prop :=
  exists d, dispatches db !! item.1 = Some d /\ row_evolves item.2 d.

Lemma scanned_stable item db db' : db_ok db -> scanned item db -> protocol db db' -> scanned item db'.
Proof.
  intros Hok (d & Hd & E) Hr. destruct (protocol_rows _ _ _ _ Hok Hr Hd) as (d' & Hd' & E'). exists d'. split; [done|by etrans].
Qed.

Lemma returnOrphan_refines at_ item db db' u :
  db_ok db -> scanned item db -> returnOrphan at_ item db = (db', Ok u) -> protocol db db'.
Proof.
  intros Hok (d & Hd & Hev) H. unfold returnOrphan in H. go_inv. rewrite Hd in H.
  case_bool_decide as Hp; [go_inv; apply rtc_refl|]. go_inv.
  rewrite <-(re_run _ _ Hev) in *.
  loaded Hs Hst Hcw. match goal with Hx : runs _ !! _ = Some ?a |- _ => rename a into s end.
  match goal with Hx : _ = (_, Ok ?a) |- _ => apply queued_task in Hx as (-> & t & Ht & Hk & Hq); rename a into i end.
  copied s' r Hrun. go_inv.
  destruct (return_moves c Hcw i t _ _ _ _ _ (sr_wf _ _ Hst) Ht Hq Hrun) as (_ & Hgood & Hmv).
  match goal with Hx : save_changes _ _ _ = (_, Ok ?u) |- _ => destruct u;
    destruct (save_moves _ _ _ _ _ _ _ _ _ _ Hok Hs Hst Hgood Ht Hmv Hx eq_refl) as [Hrm ->] end.
  - eapply (step_of c (OpReturn _ _ _)); [|by destruct r; exact Hrun]. cbn. rewrite Nat2Z.id. intros. by simplify_eq.
  - destruct u. apply update_dispatch_inv in H as (d1 & Hd1 & _ & Hallowed & ->).
    assert (d1 = d) as -> by (cbn in Hd1; congruence). apply rtc_once.
    exact (Returned db _ c s s' i t _ item.1 d at_ Hrm Hq eq_refl Hd Hp eq_refl (eq_sym Hk) Hallowed).
Qed.

Lemma order_by_Permutation {A} (le : A -> A -> bool) l : order_by le l ≡ₚ l.
Proof. apply merge_sort_Permutation. Qed.

Lemma taken_elem {A} (le : A -> A -> bool) n l x : x ∈ take n (order_by le l) -> x ∈ l.
Proof. intros (i & Hx & _)%elem_of_take. rewrite <-(order_by_Permutation le l). by eapply list_elem_of_lookup_2. Qed.

Lemma fmap_sublist {A B} (f : A -> B) l k : l `sublist_of` k -> f <$> l `sublist_of` f <$> k.
Proof. induction 1; cbn; by constructor. Qed.

Lemma taken_NoDup {A B} (f : A -> B) (le : A -> A -> bool) n l : NoDup (f <$> l) -> NoDup (f <$> take n (order_by le l)).
Proof.
  intros H. rewrite <-(order_by_Permutation le l) in H. eapply sublist_NoDup; [exact H|].
  apply fmap_sublist, sublist_take.
Qed.

Lemma dispatch_list_elem P db n d : (n, d) ∈ dispatch_list P db <-> dispatches db !! n = Some d /\ P n d = true.
Proof. unfold dispatch_list. rewrite list_elem_of_filter, elem_of_map_to_list. naive_solver. Qed.

Lemma dispatch_list_NoDup P db : NoDup (fst <$> dispatch_list P db).
Proof.
  unfold dispatch_list. eapply sublist_NoDup; [apply (NoDup_fst_map_to_list (dispatches db))|].
  apply fmap_sublist, sublist_filter.
Qed.

Lemma scanned_now item P db : item ∈ dispatch_list P db -> scanned item db.
Proof. destruct item as [n d]. rewrite dispatch_list_elem. intros [Hd _]. by exists d. Qed.

Lemma returnOrphaned_refines text_le at_ limit : refines (returnOrphanedPendingDispatches text_le at_ limit).
Proof.
  intros db db' a H Hok. unfold returnOrphanedPendingDispatches in H. go_inv.
  eapply (refines_for_each scanned); [|apply returnOrphan_refines| |exact Hok|exact H].
  - intros. by eapply scanned_stable.
  - intros item Hi. eapply scanned_now. by eapply taken_elem.
Qed.

(** ** Creating dispatches *)
Lemma createDispatch_refines tokens now created id i kind db db' u s t c :
  db_ok db -> runs db !! id = Some s -> stored_run c s -> compiled_wf c -> Tasks (Run s) !! i = Some t ->
  Status t = TaskReady -> not_canceled s = true -> has_slot s = true ->
  createDispatch tokens now created id s i kind db = (db', Ok u) ->
  protocol_step db db' /\ forall id', id' ≠ id -> runs db' !! id' = runs db !! id'.
Proof.
  intros Hok Hs Hst Hcw Ht Hr Hnc Hslot H. unfold createDispatch in H. go_inv. simplify_eq.
  match goal with Hx : lift _ _ = _ |- _ => unfold lift in Hx; injection Hx as <- _ end.
  match goal with Hx : insert_dispatch _ _ _ = (_, Ok ?u) |- _ => destruct u; apply insert_dispatch_inv in Hx as (Hn & Hallowed & ->) end.
  copied s' r Hrun. destruct u, r.
  destruct (queue_moves c Hcw i t _ _ _ _ (sr_wf _ _ Hst) Ht Hr Hrun) as (_ & Hgood & Hmv).
  destruct (save_moves db _ _ id c s s' i _ _ Hok Hs Hst Hgood Ht Hmv H eq_refl) as [Hrm ->].
  { eapply (step_of c (OpQueue _ _)); [done|exact Hrun]. }
  split.
  - exact (Created db id c s s' i t _ _ kind now Hrm Hr eq_refl Hnc Hslot Hn Hallowed).
  - intros id' Hne. cbn. by rewrite lookup_insert_ne.
Qed.

Lemma firstTaskWithStatus_Some tasks st i : firstTaskWithStatus tasks st = Some i ->
  exists t, tasks !! i = Some t /\ Status t = st.
Proof.
  unfold firstTaskWithStatus. destruct (list_find _ _) as [[j t]|] eqn:E; [|done]. intros [= <-].
  apply list_find_Some in E as (? & ? & _). by exists t.
Qed.

Lemma createLoop_refines tokens now available ids : forall created capacity db db' n,
  db_ok db -> NoDup ids ->
  (forall id, id ∈ ids -> exists s, runs db !! id = Some s /\ not_canceled s = true /\ has_slot s = true) ->
  createLoop tokens now available created capacity ids db = (db', Ok n) -> protocol db db'.
Proof.
  induction ids as [|id ids IH]; intros created capacity db db' n Hok Hnd Hids H; cbn [createLoop] in H; [go_inv; apply rtc_refl|].
  destruct (available <=? created)%nat; [go_inv; apply rtc_refl|]. apply NoDup_cons in Hnd as [Hni Hnd].
  destruct (Hids id (list_elem_of_here _ _)) as (s & Hs & Hnc & Hslot).
  assert (Hrest : forall id', id' ∈ ids -> exists s, runs db !! id' = Some s /\ not_canceled s = true /\ has_slot s = true).
  { intros id' Hin. apply Hids. by right. }
  go_inv. loaded Hs' Hst Hcw. rewrite Hs in Hs'. injection Hs' as <-.
  destruct (firstTaskWithStatus _ _) as [i|] eqn:Hi; [|by eapply IH].
  apply firstTaskWithStatus_Some in Hi as (t & Ht & Hr). go_inv. cbv zeta in H.
  case_match; [by eapply IH|]. go_inv.
  match goal with Hx : createDispatch _ _ _ _ _ _ _ _ = _ |- _ =>
    destruct (createDispatch_refines _ _ _ _ _ _ _ _ _ _ _ _ Hok Hs Hst Hcw Ht Hr Hnc Hslot Hx) as [Hstep Hsame] end.
  eapply rtc_l; [exact Hstep|]. eapply IH; [by eapply protocol_step_ok|done| |exact H].
  intros id' Hin. rewrite Hsame by (by intros ->). by apply Hrest.
Qed.

Lemma candidate_runs_ok text_le skipped limit db :
  NoDup (candidate_runs text_le skipped limit db) /\
  forall id, id ∈ candidate_runs text_le skipped limit db ->
    exists s, runs db !! id = Some s /\ not_canceled s = true /\ has_slot s = true.
Proof.
  unfold candidate_runs. set (rows := filter _ _). rewrite <-fmap_take. split.
  - apply taken_NoDup. eapply sublist_NoDup; [apply (NoDup_fst_map_to_list (runs db))|].
    apply fmap_sublist, sublist_filter.
  - intros id ([id' s] & -> & Hin%taken_elem)%list_elem_of_fmap. subst rows.
    apply list_elem_of_filter in Hin as [Hf Hin%elem_of_map_to_list]. passed. exists s. by split_and!.
Qed.

Section repository.
Context (sha256 : string -> string).
Context (text_le : string -> string -> bool) (leaseDuration workerHeartbeatInterval : duration).

Lemma CreateDispatches_refines end_ skipped tokens now limit :
  call_refines (CreateDispatches text_le end_ skipped tokens now limit).
Proof.
  apply always_fail_if; [apply _|]. intros _. apply always_transaction; [apply _|]. intros db db' n H Hok. go_inv.
  match goal with Hx : returnOrphanedPendingDispatches _ _ _ _ = _ |- _ => pose proof (returnOrphaned_refines _ _ _ _ _ _ Hx Hok) as H1 end.
  pose proof (protocol_ok _ _ Hok H1) as Hok1.
  match goal with Hx : promoteDueRetries _ _ _ _ _ = _ |- _ => pose proof (promoteDueRetries_refines _ _ _ _ _ _ _ Hx Hok1) as H2 end.
  pose proof (protocol_ok _ _ Hok1 H2) as Hok2.
  etrans; [exact H1|]. etrans; [exact H2|]. cbv zeta in H.
  case_match; [go_inv; apply rtc_refl|]. case_bool_decide; [go_inv; apply rtc_refl|].
  match type of H with createLoop _ _ _ _ _ (candidate_runs _ ?sk ?l ?d) _ = _ => destruct (candidate_runs_ok text_le sk l d) as [Hnd Hids] end.
  by eapply createLoop_refines.
Qed.

(** ** Claiming *)
Lemma claimOne_refines token now w row n d s db db' lease :
  db_ok db -> dispatches db !! n = Some d -> d_status d = DispatchPending ->
  runs db !! d_run d = Some s -> not_canceled s = true ->
  workers db !! w = Some row -> w_status row = WorkerActive -> d_kind d ∈ w_executor_kinds row ->
  (count_leases w db < w_max_concurrency row)%Z ->
  claimOne sha256 leaseDuration token now w (n, d) db = (db', Ok lease) ->
  exists l s', protocol_step db db' /\ not_canceled s' = true /\ le_worker l = w /\
    db' = set_runs (<[d_run d := s']> (runs db)) (store_dispatch n (set_leased l d) db) /\
    MatchesToken sha256 (cl_token lease) (le_token_hash l) = negb (is_empty (cl_token lease)) /\
    cl_dispatch lease = n /\ cl_run lease = d_run d /\ cl_task lease = d_task d /\ cl_attempt lease = le_attempt l /\
    cl_deadline lease = le_deadline l /\ cl_expires_at lease = le_expires_at l /\
    (le_expires_at l <= time_add now leaseDuration)%Z.
Proof.
  intros Hok Hd Hp Hs Hnc Hw Hact Hkind Hcap H. unfold claimOne in H. cbn [fst snd] in H. go_inv.
  loaded Hs' Hst Hcw. rewrite Hs in Hs'. injection Hs' as <-.
  match goal with Hx : _ = (_, Ok ?a) |- _ => apply queued_task in Hx as (-> & t & Ht & Hk & Hq); rename a into i end.
  go_inv. rewrite (sr_definition _ _ Hst) in *. simplify_eq.
  match goal with Hx : lift _ _ = _ |- _ => unfold lift in Hx; rewrite (sr_compiled _ _ Hst) in Hx; injection Hx as <- <- end.
  copied s' request Hrun. go_inv.
  match goal with Hx : lift _ _ = _ |- _ => unfold lift in Hx; injection Hx as <- Htoken end.
  destruct (start_moves c Hcw i t _ _ _ _ _ _ (sr_wf _ _ Hst) Ht Hq Hrun) as ((Hreq & Hreqr & Hreqt) & _ & _ & Hgood & Hmv).
  match goal with Hx : update_dispatch _ _ _ _ _ = (_, Ok ?u) |- _ => destruct u;
    apply update_dispatch_inv in Hx as (d1 & Hd1 & _ & Hallowed & ->) end.
  rewrite Hd in Hd1. injection Hd1 as <-. set (l := mkLease _ _ _ _ _ _) in *.
  match goal with Hx : save_changes _ _ _ = (_, Ok ?u) |- _ => destruct u;
    destruct (save_moves db _ _ _ c s s' i _ _ Hok Hs Hst Hgood Ht Hmv Hx eq_refl) as [Hrm ->] end.
  { eapply (step_of c (OpStart _ _ _ _)); [|by eapply exec_bind].
    eapply running_run; [exact (sr_wf _ _ Hst)|exact Ht|by rewrite Hq|by rewrite Hq]. }
  match goal with Hx : def_Tasks _ !! i = Some ?x |- _ => rename Hx into Hdef; rename x into def end.
  pose proof (dispatch_allowed_inv _ _ _ Hallowed) as (_ & Hvals & _).
  destruct (db_runs _ Hok _ _ Hs) as [Hid _].
  exists l, (nextRevision s s'). split_and!; try done.
  - eapply (Claimed db _ c s s' i t _ n d def l row (new_attempt t w n now)); try done.
    + cbn. by rewrite last_snoc.
  - unfold not_canceled in *. destruct Hgood as (_ & [Hf _ _] & _). injection Hf as _ _ _ _ _ _ Hcan _. cbn. by rewrite Hcan.
  - unfold MatchesToken. cbn. unfold dispatch_values in Hvals. subst l. cbn in Hvals |- *. passed.
    match goal with Hx : (String.length (DigestToken _ _) =? 32) = true |- _ => rewrite Hx end.
    rewrite bool_decide_eq_true_2 by done. by destruct (is_empty _).
  - cbn. congruence.
  - cbn. congruence.
  - cbn. destruct (after _ _) eqn:E; unfold after in E; [apply Z.ltb_lt in E; lia|lia].
Qed.

Lemma leased_pending w d : d_status d = DispatchPending -> leased_to w d = false.
Proof. intros E. unfold leased_to. by rewrite E. Qed.
Lemma leased_set w l d : le_worker l = w -> leased_to w (set_leased l d) = true.
Proof. intros E. unfold leased_to. cbn. by rewrite !bool_decide_eq_true_2 by (rewrite ?E; done). Qed.

Lemma count_claim w n d l db rs :
  dispatches db !! n = Some d -> d_status d = DispatchPending -> le_worker l = w ->
  count_leases w (set_runs rs (store_dispatch n (set_leased l d) db)) = (count_leases w db + 1)%Z.
Proof.
  intros Hd Hp Hl. unfold count_leases. rewrite count_runs.
  pose proof (count_store (fun _ => leased_to w) db n (set_leased l d)) as H. rewrite Hd, (leased_pending w d Hp), (leased_set w l d Hl) in H.
  unfold store_dispatch. cbn in H. lia.
Qed.

(** A dispatch the worker may take. *)
Definition takeable (row : worker_row) (db : database) (item : string * dispatch_row) : Prop :=
  dispatches db !! item.1 = Some item.2 /\ d_status item.2 = DispatchPending /\ d_kind item.2 ∈ w_executor_kinds row /\
  exists s, runs db !! d_run item.2 = Some s /\ not_canceled s = true.

(** The lease that was handed out for a dispatch is the one that is stored. *)
Definition given (now : time) (w : string) (db : database) (item : string * dispatch_row) (lease : Lease) : Prop :=
  exists l, dispatches db !! item.1 = Some (set_leased l item.2) /\ le_worker l = w /\
    MatchesToken sha256 (cl_token lease) (le_token_hash l) = negb (is_empty (cl_token lease)) /\
    cl_dispatch lease = item.1 /\ cl_run lease = d_run item.2 /\ cl_task lease = d_task item.2 /\
    cl_attempt lease = le_attempt l /\ cl_deadline lease = le_deadline l /\ cl_expires_at lease = le_expires_at l /\
    (le_expires_at l <= time_add now leaseDuration)%Z.

Lemma claimLoop_refines tokens now w row items : forall k db db' leases,
  db_ok db -> workers db !! w = Some row -> w_status row = WorkerActive ->
  NoDup (fst <$> items) -> (forall item, item ∈ items -> takeable row db item) ->
  (count_leases w db + Z.of_nat (length items) <= w_max_concurrency row)%Z ->
  claimLoop sha256 leaseDuration tokens k now w items db = (db', Ok leases) ->
  protocol db db' /\ Forall2 (given now w db') items leases /\
  forall n, n ∉ fst <$> items -> dispatches db' !! n = dispatches db !! n.
Proof.
  induction items as [|[n d] items IH]; intros k db db' leases Hok Hw Hact Hnd Hitems Hcount H; cbn [claimLoop] in H.
  { go_inv. split_and!; [apply rtc_refl|constructor|done]. }
  rewrite fmap_cons in Hnd. apply NoDup_cons in Hnd as [Hni Hnd].
  destruct (Hitems (n, d) (list_elem_of_here _ _)) as (Hd & Hp & Hkind & s0 & Hs & Hnc). cbn in Hd, Hp, Hkind, Hs. go_inv.
  match goal with Hx : claimOne _ _ _ _ _ _ _ = _ |- _ =>
    destruct (claimOne_refines _ _ _ _ _ _ _ _ _ _ Hok Hd Hp Hs Hnc Hw Hact Hkind ltac:(cbn in Hcount; lia) Hx)
      as (l & s' & Hstep & Hnc' & Hl & -> & Hgiven) end.
  match goal with Hx : claimLoop _ _ _ _ _ _ _ _ = (?db2, Ok ?r) |- _ =>
    destruct (IH (S k) _ db2 r (protocol_step_ok _ _ Hok Hstep) Hw Hact Hnd) as (Hr & Hall & Hframe); [| |exact Hx|] end.
  - intros [n2 d2] Hin. destruct (Hitems (n2, d2)) as (Hd2 & Hp2 & Hk2 & s2 & Hs2 & Hnc2); [by right|]. cbn in *.
    assert (n2 ≠ n) by (intros ->; apply Hni, list_elem_of_fmap; by exists (n, d2)).
    unfold takeable. cbn. split_and!; [by rewrite lookup_insert_ne|done|done|]. destruct (decide (d_run d2 = d_run d)) as [->|Hne].
    + exists s'. by rewrite lookup_insert_eq.
    + exists s2. by rewrite lookup_insert_ne.
  - rewrite (count_claim w n d l db _ Hd Hp Hl). cbn [length] in Hcount. lia.
  - split_and!; [by eapply rtc_l| |].
    + constructor; [|exact Hall]. exists l. cbn. rewrite (Hframe n Hni). cbn. rewrite lookup_insert_eq. exact (conj eq_refl (conj Hl Hgiven)).
    + intros n2 [Hne Hn2]%not_elem_of_cons. rewrite (Hframe n2 Hn2). cbn. by rewrite lookup_insert_ne.
Qed.

Lemma claim_candidates_ok row skipped slots db :
  NoDup (fst <$> claim_candidates text_le (w_executor_kinds row) skipped slots db) /\
  (forall item, item ∈ claim_candidates text_le (w_executor_kinds row) skipped slots db -> takeable row db item) /\
  length (claim_candidates text_le (w_executor_kinds row) skipped slots db) <= slots.
Proof.
  unfold claim_candidates. split_and!.
  - apply taken_NoDup, dispatch_list_NoDup.
  - intros [n d] Hin%taken_elem. apply dispatch_list_elem in Hin as [Hd Hc]. unfold claimable in Hc.
    destruct (runs db !! d_run d) as [s|] eqn:Hs; [|passed; done]. passed. split_and!; [done..|]. by exists s.
  - rewrite length_take. lia.
Qed.

Lemma Claim_refines end_ skipped tokens now w slots :
  call_refines (Claim sha256 text_le leaseDuration end_ skipped tokens now w slots).
Proof.
  apply always_fail_if; [apply _|]. intros Hpos. apply always_transaction; [apply _|]. intros db db' leases H Hok. go_inv.
  destruct (workers db !! w) as [row|] eqn:Hw; [|done]. case_bool_decide as Hdr; [done|]. go_inv. passed.
  destruct (claim_candidates_ok row skipped (Z.to_nat slots) db) as (Hnd & Hitems & Hlen).
  cbv zeta in H. go_inv. passed.
  eapply (claimLoop_refines tokens now w row _ 0 db db' leases Hok Hw); [done|exact Hnd|exact Hitems| |exact H]. lia.
Qed.

(** ** Heartbeats *)
Lemma heartbeatLease_refines now w ref : refines (heartbeatLease sha256 leaseDuration now w ref).
Proof.
  intros db db' hb H Hok. unfold heartbeatLease in H. go_inv. cbv zeta in H.
  destruct (dispatches db !! ref_dispatch ref) as [d|] eqn:Hd; [|go_inv; apply rtc_refl].
  destruct (d_lease d) as [l|] eqn:Hl; [|done].
  case_match; [go_inv; apply rtc_refl|]. case_match; [go_inv; apply rtc_refl|]. go_inv. passed.
  match goal with Hx : put_dispatch _ _ _ = _ |- _ => apply put_dispatch_inv in Hx as [Hallowed ->] end.
  unfold after in *. passed. apply rtc_once. eapply Renewed; try done.
  case_match; passed; lia.
Qed.

Lemma heartbeatLeases_refines now w refs : refines (heartbeatLeases sha256 leaseDuration now w refs).
Proof.
  induction refs as [|ref refs IH]; intros db db' l H Hok; cbn in H; go_inv; [apply rtc_refl|].
  match goal with Hx : heartbeatLease _ _ _ _ _ _ = _ |- _ => pose proof (heartbeatLease_refines _ _ _ _ _ _ Hx Hok) as H1 end.
  etrans; [exact H1|]. eapply IH; [eassumption|by eapply protocol_ok].
Qed.

Lemma Heartbeat_refines end_ now w refs : call_refines (Heartbeat sha256 leaseDuration end_ now w refs).
Proof.
  apply always_transaction; [apply _|]. intros db db' l H Hok. go_inv. destruct (workers db !! w) as [row|] eqn:Hw; [|done]. go_inv.
  destruct (heartbeat_session now w row) as [Hv Hev]; [by apply (ct_sessions _ (db_constraints _ Hok))|done|].
  assert (Hstep : protocol_step db (set_workers (<[w := set_heartbeat now row]> (workers db)) db)) by by eapply WorkerChanged.
  eapply rtc_l; [exact Hstep|]. eapply heartbeatLeases_refines; [exact H|by eapply protocol_step_ok].
Qed.

(** ** Results *)
Lemma owns_attempt_Some w n l key s i : owns_attempt w n l key s = Some i ->
  exists t a, Tasks (Run s) !! i = Some t /\ Key t = key /\ Status t = TaskRunning /\ last (Attempts t) = Some a /\
    Number a = le_attempt l /\ WorkerID a = w /\ DispatchID a = n.
Proof.
  unfold owns_attempt. destruct (taskIndexByKey _ _) as [j|] eqn:Hj; [|done]. cbn.
  apply taskIndexByKey_Some in Hj as (t & Ht & Hk). rewrite Ht. cbn.
  destruct (last (Attempts t)) as [a|] eqn:Ha; [|done]. cbn. case_match; [|done]. intros [= <-]. passed. by exists t, a.
Qed.

Lemma running_number c s i t a : compiled_wf c -> run_wf c s -> Tasks (Run s) !! i = Some t -> Status t = TaskRunning ->
  last (Attempts t) = Some a -> Number a = Z.of_nat (length (Attempts t)).
Proof.
  intros Hc Hwf Ht Hr Ha. destruct (running_attempt c Hc s i t Hwf Ht Hr) as (b & Hb & _ & Hn). by simplify_eq.
Qed.

(** A finished lease: the run is saved and the dispatch closed. *)
Lemma finished_refines db c s s' r i t n d l st hash now e db1 db' u1 u2 op :
  db_ok db -> runs db !! d_run d = Some s -> stored_run c s -> Tasks (Run s) !! i = Some t -> Key t = d_task d ->
  Status t = TaskRunning -> dispatches db !! n = Some d -> d_lease d = Some l ->
  (st = DispatchCompleted /\ (now < le_expires_at l)%Z /\ (now < le_deadline l)%Z \/
   st = DispatchExpired /\ (le_expires_at l <= now \/ le_deadline l <= now)%Z) ->
  exec c op s = (s', Ok r) -> enabled op s -> stops c i s s' -> save_changes s s' db = (db1, Ok u1) ->
  update_dispatch n DispatchLeased (set_closed st hash now) e db1 = (db', Ok u2) ->
  protocol_step db db'.
Proof.
  intros Hok Hs Hst Ht Hk Hr Hd Hl Hcase Hop Hen [Hgood (t' & Hmv & Hw)] Hsave Hupd. destruct r, u1, u2.
  destruct (save_moves db _ _ _ c s s' i _ _ Hok Hs Hst Hgood Ht Hmv Hsave eq_refl) as [Hrm ->]; [by eapply step_of|].
  apply update_dispatch_inv in Hupd as (d1 & Hd1 & Hst1 & Hallowed & ->).
  assert (d1 = d) as -> by (cbn in Hd1; congruence).
  exact (Finished db _ c s s' i t t' n d l st hash now Hrm Hr Hw Hd Hst1 eq_refl (eq_sym Hk) Hl Hcase Hallowed).
Qed.

Lemma completeLeased_refines now w n hash result d l db db' u :
  db_ok db -> dispatches db !! n = Some d -> d_lease d = Some l -> known_result (Kind result) = true ->
  (now < le_expires_at l)%Z -> (now < le_deadline l)%Z ->
  completeLeased now w n hash result d l db = (db', Ok u) -> protocol_step db db'.
Proof.
  intros Hok Hd Hl Hk He Hdl H. unfold completeLeased in H. go_inv. loaded Hs Hst Hcw. 
  match goal with Hx : runs _ !! _ = Some ?a |- _ => rename a into s end. go_inv.
  destruct (owns_attempt _ _ _ _ _) as [i|] eqn:Ho; [|done].
  apply owns_attempt_Some in Ho as (t & a & Ht & Hkey & Hr & Ha & Hn & _ & _).
  go_inv. rewrite (sr_definition _ _ Hst) in *. simplify_eq.
  match goal with Hx : lift _ _ = _ |- _ => unfold lift in Hx; rewrite (sr_compiled _ _ Hst) in Hx; injection Hx as <- <- end.
  copied s' ok Hrun. go_inv. passed. subst ok.
  rewrite <-Hn, (running_number c s i t a) in Hrun by (done || apply Hst).
  destruct (apply_stops c Hcw i t _ _ _ _ _ (sr_wf _ _ Hst) Ht Hr Hk Hrun) as [_ Hstops].
  eapply (finished_refines db c s s' tt i t n d l DispatchCompleted _ now _ _ _ _ _ (OpApply _ _ _ _));
    [exact Hok|exact Hs|exact Hst|exact Ht|exact Hkey|exact Hr|exact Hd|exact Hl|by left|by eapply exec_bind|done|exact Hstops|eassumption|exact H].
Qed.

Lemma digest_known result h : digestWorkerResult sha256 result = Ok h -> known_result (Kind result) = true.
Proof.
  unfold digestWorkerResult. intros H. go_inv. rewrite bool_decide_eq_false in Hc. apply dec_stable in Hc.
  by destruct (Kind result); repeat (apply elem_of_cons in Hc as [Hc|Hc]; try done); apply elem_of_nil in Hc.
Qed.

Lemma Complete_refines end_ now w n token result : call_refines (Complete sha256 end_ now w n token result).
Proof.
  apply always_lift; [apply _|]. intros hash Hk%digest_known. apply always_transaction; [apply _|]. intros db db' b H Hok. go_inv.
  destruct (dispatches db !! n) as [d|] eqn:Hd; [|done]. go_inv. destruct (d_lease d) as [l|] eqn:Hl; [|done]. go_inv.
  case_bool_decide; go_inv; [apply rtc_refl|]. passed. unfold after in *. passed. apply rtc_once.
  match goal with Hx : completeLeased _ _ _ _ _ _ _ _ = _ |- _ => by eapply (completeLeased_refines _ _ _ _ _ _ _ _ _ _ Hok Hd Hl Hk); [..|exact Hx] end.
Qed.

(** ** Expired leases *)

(** The dispatch of a lease: its task runs the attempt the lease names. *)
Lemma leased_task db n d l : db_ok db -> dispatches db !! n = Some d -> d_status d = DispatchLeased -> d_lease d = Some l ->
  exists s i t a, runs db !! d_run d = Some s /\ Tasks (Run s) !! i = Some t /\ Key t = d_task d /\ Status t = TaskRunning /\
    last (Attempts t) = Some a /\ Number a = le_attempt l /\ WorkerID a = le_worker l /\ DispatchID a = n.
Proof.
  intros Hok Hd Hst Hl. destruct (db_active _ Hok n d Hd) as (s & i & t & Hs & Ht & Hk & Hsn); [by rewrite Hst|].
  unfold serves in Hsn. rewrite Hst in Hsn. destruct Hsn as (Hr & l' & a & Hl' & Ha & ?). simplify_eq. by exists s, i, t, a.
Qed.

Lemma reapOne_refines now item db db' u :
  db_ok db -> scanned item db -> reapOne now item db = (db', Ok u) -> protocol db db'.
Proof.
  intros Hok (d & Hd & Hev) H. unfold reapOne in H. go_inv. rewrite Hd in H.
  case_bool_decide as Hl; [go_inv; apply rtc_refl|]. go_inv. case_match eqn:Hexp; [go_inv; apply rtc_refl|]. go_inv.
  rewrite <-(re_run _ _ Hev), <-(re_task _ _ Hev) in *. loaded Hs Hst Hcw.
  match goal with Hx : d_lease d = Some ?a |- _ => rename Hx into Hlease; rename a into l end.
  destruct (leased_task db item.1 d l Hok Hd Hl Hlease) as (s1 & i & t & a1 & Hs1 & Ht & Hk & Hr & Ha & Hn & _).
  rewrite Hs in Hs1. injection Hs1 as <-.
  destruct (taskIndexByKey _ _) as [j|] eqn:Hj; [|done]. apply taskIndexByKey_Some in Hj as (t2 & Ht2 & Hk2).
  assert (j = i) as -> by (eapply task_keys_inj; [exact Hst|exact Ht2|exact Ht|congruence]). clear t2 Ht2 Hk2.
  destruct (d_lease item.2) as [l0|] eqn:Hl0; [|done].
  destruct (re_lease _ _ Hev l0 Hl0) as (l' & Hl' & Hsame). simplify_eq.
  go_inv. rewrite (sr_definition _ _ Hst) in *. simplify_eq.
  match goal with Hx : lift _ _ = _ |- _ => unfold lift in Hx; rewrite (sr_compiled _ _ Hst) in Hx; injection Hx as <- <- end.
  copied s' ok Hrun. go_inv. passed. subst ok.
  rewrite <-(sl_attempt _ _ Hsame), <-Hn, (running_number c _ i t a1) in Hrun by (done || apply Hst).
  apply rtc_once. match goal with Hx : save_changes ?x _ _ = _ |- _ => rename x into s; rename Hx into Hsave end.
  assert (Hcase : (le_expires_at l <= now \/ le_deadline l <= now)%Z).
  { unfold after in Hexp. apply andb_false_iff in Hexp as [E|E]; apply Z.ltb_ge in E; lia. }
  destruct (negb (after (le_deadline l) now)).
  - destruct (timeout_stops c Hcw i t _ _ _ _ (sr_wf _ _ Hst) Ht Hr Hrun) as [_ Hstops].
    eapply (finished_refines db c s s' tt i t _ d l DispatchExpired None now _ _ _ _ _ (OpTimeout _ _ _));
      [exact Hok|exact Hs|exact Hst|exact Ht|exact Hk|exact Hr|exact Hd|exact Hlease|by right|by eapply exec_bind|done|exact Hstops|exact Hsave|exact H].
  - destruct (interrupt_stops c Hcw i t _ _ _ _ _ (sr_wf _ _ Hst) Ht Hr Hrun) as [_ Hstops].
    eapply (finished_refines db c s s' tt i t _ d l DispatchExpired None now _ _ _ _ _ (OpInterrupt _ _ _ _));
      [exact Hok|exact Hs|exact Hst|exact Ht|exact Hk|exact Hr|exact Hd|exact Hlease|by right|by eapply exec_bind|done|exact Hstops|exact Hsave|exact H].
Qed.

Lemma reapLoop_refines clock items : forall k db db' u,
  db_ok db -> (forall item, item ∈ items -> scanned item db) -> reapLoop clock k items db = (db', Ok u) -> protocol db db'.
Proof.
  induction items as [|item items IH]; intros k db db' u Hok Hitems H; cbn [reapLoop] in H; [go_inv; apply rtc_refl|].
  pose proof (Hitems item (list_elem_of_here _ _)) as Hnow. go_inv.
  match goal with Hx : reapOne _ _ _ = _ |- _ => pose proof (reapOne_refines _ _ _ _ _ Hok Hnow Hx) as H1 end.
  etrans; [exact H1|]. eapply IH; [by eapply protocol_ok| |exact H].
  intros y Hy. eapply scanned_stable; [exact Hok| |exact H1]. apply Hitems. by right.
Qed.

(** Workers that stay silent go offline, one row after the other. *)
Lemma workers_changed (f : worker_row -> worker_row) db :
  (forall w row, workers db !! w = Some row -> worker_values w (f row) = true /\ session_evolves row (f row)) ->
  protocol db (set_workers (f <$> workers db) db).
Proof.
  intros Hf.
  assert (H : forall l : list string, forall W, (forall w, w ∉ l -> W !! w = (f <$> workers db) !! w) -> (forall w, w ∈ l -> W !! w = workers db !! w) ->
    NoDup l -> protocol (set_workers W db) (set_workers (f <$> workers db) db)).
  { induction l as [|w l IH]; intros W Hout Hin Hnd.
    - replace W with (f <$> workers db); [apply rtc_refl|]. apply map_eq. intros w. symmetry. apply Hout, not_elem_of_nil.
    - apply NoDup_cons in Hnd as [Hni Hnd]. destruct (workers db !! w) as [row|] eqn:E.
      + eapply (rtc_l _ _ (set_workers (<[w := f row]> W) db)).
        { refine (WorkerChanged (set_workers W db) w row (f row) _ (proj2 (Hf w row E)) (proj1 (Hf w row E))).
          cbn. rewrite Hin by (by left). done. }
        apply IH; [| |done].
        * intros v Hv. destruct (decide (v = w)) as [->|Hne]; [by rewrite lookup_insert_eq, lookup_fmap, E|].
          rewrite lookup_insert_ne by done. apply Hout. rewrite not_elem_of_cons. done.
        * intros v Hv. rewrite lookup_insert_ne by (intros ->; done). apply Hin. by right.
      + apply IH; [| |done].
        * intros v Hv. destruct (decide (v = w)) as [->|Hne]; [by rewrite Hin, lookup_fmap, E by (by left)|].
          apply Hout. rewrite not_elem_of_cons. done.
        * intros v Hv. apply Hin. by right. }
  replace db with (set_workers (workers db) db) at 1 by (by destruct db).
  apply (H (fst <$> map_to_list (workers db))); [|done|apply NoDup_fst_map_to_list].
  intros w Hw. rewrite lookup_fmap. destruct (workers db !! w) as [row|] eqn:E; [|done].
  destruct Hw. apply list_elem_of_fmap. exists (w, row). split; [done|by apply elem_of_map_to_list].
Qed.

Lemma ReapExpired_refines end_ skipped clock now limit :
  call_refines (ReapExpired text_le workerHeartbeatInterval end_ skipped clock now limit).
Proof.
  apply always_fail_if; [apply _|]. intros _. apply always_transaction; [apply _|]. intros db db' n H Hok. cbv zeta in H. go_inv.
  match goal with Hx : reapLoop _ _ _ ?db1 = _ |- _ => assert (H1 : protocol db db1); [|rename Hx into Hloop] end.
  { apply workers_changed. intros w row Hw. pose proof (ct_sessions _ (db_constraints _ Hok) _ _ Hw).
    case_match; [by eapply silent_session|done]. }
  etrans; [exact H1|]. eapply reapLoop_refines; [by eapply protocol_ok| |exact Hloop].
  intros item Hin. unfold expired_dispatches in Hin. apply taken_elem in Hin. by eapply scanned_now.
Qed.

(** ** Cancellation *)
Lemma CancelRun_refines end_ now id : call_refines (CancelRun end_ now id).
Proof.
  apply always_transaction; [apply _|]. intros db db' u H Hok. go_inv. loaded Hs Hst Hcw.
  match goal with Hx : runs _ !! _ = Some ?a |- _ => rename a into s end.
  destruct (IsWorkflowTerminalForStore _) eqn:Hterm; [go_inv; apply rtc_refl|]. go_inv.
  destruct (cancel_stops c Hcw now s (sr_wf _ _ Hst) Hterm) as (s' & Hrun & Hgood & Hws & Hidle).
  match goal with Hx : lift _ _ = _ |- _ => unfold lift in Hx; rewrite Hrun in Hx; injection Hx as <- <- end.
  match goal with Hx : save_changes _ _ _ = (_, Ok ?u) |- _ => destruct u; rename Hx into Hsave end.
  destruct (save_run c s s' id db _ Hst Hgood Hs (proj1 (db_runs _ Hok _ _ Hs)) Hsave) as [-> Hsv].
  unfold revokeDispatches in H. go_inv. passed. apply rtc_once.
  refine (Canceled db id c s s' now Hs Hst Hsv _ _ Hws Hidle _); [|done|].
  - exists (OpCancel now). split; [done|]. cbn. by rewrite Hrun.
  - intros n d Hd. match goal with Hx : forallb _ _ = true |- _ => rewrite forallb_forall in Hx; specialize (Hx (n, d)) end.
    rewrite <-list_elem_of_In, elem_of_map_to_list in *. cbn in *. by apply andb_true_iff; auto.
Qed.

Lemma CancelRequestedRuns_refines ends nows limit : call_refines (CancelRequestedRuns text_le ends nows limit).
Proof.
  apply always_fail_if; [apply _|]. intros _ db db' r H. unfold mbind, go_bind, get in H. cbv zeta in H.
  destruct (for_each _ _ db) as [db1 out] eqn:E. assert (H1 : implemented db db1); [|by destruct out; injection H as <- _].
  revert E. apply always_for_each; [apply _|]. intros id. by apply always_wrapped, CancelRun_refines.
Qed.

Lemma RequestCancel_refines end_ id at_ : call_refines (RequestCancel end_ id at_).
Proof.
  apply always_transaction; [apply _|]. intros db db' r H Hok. go_inv. destruct (runs db !! id) as [s|] eqn:Hs; [|done]. go_inv.
  match goal with Hx : (if _ then _ else _) _ = _ |- _ => rename Hx into Hreq end.
  match goal with Hx : loadSnapshot _ ?x = (?y, _) |- _ => assert (H1 : protocol db x); [|assert (y = x) as ->; [|done]] end.
  - destruct (negb _ && negb _) eqn:E; go_inv; [|apply rtc_refl]. passed. apply rtc_once.
    eapply (CancelRequested db id s at_); [done|done|by unfold not_canceled; destruct (has _)|lia].
  - match goal with Hx : loadSnapshot _ _ = _ |- _ => apply loadSnapshot_inv in Hx as [-> _] end; [done|by eapply protocol_ok].
Qed.

(** ** Worker sessions *)
Lemma insert_worker_refines w row : w_status row = WorkerActive -> refines (insert_worker w row).
Proof.
  intros Ha db db' u (Hn & Hv & Ht & ->)%insert_worker_inv Hok. apply rtc_once. by constructor.
Qed.

Lemma RegisterWorker_refines ends entropy clock request : call_refines (RegisterWorker sha256 ends entropy clock request).
Proof. apply RegisterWorker_always; [apply _|]. apply insert_worker_refines. Qed.

Lemma DrainWorker_refines end_ now w : call_refines (DrainWorker end_ now w).
Proof.
  apply always_transaction; [apply _|]. intros db db' r H Hok. go_inv. destruct (workers db !! w) as [row|] eqn:Hw; [|done]. cbv zeta in H. go_inv.
  match goal with Hx : update_worker _ _ _ = _ |- _ => apply update_worker_inv in Hx as [Hv ->] end. passed.
  apply dec_stable in Hc.
  apply rtc_once. econstructor; [done| |done]. eapply drained_session; [exact Hv|done|]. case_match; [right; left|left].
Qed.

(** ** Requests

    What the control plane asks of the repository, with the choices of the
    environment: the database clock, the random tokens, the rows other
    transactions have locked, and how the transaction ends. *)
Inductive request : Type :=
| DoCreateDispatches (end_ : fate) (skipped : string -> bool) (tokens : nat -> outcome string) (now : time) (limit : Z)
| DoClaim (end_ : fate) (skipped : string -> bool) (tokens : nat -> outcome string) (now : time) (worker : string) (slots : Z)
| DoHeartbeat (end_ : fate) (now : time) (worker : string) (refs : list LeaseRef)
| DoComplete (end_ : fate) (now : time) (worker dispatch token : string) (result : ExecutionResponse)
| DoReapExpired (end_ : fate) (skipped : string -> bool) (clock : nat -> time) (now : time) (limit : Z)
| DoCancelRun (end_ : fate) (now : time) (id : RunID)
| DoCancelRequestedRuns (ends : RunID -> fate) (nows : RunID -> time) (limit : Z)
| DoRequestCancel (end_ : fate) (id : RunID) (at_ : time)
| DoRegisterWorker (ends : nat -> fate) (entropy : nat -> outcome (list N)) (clock : nat -> time) (request : RegisterRequest)
| DoDrainWorker (end_ : fate) (now : time) (worker : string).

Definition perform (r : request) (db : database) : database :=
  match r with
  | DoCreateDispatches end_ skipped tokens now limit => (CreateDispatches text_le end_ skipped tokens now limit db).1
  | DoClaim end_ skipped tokens now worker slots => (Claim sha256 text_le leaseDuration end_ skipped tokens now worker slots db).1
  | DoHeartbeat end_ now worker refs => (Heartbeat sha256 leaseDuration end_ now worker refs db).1
  | DoComplete end_ now worker dispatch token result => (Complete sha256 end_ now worker dispatch token result db).1
  | DoReapExpired end_ skipped clock now limit => (ReapExpired text_le workerHeartbeatInterval end_ skipped clock now limit db).1
  | DoCancelRun end_ now id => (CancelRun end_ now id db).1
  | DoCancelRequestedRuns ends nows limit => (CancelRequestedRuns text_le ends nows limit db).1
  | DoRequestCancel end_ id at_ => (RequestCancel end_ id at_ db).1
  | DoRegisterWorker ends entropy clock request => (RegisterWorker sha256 ends entropy clock request db).1
  | DoDrainWorker end_ now worker => (DrainWorker end_ now worker db).1
  end.
Definition perform_all (rs : list request) (db : database) : database := foldl (fun db r => perform r db) db rs.

Lemma perform_refines r db : db_ok db -> protocol db (perform r db).
Proof.
  intros Hok. destruct r; cbn.
  - destruct (CreateDispatches _ _ _ _ _ _ db) eqn:E. by eapply CreateDispatches_refines.
  - destruct (Claim _ _ _ _ _ _ _ _ _ db) eqn:E. by eapply Claim_refines.
  - destruct (Heartbeat _ _ _ _ _ _ db) eqn:E. by eapply Heartbeat_refines.
  - destruct (Complete _ _ _ _ _ _ _ db) eqn:E. by eapply Complete_refines.
  - destruct (ReapExpired _ _ _ _ _ _ _ db) eqn:E. by eapply ReapExpired_refines.
  - destruct (CancelRun _ _ _ db) eqn:E. by eapply CancelRun_refines.
  - destruct (CancelRequestedRuns _ _ _ _ db) eqn:E. by eapply CancelRequestedRuns_refines.
  - destruct (RequestCancel _ _ _ db) eqn:E. by eapply RequestCancel_refines.
  - destruct (RegisterWorker _ _ _ _ _ db) eqn:E. by eapply RegisterWorker_refines.
  - destruct (DrainWorker _ _ _ db) eqn:E. by eapply DrainWorker_refines.
Qed.

Lemma perform_all_refines rs : forall db, db_ok db -> protocol db (perform_all rs db).
Proof.
  induction rs as [|r rs IH]; intros db Hok; [apply rtc_refl|]. pose proof (perform_refines r db Hok) as H.
  etrans; [exact H|]. apply IH. by eapply protocol_ok.
Qed.

Lemma perform_all_ok rs db : db_ok db -> db_ok (perform_all rs db).
Proof. intros Hok. eapply protocol_ok; [exact Hok|by apply perform_all_refines]. Qed.
End repository.
