(* ===== verification/TableTypes.v ===== *)
(** * Typed tables

    What the CHECK, FOREIGN KEY and UNIQUE constraints of the migrations make
    of the rows: [typed db].  Every transaction of the repository keeps them,
    whatever is stored, whatever change set it is given and however it ends:
    none of the invariants of the run or of the dispatch protocol is assumed
    here.  The statements are followed one by one with [keeps]. *)
From S2P Require Import Prelude GoStrings Json Model State Graph Compiler Distributed SnapshotJson ChangeSet Stores Database Dispatch Workers Preserves DatabaseFacts DispatchInvariant Protocol Refinement.
From stdpp Require Import sorting relations.

(** ** Types of rows *)
Record run_typed (s : RunSnapshot) : Prop := {
  rt_status : workflow_status_valid (run_Status (Run s)) = true;
  rt_revision : (0 <= Revision (Run s))%Z;
  rt_sequence : (0 <= LastEventSequence (Run s))%Z;
  rt_tasks : forall t, t ∈ Tasks (Run s) -> task_status_valid (Status t) = true;
  rt_remaining : forall n, n ∈ RemainingDependencies (Run s) -> (0 <= n)%Z;
  rt_events : forall e, e ∈ Events s -> (0 < Sequence e)%Z /\ entity_valid (Entity e) = true;
  rt_order : StronglySorted (fun e e' => Sequence e < Sequence e')%Z (Events s);
}.

(** The rows of the attempts table, with the columns of their key. *)
Definition attempt_at (db : database) (run : RunID) (key : TaskKey) (a : Attempt) : Prop :=
  exists s t, runs db !! run = Some s /\ t ∈ Tasks (Run s) /\ Key t = key /\ a ∈ Attempts t.

Record attempt_typed (db : database) (a : Attempt) : Prop := {
  at_status : attempt_status_valid (att_Status a) = true;
  at_number : (0 < Number a)%Z;
  at_ownership : WorkerID a = "" <-> DispatchID a = "";
  at_worker : WorkerID a ≠ "" -> is_Some (workers db !! WorkerID a);
  at_dispatch : DispatchID a ≠ "" -> is_Some (dispatches db !! DispatchID a);
}.

Record typed (db : database) : Prop := {
  ty_runs : forall id s, runs db !! id = Some s -> run_typed s;
  ty_attempts : forall run key a, attempt_at db run key a -> attempt_typed db a;
  ty_once : forall r1 r2 k1 k2 a1 a2, attempt_at db r1 k1 a1 -> attempt_at db r2 k2 a2 ->
    DispatchID a1 ≠ "" -> DispatchID a1 = DispatchID a2 -> r1 = r2 /\ k1 = k2 /\ Number a1 = Number a2;
  ty_dispatches : constraints db;
}.

(** ** Statements *)
Definition stays_typed (db db' : database) : Prop := typed db -> typed db'.
#[export] Instance stays_typed_preorder : PreOrder stays_typed.
Proof. split; [by intros db ?|]. intros db1 db2 db3 H1 H2 H. exact (H2 (H1 H)). Qed.
Abbreviation keeps := (preserves stays_typed).

(** ** Rows of a run *)
Lemma attempt_at_mono db db' run key a :
  (forall id s', runs db' !! id = Some s' -> exists s, runs db !! id = Some s /\
     forall t', t' ∈ Tasks (Run s') -> exists t, t ∈ Tasks (Run s) /\ Key t = Key t' /\ Attempts t = Attempts t') ->
  attempt_at db' run key a -> attempt_at db run key a.
Proof.
  intros H (s' & t' & Hs' & Ht' & Hk & Ha). destruct (H _ _ Hs') as (s & Hs & Htasks).
  destruct (Htasks _ Ht') as (t & Ht & Hk' & Hatt). exists s, t. split_and!; [done|done|congruence|by rewrite Hatt].
Qed.

Lemma attempt_typed_mono db db' a :
  (forall w, is_Some (workers db !! w) -> is_Some (workers db' !! w)) ->
  (forall n, is_Some (dispatches db !! n) -> is_Some (dispatches db' !! n)) -> attempt_typed db a -> attempt_typed db' a.
Proof. intros Hw Hd []. split; auto. Qed.

(** A statement that leaves the attempts as they are. *)
Lemma typed_run db id s s' :
  typed db -> runs db !! id = Some s -> run_typed s' ->
  (forall t', t' ∈ Tasks (Run s') -> exists t, t ∈ Tasks (Run s) /\ Key t = Key t' /\ Attempts t = Attempts t') ->
  typed (set_runs (<[id := s']> (runs db)) db).
Proof.
  intros [H1 H2 H3 H4] Hs Hty Htasks.
  assert (Hat : forall run key a, attempt_at (set_runs (<[id := s']> (runs db)) db) run key a -> attempt_at db run key a).
  { intros run key a. apply attempt_at_mono. cbn. intros i s0 [[<- <-]|[_ Hi]]%lookup_insert_Some; [by exists s|].
    exists s0. split; [done|]. intros t Ht. by exists t. }
  split; cbn.
  - intros i s0 [[<- <-]|[_ Hi]]%lookup_insert_Some; [done|by eapply H1].
  - intros run key a Ha%Hat. apply (attempt_typed_mono db); [done|done|by eapply H2].
  - intros r1 r2 k1 k2 a1 a2 Ha1%Hat Ha2%Hat. by apply H3.
  - by apply constraints_runs.
Qed.

Lemma updateRun_keeps id row er el : keeps (updateRun id row er el).
Proof.
  intros db db' u H Ht. unfold updateRun in H. go_inv. destruct (runs db !! id) as [s|] eqn:Hs; [|go_inv].
  case_match; go_inv. passed. eapply typed_run; [exact Ht|exact Hs| |by intros t; exists t].
  destruct (ty_runs _ Ht _ _ Hs). by split; cbn.
Qed.

Lemma list_insert_elem {A} (l : list A) i x y : y ∈ <[i := x]> l -> y = x \/ y ∈ l.
Proof.
  intros [j Hj]%list_elem_of_lookup. apply list_lookup_insert_Some in Hj as [(_ & -> & _)|[_ Hj]]; [by left|right].
  by eapply list_elem_of_lookup_2.
Qed.

Lemma updateTask_keeps change : keeps (updateTask change).
Proof.
  intros db db' u H Ht. unfold updateTask in H. go_inv. cbv zeta in H.
  destruct (runs db !! tc_RunID change) as [s|] eqn:Hs; [|done].
  destruct (Tasks (Run s) !! _) as [t|] eqn:Htk; [|done]. case_bool_decide; [|done]. go_inv. passed.
  apply list_elem_of_lookup_2 in Htk. destruct (ty_runs _ Ht _ _ Hs).
  eapply typed_run; [exact Ht|exact Hs| |].
  - split; cbn; try done.
    + intros t' [->|?]%list_insert_elem; [done|auto].
    + intros n [->|?]%list_insert_elem; [done|auto].
  - cbn. intros t' [->|?]%list_insert_elem; [by exists t|by exists t'].
Qed.

Lemma sorted_filter {A} (R : A -> A -> Prop) (P : A -> Prop) `{!forall x, Decision (P x)} l :
  StronglySorted R l -> StronglySorted R (filter P l).
Proof.
  induction 1 as [|x l Hl IH Hx]; [constructor|]. rewrite filter_cons. case_decide; [|done]. constructor; [done|].
  apply Forall_forall. intros y [_ Hy]%list_elem_of_filter. rewrite Forall_forall in Hx. by apply Hx.
Qed.

Lemma insert_by_sequence_sorted e l :
  StronglySorted (fun e e' => Sequence e < Sequence e')%Z l ->
  StronglySorted (fun e e' => Sequence e < Sequence e')%Z (insert_by_sequence e l).
Proof.
  intros H. unfold insert_by_sequence. apply StronglySorted_app_2.
  - intros x y [Hx _]%list_elem_of_filter [->|[Hy _]%list_elem_of_filter]%elem_of_cons; lia.
  - by apply sorted_filter.
  - constructor; [by apply sorted_filter|]. apply Forall_forall. by intros y [? _]%list_elem_of_filter.
Qed.

Lemma insertEvent_keeps id e : keeps (insertEvent id e).
Proof.
  intros db db' u H Ht. unfold insertEvent in H. go_inv. destruct (runs db !! id) as [s|] eqn:Hs; [|done].
  cbv zeta in H. set (row := mkStateEvent _ _ _ _ _ _ _) in *. go_inv. passed. destruct (ty_runs _ Ht _ _ Hs) as [? ? ? ? ? Hev Hord].
  eapply typed_run; [exact Ht|exact Hs| |by intros t; exists t]. split; cbn; try done.
  - unfold insert_by_sequence. intros e' [[_ ?]%list_elem_of_filter|[->|[_ ?]%list_elem_of_filter]%elem_of_cons]%elem_of_app; [auto|done|auto].
  - by apply insert_by_sequence_sorted.
Qed.

(** ** Rows of the attempts *)
Lemma attempt_allowed_inv db run key a : attempt_allowed db run key a = true ->
  attempt_typed db a /\ forall r k b, attempt_at db r k b -> DispatchID a ≠ "" -> DispatchID b = DispatchID a ->
    r = run /\ k = key /\ Number b = Number a.
Proof.
  unfold attempt_allowed, is_empty. rewrite !andb_true_iff, orb_true_iff. intros [[[H1 H2] H3] H4]. split.
  - passed. destruct (bool_decide (WorkerID a = "")) eqn:E; passed; split; try done; try lia; try naive_solver.
    + by intros _; apply has_Some.
    + by intros _; apply has_Some.
  - intros r k b (s & t & Hs & Ht & <- & Hb) Hne Heq. destruct H4 as [H4|H4]; passed; [done|].
    rewrite forallb_forall in H4. specialize (H4 (r, s)). rewrite <-list_elem_of_In, elem_of_map_to_list in H4. specialize (H4 Hs).
    rewrite forallb_forall in H4. specialize (H4 t (proj1 (list_elem_of_In _ _) Ht)).
    rewrite forallb_forall in H4. specialize (H4 b (proj1 (list_elem_of_In _ _) Hb)).
    apply orb_true_iff in H4 as [H4|H4]; passed; [by injection H4|done].
Qed.

(** One attempt is written, the others stay. *)
Lemma typed_attempt db run s t key index a atts :
  typed db -> runs db !! run = Some s -> Tasks (Run s) !! index = Some t -> Key t = key ->
  attempt_allowed db run key a = true -> (forall b, b ∈ atts -> b = a \/ b ∈ Attempts t) ->
  typed (set_runs (<[run := upd_Tasks (<[index := set_task_Attempts atts t]>) s]> (runs db)) db).
Proof.
  intros [H1 H2 H3 H4] Hs Ht <- [Hta Hua]%attempt_allowed_inv Hatts. pose proof (list_elem_of_lookup_2 _ _ _ Ht) as Hin.
  set (db' := set_runs _ db).
  assert (Hat : forall r k b, attempt_at db' r k b -> attempt_at db r k b \/ r = run /\ k = Key t /\ b = a).
  { intros r k b (s' & u & Hs' & Hu & <- & Hb). cbn in Hs'. apply lookup_insert_Some in Hs' as [[<- <-]|[_ Hs']]; [|left; by exists s', u].
    cbn in Hu. apply list_insert_elem in Hu as [->|Hu]; [|left; by exists s, u].
    cbn in Hb. destruct (Hatts b Hb) as [->|Hb']; [by right|left; by exists s, t]. }
  split; [| |intros r1 r2 k1 k2 a1 a2 Ha1 Ha2 Hne Heq|by apply constraints_runs].
  - intros i s' Hs'. cbn in Hs'. apply lookup_insert_Some in Hs' as [[<- <-]|[_ Hi]]; [|by eapply H1].
    destruct (H1 _ _ Hs). split; cbn; try done. intros t' [->|?]%list_insert_elem; cbn; auto.
  - intros r k b Hb. apply (attempt_typed_mono db); [done|done|]. apply Hat in Hb as [Hb|(_ & _ & ->)]; [by eapply H2|done].
  - destruct (Hat _ _ _ Ha1) as [Hb1|(-> & -> & ->)], (Hat _ _ _ Ha2) as [Hb2|(-> & -> & ->)]; [by apply H3| | |done].
    + apply Hua; [done|congruence|done].
    + destruct (Hua r2 k2 a2) as (-> & -> & ->); [done|congruence|done|done].
Qed.

Lemma task_row_inv db run key index s t : task_row db run key index = Some (s, t) ->
  runs db !! run = Some s /\ Tasks (Run s) !! Z.to_nat index = Some t /\ Key t = key.
Proof.
  unfold task_row. destruct (runs db !! run) as [s0|]; [|done]. cbn. destruct (Tasks (Run s0) !! _) as [t0|] eqn:E; [|done]. cbn.
  case_bool_decide; [|done]. intros. by simplify_eq.
Qed.

Lemma applyAttemptTx_keeps change : keeps (applyAttemptTx change).
Proof.
  intros db db' u H Ht. unfold applyAttemptTx in H. destruct (ac_Operation change); [| |done].
  - unfold insertAttempt in H. go_inv. destruct (task_row _ _ _ _) as [[s t]|] eqn:E; [|done]. apply task_row_inv in E as (Hs & Hi & Hk).
    cbv zeta in H. case_bool_decide; [|done]. unfold put_attempts in H. go_inv. passed.
    eapply typed_attempt; [done..|]. intros b [?|?%list_elem_of_singleton]%elem_of_app; [by right|by left].
  - unfold updateAttempt in H. go_inv. destruct (task_row _ _ _ _) as [[s t]|] eqn:E; [|done]. apply task_row_inv in E as (Hs & Hi & Hk).
    destruct (list_find _ _) as [[k ?]|]; [|done]. unfold put_attempts in H. go_inv. passed.
    eapply typed_attempt; [done..|]. intros b [?|?]%list_insert_elem; [by left|by right].
Qed.
#[export] Hint Resolve updateRun_keeps updateTask_keeps insertEvent_keeps applyAttemptTx_keeps : keeps.

Lemma applyChangeSetTx_keeps change : keeps (applyChangeSetTx change).
Proof. unfold applyChangeSetTx. keep. Qed.

(** ** Rows of the dispatches and the workers *)
Lemma typed_dispatch db n d : typed db -> dispatch_allowed db n d = true -> typed (set_dispatches (<[n := d]> (dispatches db)) db).
Proof.
  intros [H1 H2 H3 H4] Hd. split; [done| |done|by apply constraints_put].
  intros run key a Ha. apply (attempt_typed_mono db); [done| |by eapply H2]. intros n' Hn'. cbn.
  apply lookup_insert_is_Some'. by right.
Qed.

Lemma put_dispatch_keeps n d : keeps (put_dispatch n d).
Proof. intros db db' [] [Hd ->]%put_dispatch_inv Ht. by apply typed_dispatch. Qed.
Lemma insert_dispatch_keeps n d : keeps (insert_dispatch n d).
Proof. intros db db' [] (_ & Hd & ->)%insert_dispatch_inv Ht. by apply typed_dispatch. Qed.
Lemma update_dispatch_keeps n st f e : keeps (update_dispatch n st f e).
Proof. intros db db' [] (d & _ & _ & Hd & ->)%update_dispatch_inv Ht. by apply typed_dispatch. Qed.

Lemma revokeDispatches_keeps now id : keeps (revokeDispatches now id).
Proof.
  intros db db' u H [H1 H2 H3 H4]. unfold revokeDispatches in H. go_inv. passed. rewrite forallb_forall in Hc.
  split; [done| |done|].
  - intros run key a Ha. apply (attempt_typed_mono db); [done| |by eapply H2]. intros n [d Hd]. cbn. rewrite lookup_fmap, Hd. by eexists.
  - apply constraints_revoke; [done|]. intros n d Hd. specialize (Hc (n, d)). rewrite <-list_elem_of_In, elem_of_map_to_list in Hc.
    by apply andb_true_iff, Hc.
Qed.

Lemma typed_workers db W : typed db -> (forall w, is_Some (workers db !! w) -> is_Some (W !! w)) ->
  constraints (set_workers W db) -> typed (set_workers W db).
Proof.
  intros [H1 H2 H3 _] HW HC. split; [done| |done|done].
  intros run key a Ha. apply (attempt_typed_mono db); [done|done|by eapply H2].
Qed.
#[export] Hint Resolve put_dispatch_keeps insert_dispatch_keeps update_dispatch_keeps revokeDispatches_keeps applyChangeSetTx_keeps : keeps.

Lemma typed_session db w row row' : typed db -> workers db !! w = Some row -> worker_values w row' = true ->
  session_evolves row row' -> typed (set_workers (<[w := row']> (workers db)) db).
Proof.
  intros Ht Hw Hv Hev. apply typed_workers; [done|intros v Hs; apply lookup_insert_is_Some'; by right|].
  pose proof (ty_dispatches _ Ht) as Hct. apply constraints_worker; [done|done|].
  intros v r Hr E. eapply (ct_tokens _ Hct); [done..|]. by rewrite E, (sv_token_hash _ _ Hev).
Qed.
Lemma insert_worker_keeps w row : keeps (insert_worker w row).
Proof.
  intros db db' u (Hn & Hv & Hu & ->)%insert_worker_inv Ht. apply typed_workers; [done|intros v Hs; apply lookup_insert_is_Some'; by right|].
  apply constraints_worker; [apply Ht|done|]. intros v r Hr E. by destruct (token_hash_unused _ _ Hu v r Hr).
Qed.

(** ** Operations *)
Lemma save_changes_keeps s s' : keeps (save_changes s s').
Proof. unfold save_changes. keep. Qed.
Lemma loadSnapshot_keeps id : keeps (loadSnapshot id).
Proof. unfold loadSnapshot. keep. Qed.
#[export] Hint Resolve save_changes_keeps loadSnapshot_keeps : keeps.

Section repository.
Context (sha256 : string -> string).
Context (text_le : string -> string -> bool) (leaseDuration workerHeartbeatInterval : duration).

Lemma returnOrphan_keeps at_ item : keeps (returnOrphan at_ item).
Proof. unfold returnOrphan. keep. Qed.
Lemma promoteDueRetry_keeps at_ id : keeps (promoteDueRetry at_ id).
Proof. unfold promoteDueRetry. keep. Qed.
Lemma createLoop_keeps tokens now available ids : forall created capacity, keeps (createLoop tokens now available created capacity ids).
Proof. induction ids as [|id ids IH]; intros; cbn [createLoop]; unfold createDispatch; keep. Qed.
Lemma claimOne_keeps token now w item : keeps (claimOne sha256 leaseDuration token now w item).
Proof. unfold claimOne. keep. Qed.
#[local] Hint Resolve returnOrphan_keeps promoteDueRetry_keeps createLoop_keeps claimOne_keeps : keeps.
Lemma claimLoop_keeps tokens now w items : forall n, keeps (claimLoop sha256 leaseDuration tokens n now w items).
Proof. induction items as [|item items IH]; intros; cbn [claimLoop]; keep. Qed.
Lemma heartbeatLease_keeps now w ref : keeps (heartbeatLease sha256 leaseDuration now w ref).
Proof. unfold heartbeatLease. keep. Qed.
Lemma completeLeased_keeps now w n hash result d l : keeps (completeLeased now w n hash result d l).
Proof. unfold completeLeased. keep. Qed.
Lemma reapOne_keeps now item : keeps (reapOne now item).
Proof. unfold reapOne. keep. Qed.
#[local] Hint Resolve claimLoop_keeps heartbeatLease_keeps completeLeased_keeps reapOne_keeps : keeps.
Lemma heartbeatLeases_keeps now w refs : keeps (heartbeatLeases sha256 leaseDuration now w refs).
Proof. induction refs; cbn [heartbeatLeases]; keep. Qed.
Lemma reapLoop_keeps clock items : forall n, keeps (reapLoop clock n items).
Proof. induction items; intros; cbn [reapLoop]; keep. Qed.
#[local] Hint Resolve heartbeatLeases_keeps reapLoop_keeps : keeps.

Abbreviation call_keeps := (always stays_typed).

Lemma Apply_typed end_ change : call_keeps (Apply end_ change).
Proof. apply always_lift; [apply _|]. intros shape _. apply always_transaction; [apply _|]. eauto with keeps. Qed.

Lemma CreateDispatches_typed end_ skipped tokens now limit : call_keeps (CreateDispatches text_le end_ skipped tokens now limit).
Proof. apply always_fail_if; [apply _|]. intros _. apply always_transaction; [apply _|]. unfold returnOrphanedPendingDispatches, promoteDueRetries. keep. Qed.

Lemma Claim_typed end_ skipped tokens now w slots :
  call_keeps (Claim sha256 text_le leaseDuration end_ skipped tokens now w slots).
Proof. apply always_fail_if; [apply _|]. intros _. apply always_transaction; [apply _|]. keep. Qed.

Lemma Heartbeat_typed end_ now w refs : call_keeps (Heartbeat sha256 leaseDuration end_ now w refs).
Proof.
  apply always_transaction; [apply _|]. intros db db' l H Ht. go_inv. destruct (workers db !! w) as [row|] eqn:Hw; [|done]. go_inv.
  eapply heartbeatLeases_keeps; [exact H|].
  destruct (heartbeat_session now w row) as [Hv Hev]; [by apply (ct_sessions _ (ty_dispatches _ Ht))|done|]. by apply (typed_session _ _ row).
Qed.

Lemma Complete_typed end_ now w n token result : call_keeps (Complete sha256 end_ now w n token result).
Proof. apply always_lift; [apply _|]. intros hash _. apply always_transaction; [apply _|]. keep. Qed.

Lemma ReapExpired_typed end_ skipped clock now limit :
  call_keeps (ReapExpired text_le workerHeartbeatInterval end_ skipped clock now limit).
Proof.
  apply always_fail_if; [apply _|]. intros _. apply always_transaction; [apply _|]. intros db db' n H Ht. cbv zeta in H. go_inv.
  eapply reapLoop_keeps; [eassumption|]. destruct (ty_dispatches _ Ht) as [C1 C2 C3 C4 C5].
  apply typed_workers; [done|intros v; by rewrite lookup_fmap, fmap_is_Some|]. split; cbn; [done| |done| |].
  - intros m d l Hd Hl. rewrite lookup_fmap, fmap_is_Some. by eapply C2.
  - intros v r. rewrite lookup_fmap. destruct (workers db !! v) as [r0|] eqn:E; [|done]. intros [= <-]. pose proof (C4 _ _ E).
    case_match; [by eapply silent_session|done].
  - intros v1 v2 r1 r2. rewrite !lookup_fmap. destruct (workers db !! v1) as [q1|] eqn:E1; [|done]. destruct (workers db !! v2) as [q2|] eqn:E2; [|done].
    intros [= <-] [= <-] E. eapply C5; [exact E1|exact E2|]. repeat case_match; done.
Qed.

Lemma CancelRun_typed end_ now id : call_keeps (CancelRun end_ now id).
Proof. apply always_transaction; [apply _|]. keep. Qed.

Lemma CancelRequestedRuns_typed ends nows limit : call_keeps (CancelRequestedRuns text_le ends nows limit).
Proof.
  apply always_fail_if; [apply _|]. intros _ db db' r H. unfold mbind, go_bind, get in H. cbv zeta in H.
  destruct (for_each _ _ db) as [db1 o] eqn:E. assert (Hr : stays_typed db db1); [|destruct o; by injection H as <- _].
  revert E. apply always_for_each; [apply _|]. intros id. by apply always_wrapped, CancelRun_typed.
Qed.

Lemma RequestCancel_typed end_ id at_ : call_keeps (RequestCancel end_ id at_).
Proof.
  apply always_transaction; [apply _|]. intros db db' r H Ht. go_inv. destruct (runs db !! id) as [s|] eqn:Hs; [|done]. go_inv.
  match goal with Hx : loadSnapshot _ _ = _ |- _ => eapply loadSnapshot_keeps; [exact Hx|] end.
  match goal with Hx : (if _ then _ else _) _ = _ |- _ => rename Hx into Hreq end.
  case_match; go_inv; [|done]. eapply typed_run; [exact Ht|exact Hs| |by intros t; exists t].
  destruct (ty_runs _ Ht _ _ Hs). split; cbn; try done. lia.
Qed.

Lemma RegisterWorker_typed ends entropy clock request : call_keeps (RegisterWorker sha256 ends entropy clock request).
Proof. apply RegisterWorker_always; [apply _|]. intros w row _. apply insert_worker_keeps. Qed.

Lemma DrainWorker_typed end_ now w : call_keeps (DrainWorker end_ now w).
Proof.
  apply always_transaction; [apply _|]. intros db db' r H Ht. go_inv. destruct (workers db !! w) as [row|] eqn:Hw; [|done]. cbv zeta in H. go_inv.
  match goal with Hx : update_worker _ _ _ = _ |- _ => apply update_worker_inv in Hx as [Hv ->] end. passed.
  apply dec_stable in Hc. apply (typed_session _ _ row); [done|done|done|].
  eapply drained_session; [exact Hv|done|]. case_match; [right; left|left].
Qed.

Lemma perform_typed r db : typed db -> typed (perform sha256 text_le leaseDuration workerHeartbeatInterval r db).
Proof.
  intros Ht. destruct r; cbn; match goal with |- typed (?m db).1 => destruct (m db) eqn:E; cbn end.
  - by eapply CreateDispatches_typed.
  - by eapply Claim_typed.
  - by eapply Heartbeat_typed.
  - by eapply Complete_typed.
  - by eapply ReapExpired_typed.
  - by eapply CancelRun_typed.
  - by eapply CancelRequestedRuns_typed.
  - by eapply RequestCancel_typed.
  - by eapply RegisterWorker_typed.
  - by eapply DrainWorker_typed.
Qed.
End repository.
