(* ===== verification/ProtocolTheorems.v ===== *)
(** * What the dispatch protocol guarantees

    Facts about one step of the protocol first, then the theorems about the
    operations of the repository: whatever requests arrive, in whatever order,
    with whatever clocks, tokens, locked rows and failures. *)
From S2P Require Import Prelude Hoare GoStrings Json Model State Graph Compiler Scheduling Distributed Effects RunInvariant RunOperations RunResults RunProperties RunTheorems ChangeSet Stores Database Dispatch DatabaseFacts DispatchSteps DispatchInvariant Protocol Refinement.
From stdpp Require Import relations sorting.

Ltac unlet := repeat match goal with x := _ |- _ => subst x end.

(** ** Capacity *)
Definition within_capacity (db : database) : Prop :=
  forall w row, workers db !! w = Some row -> (count_leases w db <= w_max_concurrency row)%Z.

Lemma leased_closed w st hash now d : st ≠ DispatchLeased -> leased_to w (set_closed st hash now d) = false.
Proof. intros H. unfold leased_to. cbn. by rewrite bool_decide_eq_false_2. Qed.

(** Storing a row that is not leased to [w], or was before, adds no lease. *)
Lemma count_leases_store w db n d rs :
  (leased_to w d = true -> exists d0, dispatches db !! n = Some d0 /\ leased_to w d0 = true) ->
  (count_leases w (set_runs rs (store_dispatch n d db)) <= count_leases w db)%Z.
Proof.
  intros H. unfold count_leases. rewrite count_runs. unfold store_dispatch.
  pose proof (count_store (fun _ => leased_to w) db n d) as Hc. destruct (leased_to w d).
  - destruct H as (d0 & Hd0 & E); [done|]. rewrite Hd0, E in Hc. cbn in Hc |- *. lia.
  - destruct (dispatches db !! n); cbn in Hc |- *; lia.
Qed.

Lemma unregistered_leases db w : constraints db -> workers db !! w = None -> count_leases w db = 0%Z.
Proof.
  intros Hct Hw. unfold count_leases. destruct (dispatch_list _ db) as [|[n d] l] eqn:E; [done|].
  assert ((n, d) ∈ dispatch_list (fun _ => leased_to w) db) as [Hd Hl]%dispatch_list_elem by (rewrite E; by left).
  unfold leased_to in Hl. passed. destruct (d_lease d) as [le|] eqn:Ele; [|done].
  match goal with Hx : le_worker <$> _ = Some _ |- _ => injection Hx as <- end.
  destruct (ct_workers _ Hct _ _ _ Hd Ele) as [row Hrow]. congruence.
Qed.
Lemma worker_values_concurrency w row : worker_values w row = true -> (1 <= w_max_concurrency row <= 1024)%Z.
Proof. unfold worker_values. rewrite !andb_true_iff, !Z.leb_le. tauto. Qed.

Lemma step_capacity db db' : db_ok db -> protocol_step db db' -> within_capacity db -> within_capacity db'.
Proof.
  intros Hok Hstep Hcap w row Hw. destruct Hstep; unlet; cbn in Hw.
  - by apply Hcap.
  - etrans; [|by apply (Hcap w)]. apply count_leases_store. by rewrite leased_pending.
  - etrans; [|by apply (Hcap w)]. apply count_leases_store. by rewrite leased_closed.
  - destruct (decide (w = le_worker l)) as [->|Hne].
    + unfold save. rewrite (count_claim (le_worker l) n d l db) by done. assert (row = w0) as -> by congruence. lia.
    + etrans; [|by apply (Hcap w)]. apply count_leases_store. unfold leased_to. cbn.
      rewrite (bool_decide_eq_false_2 (Some _ = Some w)) by congruence. by rewrite andb_false_r.
  - etrans; [|by apply (Hcap w)]. refine (count_leases_store w db n (set_leased _ d) (runs db) _). intros Hl. exists d. split; [done|].
    unfold leased_to in *. cbn in Hl. rewrite H0, H1. exact Hl.
  - etrans; [|by apply (Hcap w)]. apply count_leases_store. destruct H7 as [[-> _]|[-> _]]; by rewrite leased_closed.
  - etrans; [|by apply (Hcap w)]. unfold count_leases.
    pose proof (count_map (fun _ => leased_to w) (revoke now id) (save id s s' db)) as Hc. cbn in Hc.
    apply inj_le, Hc. intros _ d. unfold revoke. by case_match; [rewrite leased_closed|].
  - by apply Hcap.
  - change (count_leases w db <= w_max_concurrency row)%Z. apply lookup_insert_Some in Hw as [[<- <-]|[_ Hw]]; [|by apply Hcap].
    rewrite (unregistered_leases db w0) by (done || apply Hok). apply worker_values_concurrency in H1. lia.
  - change (count_leases w db <= w_max_concurrency row)%Z. apply lookup_insert_Some in Hw as [[<- <-]|[_ Hw]]; [|by apply Hcap].
    rewrite (sv_max_concurrency _ _ H0). by apply Hcap.
Qed.

(** ** Concurrency of a run *)
Definition within_concurrency (db : database) : Prop :=
  forall id s d, runs db !! id = Some s -> Definition_ s = Some d -> (in_flight s <= Concurrency d)%Z.

Lemma run_moves_flight db id c s s' i t t' : run_moves db id c s s' i t t' ->
  (in_flight (nextRevision s s') + Z.of_nat (b2n (working (Status t))) = in_flight s + Z.of_nat (b2n (working (Status t'))))%Z /\
  Definition_ s' = Definition_ s.
Proof.
  intros Hm. pose proof (run_moves_good _ _ _ _ _ _ _ _ Hm) as (_ & [Hf _ _] & [Hlen _]). injection Hf as _ Hd _ _ _ _ _ _.
  split; [|done].
  exact (in_flight_moves i t t' s s' (rm_task _ _ _ _ _ _ _ _ Hm) Hlen (rm_moves _ _ _ _ _ _ _ _ Hm)).
Qed.

Lemma saved_concurrency db db' id c s s' i t t' :
  run_moves db id c s s' i t t' -> within_concurrency db -> runs db' = <[id := nextRevision s s']> (runs db) ->
  (working (Status t') = true -> working (Status t) = true \/ has_slot s = true) -> within_concurrency db'.
Proof.
  intros Hm Hcon Hruns Hw id2 s2 d. rewrite Hruns. intros [[<- <-]|[_ H]]%lookup_insert_Some Hd; [|by eapply Hcon].
  destruct (run_moves_flight _ _ _ _ _ _ _ _ Hm) as [Hf Hdef]. change (Definition_ s' = Some d) in Hd. rewrite Hdef in Hd.
  pose proof (Hcon _ _ _ (rm_run _ _ _ _ _ _ _ _ Hm) Hd) as Hle.
  destruct (working (Status t')) eqn:E; cbn in Hf; [|destruct (working (Status t)); cbn in Hf; lia].
  destruct Hw as [Hw|Hs]; [done|rewrite Hw in Hf; cbn in Hf; lia|]. unfold has_slot in Hs. rewrite Hd in Hs. passed.
  destruct (working (Status t)); cbn in Hf; lia.
Qed.

Lemma filter_none {A} (P : A -> Prop) `{!forall x, Decision (P x)} (l : list A) : (forall x, x ∈ l -> ~ P x) -> filter P l = [].
Proof.
  induction l as [|x l IH]; intros Hno; [done|]. rewrite filter_cons, decide_False by (apply Hno; by left).
  apply IH. intros y Hy. apply Hno. by right.
Qed.

Lemma step_concurrency db db' : protocol_step db db' -> within_concurrency db -> within_concurrency db'.
Proof.
  intros Hstep Hcon. destruct Hstep; unlet.
  - eapply saved_concurrency; [done|done|done|]. by rewrite H1.
  - eapply saved_concurrency; [done|done|done|]. by right.
  - eapply saved_concurrency; [done|done|done|]. by rewrite H1.
  - eapply saved_concurrency; [done|done|done|]. rewrite H0. by left.
  - exact Hcon.
  - eapply saved_concurrency; [done|done|done|]. by rewrite H1.
  - intros id2 s2 d. cbn. intros [[<- <-]|[_ Hs]]%lookup_insert_Some Hd; [|by eapply Hcon].
    rewrite in_flight_flags. cbn. replace (filter _ _) with (@nil bool); [|symmetry].
    + pose proof (stored_compiled _ _ H1) as Hc. pose proof (sr_definition _ _ H1) as Hd'.
      assert (d = definition c) as -> by congruence. pose proof (cw_concurrency _ Hc). cbn. lia.
    + apply filter_none. intros b (t & -> & Ht)%list_elem_of_fmap. by rewrite (H5 t Ht).
  - intros id2 s2 d. cbn. intros [[<- <-]|[_ Hs]]%lookup_insert_Some Hd; [|by eapply Hcon].
    exact (Hcon _ _ _ H Hd).
  - exact Hcon.
  - exact Hcon.
Qed.

(** ** Runs in the database *)

(** What becomes of a stored run: one operation of its state machine, saved
    with the next revision, or the first cancellation request. *)
Inductive stored_step (c : CompiledWorkflow) (s : RunSnapshot) : RunSnapshot -> Prop :=
| StoredStep s' : step c s s' -> stored_step c s (nextRevision s s')
| StoredRequest at_ : isWorkflowTerminal (run_Status (Run s)) = false -> CancelRequestedAt (Run s) = None ->
    stored_step c s (with_request at_ s).

Lemma not_canceled_None s : not_canceled s = true -> CancelRequestedAt (Run s) = None.
Proof. unfold not_canceled. by destruct (CancelRequestedAt (Run s)). Qed.

Lemma stored_insert (rs : gmap RunID RunSnapshot) (id id0 : RunID) c (s s' s0 : RunSnapshot) :
  rs !! id0 = Some s0 -> rs !! id = Some s -> stored_run c s -> stored_step c s s' ->
  exists s1 c1, <[id := s']> rs !! id0 = Some s1 /\ (s1 = s0 \/ stored_run c1 s0 /\ stored_step c1 s0 s1).
Proof.
  intros H0 Hs Hst Hstep. destruct (decide (id0 = id)) as [->|Hne].
  - simplify_eq. exists s', c. rewrite lookup_insert_eq. split; [done|by right].
  - exists s0, c. rewrite lookup_insert_ne by done. split; [done|by left].
Qed.

Lemma step_history db db' id s : db_ok db -> protocol_step db db' -> runs db !! id = Some s ->
  exists s' c, runs db' !! id = Some s' /\ (s' = s \/ stored_run c s /\ stored_step c s s').
Proof.
  intros Hok Hstep Hs. destruct (db_runs _ Hok _ _ Hs) as (_ & c0 & _). destruct Hstep; unlet; cbn;
    try (match goal with Hm : run_moves _ _ _ _ _ _ _ _ |- _ => destruct Hm end; eapply stored_insert; [done..|by constructor]).
  - by exists s, c0; split; [|left].
  - eapply stored_insert; [done..|by constructor].
  - destruct (db_runs _ Hok _ _ H) as (_ & c1 & Hst). eapply stored_insert; [done|done|exact Hst|].
    constructor; [done|by apply not_canceled_None].
  - by exists s, c0; split; [|left].
  - by exists s, c0; split; [|left].
Qed.

Lemma stored_step_run c s s' : stored_run c s -> stored_step c s s' -> run_wf c s' /\ Definition_ s' = Definition_ s.
Proof.
  intros Hst Hstep. pose proof (stored_compiled _ _ Hst) as Hc. destruct Hstep as [s' Hs|at_ _ _].
  - destruct (step_good c Hc s s' (sr_wf _ _ Hst) Hs) as ([[H1 H2 H3 H4 H5 H6] H7] & [Hf _ _] & _).
    injection Hf as _ Hd _ _ _ _ _ _. split; [|done]. split; [|exact H7].
    split; [exact H1|exact H2|by apply nextRevision_audit|exact H4|exact H5|exact H6].
  - split; [|done]. destruct (sr_wf _ _ Hst) as [[H1 H2 H3 H4 H5 H6] H7]. split; [|exact H7].
    split; [exact H1|exact H2|by eapply audit_ok_ext; [..|exact H3]|exact H4|exact H5|exact H6].
Qed.

Lemma protocol_history db db' id c s : db_ok db -> protocol db db' -> runs db !! id = Some s -> stored_run c s ->
  exists s', runs db' !! id = Some s' /\ stored_run c s' /\ rtc (stored_step c) s s'.
Proof.
  intros Hok Hr. revert s. induction Hr as [db|db1 db2 db3 Hstep Hr IH]; intros s Hs Hst; [by exists s|].
  pose proof (protocol_step_ok _ _ Hok Hstep) as Hok2.
  destruct (step_history _ _ _ _ Hok Hstep Hs) as (s2 & c2 & Hs2 & Hcase).
  assert (Hst2 : stored_run c s2 /\ rtc (stored_step c) s s2).
  { destruct Hcase as [->|[Hst' Hstored]]; [done|]. assert (c2 = c) as -> by by eapply stored_same.
    destruct (db_runs _ Hok2 _ _ Hs2) as (_ & c3 & Hst3).
    destruct (stored_step_run c s s2 Hst Hstored) as [_ Hd].
    assert (c3 = c) as ->; [|split; [done|by apply rtc_once]].
    destruct Hst as [_ _ D1 C1 _], Hst3 as [_ _ D3 C3 _]. rewrite Hd, D1 in D3. injection D3 as E. rewrite E in C1. congruence. }
  destruct Hst2 as [Hst2 Hr2]. destruct (IH Hok2 _ Hs2 Hst2) as (s3 & ? & ? & ?). exists s3. split_and!; [done|done|by etrans].
Qed.

Lemma protocol_capacity db db' : db_ok db -> protocol db db' -> within_capacity db -> within_capacity db'.
Proof. intros Hok Hr. induction Hr; [done|]. intros Hc. apply IHHr; [by eapply protocol_step_ok|by eapply step_capacity]. Qed.

Lemma protocol_concurrency db db' : protocol db db' -> within_concurrency db -> within_concurrency db'.
Proof. induction 1; [done|]. intros Hc. by apply IHrtc, (step_concurrency x). Qed.
