(* ===== verification/Registry.v ===== *)
(** * Workflow versions and the runs that belong to them

    What the control plane keeps about definitions ([registry]): versions are
    numbered without gaps and never change, a stored document is its own
    compiled form, a run carries the definition of the version it names, and an
    idempotency record names what it stands for.  With the dispatch protocol's
    invariants this is [stored_ok]; every call of Definitions.v and of the
    dispatcher [maintains] it, however the call ends. *)
From S2P Require Import Prelude Hoare GoStrings Json Model State Graph Compiler SnapshotJson CanonicalJson Scheduling Distributed Effects RunInvariant RunOperations RunResults RunProperties RunTheorems ChangeSet Stores Database Dispatch Workers Definitions Preserves DatabaseFacts DispatchSteps DispatchInvariant NewRuns Protocol Refinement TableTypes ProtocolTheorems.
From stdpp Require Import relations.

(** Decoding leaves a decoded document alone, and the executors and attempt
    limits that were written are there. *)
Definition has_defaults (d : WorkflowDefinition) : Prop := Forall (fun t => normalize t = t) (def_Tasks d).
Record jsonb_ok (jsonb : WorkflowDefinition -> option WorkflowDefinition) : Prop := {
  jb_decoded : forall d d', jsonb d = Some d' -> cloneDefinition d' = Ok d';
  jb_defaults : forall d d', jsonb d = Some d' -> has_defaults d -> has_defaults d';
}.

(** ** The registry *)
Definition names_run (db : database) (row : idempotency_row) : Prop :=
  i_resource_type row = resourceRun /\ is_Some (runs db !! i_resource_id row).
Definition names_version (db : database) (row : idempotency_row) : Prop :=
  i_resource_type row = resourceWorkflowVersion /\
  exists v, i_resource_version row = Some v /\ is_Some (versions db !! (i_resource_id row, v)).

Record registry (db : database) : Prop := {
  rg_documents : forall ref row, versions db !! ref = Some row -> canonical_document (v_definition row);
  rg_ids : forall id w, workflows db !! id = Some w -> match_identifier id = true;
  rg_latest : forall id w, workflows db !! id = Some w -> (1 <= wr_latest_version w <= max_integer)%Z;
  rg_versions : forall id v, is_Some (versions db !! (id, v)) <->
    exists w, workflows db !! id = Some w /\ (1 <= v <= wr_latest_version w)%Z;
  rg_runs : forall id s, runs db !! id = Some s -> exists row,
    versions db !! (DefinitionID (Run s), DefinitionVersion (Run s)) = Some row /\ Definition_ s = Some (v_definition row);
  rg_started : forall principal key row, idempotency db !! (principal, operationStartRun, key) = Some row -> names_run db row;
  rg_created : forall principal operation key row, operation ∈ [operationCreateWorkflow; operationCreateVersion] ->
    idempotency db !! (principal, operation, key) = Some row -> names_version db row;
}.

Record stored_ok (db : database) : Prop := {
  so_rows : db_ok db;
  so_typed : typed db;
  so_capacity : within_capacity db;
  so_concurrency : within_concurrency db;
  so_registry : registry db;
}.

(** What no call takes back: a run goes on with its version and its audit log. *)
Definition continues (s s' : RunSnapshot) : Prop :=
  Definition_ s' = Definition_ s /\ DefinitionID (Run s') = DefinitionID (Run s) /\ DefinitionVersion (Run s') = DefinitionVersion (Run s) /\
  CreatedAt (Run s') = CreatedAt (Run s) /\ Events s `prefix_of` Events s'.
#[export] Instance continues_preorder : PreOrder continues.
Proof.
  split; [by intros s|]. intros s1 s2 s3 (A1 & A2 & A3 & A4 & A5) (B1 & B2 & B3 & B4 & B5).
  split_and!; [congruence..|by etrans].
Qed.
Definition same_origin (w w' : workflow_row) : Prop :=
  wr_created_at w' = wr_created_at w /\ wr_created_by w' = wr_created_by w /\ (wr_latest_version w <= wr_latest_version w')%Z.
Record kept (db db' : database) : Prop := {
  kp_versions : forall ref row, versions db !! ref = Some row -> versions db' !! ref = Some row;
  kp_records : forall key row, idempotency db !! key = Some row -> idempotency db' !! key = Some row;
  kp_runs : forall id s, runs db !! id = Some s -> exists s', runs db' !! id = Some s' /\ continues s s';
  kp_workflows : forall id w, workflows db !! id = Some w -> exists w', workflows db' !! id = Some w' /\ same_origin w w';
}.
#[export] Instance kept_preorder : PreOrder kept.
Proof.
  split.
  - intros db. split; [done|done|intros id s Hs; by exists s|intros id w Hw; by exists w].
  - intros db1 db2 db3 [V1 R1 S1 W1] [V2 R2 S2 W2]. split; [auto|auto| |].
    + intros id s Hs. destruct (S1 id s Hs) as (s2 & Hs2 & C1). destruct (S2 id s2 Hs2) as (s3 & Hs3 & C2). exists s3. by split; [|etrans].
    + intros id w Hw. destruct (W1 id w Hw) as (w2 & Hw2 & A1 & A2 & A3). destruct (W2 id w2 Hw2) as (w3 & Hw3 & B1 & B2 & B3).
      exists w3. split; [done|]. split_and!; [congruence..|lia].
Qed.
Definition maintains (db db' : database) : Prop := stored_ok db -> stored_ok db' /\ kept db db'.
#[export] Instance maintains_preorder : PreOrder maintains.
Proof.
  split; [by intros db ?|]. intros db1 db2 db3 H1 H2 Hok. destruct (H1 Hok) as [Hok2 K1], (H2 Hok2) as [Hok3 K2].
  split; [done|by etrans].
Qed.

(** ** The tables of the definitions *)
Definition same_runs (db db' : database) : Prop :=
  runs db' = runs db /\ dispatches db' = dispatches db /\ workers db' = workers db.

Lemma same_runs_ok db db' : same_runs db db' -> db_ok db -> typed db -> db_ok db' /\ typed db'.
Proof.
  destruct db, db'. unfold same_runs. cbn. intros (-> & -> & ->) [H1 [C1 C2 C3 C4 C5] H3 H4 H5] [T1 T2 T3 _]. cbn in *.
  assert (Hct : constraints (mkDatabase runs dispatches workers workflows0 versions0 idempotency0)) by by split.
  split; [by split|]. split; [exact T1| |exact T3|done]. intros run key a Ha. by destruct (T2 run key a Ha).
Qed.

Lemma stored_ok_same db db' : same_runs db db' -> registry db' -> stored_ok db -> stored_ok db'.
Proof.
  intros Hsame Hreg [H1 H2 H3 H4 _]. destruct (same_runs_ok db db' Hsame H1 H2) as [Hok Hty]. destruct Hsame as (E1 & E2 & E3).
  split; [done|done| | |done].
  - intros w row. rewrite E3. unfold count_leases, dispatch_list. rewrite E2. apply H3.
  - unfold within_concurrency. by rewrite E1.
Qed.

(** The next version of a workflow, with the record of the request. *)
Definition latest (id : string) (db : database) : Z := from_option wr_latest_version 0%Z (workflows db !! id).
Lemma registry_version db id w row principal operation key hash :
  let v := (latest id db + 1)%Z in
  registry db -> match_identifier id = true -> (forall w0, workflows db !! id = Some w0 -> same_origin w0 w) ->
  canonical_document (v_definition row) -> wr_latest_version w = v -> (v <= max_integer)%Z ->
  operation ∈ [operationCreateWorkflow; operationCreateVersion] -> idempotency db !! (principal, operation, key) = None ->
  let db' := mkDatabase (runs db) (dispatches db) (workers db) (<[id := w]> (workflows db)) (<[(id, v) := row]> (versions db))
    (<[(principal, operation, key) := mkIdempotency hash resourceWorkflowVersion id (Some v)]> (idempotency db)) in
  registry db' /\ kept db db'.
Proof.
  intros v [R1 Rid R2 R3 R4 R5 R6] Hident Horigin Hcanon Hw Hmax Hop Hno db'.
  assert (Hpos : (1 <= v)%Z) by (unfold v, latest; destruct (workflows db !! id) eqn:E; cbn; [apply R2 in E|]; lia).
  assert (Hnew : versions db !! (id, v) = None).
  { apply eq_None_not_Some. intros (w0 & Hw0 & Hv)%R3. unfold v, latest in Hv. rewrite Hw0 in Hv. cbn in Hv. lia. }
  assert (Hkeep : kept db db').
  { split; cbn; [|intros k r Hr; rewrite lookup_insert_ne; congruence|intros i s Hs; by exists s|].
    2: { intros i w0 Hw0. destruct (decide (i = id)) as [->|Hne]; [exists w|exists w0]; rewrite ?lookup_insert_eq, ?lookup_insert_ne by done; [|done].
         split; [done|]. by apply Horigin. }
    intros ref r Hr. rewrite lookup_insert_ne; [done|]. intros <-. by rewrite Hr in Hnew. }
  split; [|done]. split; cbn.
  - intros ref r [[_ <-]|[_ Hr]]%lookup_insert_Some; [done|by eapply R1].
  - intros i w0 [[<- _]|[_ H]]%lookup_insert_Some; [done|by eapply Rid].
  - intros i w0 [[_ <-]|[_ H]]%lookup_insert_Some; [lia|by eapply R2].
  - intros i k. rewrite lookup_insert_is_Some'. rewrite (R3 i k). split.
    + intros [[= <- <-]|(w0 & H & Hk)]; [exists w; rewrite lookup_insert_eq; split; [done|lia]|].
      destruct (decide (i = id)) as [->|Hne]; [|exists w0; by rewrite lookup_insert_ne].
      exists w. rewrite lookup_insert_eq. split; [done|]. rewrite Hw. unfold v, latest. rewrite H. cbn. lia.
    + intros (w0 & [[<- <-]|[Hne H]]%lookup_insert_Some & Hk); [|right; by exists w0].
      destruct (decide (k = v)) as [->|Hne]; [by left|right]. rewrite Hw in Hk. unfold v, latest in Hk, Hne.
      destruct (workflows db !! id) as [w0|]; cbn in *; [exists w0; split; [done|lia]|lia].
  - intros i s Hs. destruct (R4 i s Hs) as (r & Hr & Hd). exists r. split; [by apply Hkeep|done].
  - intros p k r [[[= _ Eop _] _]|[_ Hr]]%lookup_insert_Some; [|by apply (R5 p k)].
    rewrite Eop, list_elem_of_In in Hop. by destruct Hop as [?|[?|[]]].
  - intros p op k r Ho [[_ <-]|[_ Hr]]%lookup_insert_Some.
    + split; [done|]. exists v. split; [done|]. cbn. by rewrite lookup_insert_eq.
    + destruct (R6 p op k r Ho Hr) as (Hty & k' & Hk' & [r' Hr']). split; [done|]. exists k'. split; [done|].
      exists r'. by apply (kp_versions db db' Hkeep).
Qed.

(** ** Statements *)
Lemma insertIdempotency_inv principal operation key row db db' u : insertIdempotency principal operation key row db = (db', Ok u) ->
  idempotency db !! (principal, operation, key) = None /\
  db' = set_idempotency (<[(principal, operation, key) := row]> (idempotency db)) db.
Proof. intros H. unfold insertIdempotency in H. go_inv. by destruct (idempotency db !! _). Qed.
Lemma insert_workflow_inv id row db db' u : insert_workflow id row db = (db', Ok u) ->
  workflows db !! id = None /\ match_identifier id = true /\ db' = set_workflows (<[id := row]> (workflows db)) db.
Proof. intros H. unfold insert_workflow in H. go_inv. passed. by destruct (workflows db !! _). Qed.

Section repository.
Context (jsonb : WorkflowDefinition -> option WorkflowDefinition) (Hjsonb : jsonb_ok jsonb).

Lemma insert_version_inv id version definition hash now by_ db db' u : has_defaults definition ->
  insert_version jsonb id version definition hash now by_ db = (db', Ok u) ->
  (version <= max_integer)%Z /\ exists row, canonical_document (v_definition row) /\ jsonb definition = Some (v_definition row) /\
    db' = set_versions (<[(id, version) := row]> (versions db)) db.
Proof.
  intros Hdef H. unfold insert_version in H. go_inv. passed. split; [done|].
  destruct (jsonb definition) as [d|] eqn:E; [|done]. match goal with Hx : lift _ _ = _ |- _ => injection Hx as <- <- end.
  exists (mkVersion d hash now by_). split; [|by split]. split; [by eapply jb_decoded|by eapply jb_defaults].
Qed.

(** A body of a request that creates a version either finds its record or
    writes the version, the workflow and the record. *)
Lemma version_maintains db id w row principal operation key hash :
  (latest id db + 1 <= max_integer)%Z -> (registry db -> match_identifier id = true) -> (forall w0, workflows db !! id = Some w0 -> same_origin w0 w) ->
  wr_latest_version w = (latest id db + 1)%Z -> canonical_document (v_definition row) ->
  operation ∈ [operationCreateWorkflow; operationCreateVersion] -> idempotency db !! (principal, operation, key) = None ->
  maintains db (mkDatabase (runs db) (dispatches db) (workers db) (<[id := w]> (workflows db))
    (<[(id, (latest id db + 1)%Z) := row]> (versions db))
    (<[(principal, operation, key) := mkIdempotency hash resourceWorkflowVersion id (Some (latest id db + 1)%Z)]> (idempotency db))).
Proof.
  intros Hmax Hident Horigin Hw Hrow Hop Hno Hok.
  destruct (registry_version db id w row principal operation key hash (so_registry _ Hok) (Hident (so_registry _ Hok)) Horigin Hrow Hw Hmax Hop Hno) as [Hreg Hkept].
  split; [|exact Hkept]. by eapply stored_ok_same; [| |exact Hok].
Qed.

Lemma replay_version_same record hash : preserves eq (replay_version record hash).
Proof. unfold replay_version. keep. Qed.

Lemma CreateDefinition_maintains end_ now definition principal key hash : has_defaults definition ->
  always maintains (CreateDefinition jsonb end_ now definition principal key hash).
Proof.
  intros Hdef. unfold CreateDefinition. do 2 (apply always_lift; [apply _|]; intros ? _). apply always_transaction; [apply _|].
  intros db db' r H. unfold lockIdempotency, loadIdempotency in H. go_inv. destruct (idempotency _ !! _) eqn:Hrec.
  { apply replay_version_same in H as <-. done. }
  cbv zeta in H. go_inv.
  match goal with Hx : insert_workflow _ _ _ = _ |- _ => apply insert_workflow_inv in Hx as (Hw & Hident & ->) end.
  match goal with Hx : insert_version _ _ _ _ _ _ _ _ = _ |- _ => apply insert_version_inv in Hx as (Hmax & row & Hrow & _ & ->); [|done] end.
  match goal with Hx : insertIdempotency _ _ _ _ _ = _ |- _ => apply insertIdempotency_inv in Hx as [_ ->] end.
  match goal with |- maintains ?db _ => pose proof (version_maintains db (wf_ID definition) (mkWorkflow 1 now principal) row principal operationCreateWorkflow key hash) as H end.
  unfold latest in H. rewrite Hw in H. apply H; try done; by left.
Qed.

Lemma CreateVersion_maintains end_ now id definition principal key hash : has_defaults definition ->
  always maintains (CreateVersion jsonb end_ now id definition principal key hash).
Proof.
  intros Hdef. unfold CreateVersion. apply always_fail_if; [apply _|]. intros _. do 2 (apply always_lift; [apply _|]; intros ? _).
  apply always_transaction; [apply _|].
  intros db db' r H. unfold lockIdempotency, loadIdempotency in H. go_inv. destruct (idempotency _ !! _) eqn:Hrec.
  { apply replay_version_same in H as <-. done. }
  go_inv. destruct (workflows _ !! _) as [w|] eqn:Hw; [|done]. cbv zeta in H. go_inv.
  match goal with Hx : insert_version _ _ _ _ _ _ _ _ = _ |- _ => apply insert_version_inv in Hx as (Hmax & row & Hrow & _ & ->); [|done] end.
  match goal with Hx : insertIdempotency _ _ _ _ _ = _ |- _ => apply insertIdempotency_inv in Hx as [_ ->] end.
  match goal with |- maintains ?db _ => pose proof (version_maintains db id (mkWorkflow (wr_latest_version w + 1) (wr_created_at w) (wr_created_by w)) row principal operationCreateVersion key hash) as H end.
  unfold latest in H. rewrite Hw in H. apply H; try done; [intros Hreg; by eapply rg_ids|intros w0 [= <-]; split_and!; [done..|cbn; lia]|by right; left].
Qed.
End repository.

(** ** The dispatcher *)
Lemma stored_step_continues c s s' : stored_run c s -> stored_step c s s' -> continues s s'.
Proof.
  intros Hst Hstep. pose proof (stored_compiled _ _ Hst) as Hc. destruct Hstep as [s' Hs|at_ _ _]; [|done].
  destruct (step_good c Hc s s' (sr_wf _ _ Hst) Hs) as (_ & [Hf [evs He] _] & _). injection Hf as _ Hd _ Hi Hv _ _ Hat.
  split_and!; [done..|]. exists evs. exact He.
Qed.

Lemma step_tables db db' : protocol_step db db' ->
  workflows db' = workflows db /\ versions db' = versions db /\ idempotency db' = idempotency db /\
  forall id, is_Some (runs db' !! id) -> is_Some (runs db !! id).
Proof.
  intros Hstep. destruct Hstep; unlet; (split_and!; [done|done|done|]); cbn; intros id0; try done;
    try match goal with Hm : run_moves _ _ _ _ _ _ _ _ |- _ => pose proof (rm_run _ _ _ _ _ _ _ _ Hm) end;
    intros [<-|?]%lookup_insert_is_Some'; try done; by eexists.
Qed.

Lemma protocol_step_maintains db db' : db_ok db -> protocol_step db db' -> registry db -> registry db' /\ kept db db'.
Proof.
  intros Hok Hstep [R1 Rid R2 R3 R4 R5 R6]. destruct (step_tables db db' Hstep) as (Ew & Ev & Ei & Hdom).
  assert (Hruns : forall id s, runs db !! id = Some s -> exists s', runs db' !! id = Some s' /\ continues s s').
  { intros id s Hs. destruct (step_history db db' id s Hok Hstep Hs) as (s' & c & Hs' & Hcase). exists s'. split; [done|].
    destruct Hcase as [->|[Hst Hss]]; [done|by eapply stored_step_continues]. }
  assert (Hrow : forall row, names_run db row -> names_run db' row).
  { intros row [Hty [s Hs]]. split; [done|]. destruct (Hruns _ s Hs) as (s' & Hs' & _). by exists s'. }
  split; split; rewrite ?Ev, ?Ew, ?Ei; try done.
  - intros id s' Hs'. destruct (Hdom id) as [s Hs]; [by exists s'|]. destruct (Hruns id s Hs) as (s2 & Hs2 & Ed & Eid & Ever & _).
    rewrite Hs' in Hs2. injection Hs2 as <-. rewrite Ed, Eid, Ever. by eapply R4.
  - intros p k row Hr. by apply Hrow, (R5 p k).
  - unfold names_version. rewrite Ev. exact R6.
  - intros id w Hw. by exists w.
Qed.

Lemma protocol_maintains db db' : protocol db db' -> (typed db -> typed db') -> maintains db db'.
Proof.
  intros Hr Hty Hok. assert (H : registry db' /\ kept db db').
  { clear Hty. destruct Hok as [Hrows _ _ _ Hreg]. induction Hr as [db|db1 db2 db3 Hstep _ IH]; [done|].
    destruct (protocol_step_maintains _ _ Hrows Hstep Hreg) as [Hreg2 K1].
    destruct (IH (protocol_step_ok _ _ Hrows Hstep) Hreg2) as [Hreg3 K2]. split; [done|by etrans]. }
  destruct H as [Hreg Hkept]. split; [|done]. destruct Hok. split; [by eapply protocol_ok|by apply Hty|by eapply protocol_capacity|by eapply protocol_concurrency|done].
Qed.

(** ** New runs *)
Lemma fresh_flight s : fresh_run s -> in_flight s = 0%Z.
Proof.
  intros Hf. rewrite in_flight_flags, filter_none; [done|]. intros b (t & -> & Ht)%list_elem_of_fmap.
  by rewrite (proj1 (fresh_idle s t Hf Ht)).
Qed.

Lemma fresh_typed s : fresh_run s -> run_Status (Run s) = WorkflowPending -> run_typed s.
Proof.
  intros Hf Hst. split.
  - by rewrite Hst.
  - by rewrite (fh_revision _ Hf).
  - by rewrite (fh_last _ Hf).
  - intros t Ht. by apply (fresh_idle s).
  - apply Hf.
  - rewrite (fh_events _ Hf). by intros e ?%elem_of_nil.
  - rewrite (fh_events _ Hf). constructor.
Qed.

Lemma new_run_rows db id c s : db_ok db -> typed db -> runs db !! id = None -> ID (Run s) = id -> stored_run c s -> fresh_run s ->
  run_Status (Run s) = WorkflowPending ->
  let db' := set_runs (<[id := s]> (runs db)) db in db_ok db' /\ typed db'.
Proof.
  intros [D1 D2 D3 D4 D5] [T1 T2 T3 T4] Hno Hid Hst Hf Hpend db'.
  assert (Hkeep : forall i s0, runs db !! i = Some s0 -> runs db' !! i = Some s0).
  { intros i s0 Hi. cbn. rewrite lookup_insert_ne; [done|]. intros <-. congruence. }
  assert (Hat : forall r k a, attempt_at db' r k a -> attempt_at db r k a).
  { intros r k a (s0 & t & Hs0 & Ht & Hk & Ha). cbn in Hs0. apply lookup_insert_Some in Hs0 as [[_ <-]|[_ Hs0]]; [|by exists s0, t].
    rewrite (fh_attempts _ Hf t Ht) in Ha. by apply elem_of_nil in Ha. }
  split; split; cbn.
  - intros i s0 [[<- <-]|[_ Hi]]%lookup_insert_Some; [split; [done|by exists c]|by apply D1].
  - by apply constraints_runs.
  - intros n d Hd. apply lookup_insert_is_Some'. right. by eapply D3.
  - intros n d Hd Ha. destruct (D4 n d Hd Ha) as (s0 & i & t & Hs0 & Ht). exists s0, i, t. split; [by apply Hkeep|done].
  - intros i s0 j t [[<- <-]|[_ Hi]]%lookup_insert_Some Ht Hw; [|by eapply D5].
    apply list_elem_of_lookup_2 in Ht. by rewrite (proj1 (fresh_idle s t Hf Ht)) in Hw.
  - intros i s0 [[<- <-]|[_ Hi]]%lookup_insert_Some; [by apply fresh_typed|by eapply T1].
  - intros r k a Ha. by destruct (T2 r k a (Hat _ _ _ Ha)).
  - intros r1 r2 k1 k2 a1 a2 H1 H2. by apply T3; apply Hat.
  - by apply constraints_runs.
Qed.

(** A new run of a stored version, with the record of the request that started
    it, if there is one. *)
Lemma new_run_maintains db id c s row W : runs db !! id = None -> ID (Run s) = id -> stored_run c s -> fresh_run s ->
  run_Status (Run s) = WorkflowPending ->
  versions db !! (DefinitionID (Run s), DefinitionVersion (Run s)) = Some row -> Definition_ s = Some (v_definition row) ->
  (W = idempotency db \/ exists principal key hash, idempotency db !! (principal, operationStartRun, key) = None /\
     W = <[(principal, operationStartRun, key) := mkIdempotency hash resourceRun id None]> (idempotency db)) ->
  maintains db (set_idempotency W (set_runs (<[id := s]> (runs db)) db)).
Proof.
  intros Hno Hid Hst Hf Hpend Hrow Hd HW [H1 H2 H3 H4 [R1 Rid R2 R3 R4 R5 R6]].
  destruct (new_run_rows db id c s H1 H2 Hno Hid Hst Hf Hpend) as [Hok Hty].
  assert (Hkeep : forall i s0, runs db !! i = Some s0 -> <[id := s]> (runs db) !! i = Some s0).
  { intros i s0 Hi. rewrite lookup_insert_ne; [done|]. intros <-. congruence. }
  assert (Hnames : forall r, names_run db r -> names_run (set_idempotency W (set_runs (<[id := s]> (runs db)) db)) r).
  { intros r [Hr [s0 Hs0]]. split; [done|]. exists s0. by apply Hkeep. }
  set (db1 := set_runs _ db) in *. destruct (same_runs_ok db1 (set_idempotency W db1)) as [Hok' Hty']; [done|done|done|].
  split; [split; [done|done|exact H3| |]|split; cbn].
  - intros i s0 d Hi Hs0. change (<[id := s]> (runs db) !! i = Some s0) in Hi.
    apply lookup_insert_Some in Hi as [[<- <-]|[_ Hi]]; [|by eapply H4].
    rewrite fresh_flight by done. pose proof (sr_definition _ _ Hst) as Hd'. rewrite Hs0 in Hd'. injection Hd' as ->.
    pose proof (cw_concurrency _ (stored_compiled _ _ Hst)). lia.
  - split; cbn; [done|done|done|done| | |].
    + intros i s0 [[<- <-]|[_ Hi]]%lookup_insert_Some; [by exists row|by eapply R4].
    + intros p k r Hr. destruct HW as [->|(p0 & k0 & h & _ & ->)]; [by apply Hnames, (R5 p k)|].
      apply lookup_insert_Some in Hr as [[_ <-]|[_ Hr]]; [|by apply Hnames, (R5 p k)].
      split; [done|]. exists s. cbn. by rewrite lookup_insert_eq.
    + intros p op k r Hop Hr. destruct HW as [->|(p0 & k0 & h & _ & ->)]; [by apply (R6 p op k)|].
      apply lookup_insert_Some in Hr as [[[= _ E _] _]|[_ Hr]]; [|by apply (R6 p op k)].
      rewrite <-E, list_elem_of_In in Hop. by destruct Hop as [?|[?|[]]].
  - done.
  - intros k r Hr. destruct HW as [->|(p0 & k0 & h & Hnone & ->)]; [done|]. rewrite lookup_insert_ne; congruence.
  - intros i s0 Hi. exists s0. split; [by apply Hkeep|done].
  - intros i w Hw. by exists w.
Qed.
