(* ===== verification/DispatchTheorems.v ===== *)
(** * The dispatcher is correct

    The theorems about the operations of the repository: whatever requests
    arrive, in whatever order, with whatever clocks, tokens, locked rows and
    failures.  Each follows from a fact about the steps of Protocol.v and the
    refinement of Refinement.v, or from the effect of one operation. *)
From S2P Require Import Prelude Hoare GoStrings Json Model State Graph Compiler Scheduling Distributed Effects RunInvariant RunOperations RunResults RunProperties RunTheorems ChangeSet Stores Database Dispatch Preserves DatabaseFacts DispatchSteps DispatchInvariant Protocol Refinement TableTypes ProtocolTheorems.
From stdpp Require Import relations sorting.

(** ** A database, for samples *)

(** A digest of 32 bytes. *)
Fixpoint sample_bytes (n : nat) (z : Z) : string :=
  match n with
  | 0 => EmptyString
  | S n => String (Ascii.ascii_of_N (Z.to_N (z mod 256))) (sample_bytes n (z / 256))
  end.
Definition sample_sha256 (s : string) : string :=
  sample_bytes 32 (foldl (fun h x => (h * 257 + Z.of_N (Ascii.N_of_ascii x) + 1) mod 2 ^ 256) 7 (String.list_ascii_of_string s))%Z.
Definition sample_text_le (a b : string) : bool := String.leb a b.

Definition sample_worker : worker_row :=
  mkWorker "worker" 1 [ExecutorMock] 1 WorkerActive (sample_sha256 "session") 1000 1000 None.
Definition sample_db : database :=
  mkDatabase {["run" := sample_run []]} ∅ {["w1" := sample_worker]} ∅ ∅ ∅.

Definition no_lock (_ : string) : bool := false.
Definition sample_tokens (prefix : string) (n : nat) : outcome string := Ok (String.append prefix (String (Ascii.ascii_of_nat (48 + n)) EmptyString)).
Abbreviation sample_all := (perform_all sample_sha256 sample_text_le defaultLeaseDuration defaultWorkerHeartbeatInterval).

Lemma sample_stored ops : is_Some (run_from_start compiled_diamond ops) ->
  let s := sample_run ops in
  forallb (fun t => attempts_contiguous 1 (Attempts t)) (Tasks (Run s)) && events_contiguous 1 (Events s)
    && (LastEventSequence (Run s) =? Z.of_nat (length (Events s)))%Z
    && ((0 <=? Revision (Run s)) && (Revision (Run s) <? 2 ^ 63))%Z = true ->
  Definition_ s = Some (definition compiled_diamond) -> stored_run compiled_diamond s.
Proof.
  intros [s Hs] s' Hload Hdef. subst s'. unfold sample_run in *. rewrite Hs in *. cbn [default] in *.
  assert (Hc : compiled_wf compiled_diamond) by (eapply compiled_ok, compile_diamond).
  passed. split; [| |done|vm_compute; reflexivity..].
  - eapply reachable_run_wf; [exact Hc|by eapply run_from_start_reachable].
  - split; [|done|done|lia]. intros t Ht. rewrite forallb_forall in *. by apply H, list_elem_of_In.
Qed.

Lemma sample_db_ok : db_ok sample_db.
Proof.
  assert (Hst : stored_run compiled_diamond (sample_run [])).
  { apply sample_stored; [by eexists; vm_compute|vm_compute; reflexivity..]. }
  split; cbn.
  - intros id s [<- <-]%lookup_singleton_Some. split; [by vm_compute|by exists compiled_diamond].
  - split; cbn; [done|done|done| |].
    + intros w row [<- <-]%lookup_singleton_Some. vm_compute. reflexivity.
    + by intros w1 w2 r1 r2 [<- <-]%lookup_singleton_Some [<- <-]%lookup_singleton_Some.
  - done.
  - done.
  - intros id s i t [<- <-]%lookup_singleton_Some Ht Hw.
    assert (Hidle : forallb (fun t => negb (working (Status t))) (Tasks (Run (sample_run []))) = true) by (vm_compute; reflexivity).
    rewrite forallb_forall in Hidle. specialize (Hidle t). rewrite Hw in Hidle.
    by specialize (Hidle (proj1 (list_elem_of_In _ _) (list_elem_of_lookup_2 _ _ _ Ht))).
Qed.

Section repository.
Context (sha256 : string -> string).
Context (text_le : string -> string -> bool) (leaseDuration workerHeartbeatInterval : duration).
#[local] Abbreviation perform := (perform sha256 text_le leaseDuration workerHeartbeatInterval).
#[local] Abbreviation perform_all := (perform_all sha256 text_le leaseDuration workerHeartbeatInterval).
#[local] Abbreviation Complete := (Complete sha256).

(** ** The protocol *)

(** C2: Every request to the repository is a sequence of steps of the dispatch
    protocol, or leaves the tables as they are: the queries, locks, loops and
    error branches of the code implement the abstract specification. *)
Theorem dispatcher_refines_protocol r db : db_ok db -> protocol db (perform r db).
Proof. apply perform_refines. Qed.

(** The invariant holds after any requests: stored runs satisfy the run
    invariant and can be loaded, rows satisfy the table constraints, a pending
    dispatch belongs to a queued task and a leased one to the running attempt
    it names, every queued or running task has its dispatch, and no task has
    two. *)
Theorem dispatcher_invariant rs db : db_ok db -> db_ok (perform_all rs db).
Proof. apply perform_all_ok. Qed.

(** C8: A worker never holds more leases than its session allows. *)
Theorem worker_capacity rs db : db_ok db -> within_capacity db -> within_capacity (perform_all rs db).
Proof. intros Hok. by apply protocol_capacity, perform_all_refines. Qed.

(** C18: The queued and running tasks of a run never exceed the concurrency of its
    definition. *)
Theorem run_concurrency rs db : db_ok db -> within_concurrency db -> within_concurrency (perform_all rs db).
Proof. intros Hok. by apply protocol_concurrency, perform_all_refines. Qed.

(** C12: A stored run changes only by operations of its state machine, each saved
    under the next revision, and by the first cancellation request. *)
Theorem runs_follow_state_machine rs db id c s :
  db_ok db -> runs db !! id = Some s -> stored_run c s ->
  exists s', runs (perform_all rs db) !! id = Some s' /\ stored_run c s' /\ rtc (stored_step c) s s'.
Proof. intros Hok. by eapply protocol_history, perform_all_refines. Qed.

(** ** Results *)

Lemma completeLeased_row now w n hash result d l db db' :
  completeLeased now w n hash result d l db = (db', Ok tt) ->
  exists d1, dispatches db' !! n = Some (set_closed DispatchCompleted (Some hash) now d1).
Proof.
  unfold completeLeased. intros H. go_inv. destruct (owns_attempt _ _ _ _ _) as [i|]; [|done]. go_inv.
  match goal with Hx : (let '(_, _) := ?p in _) _ = _ |- _ => destruct p; go_inv end. passed.
  match goal with Hx : update_dispatch _ _ _ _ _ = _ |- _ => apply update_dispatch_inv in Hx as (d1 & _ & _ & _ & ->) end.
  exists d1. apply lookup_insert_eq.
Qed.

(** What [Complete] leaves when it succeeds. *)
Lemma Complete_closes now w n token result db db' b :
  db_ok db -> Complete Committed now w n token result db = (db', Ok b) ->
  b = true /\ exists d l h, dispatches db' !! n = Some d /\ d_status d = DispatchCompleted /\ d_lease d = Some l /\
    le_worker l = w /\ MatchesToken sha256 token (le_token_hash l) = true /\
    digestWorkerResult sha256 result = Ok h /\ d_result_hash d = Some h.
Proof.
  intros Hok H. pose proof (Complete_refines sha256 _ _ _ _ _ _ _ _ _ H Hok) as Hsteps. unfold Dispatch.Complete in H. go_inv.
  unfold lift in Hm. injection Hm as <- Hh. apply transaction_Ok in H. go_inv.
  destruct (dispatches db !! n) as [d|] eqn:Hd; [|done]. go_inv. destruct (d_lease d) as [l|] eqn:Hl; [|done]. go_inv. passed.
  case_bool_decide as Hst; go_inv; passed.
  - split; [done|]. exists d, l, a. by split_and!.
  - split; [done|]. match goal with Hx : completeLeased _ _ _ _ _ _ _ _ = _ |- _ => apply completeLeased_row in Hx as (d1 & Hd1) end.
    destruct (protocol_rows _ _ _ _ Hok Hsteps Hd) as (d' & Hd' & Hev). rewrite Hd1 in Hd'. injection Hd' as <-.
    destruct (re_lease _ _ Hev l Hl) as (l' & Hl' & Hsame).
    exists (set_closed DispatchCompleted (Some a) now d1), l', a. split_and!; try done.
    + by rewrite (sl_worker _ _ Hsame).
    + by rewrite (sl_token _ _ Hsame).
Qed.

(** C5: A result that was accepted is counted once: whatever happens afterwards,
    the worker that repeats it, because the answer was lost, is told that it is
    accepted and nothing changes; a different result for the same lease is
    refused as a conflict. *)
Theorem result_counted_once now now' w n token result result' rs db db' b h h' :
  db_ok db -> Complete Committed now w n token result db = (db', Ok b) ->
  digestWorkerResult sha256 result = Ok h -> digestWorkerResult sha256 result' = Ok h' ->
  let after := perform_all rs db' in
  Complete Committed now' w n token result' after =
    (after, if bool_decide (h' = h) then Ok true else Err ErrResultConflict).
Proof.
  intros Hok H Hh Hh' after.
  assert (Hok' : db_ok db') by (eapply protocol_ok; [exact Hok|by eapply (Complete_refines _ _ _ _ _ _ _ _ _ _ H)]).
  destruct (Complete_closes _ _ _ _ _ _ _ _ Hok H) as (_ & d & l & h0 & Hd & Hst & Hl & Hw & Ht & Hh0 & Hhash).
  assert (h0 = h) as -> by congruence.
  assert (Hoka : db_ok after) by by eapply protocol_ok, perform_all_refines.
  destruct (protocol_rows db' after n d Hok') as (d' & Hd' & Hev); [by apply perform_all_refines|done|].
  rewrite (re_closed _ _ Hev) in Hd' by by rewrite Hst.
  destruct (db_references _ Hoka _ _ Hd') as [s Hs].
  fold after in Hd'. clearbody after.
  unfold Dispatch.Complete, transaction, lift, mbind, go_bind, get, fail_if. rewrite Hh', Hd', Hs, Hl. cbn.
  rewrite (bool_decide_eq_false_2 (le_worker l ≠ w)) by (by intros []). rewrite Ht. cbn.
  rewrite (bool_decide_eq_true_2 (d_status d = _)) by done. rewrite Hhash.
  rewrite (bool_decide_ext (Some h ≠ Some h') (h' ≠ h)) by naive_solver. rewrite bool_decide_not.
  by destruct (bool_decide (h' = h)).
Qed.

(** The worker and token a lease was given to, and its validity. *)
Definition owner (w token : string) (d : dispatch_row) : bool :=
  match d_lease d with
  | Some l => bool_decide (le_worker l = w) && MatchesToken sha256 token (le_token_hash l)
  | None => false
  end.
Definition live (now : time) (d : dispatch_row) : bool :=
  bool_decide (d_status d = DispatchLeased) &&
  match d_lease d with Some l => after (le_expires_at l) now && after (le_deadline l) now | None => false end.

(** C6: A lease that is not the caller's, has expired, was revoked, or whose run
    was canceled or has ended is lost: the result is refused, and nothing
    changes. *)
Theorem stale_lease_rejected end_ now w n token result db h :
  db_ok db -> digestWorkerResult sha256 result = Ok h ->
  (forall d, dispatches db !! n = Some d ->
     owner w token d = false \/
     d_status d ≠ DispatchCompleted /\
       (live now d = false \/
        exists s, runs db !! d_run d = Some s /\ (not_canceled s = false \/ run_Status (Run s) ≠ WorkflowRunning))) ->
  Complete end_ now w n token result db = (db, Err ErrLeaseLost).
Proof.
  intros Hok Hh Hstale. unfold Dispatch.Complete, transaction, lift, mbind, go_bind, get, fail_if. rewrite Hh.
  destruct (dispatches db !! n) as [d|] eqn:Hd; [|done]. destruct (db_references _ Hok _ _ Hd) as [s Hs]. rewrite Hs. cbn.
  specialize (Hstale d eq_refl). unfold owner, live in Hstale. destruct (d_lease d) as [l|]; [|done].
  rewrite bool_decide_not. destruct (bool_decide (le_worker l = w)), (MatchesToken sha256 token (le_token_hash l)); try done.
  cbn in Hstale |- *. destruct Hstale as [?|[Hnc Hstale]]; [done|]. rewrite (bool_decide_eq_false_2 _ Hnc), bool_decide_not.
  destruct (bool_decide (d_status d = DispatchLeased)); [|done].
  destruct (after (le_expires_at l) now), (after (le_deadline l) now); try done.
  destruct Hstale as [?|(s' & Hs' & Hdead)]; [done|]. rewrite Hs in Hs'. injection Hs' as <-. cbn.
  destruct (db_runs _ Hok _ _ Hs) as (_ & c & Hst).
  unfold completeLeased, fail_if, mbind, go_bind. rewrite (loadSnapshot_stored c s _ db Hs Hst).
  destruct Hdead as [->|Hdead]; [done|]. rewrite (bool_decide_eq_true_2 _ Hdead), orb_true_r. done.
Qed.

(** ** Claims *)

(** The leases that a call hands out, one for each dispatch it takes. *)
Lemma Claim_given end_ skipped tokens now w slots db db' leases :
  db_ok db -> Claim sha256 text_le leaseDuration end_ skipped tokens now w slots db = (db', Ok leases) ->
  exists row items, workers db !! w = Some row /\ w_status row = WorkerActive /\ (Z.of_nat (length leases) <= slots)%Z /\
    NoDup (fst <$> items) /\ (forall item, item ∈ items -> takeable row db item) /\ protocol db db' /\ cl_dispatch <$> leases = fst <$> items /\
    Forall2 (given sha256 leaseDuration now w db') items leases /\ forall n, n ∉ fst <$> items -> dispatches db' !! n = dispatches db !! n.
Proof.
  intros Hok H. unfold Claim in H. go_inv. apply transaction_Ok in H. go_inv.
  destruct (workers db !! w) as [row|] eqn:Hw; [|done]. case_bool_decide as Hdr; [done|]. cbv zeta in H. go_inv. passed.
  destruct (claim_candidates_ok text_le row skipped (Z.to_nat slots) db) as (Hnd & Hitems & Hlen).
  set (items := claim_candidates _ _ _ _ _) in *.
  destruct (claimLoop_refines sha256 leaseDuration tokens now w row items 0 db db' leases Hok Hw) as (Hr & Hall & Hframe);
    [done|done|done|lia|done|].
  assert (Hids : cl_dispatch <$> leases = fst <$> items).
  { clear -Hall. induction Hall as [|item lease items leases (l & _ & _ & _ & E & _) _ IH]; [done|]. cbn. by rewrite E, IH. }
  exists row, items. split_and!; try done. apply (f_equal length) in Hids. rewrite !length_fmap in Hids. lia.
Qed.

(** C13: What one call hands out: at most [slots] leases, for different dispatches
    that were pending, of active kinds, and whose tasks now run as the attempt
    the lease names; every other dispatch is as before. *)
Theorem Claim_correct skipped tokens now w slots db db' leases :
  db_ok db -> Claim sha256 text_le leaseDuration Committed skipped tokens now w slots db = (db', Ok leases) ->
  (Z.of_nat (length leases) <= slots)%Z /\ NoDup (cl_dispatch <$> leases) /\
  (forall n, n ∉ cl_dispatch <$> leases -> dispatches db' !! n = dispatches db !! n) /\
  forall lease, lease ∈ leases ->
    exists row d l s t a, workers db !! w = Some row /\ w_status row = WorkerActive /\
      dispatches db !! cl_dispatch lease = Some d /\ d_status d = DispatchPending /\ d_kind d ∈ w_executor_kinds row /\
      dispatches db' !! cl_dispatch lease = Some (set_leased l d) /\ le_worker l = w /\
      MatchesToken sha256 (cl_token lease) (le_token_hash l) = negb (is_empty (cl_token lease)) /\
      cl_expires_at lease = le_expires_at l /\ (le_expires_at l <= time_add now leaseDuration)%Z /\
      (le_expires_at l <= cl_deadline lease)%Z /\
      runs db' !! cl_run lease = Some s /\ t ∈ Tasks (Run s) /\ Key t = cl_task lease /\ Status t = TaskRunning /\
      last (Attempts t) = Some a /\ Number a = cl_attempt lease /\ WorkerID a = w /\ DispatchID a = cl_dispatch lease.
Proof.
  intros Hok H. destruct (Claim_given _ _ _ _ _ _ _ _ _ Hok H) as (row & items & Hw & Hact & Hlen & Hnd & Hitems & Hr & Hids & Hall & Hframe).
  rewrite Hids. split_and!; [done|done|done|].
  intros lease [i Hi]%list_elem_of_lookup. destruct (Forall2_lookup_r _ _ _ _ _ Hall Hi) as (item & Hitem & l & Hrow & Hlw & Ht & Hn & Hrun & Htask & Hatt & Hdl & Hexp & Hle).
  destruct (Hitems item) as (Hd & Hp & Hkind & _); [by eapply list_elem_of_lookup_2|].
  pose proof (protocol_ok _ _ Hok Hr) as Hok'.
  destruct (leased_task db' item.1 _ l Hok' Hrow) as (s & j & t & a & Hs & Htk & Hkey & Hst & Ha & Hnum & Hwa & Hda); [done..|].
  destruct (ct_rows _ (db_constraints _ Hok') _ _ Hrow) as [_ Hvals]. unfold dispatch_values in Hvals. cbn in Hvals. passed.
  exists row, item.2, l, s, t, a. rewrite Hn, Hrun, Htask, Hatt, Hdl. split_and!; try done; [by eapply list_elem_of_lookup_2|congruence].
Qed.


(** ** Heartbeats *)

(** The lease runs until [leaseDuration] from now, but not past its deadline. *)
Definition renew (now : time) (d : dispatch_row) : dispatch_row :=
  match d_lease d with
  | Some l => set_leased (mkLease (le_worker l) (le_attempt l) (le_token_hash l)
      (Z.min (time_add now leaseDuration) (le_deadline l)) (le_deadline l) (le_leased_at l)) d
  | None => d
  end.
Definition remaining_ms (now : time) (d : dispatch_row) : Z :=
  match d_lease d with
  | Some l => (time_sub (Z.min (time_add now leaseDuration) (le_deadline l)) now ÷ 1000000)%Z
  | None => 0%Z
  end.
Definition verdict (now : time) (w : string) (db : database) (ref : LeaseRef) : LeaseHeartbeat :=
  match dispatches db !! ref_dispatch ref with
  | Some d =>
    if owner w (ref_token ref) d
    then if live now d then mkHeartbeat (ref_dispatch ref) LeaseRenewed (remaining_ms now d)
         else mkHeartbeat (ref_dispatch ref) LeaseRevoked 0
    else mkHeartbeat (ref_dispatch ref) LeaseUnknown 0
  | None => mkHeartbeat (ref_dispatch ref) LeaseUnknown 0
  end.
(** The row of dispatch [n] after a heartbeat for [refs]. *)
Definition heard (now : time) (w : string) (refs : list LeaseRef) (n : string) (d : dispatch_row) : dispatch_row :=
  if existsb (fun ref => bool_decide (ref_dispatch ref = n) && owner w (ref_token ref) d) refs && live now d then renew now d else d.

Lemma owner_renew w token now d : owner w token (renew now d) = owner w token d.
Proof. unfold owner, renew. by destruct (d_lease d) eqn:E; cbn; rewrite ?E. Qed.
Lemma live_renew now d : (0 < leaseDuration)%Z -> live now d = true -> live now (renew now d) = true.
Proof.
  intros Hpos. unfold live, renew. destruct (d_lease d) as [l|]; [|by rewrite andb_false_r]. unfold after, time_add. intros H. passed. cbn.
  rewrite !andb_true_iff, bool_decide_eq_true, !Z.ltb_lt. split_and!; [done|lia|done].
Qed.
Lemma renew_renew now d : renew now (renew now d) = renew now d.
Proof. unfold renew at 2 3. destruct (d_lease d) as [l|] eqn:E; [done|]. unfold renew. by rewrite E. Qed.
Lemma remaining_renew now d : remaining_ms now (renew now d) = remaining_ms now d.
Proof. unfold remaining_ms, renew. by destruct (d_lease d) eqn:E; cbn; rewrite ?E. Qed.

Lemma heartbeatLease_effect now w ref db db' item :
  heartbeatLease sha256 leaseDuration now w ref db = (db', Ok item) ->
  item = verdict now w db ref /\ db' = set_dispatches (map_imap (fun n d => Some (heard now w [ref] n d)) (dispatches db)) db.
Proof.
  intros H. assert (Hsame : (forall d, dispatches db !! ref_dispatch ref = Some d -> owner w (ref_token ref) d && live now d = false) ->
    db = set_dispatches (map_imap (fun n d => Some (heard now w [ref] n d)) (dispatches db)) db).
  { intros Hno. destruct db as [rs ds ws]. cbn in *. unfold set_dispatches. cbn. f_equal. apply map_eq. intros n. rewrite map_lookup_imap.
    destruct (ds !! n) as [d|] eqn:Hd; [|done]. cbn. f_equal. unfold heard. cbn. rewrite orb_false_r.
    case_bool_decide as E; [|done]. subst n. cbn [andb]. by rewrite (Hno d Hd). }
  unfold heartbeatLease in H. go_inv. unfold verdict. cbv zeta in H.
  destruct (dispatches db !! ref_dispatch ref) as [d|] eqn:Hd; [|go_inv; split; [done|by apply Hsame]].
  unfold owner, live in *. destruct (d_lease d) as [l|] eqn:Hl; [|done]. rewrite bool_decide_not in H.
  destruct (bool_decide (le_worker l = w)) eqn:Hw, (MatchesToken sha256 (ref_token ref) (le_token_hash l)) eqn:Ht; cbn [negb orb andb] in H |- *;
    try (go_inv; split; [done|]; apply Hsame; intros d' [= <-]; by rewrite Hl, Hw, Ht).
  rewrite bool_decide_not in H.
  destruct (bool_decide (d_status d = DispatchLeased)) eqn:Hst, (after (le_expires_at l) now) eqn:He, (after (le_deadline l) now) eqn:Hdl;
    cbn [negb orb andb] in H |- *; try (go_inv; split; [done|]; apply Hsame; intros d' [= <-]; by rewrite Hl, ?Hw, ?Ht, ?Hst, ?He, ?Hdl).
  go_inv. match goal with Hx : put_dispatch _ _ _ = (_, Ok ?u) |- _ => destruct u; apply put_dispatch_inv in Hx as [_ ->] end.
  assert (Hmin : (if after (time_add now leaseDuration) (le_deadline l) then le_deadline l else time_add now leaseDuration) =
    Z.min (time_add now leaseDuration) (le_deadline l)).
  { unfold after. destruct (Z.ltb_spec (le_deadline l) (time_add now leaseDuration)); lia. }
  rewrite Hmin. split; [by unfold remaining_ms; rewrite Hl|]. f_equal. apply map_eq. intros n. rewrite map_lookup_imap.
  destruct (decide (n = ref_dispatch ref)) as [->|Hne].
  - rewrite lookup_insert_eq, Hd. cbn. unfold heard, owner, live, renew. cbn. by rewrite Hl, bool_decide_eq_true_2, Hw, Ht, Hst, He, Hdl.
  - rewrite lookup_insert_ne by done. destruct (dispatches db !! n) as [d0|]; [|done]. cbn. unfold heard. cbn. by rewrite bool_decide_eq_false_2.
Qed.

Lemma heard_app now w ref refs n d : (0 < leaseDuration)%Z -> heard now w refs n (heard now w [ref] n d) = heard now w (ref :: refs) n d.
Proof.
  intros Hpos. unfold heard. cbn. rewrite orb_false_r. destruct (live now d) eqn:Hl.
  - rewrite !andb_true_r. destruct (bool_decide (ref_dispatch ref = n) && owner w (ref_token ref) d); cbn; [|by rewrite Hl, andb_true_r].
    rewrite renew_renew. by case_match.
  - by rewrite !andb_false_r, Hl, andb_false_r.
Qed.

Lemma verdict_heard now w ref ref' db : (0 < leaseDuration)%Z ->
  verdict now w (set_dispatches (map_imap (fun n d => Some (heard now w [ref'] n d)) (dispatches db)) db) ref = verdict now w db ref.
Proof.
  intros Hpos. unfold verdict. cbn. rewrite map_lookup_imap. destruct (dispatches db !! ref_dispatch ref) as [d|]; [|done]. cbn.
  unfold heard. destruct (existsb _ _ && live now d) eqn:E; [|done]. apply andb_true_iff in E as [_ E].
  by rewrite owner_renew, live_renew, remaining_renew, E.
Qed.

Lemma heartbeatLeases_effect now w refs : (0 < leaseDuration)%Z -> forall db db' items,
  heartbeatLeases sha256 leaseDuration now w refs db = (db', Ok items) ->
  items = verdict now w db <$> refs /\ db' = set_dispatches (map_imap (fun n d => Some (heard now w refs n d)) (dispatches db)) db.
Proof.
  intros Hpos. induction refs as [|ref refs IH]; intros db db' items H; cbn [heartbeatLeases] in H; go_inv.
  - split; [done|]. destruct db as [rs ds ws]. cbn in *. unfold set_dispatches. cbn. f_equal. apply map_eq. intros n.
    rewrite map_lookup_imap. by destruct (ds !! n).
  - match goal with Hx : heartbeatLease _ _ _ _ _ _ = _ |- _ => apply heartbeatLease_effect in Hx as [-> ->] end.
    match goal with Hx : heartbeatLeases _ _ _ _ _ _ = _ |- _ => apply IH in Hx as [-> ->] end. split.
    + cbn. f_equal. apply list_fmap_ext. intros _ r _. by apply verdict_heard.
    + unfold set_dispatches. cbn. f_equal. apply map_eq. intros n. rewrite !map_lookup_imap.
      destruct (dispatches db !! n) as [d|]; [|done]. cbn. by rewrite heard_app.
Qed.

(** C15: A heartbeat answers for each lease what it was when the call began, and
    renews exactly the leases that are the worker's and still valid: they run
    [leaseDuration] from now and never past their deadline. *)
Theorem Heartbeat_correct now w refs db db' items :
  (0 < leaseDuration)%Z -> Heartbeat sha256 leaseDuration Committed now w refs db = (db', Ok items) ->
  exists row, workers db !! w = Some row /\ w_status row ∈ [WorkerActive; WorkerDraining] /\
    items = verdict now w db <$> refs /\ runs db' = runs db /\
    workers db' = <[w := set_heartbeat now row]> (workers db) /\
    forall n, dispatches db' !! n = heard now w refs n <$> dispatches db !! n.
Proof.
  intros Hpos H. unfold Heartbeat in H. apply transaction_Ok in H. go_inv. destruct (workers db !! w) as [row|]; [|done]. go_inv. passed.
  apply heartbeatLeases_effect in H as [-> ->]; [|done]. exists row. split_and!; try done.
  - destruct (w_status row); try done; [by left|right; by left].
  - intros n. cbn. rewrite map_lookup_imap. by destruct (dispatches db !! n).
Qed.

(** ** Expired leases *)
Lemma reapOne_effect now item db db' u :
  reapOne now item db = (db', Ok u) ->
  exists d, dispatches db !! item.1 = Some d /\ expired_at now d = true /\
    dispatches db' = <[item.1 := set_closed DispatchExpired None now d]> (dispatches db) \/
  db' = db /\ forall d, dispatches db !! item.1 = Some d -> expired_at now d = false.
Proof.
  intros H. unfold reapOne in H. go_inv. destruct (dispatches db !! item.1) as [d|] eqn:Hd; [|go_inv; by exists (mkDispatch "" "" ExecutorMock DispatchPending None None 0 None); right].
  exists d. unfold expired_at. case_bool_decide as Hst; [go_inv; right; split; [done|]; intros d' [= <-]; by rewrite bool_decide_eq_false_2|].
  go_inv. match goal with Hx : d_lease d = Some ?l0 |- _ => rename Hx into Hl, l0 into l end.
  destruct (after (le_expires_at l) now && after (le_deadline l) now) eqn:E.
  - go_inv. right. split; [done|]. intros d' [= <-]. unfold after in E. passed. rewrite Hl, andb_false_iff, orb_false_iff, !Z.leb_gt. by right.
  - left. split; [done|]. split.
    { rewrite Hl, (bool_decide_eq_true_2 _ Hst). unfold after in E. apply andb_false_iff in E. cbn. rewrite orb_true_iff, !Z.leb_le.
      rewrite !Z.ltb_ge in E. done. }
    go_inv. match goal with Hx : loadSnapshot _ _ = _ |- _ => apply loadSnapshot_same in Hx as -> end.
    destruct (taskIndexByKey _ _) as [i|]; [|done]. destruct (d_lease item.2) as [l0|]; [|done]. go_inv.
    match goal with Hx : on_copy _ _ _ = (_, Ok ?p) |- _ => destruct p; apply on_copy_inv in Hx as [-> _] end. go_inv. passed.
    match goal with Hx : save_changes _ _ _ = _ |- _ => apply save_changes_only in Hx as [Es _] end.
    match goal with Hx : lift _ _ = _ |- _ => injection Hx as <- _ end.
    apply update_dispatch_inv in H as (d1 & Hd1 & _ & _ & ->). rewrite Es, Hd in Hd1. injection Hd1 as <-. cbn. by rewrite Es.
Qed.

Lemma expired_later now now' d : (now <= now')%Z -> expired_at now d = true -> expired_at now' d = true.
Proof.
  intros Hle. unfold expired_at. rewrite !andb_true_iff. intros [H1 H2]. split; [done|]. destruct (d_lease d); [|done].
  rewrite orb_true_iff, !Z.leb_le in *. lia.
Qed.

Lemma reapLoop_effect clock now items : (forall k, now <= clock k)%Z -> forall k db db' u,
  NoDup (fst <$> items) -> (forall item, item ∈ items -> dispatches db !! item.1 = Some item.2 /\ expired_at now item.2 = true) ->
  reapLoop clock k items db = (db', Ok u) ->
  (forall item, item ∈ items -> exists t, (now <= t)%Z /\ dispatches db' !! item.1 = Some (set_closed DispatchExpired None t item.2)) /\
  forall n, n ∉ fst <$> items -> dispatches db' !! n = dispatches db !! n.
Proof.
  intros Hclock. induction items as [|item items IH]; intros k db db' u Hnd Hitems H; cbn [reapLoop] in H.
  { go_inv. split; [by intros ? []%elem_of_nil|done]. }
  rewrite fmap_cons in Hnd. apply NoDup_cons in Hnd as [Hni Hnd].
  destruct (Hitems item (list_elem_of_here _ _)) as [Hd Hexp]. apply (expired_later _ (clock k)) in Hexp; [|done]. go_inv.
  match goal with Hx : reapOne _ _ _ = _ |- _ => apply reapOne_effect in Hx as [d [(Hd' & _ & E)|(_ & Hno)]] end; [|by rewrite (Hno _ Hd) in Hexp].
  rewrite Hd in Hd'. injection Hd' as <-. 
  assert (Hother : forall n, n ≠ item.1 -> dispatches s !! n = dispatches db !! n) by (intros n Hn; by rewrite E, lookup_insert_ne).
  destruct (IH (S k) s db' u Hnd) as [H1 H2]; [|exact H|].
  { intros x Hx. rewrite Hother; [apply Hitems; by right|]. intros Heq. apply Hni. rewrite <-Heq. by apply list_elem_of_fmap_2. }
  split.
  - intros x [->|Hx]%elem_of_cons; [|by apply H1]. exists (clock k). split; [done|]. by rewrite H2, E, lookup_insert_eq.
  - intros n [Hn1 Hn2]%not_elem_of_cons. by rewrite H2, Hother.
Qed.

Definition workers_same (db db' : database) : Prop := workers db' = workers db.
#[local] Instance workers_same_preorder : PreOrder workers_same.
Proof. split; [done|]. intros db1 db2 db3. unfold workers_same. congruence. Qed.
Lemma reapLoop_workers clock items : forall k, preserves workers_same (reapLoop clock k items).
Proof.
  induction items as [|item items IH]; intros k; cbn [reapLoop]; [keep|]. apply preserves_bind; [apply _| |done].
  intros db db' u H. unfold workers_same, reapOne in *. go_inv. destruct (dispatches db !! item.1) as [d|]; [|by go_inv].
  case_bool_decide; [by go_inv|]. go_inv. case_match; [by go_inv|]. go_inv.
  match goal with Hx : loadSnapshot _ _ = _ |- _ => apply loadSnapshot_same in Hx as -> end.
  destruct (taskIndexByKey _ _) as [i|]; [|done]. destruct (d_lease item.2) as [l0|]; [|done]. go_inv.
  match goal with Hx : on_copy _ _ _ = (_, Ok ?p) |- _ => destruct p; apply on_copy_inv in Hx as [-> _] end. go_inv. passed.
  match goal with Hx : save_changes _ _ _ = _ |- _ => apply save_changes_only in Hx as [_ Es] end.
  match goal with Hx : lift _ _ = _ |- _ => injection Hx as <- _ end.
  by apply update_dispatch_inv in H as (d1 & _ & _ & _ & ->).
Qed.


(** ** Cancellation *)

(** A finished run has no working task, and so no active dispatch. *)
Lemma finished_idle db id s : db_ok db -> runs db !! id = Some s -> isWorkflowTerminal (run_Status (Run s)) = true ->
  forall t, t ∈ Tasks (Run s) -> working (Status t) = false.
Proof.
  intros Hok Hs Hterm t [i Hi]%list_elem_of_lookup. destruct (db_runs _ Hok _ _ Hs) as (_ & c & Hst).
  apply not_true_is_false. intros Hw. assert (run_Status (Run s) = WorkflowRunning) as E; [|by rewrite E in Hterm].
  eapply running_run; [exact (sr_wf _ _ Hst)|exact Hi|by destruct (Status t)|by destruct (Status t)].
Qed.

Lemma idle_dispatches db id s : db_ok db -> runs db !! id = Some s -> (forall t, t ∈ Tasks (Run s) -> working (Status t) = false) ->
  forall n d, dispatches db !! n = Some d -> d_run d = id -> is_active (d_status d) = false.
Proof.
  intros Hok Hs Hidle n d Hd Hr. apply not_true_is_false. intros Ha.
  destruct (db_active _ Hok n d Hd Ha) as (s' & i & t & Hs' & Ht & _ & Hsn). rewrite Hr, Hs in Hs'. injection Hs' as <-.
  apply serves_working in Hsn. by rewrite (Hidle t) in Hsn by by eapply list_elem_of_lookup_2.
Qed.

(** C17: What canceling a run does, by what is stored: an unknown run is reported, a
    finished run is left alone, a run without a request is refused; otherwise
    the run is canceled with all its unfinished tasks, each of its dispatches is
    withdrawn, and nothing else changes.  In a run that is finished afterwards
    no task works and no dispatch is active, so no worker can report a result. *)
Theorem CancelRun_correct now id db db' r :
  db_ok db -> CancelRun Committed now id db = (db', r) ->
  match runs db !! id with
  | None => r = Err ErrRunNotFound /\ db' = db
  | Some s =>
    if isWorkflowTerminal (run_Status (Run s)) then r = Ok tt /\ db' = db
    else if not_canceled s then r = Err (Errorf "Run %s cancellation was not requested") /\ db' = db
    else r = Ok tt -> exists s', CancelRunSnapshot s now = Ok s' /\
      db' = set_dispatches (revoke now id <$> dispatches db) (save id s s' db)
  end /\
  (r = Ok tt -> exists s', runs db' !! id = Some s' /\ isWorkflowTerminal (run_Status (Run s')) = true /\
     (forall t, t ∈ Tasks (Run s') -> working (Status t) = false) /\
     forall n d, dispatches db' !! n = Some d -> d_run d = id -> is_active (d_status d) = false).
Proof.
  intros Hok H.
  assert (Hok' : db_ok db') by (eapply protocol_ok; [exact Hok|by eapply (CancelRun_refines _ _ _ _ _ _ H)]).
  unfold CancelRun in H. destruct (runs db !! id) as [s|] eqn:Hs.
  2:{ unfold transaction in H. unfold mbind, go_bind, get, fail_if in H. rewrite Hs in H. injection H as <- <-. by split. }
  destruct (db_runs _ Hok _ _ Hs) as [_ (c & Hst)].
  assert (Hbody : forall k : RunSnapshot -> go database unit, (db0 ← get; _ ← fail_if (negb (has (runs db0 !! id))) ErrRunNotFound;
    snapshot ← loadSnapshot id; k snapshot) db = k s db).
  { intros k. unfold mbind, go_bind, get, fail_if. rewrite Hs. cbn. by rewrite (loadSnapshot_stored c s id db Hs Hst). }
  unfold transaction in H. rewrite Hbody in H. clear Hbody. change IsWorkflowTerminalForStore with isWorkflowTerminal in H.
  destruct (isWorkflowTerminal (run_Status (Run s))) eqn:Hterm.
  { injection H as <- <-. split; [done|]. intros _. exists s. split_and!; [done|done|by eapply finished_idle|].
    by eapply idle_dispatches, finished_idle. }
  destruct (not_canceled s) eqn:Hnc; [injection H as <- <-; by split|].
  destruct (cancel_stops c (stored_compiled _ _ Hst) now s (sr_wf _ _ Hst) Hterm) as (s' & Hrun & Hgood & Hws & Hidle).
  assert (Heff : r = Ok tt -> exists s', CancelRunSnapshot s now = Ok s' /\ run_Status (Run s') = WorkflowCanceled /\
    (forall t, t ∈ Tasks (Run s') -> working (Status t) = false) /\ db' = set_dispatches (revoke now id <$> dispatches db) (save id s s' db)).
  { intros ->. exists s'. split_and!; [done..|].
    match type of H with (match ?b with _ => _ end = _) => destruct b as [db1 [u| | |]] eqn:Hb end; try done. injection H as -> ->.
    go_inv. match goal with Hx : lift _ _ = _ |- _ => unfold lift in Hx; rewrite Hrun in Hx; injection Hx as <- <- end.
    match goal with Hx : save_changes _ _ _ = (_, Ok ?u) |- _ => destruct u; rename Hx into Hsave end.
    destruct (save_run c s s' id db _ Hst Hgood Hs (proj1 (db_runs _ Hok _ _ Hs)) Hsave) as [-> _]. unfold revokeDispatches in *. by go_inv. }
  split; [intros Hr; destruct (Heff Hr) as (s1 & ? & _ & _ & ?); by exists s1|].
  intros Hr. destruct (Heff Hr) as (s1 & _ & Hws1 & Hidle1 & ->). exists (nextRevision s s1). cbn. rewrite lookup_insert_eq.
  split_and!; [done|by rewrite Hws1|exact Hidle1|]. eapply (idle_dispatches _ id (nextRevision s s1) Hok'); [cbn; by rewrite lookup_insert_eq|exact Hidle1].
Qed.

(** ** Tables *)

(** C10: Every request leaves the tables typed, from any typed tables: statuses,
    counters and numbers are in their ranges, references are to existing rows,
    and an attempt is the only one of its dispatch. *)
Theorem requests_keep_types rs db : typed db -> typed (perform_all rs db).
Proof. revert db. induction rs as [|r rs IH]; intros db Ht; [done|]. by apply IH, perform_typed. Qed.

(** [PersistenceRepository.Apply] takes change sets from anywhere; whatever
    they hold, the tables stay typed, and only the rows of one run change. *)
Theorem Apply_keeps_types end_ change db db' r :
  typed db -> Apply end_ change db = (db', r) -> typed db' /\ dispatches db' = dispatches db /\ workers db' = workers db.
Proof.
  intros Ht H. split; [by eapply Apply_typed|]. revert H. unfold Apply.
  assert (Ha : always runs_only (Apply end_ change)); [|by apply Ha].
  apply always_lift; [apply _|]. intros shape _. apply always_transaction; [apply _|]. eauto with keeps.
Qed.

(** C9: The relational store and the file store agree: when both accept a change
    set for a run that can be loaded, the row-by-row transaction leaves exactly
    the snapshot [applyChangeSet] computes, it can be loaded again, and no other
    row is touched. *)
Theorem applyChangeSetTx_agrees c s s' change row db db' :
  stored_run c s -> runs db !! cs_RunID change = Some s -> cs_Run change = Some row ->
  DefinitionID row = DefinitionID (Run s) -> DefinitionVersion row = DefinitionVersion (Run s) ->
  applyChangeSet s change = Ok s' -> applyChangeSetTx change db = (db', Ok tt) ->
  db' = set_runs (<[cs_RunID change := s']> (runs db)) db.
Proof.
  intros Hst Hs Hrow Hdef Hver Happ Hrun.
  by destruct (applyChangeSetTx_effect s s' change row db db' (sr_loadable _ _ Hst) (rc_audit _ _ (rw_core _ _ (sr_wf _ _ Hst)))) as (-> & _).
Qed.
End repository.

(** ** The theorems at sample inputs *)
Lemma run_pair {A} (m : go database A) db a : (m db).2 = a -> m db = ((m db).1, a).
Proof. intros <-. by destruct (m db). Qed.

Definition sample_create : request := DoCreateDispatches Committed no_lock (sample_tokens "d") 2000 10.
Definition sample_claim : request := DoClaim Committed no_lock (sample_tokens "t") 3000 "w1" 1.
Definition pending_db : database := sample_all [sample_create] sample_db.
Definition leased_db : database := sample_all [sample_create; sample_claim] sample_db.
Definition sample_success : ExecutionResponse := mkExecutionResponse ResultSuccess "done" "" "".
Definition completed_db : database := (Complete sample_sha256 Committed 4000 "w1" "dsp_d0" "t0" sample_success leased_db).1.
Definition canceling_db : database := sample_all [DoRequestCancel Committed "run" 3500] leased_db.

Lemma pending_db_ok : db_ok pending_db.
Proof. by eapply protocol_ok, perform_all_refines; [apply sample_db_ok|apply sample_db_ok]. Qed.
Lemma leased_db_ok : db_ok leased_db.
Proof. by eapply protocol_ok, perform_all_refines; [apply sample_db_ok|apply sample_db_ok]. Qed.
Lemma canceling_db_ok : db_ok canceling_db.
Proof. by eapply protocol_ok, perform_all_refines; [apply leased_db_ok|apply leased_db_ok]. Qed.

Lemma dispatcher_refines_protocol_witness :
  is_Some (dispatches pending_db !! "dsp_d0") /\ protocol sample_db pending_db.
Proof.
  split; [by eexists; vm_compute|].
  apply (dispatcher_refines_protocol sample_sha256 sample_text_le defaultLeaseDuration defaultWorkerHeartbeatInterval sample_create sample_db).
  apply sample_db_ok.
Defined.

Lemma dispatcher_invariant_witness : db_ok leased_db.
Proof. apply dispatcher_invariant, sample_db_ok. Defined.

Lemma worker_capacity_witness : count_leases "w1" leased_db = 1%Z /\ within_capacity leased_db.
Proof.
  split; [by vm_compute|]. apply worker_capacity; [apply sample_db_ok|].
  intros w row Hw. cbn in Hw. apply lookup_singleton_Some in Hw as [<- <-]. by vm_compute.
Defined.

Lemma run_concurrency_witness : (in_flight <$> runs leased_db !! "run") = Some 1%Z /\ within_concurrency leased_db.
Proof.
  split; [by vm_compute|]. apply run_concurrency; [apply sample_db_ok|].
  intros id s d Hs Hd. cbn in Hs. apply lookup_singleton_Some in Hs as [<- <-].
  assert (H : (fun d => (in_flight (sample_run []) <=? Concurrency d)%Z) <$> Definition_ (sample_run []) = Some true) by (vm_compute; reflexivity).
  rewrite Hd in H. apply (inj Some) in H. by apply Z.leb_le.
Defined.

Lemma runs_follow_state_machine_witness :
  exists s', runs leased_db !! "run" = Some s' /\ stored_run compiled_diamond s' /\ rtc (stored_step compiled_diamond) (sample_run []) s'.
Proof.
  apply (runs_follow_state_machine _ _ _ _ _ sample_db "run" compiled_diamond (sample_run [])); [apply sample_db_ok|by vm_compute|].
  destruct (db_runs _ sample_db_ok "run" (sample_run [])) as (_ & c & Hst); [by vm_compute|].
  apply sample_stored; [by eexists; vm_compute|vm_compute; reflexivity..].
Defined.

Lemma result_counted_once_witness :
  let later := sample_all [DoReapExpired Committed no_lock (fun _ => 5000000000%Z) 5000000000 10] completed_db in
  Complete sample_sha256 Committed 6000000000 "w1" "dsp_d0" "t0" permanent_response later = (later, Err ErrResultConflict).
Proof.
  assert (Hfirst : Complete sample_sha256 Committed 4000 "w1" "dsp_d0" "t0" sample_success leased_db = (completed_db, Ok true)).
  { unfold completed_db. apply run_pair. by vm_compute. }
  assert (Hdiff : bool_decide (sample_sha256 (json_result permanent_response) = sample_sha256 (json_result sample_success)) = false) by by vm_compute.
  intros later. etrans.
  - apply (result_counted_once sample_sha256 sample_text_le defaultLeaseDuration defaultWorkerHeartbeatInterval 4000 6000000000
      "w1" "dsp_d0" "t0" sample_success permanent_response [DoReapExpired Committed no_lock (fun _ => 5000000000%Z) 5000000000 10]
      leased_db completed_db true (sample_sha256 (json_result sample_success)) (sample_sha256 (json_result permanent_response)) leased_db_ok Hfirst);
      by vm_compute.
  - by rewrite Hdiff.
Defined.

Lemma stale_lease_rejected_witness :
  Complete sample_sha256 Committed 2000000000 "w1" "dsp_d0" "t0" sample_success leased_db = (leased_db, Err ErrLeaseLost).
Proof.
  apply (stale_lease_rejected sample_sha256 Committed 2000000000 "w1" "dsp_d0" "t0" sample_success leased_db
    (sample_sha256 (json_result sample_success)) leased_db_ok); [by vm_compute|].
  intros d Hd. assert (d = default d (dispatches leased_db !! "dsp_d0")) as -> by by rewrite Hd.
  right. split; [by vm_compute|left; by vm_compute].
Defined.

Abbreviation sample_claiming := (Claim sample_sha256 sample_text_le defaultLeaseDuration Committed no_lock (sample_tokens "t") 3000 "w1" 1).
Definition sample_leases : list Lease := match (sample_claiming pending_db).2 with Ok leases => leases | _ => [] end.
Lemma Claim_correct_witness :
  (cl_token <$> sample_leases = ["t0"]) /\ (Z.of_nat (length sample_leases) <= 1)%Z /\ NoDup (cl_dispatch <$> sample_leases).
Proof.
  split; [by vm_compute|]. assert (H : sample_claiming pending_db = ((sample_claiming pending_db).1, Ok sample_leases)).
  { apply run_pair. by vm_compute. }
  destruct (Claim_correct _ _ _ _ _ _ _ _ _ _ _ pending_db_ok H) as (H1 & H2 & _). exact (conj H1 H2).
Defined.

Definition sample_refs : list LeaseRef := [mkLeaseRef "dsp_d0" "t0"; mkLeaseRef "dsp_d0" "other"; mkLeaseRef "none" "t0"].
Definition heard_db : database := (Heartbeat sample_sha256 defaultLeaseDuration Committed 500000000 "w1" sample_refs leased_db).1.
Lemma Heartbeat_correct_witness :
  hb_status <$> (verdict sample_sha256 defaultLeaseDuration 500000000 "w1" leased_db <$> sample_refs) = [LeaseRenewed; LeaseUnknown; LeaseUnknown] /\
  runs heard_db = runs leased_db.
Proof.
  split; [by vm_compute|].
  assert (H : exists items, Heartbeat sample_sha256 defaultLeaseDuration Committed 500000000 "w1" sample_refs leased_db = (heard_db, Ok items)).
  { eexists. unfold heard_db. apply run_pair. vm_compute. reflexivity. }
  destruct H as [items H]. destruct (Heartbeat_correct sample_sha256 defaultLeaseDuration 500000000 "w1" sample_refs leased_db heard_db items eq_refl H) as (row & _ & _ & _ & E & _). exact E.
Defined.

Definition reaped_db : database :=
  (ReapExpired sample_text_le defaultWorkerHeartbeatInterval Committed no_lock (fun _ => 20000000000%Z) 20000000000 10 leased_db).1.

Definition canceled_db : database := (CancelRun Committed 4000 "run" canceling_db).1.
Lemma CancelRun_correct_witness :
  exists s', runs canceled_db !! "run" = Some s' /\ isWorkflowTerminal (run_Status (Run s')) = true /\
     (forall t, t ∈ Tasks (Run s') -> working (Status t) = false) /\
     forall n d, dispatches canceled_db !! n = Some d -> d_run d = "run" -> is_active (d_status d) = false.
Proof.
  assert (H : CancelRun Committed 4000 "run" canceling_db = (canceled_db, Ok tt)).
  { unfold canceled_db. apply run_pair. by vm_compute. }
  pose proof (CancelRun_correct 4000 "run" canceling_db canceled_db (Ok tt) canceling_db_ok H) as [_ Hafter].
  by apply Hafter.
Defined.

Lemma sample_typed : typed sample_db.
Proof.
  split; cbn.
  - intros id s [<- <-]%lookup_singleton_Some. split; [by vm_compute..| | | |].
    + apply Forall_forall. apply (bool_decide_unpack (Forall _ _)). by vm_compute.
    + apply Forall_forall. apply (bool_decide_unpack (Forall _ _)). by vm_compute.
    + replace (Events (sample_run [])) with (@nil StateEvent) by by vm_compute. by intros e []%elem_of_nil.
    + replace (Events (sample_run [])) with (@nil StateEvent) by by vm_compute. constructor.
  - intros run key a (s & t & Hs & Ht & _ & Ha). exfalso. cbn in Hs. apply lookup_singleton_Some in Hs as [<- <-].
    assert (Hno : forallb (fun t => bool_decide (Attempts t = [])) (Tasks (Run (sample_run []))) = true) by by vm_compute.
    rewrite forallb_forall in Hno. specialize (Hno t (proj1 (list_elem_of_In _ _) Ht)). passed. rewrite Hno in Ha. by apply elem_of_nil in Ha.
  - intros r1 r2 k1 k2 a1 a2 (s & t & Hs & Ht & _ & Ha). exfalso. cbn in Hs. apply lookup_singleton_Some in Hs as [<- <-].
    assert (Hno : forallb (fun t => bool_decide (Attempts t = [])) (Tasks (Run (sample_run []))) = true) by by vm_compute.
    rewrite forallb_forall in Hno. specialize (Hno t (proj1 (list_elem_of_In _ _) Ht)). passed. rewrite Hno in Ha. by apply elem_of_nil in Ha.
  - apply sample_db_ok.
Qed.

Lemma requests_keep_types_witness : typed leased_db.
Proof. apply requests_keep_types, sample_typed. Defined.

Definition queued_run : RunSnapshot := nextRevision (sample_run []) (sample_run [OpQueue 0 1001]).
Definition queue_change : ChangeSet :=
  match changeSetFromSnapshots (sample_run []) queued_run with Ok change => change | _ => mkChangeSet "" 0 None [] [] [] end.
Lemma Apply_keeps_types_witness : (Apply Committed queue_change sample_db).2 = Ok tt /\ typed (Apply Committed queue_change sample_db).1.
Proof.
  split; [by vm_compute|]. destruct (Apply Committed queue_change sample_db) as [db' r] eqn:E.
  exact (proj1 (Apply_keeps_types Committed queue_change sample_db db' r sample_typed E)).
Defined.

Lemma applyChangeSetTx_agrees_witness :
  exists db', applyChangeSetTx queue_change sample_db = (db', Ok tt) /\ db' = set_runs (<["run" := queued_run]> (runs sample_db)) sample_db.
Proof.
  exists (applyChangeSetTx queue_change sample_db).1.
  assert (H : applyChangeSetTx queue_change sample_db = ((applyChangeSetTx queue_change sample_db).1, Ok tt)).
  { apply run_pair. by vm_compute. }
  split; [exact H|]. destruct (cs_Run queue_change) as [row|] eqn:Hrow; [|by vm_compute in Hrow].
  assert (Hids : (fun row => (DefinitionID row, DefinitionVersion row)) <$> cs_Run queue_change =
    Some (DefinitionID (Run (sample_run [])), DefinitionVersion (Run (sample_run [])))) by (vm_compute; reflexivity).
  rewrite Hrow in Hids. apply (inj Some) in Hids.
  apply (applyChangeSetTx_agrees compiled_diamond (sample_run []) queued_run queue_change row sample_db); [|by vm_compute|exact Hrow| | |by vm_compute|exact H].
  - apply sample_stored; [by eexists; vm_compute|vm_compute; reflexivity..].
  - exact (f_equal fst Hids).
  - exact (f_equal snd Hids).
Defined.
