(* ===== verification/DispatchLimit.v ===== *)
(** * The limit on active dispatches

    Scheduling adds dispatches up to its limit, and no other request adds any:
    [none_added] follows every other operation statement by statement. *)
From S2P Require Import Prelude Hoare GoStrings Json Model State Compiler ChangeSet Stores Database Dispatch Workers Preserves DatabaseFacts DispatchSteps DispatchInvariant Protocol Refinement DispatchTheorems.

Definition active_count (db : database) : nat := length (dispatch_list (fun _ d => is_active (d_status d)) db).
Definition none_added (db db' : database) : Prop := active_count db' <= active_count db.
#[export] Instance none_added_preorder : PreOrder none_added.
Proof. split; unfold none_added; [intros db; lia|intros ???; lia]. Qed.

Lemma active_same db db' : dispatches db' = dispatches db -> active_count db' = active_count db.
Proof. intros E. unfold active_count, dispatch_list. by rewrite E. Qed.

Lemma active_store db n d : active_count (store_dispatch n d db) + b2n (from_option (fun d0 => is_active (d_status d0)) false (dispatches db !! n))
  = active_count db + b2n (is_active (d_status d)).
Proof.
  pose proof (count_store (fun _ d => is_active (d_status d)) db n d) as H. unfold active_count, store_dispatch.
  destruct (dispatches db !! n); cbn in *; lia.
Qed.

Lemma save_changes_active s s' : preserves none_added (save_changes s s').
Proof. intros db db' u [E _]%save_changes_only. unfold none_added. by rewrite (active_same _ _ E). Qed.
Lemma loadSnapshot_active id : preserves none_added (loadSnapshot id).
Proof. unfold loadSnapshot. keep. Qed.
Lemma withdraw_active n hash at_ e : preserves none_added (update_dispatch n DispatchPending (set_closed DispatchCanceled hash at_) e).
Proof.
  intros db db' [] (d & Hd & _ & _ & ->)%update_dispatch_inv. unfold none_added.
  pose proof (active_store db n (set_closed DispatchCanceled hash at_ d)) as H. unfold store_dispatch in H. cbn in H. lia.
Qed.
#[local] Hint Resolve save_changes_active loadSnapshot_active withdraw_active : keeps.


Section repository.
Context (sha256 : string -> string).
Context (text_le : string -> string -> bool) (leaseDuration workerHeartbeatInterval : duration).

(** ** Scheduling *)
Lemma returnOrphaned_active at_ limit : preserves none_added (returnOrphanedPendingDispatches text_le at_ limit).
Proof. unfold returnOrphanedPendingDispatches, returnOrphan. keep. Qed.
Lemma promoteDueRetries_active skipped at_ limit : preserves none_added (promoteDueRetries text_le skipped at_ limit).
Proof. unfold promoteDueRetries, promoteDueRetry. keep. Qed.

Lemma createDispatch_active tokens now created id s i kind db db' u :
  createDispatch tokens now created id s i kind db = (db', Ok u) -> active_count db' = active_count db + 1.
Proof.
  intros H. unfold createDispatch in H. go_inv.
  match goal with Hx : insert_dispatch _ _ _ = (_, Ok ?u) |- _ => destruct u; apply insert_dispatch_inv in Hx as (Hn & _ & ->) end.
  match goal with Hx : on_copy _ _ _ = (_, Ok ?p) |- _ => destruct p; apply on_copy_inv in Hx as [-> _] end.
  apply save_changes_only in H as [E _]. rewrite (active_same _ _ E).
  injection Hm as <- _. match goal with |- active_count (set_dispatches (<[?n := ?d]> _) _) = _ => pose proof (active_store db n d) as Ha end.
  unfold store_dispatch in Ha. rewrite Hn in Ha. cbn in Ha. lia.
Qed.

Lemma createLoop_active tokens now available ids : forall created capacity db db' n,
  createLoop tokens now available created capacity ids db = (db', Ok n) -> created <= available ->
  n <= available /\ active_count db' + created = active_count db + n.
Proof.
  induction ids as [|id ids IH]; intros created capacity db db' n H Hle; cbn [createLoop] in H; [go_inv; lia|].
  destruct (available <=? created)%nat eqn:E; [go_inv; lia|]. apply Nat.leb_gt in E. go_inv.
  match goal with Hx : loadSnapshot _ _ = _ |- _ => pose proof (loadSnapshot_same _ _ _ _ Hx) as -> end.
  destruct (firstTaskWithStatus _ _) as [i|]; [|by eapply IH]. go_inv. cbv zeta in H. case_match; [by eapply IH|]. go_inv.
  match goal with Hx : createDispatch _ _ _ _ _ _ _ _ = _ |- _ => apply createDispatch_active in Hx end.
  apply IH in H as [? ?]; lia.
Qed.

(** One call adds dispatches up to its limit: afterwards there are no more
    active dispatches than the limit, or than there were before. *)
Lemma dispatch_limit skipped tokens now limit db db' n :
  CreateDispatches text_le Committed skipped tokens now limit db = (db', Ok n) ->
  (Z.of_nat n <= limit)%Z /\ (count_active db' <= Z.max limit (count_active db))%Z /\ (count_active db' <= count_active db + Z.of_nat n)%Z.
Proof.
  intros H. unfold CreateDispatches in H. go_inv. apply Z.leb_gt in Hc. apply transaction_Ok in H. go_inv. cbv zeta in H.
  match goal with Hx : returnOrphanedPendingDispatches _ _ _ _ = _ |- _ => apply returnOrphaned_active in Hx end.
  match goal with Hx : promoteDueRetries _ _ _ _ _ = _ |- _ => apply promoteDueRetries_active in Hx end.
  unfold none_added, count_active in *. fold (active_count db) (active_count db'). cbv zeta in H. 
  case_match eqn:E; [go_inv; unfold active_count in *; lia|]. case_bool_decide; [go_inv; unfold active_count in *; lia|].
  apply Z.leb_gt in E. apply createLoop_active in H as [? ?]; [|lia]. unfold active_count in *. lia.
Qed.

(** ** The other requests *)
Lemma active_rows db db' :
  (forall n d', dispatches db' !! n = Some d' -> is_active (d_status d') = true -> exists d, dispatches db !! n = Some d /\ is_active (d_status d) = true) ->
  none_added db db'.
Proof.
  intros H. unfold none_added, active_count. rewrite <-(length_fmap fst (dispatch_list _ db')), <-(length_fmap fst (dispatch_list _ db)).
  apply submseteq_length, NoDup_submseteq; [apply dispatch_list_NoDup|]. intros n ([n' d'] & -> & Hin)%list_elem_of_fmap.
  apply dispatch_list_elem in Hin as [Hd Ha]. destruct (H n' d' Hd Ha) as (d & Hd0 & Ha0). apply list_elem_of_fmap. exists (n', d).
  split; [done|]. by apply dispatch_list_elem.
Qed.
Lemma update_dispatch_active n st f e : is_active st = true -> preserves none_added (update_dispatch n st f e).
Proof.
  intros Hst db db' [] (d & Hd & <- & _ & ->)%update_dispatch_inv. unfold none_added.
  pose proof (active_store db n (f d)) as H. unfold store_dispatch in H. rewrite Hd in H. cbn in H. rewrite Hst in H.
  destruct (is_active (d_status (f d))); cbn in H; lia.
Qed.
Lemma modify_active f : (forall db, dispatches (f db) = dispatches db) -> preserves none_added (modify f).
Proof. intros Hf db db' u H. injection H as <- _. unfold none_added. by rewrite (active_same _ _ (Hf db)). Qed.
#[local] Hint Resolve update_dispatch_active : keeps.
#[local] Hint Extern 1 (preserves none_added (modify _)) => (apply modify_active; intros ?; done) : keeps.
#[local] Hint Extern 1 (is_active _ = true) => reflexivity : keeps.

Lemma claimLoop_active tokens now w items : forall n, preserves none_added (claimLoop sha256 leaseDuration tokens n now w items).
Proof. induction items as [|item items IH]; intros; cbn [claimLoop]; unfold claimOne; keep. Qed.
Lemma heartbeatLease_active now w ref : preserves none_added (heartbeatLease sha256 leaseDuration now w ref).
Proof.
  intros db db' item [_ ->]%heartbeatLease_effect. apply active_rows. cbn. intros n d'. rewrite map_lookup_imap.
  destruct (dispatches db !! n) as [d|]; [|done]. cbn. intros [= <-] Ha. exists d. split; [done|]. unfold heard in Ha.
  destruct (existsb _ _); [|done]. destruct (live now d) eqn:Hl; [|done]. unfold live in Hl. apply andb_true_iff in Hl as [Hl%bool_decide_eq_true _].
  by rewrite Hl.
Qed.
Lemma heartbeatLeases_active now w refs : preserves none_added (heartbeatLeases sha256 leaseDuration now w refs).
Proof. pose proof heartbeatLease_active. induction refs; cbn [heartbeatLeases]; keep. Qed.
Lemma reapLoop_active clock items : forall n, preserves none_added (reapLoop clock n items).
Proof. induction items; intros; cbn [reapLoop]; unfold reapOne; keep. Qed.
Lemma revokeDispatches_active now id : preserves none_added (revokeDispatches now id).
Proof.
  intros db db' u H. unfold revokeDispatches in H. go_inv. apply active_rows. cbn. intros n d'. rewrite lookup_fmap.
  destruct (dispatches db !! n) as [d|]; [|done]. cbn. intros [= <-] [Ha _]%revoke_active. by exists d.
Qed.
#[local] Hint Resolve claimLoop_active heartbeatLeases_active reapLoop_active revokeDispatches_active : keeps.

Lemma CancelRun_active end_ now id : always none_added (CancelRun end_ now id).
Proof. apply always_transaction; [apply _|]. keep. Qed.
Lemma CancelRequestedRuns_active ends nows limit : always none_added (CancelRequestedRuns text_le ends nows limit).
Proof.
  apply always_fail_if; [apply _|]. intros _ db db' r H. unfold mbind, go_bind, get in H. cbv zeta in H.
  destruct (for_each _ _ db) as [db1 out] eqn:E. assert (H1 : none_added db db1); [|by destruct out; injection H as <- _].
  revert E. apply always_for_each; [apply _|]. intros id. by apply always_wrapped, CancelRun_active.
Qed.
Lemma ReapExpired_active end_ skipped clock now limit :
  always none_added (ReapExpired text_le workerHeartbeatInterval end_ skipped clock now limit).
Proof. apply always_fail_if; [apply _|]. intros _. apply always_transaction; [apply _|]. keep. Qed.
(** A call that is rolled back changes nothing; otherwise its body was run. *)
Lemma transaction_cases {A} end_ (body : go database A) db :
  (transaction end_ body db).1 = db \/ exists a, transaction Committed body db = ((transaction end_ body db).1, Ok a).
Proof. unfold transaction. destruct (body db) as [db1 [a|e| |]]; [|by left..]. destruct end_; [right; by exists a|by left|right; by exists a]. Qed.
Lemma CreateDispatches_committed end_ skipped tokens now limit db :
  let db' := (CreateDispatches text_le end_ skipped tokens now limit db).1 in
  db' = db \/ exists n, CreateDispatches text_le Committed skipped tokens now limit db = (db', Ok n).
Proof.
  unfold CreateDispatches. unfold mbind at 1 3, go_bind at 1 3, fail_if. destruct (limit <=? 0)%Z; [by left|]. apply transaction_cases.
Qed.
Lemma CreateDispatches_active end_ skipped tokens now limit db :
  (count_active (CreateDispatches text_le end_ skipped tokens now limit db).1 <= Z.max limit (count_active db))%Z.
Proof.
  destruct (CreateDispatches_committed end_ skipped tokens now limit db) as [->|[n Hn]]; [lia|]. by apply dispatch_limit in Hn as (_ & H & _).
Qed.

Lemma perform_active r db : (forall end_ skipped tokens now limit, r <> DoCreateDispatches end_ skipped tokens now limit) ->
  none_added db (perform sha256 text_le leaseDuration workerHeartbeatInterval r db).
Proof.
  intros Hr. destruct r as [ | | | | | | | | |end_ now worker]; cbn; [by destruct (Hr end_ skipped tokens now limit)|..].
  all: match goal with |- none_added ?d (?m ?d).1 => enough (Ha : always none_added m) by (destruct (m d) eqn:E; by eapply Ha) end.
  - apply always_fail_if; [apply _|]. intros _. apply always_transaction; [apply _|]. keep.
  - apply always_transaction; [apply _|]. keep.
  - apply always_lift; [apply _|]. intros hash _. apply always_transaction; [apply _|]. unfold completeLeased. keep.
  - apply ReapExpired_active.
  - apply CancelRun_active.
  - apply CancelRequestedRuns_active.
  - apply always_transaction; [apply _|]. keep.
  - apply RegisterWorker_always; [apply _|]. intros w row _. unfold insert_worker. keep.
  - apply always_transaction; [apply _|]. unfold update_worker. keep.
Qed.
End repository.
