(* ===== verification/DispatchCoordinator.v ===== *)
(** * The dispatch coordinator

    src/internal/dispatch/coordinator.go: the process that holds the
    coordinator lock scans the database for cancellations, expired leases and
    tasks to dispatch, again at once while it finds some, and otherwise when it
    is woken or its timer ticks.  The state is the [DispatchCoordinator] and the
    tables; each event is one call of the repository, one critical section, one
    return of the lock, or a request of somebody else to the repository. *)
From S2P Require Import Prelude GoStrings Json Model State ChangeSet Stores Database Dispatch Workers Refinement.

Definition ErrCoordinatorNotReady : error := Sentinel "ErrCoordinatorNotReady".
Definition defaultBatchSize : Z := 100.

(** Where [scanLoop] and [lockLoop] are. *)
Inductive scan_at : Type := Canceling | Reaping | Creating | Waiting | ScanFailed (err : error).
Inductive check_at : Type := Checking | CheckFailed (err : error).
(** A call of [Cancel]: it was accepted, or the run was canceled. *)
Inductive cancel_at : Type := CancelAccepted (id : RunID) | CancelDone.
#[export] Instance cancel_at_eq_dec : EqDecision cancel_at.
Proof. solve_decision. Defined.

Record DispatchCoordinator := mkDispatchCoordinator {
  dc_batch : Z;
  dc_ready : bool;
  dc_started : bool;
  dc_closing : bool;
  (** [Start] is acquiring the lock *)
  dc_acquiring : bool;
  dc_lock : bool;
  (** [runCtx], and whether it was cancelled *)
  dc_runCtx : option bool;
  (** the signal in [wake] *)
  dc_wake : bool;
  dc_errors : option error;
  dc_fatal : bool;
  dc_scan : option scan_at;
  dc_check : option check_at;
  dc_cancels : list cancel_at;
  (** the goroutine of [Close], with its lock; what it left in [closeErr] *)
  dc_finishing : option bool;
  dc_closed : option (option error);
  (** the context of [Start] was cancelled; the lock is held *)
  dc_parent : bool;
  dc_owned : bool;
}.
Definition NewDispatchCoordinator (batch : Z) : DispatchCoordinator :=
  mkDispatchCoordinator (if (batch <=? 0)%Z then defaultBatchSize else batch)
    false false false false false None false None false None None [] None None false false.

Section updates.
Context (c : DispatchCoordinator).
Definition at_scan (scan : option scan_at) : DispatchCoordinator :=
  mkDispatchCoordinator (dc_batch c) (dc_ready c) (dc_started c) (dc_closing c) (dc_acquiring c) (dc_lock c) (dc_runCtx c) (dc_wake c)
    (dc_errors c) (dc_fatal c) scan (dc_check c) (dc_cancels c) (dc_finishing c) (dc_closed c) (dc_parent c) (dc_owned c).
Definition at_check (check : option check_at) : DispatchCoordinator :=
  mkDispatchCoordinator (dc_batch c) (dc_ready c) (dc_started c) (dc_closing c) (dc_acquiring c) (dc_lock c) (dc_runCtx c) (dc_wake c)
    (dc_errors c) (dc_fatal c) (dc_scan c) check (dc_cancels c) (dc_finishing c) (dc_closed c) (dc_parent c) (dc_owned c).
Definition at_cancels (cancels : list cancel_at) : DispatchCoordinator :=
  mkDispatchCoordinator (dc_batch c) (dc_ready c) (dc_started c) (dc_closing c) (dc_acquiring c) (dc_lock c) (dc_runCtx c) (dc_wake c)
    (dc_errors c) (dc_fatal c) (dc_scan c) (dc_check c) cancels (dc_finishing c) (dc_closed c) (dc_parent c) (dc_owned c).
Definition set_wake (wake : bool) : DispatchCoordinator :=
  mkDispatchCoordinator (dc_batch c) (dc_ready c) (dc_started c) (dc_closing c) (dc_acquiring c) (dc_lock c) (dc_runCtx c) wake
    (dc_errors c) (dc_fatal c) (dc_scan c) (dc_check c) (dc_cancels c) (dc_finishing c) (dc_closed c) (dc_parent c) (dc_owned c).

Definition dc_accepting : bool := dc_ready c && negb (dc_closing c).
(** [ctx.Err() != nil] *)
Definition dc_canceled : bool := dc_parent c || bool_decide (dc_runCtx c = Some true).
End updates.

(** ** Critical sections *)
Definition dispatch_Ready : DispatchCoordinator -> bool := dc_accepting.
Definition dispatch_Start (dependencies : bool) (c : DispatchCoordinator) : DispatchCoordinator * outcome unit :=
  if dc_started c || dc_closing c then (c, Err (Errorf "dispatch coordinator has already been started or closed"))
  else if negb dependencies then (c, Err (Errorf "dispatch coordinator dependencies are required"))
  else (mkDispatchCoordinator (dc_batch c) (dc_ready c) true (dc_closing c) true (dc_lock c) (dc_runCtx c) (dc_wake c)
    (dc_errors c) (dc_fatal c) (dc_scan c) (dc_check c) (dc_cancels c) (dc_finishing c) (dc_closed c) (dc_parent c) (dc_owned c), Ok tt).
Definition dispatch_acquired (r : outcome unit) (c : DispatchCoordinator) : option DispatchCoordinator :=
  if negb (dc_acquiring c) then None
  else match r with
  | Ok _ => Some (mkDispatchCoordinator (dc_batch c) true (dc_started c) (dc_closing c) false true (Some false) (dc_wake c)
      (dc_errors c) (dc_fatal c) (Some Canceling) (Some Checking) (dc_cancels c) (dc_finishing c) (dc_closed c) (dc_parent c) true)
  | _ => Some (mkDispatchCoordinator (dc_batch c) (dc_ready c) (dc_started c) (dc_closing c) false (dc_lock c) (dc_runCtx c) (dc_wake c)
      (dc_errors c) (dc_fatal c) (dc_scan c) (dc_check c) (dc_cancels c) (dc_finishing c) (dc_closed c) (dc_parent c) (dc_owned c))
  end.
Definition dispatch_Wake (c : DispatchCoordinator) : DispatchCoordinator := if dc_accepting c then set_wake c true else c.
(** The first call withdraws readiness, cancels both loops and sends its error. *)
Definition dispatch_fail (err : error) (c : DispatchCoordinator) : DispatchCoordinator :=
  if dc_fatal c then c
  else mkDispatchCoordinator (dc_batch c) false (dc_started c) (dc_closing c) (dc_acquiring c) (dc_lock c) ((fun _ => true) <$> dc_runCtx c) (dc_wake c)
    (Some err) true (dc_scan c) (dc_check c) (dc_cancels c) (dc_finishing c) (dc_closed c) (dc_parent c) (dc_owned c).

Section repository.
Context (sha256 : string -> string).
Context (text_le : string -> string -> bool) (leaseDuration workerHeartbeatInterval : duration).

(** ** [Cancel] *)
Definition cancel_begin (id : RunID) (c : DispatchCoordinator) : DispatchCoordinator * outcome unit :=
  if dc_accepting c then (at_cancels c (CancelAccepted id :: dc_cancels c), Ok tt) else (c, Err ErrCoordinatorNotReady).
Definition remove_cancel (k : cancel_at) (l : list cancel_at) : list cancel_at :=
  match list_find (fun x => x = k) l with Some (i, _) => delete i l | None => l end.
Definition cancel_run (end_ : fate) (now : time) (id : RunID) (c : DispatchCoordinator) (db : database)
    : option (DispatchCoordinator * database) :=
  if bool_decide (CancelAccepted id ∈ dc_cancels c)
  then
    let rest := remove_cancel (CancelAccepted id) (dc_cancels c) in
    let '(db, r) := CancelRun end_ now id db in
    Some (at_cancels c (match r with Ok _ => CancelDone :: rest | _ => rest end), db)
  else None.
Definition cancel_wake (c : DispatchCoordinator) : option DispatchCoordinator :=
  if bool_decide (CancelDone ∈ dc_cancels c)
  then Some (dispatch_Wake (at_cancels c (remove_cancel CancelDone (dc_cancels c)))) else None.

(** ** [scanLoop] *)
Definition scan_error (format : string) (err : error) (c : DispatchCoordinator) : DispatchCoordinator :=
  at_scan c (if dc_canceled c then None else Some (ScanFailed (Wrapf format err))).
Definition scan_cancel (ends : RunID -> fate) (nows : RunID -> time) (c : DispatchCoordinator) (db : database)
    : option (DispatchCoordinator * database) :=
  match dc_scan c, CancelRequestedRuns text_le ends nows (dc_batch c) db with
  | Some Canceling, (db, Ok _) => Some (at_scan c (Some Reaping), db)
  | Some Canceling, (db, Err err) => Some (scan_error "reconcile requested Run cancellations: %w" err c, db)
  | _, _ => None
  end.
Definition scan_reap (end_ : fate) (skipped : string -> bool) (clock : nat -> time) (now : time) (c : DispatchCoordinator) (db : database)
    : option (DispatchCoordinator * database) :=
  match dc_scan c, ReapExpired text_le workerHeartbeatInterval end_ skipped clock now (dc_batch c) db with
  | Some Reaping, (db, Ok _) => Some (at_scan c (Some Creating), db)
  | Some Reaping, (db, Err err) => Some (scan_error "reap expired task leases: %w" err c, db)
  | _, _ => None
  end.
(** While a round creates dispatches the next one follows at once. *)
Definition scan_create (end_ : fate) (skipped : string -> bool) (tokens : nat -> outcome string) (now : time) (c : DispatchCoordinator)
    (db : database) : option (DispatchCoordinator * database) :=
  match dc_scan c, CreateDispatches text_le end_ skipped tokens now (dc_batch c) db with
  | Some Creating, (db, Ok created) => Some (at_scan c (Some (if (0 <? created)%nat then Canceling else Waiting)), db)
  | Some Creating, (db, Err err) => Some (scan_error "create task dispatches: %w" err c, db)
  | _, _ => None
  end.
Definition scan_woken (c : DispatchCoordinator) : option DispatchCoordinator :=
  match dc_scan c with
  | Some Waiting => if dc_wake c then Some (set_wake (at_scan c (Some Canceling)) false) else None
  | _ => None
  end.
Definition scan_ticked (c : DispatchCoordinator) : option DispatchCoordinator :=
  match dc_scan c with Some Waiting => Some (at_scan c (Some Canceling)) | _ => None end.
Definition scan_stopped (c : DispatchCoordinator) : option DispatchCoordinator :=
  match dc_scan c with Some Waiting => if dc_canceled c then Some (at_scan c None) else None | _ => None end.
Definition scan_failed (c : DispatchCoordinator) : option DispatchCoordinator :=
  match dc_scan c with Some (ScanFailed err) => Some (dispatch_fail err (at_scan c None)) | _ => None end.

(** ** [lockLoop] *)
Definition check_returned (r : outcome unit) (c : DispatchCoordinator) : option DispatchCoordinator :=
  match dc_check c, r with
  | Some Checking, Ok _ => Some c
  | Some Checking, Err err => Some (at_check c (if dc_canceled c then None else Some (CheckFailed (Wrapf "check dispatch coordinator lock: %w" err))))
  | _, _ => None
  end.
Definition check_stopped (c : DispatchCoordinator) : option DispatchCoordinator :=
  match dc_check c with Some Checking => if dc_canceled c then Some (at_check c None) else None | _ => None end.
Definition check_failed (c : DispatchCoordinator) : option DispatchCoordinator :=
  match dc_check c with Some (CheckFailed err) => Some (dispatch_fail err (at_check c None)) | _ => None end.

(** ** [Close] *)
Definition dispatch_Close (c : DispatchCoordinator) : DispatchCoordinator :=
  if dc_closing c then c
  else mkDispatchCoordinator (dc_batch c) false (dc_started c) true (dc_acquiring c) (dc_lock c) ((fun _ => true) <$> dc_runCtx c) (dc_wake c)
    (dc_errors c) (dc_fatal c) (dc_scan c) (dc_check c) (dc_cancels c) (Some (dc_lock c)) (dc_closed c) (dc_parent c) (dc_owned c).
(** Both loops have ended; [r] is what closing the lock returns. *)
Definition dispatch_finish (r : option error) (c : DispatchCoordinator) : option DispatchCoordinator :=
  match dc_finishing c, dc_scan c, dc_check c with
  | Some lock, None, None =>
    Some (mkDispatchCoordinator (dc_batch c) (dc_ready c) (dc_started c) (dc_closing c) (dc_acquiring c) (dc_lock c) (dc_runCtx c) (dc_wake c)
      (dc_errors c) (dc_fatal c) None None (dc_cancels c) None (Some (if lock then r else None)) (dc_parent c) (if lock then false else dc_owned c))
  | _, _, _ => None
  end.

(** ** Events *)
Inductive dispatch_event : Type :=
| DStart (dependencies : bool) | DAcquired (r : outcome unit) | DWake
| DCancelBegin (id : RunID) | DCancelRun (end_ : fate) (now : time) (id : RunID) | DCancelWake
| DScanCancel (ends : RunID -> fate) (nows : RunID -> time)
| DScanReap (end_ : fate) (skipped : string -> bool) (clock : nat -> time) (now : time)
| DScanCreate (end_ : fate) (skipped : string -> bool) (tokens : nat -> outcome string) (now : time)
| DScanWoken | DScanTicked | DScanStopped | DScanFailed
| DCheckReturned (r : outcome unit) | DCheckStopped | DCheckFailed
| DClose | DFinish (r : option error) | DParentCanceled
(** a request of a worker or of the control plane *)
| DRequest (r : request).

Definition dispatch_exec (e : dispatch_event) (c : DispatchCoordinator) (db : database) : option (DispatchCoordinator * database) :=
  match e with
  | DStart dependencies => Some ((dispatch_Start dependencies c).1, db)
  | DAcquired r => (fun c => (c, db)) <$> dispatch_acquired r c
  | DWake => Some (dispatch_Wake c, db)
  | DCancelBegin id => Some ((cancel_begin id c).1, db)
  | DCancelRun end_ now id => cancel_run end_ now id c db
  | DCancelWake => (fun c => (c, db)) <$> cancel_wake c
  | DScanCancel ends nows => scan_cancel ends nows c db
  | DScanReap end_ skipped clock now => scan_reap end_ skipped clock now c db
  | DScanCreate end_ skipped tokens now => scan_create end_ skipped tokens now c db
  | DScanWoken => (fun c => (c, db)) <$> scan_woken c
  | DScanTicked => (fun c => (c, db)) <$> scan_ticked c
  | DScanStopped => (fun c => (c, db)) <$> scan_stopped c
  | DScanFailed => (fun c => (c, db)) <$> scan_failed c
  | DCheckReturned r => (fun c => (c, db)) <$> check_returned r c
  | DCheckStopped => (fun c => (c, db)) <$> check_stopped c
  | DCheckFailed => (fun c => (c, db)) <$> check_failed c
  | DClose => Some (dispatch_Close c, db)
  | DFinish r => (fun c => (c, db)) <$> dispatch_finish r c
  | DParentCanceled =>
    Some (mkDispatchCoordinator (dc_batch c) (dc_ready c) (dc_started c) (dc_closing c) (dc_acquiring c) (dc_lock c) ((fun _ => true) <$> dc_runCtx c) (dc_wake c)
      (dc_errors c) (dc_fatal c) (dc_scan c) (dc_check c) (dc_cancels c) (dc_finishing c) (dc_closed c) true (dc_owned c), db)
  | DRequest r => Some (c, perform sha256 text_le leaseDuration workerHeartbeatInterval r db)
  end.
Definition dispatch_all (es : list dispatch_event) (c : DispatchCoordinator) (db : database) : option (DispatchCoordinator * database) :=
  foldl (fun s e => '(c, db) ← s; dispatch_exec e c db) (Some (c, db)) es.
End repository.
