(* ===== verification/DispatchCoordinatorTheorems.v ===== *)
(** * The dispatch coordinator with the repository

    Every interleaving of the coordinator's loops, its calls and other requests
    follows the dispatch protocol; the coordinator scans only while it holds the
    lock; a wake-up is never lost; and the batch size bounds the dispatches. *)
From S2P Require Import Prelude Hoare GoStrings Json Model State Compiler ChangeSet Stores Database Dispatch Workers Preserves DatabaseFacts DispatchSteps DispatchInvariant Protocol Refinement DispatchTheorems DispatchLimit DispatchCoordinator.
From stdpp Require Import relations.

Section repository.
Context (sha256 : string -> string).
Context (text_le : string -> string -> bool) (leaseDuration workerHeartbeatInterval : duration).
#[local] Abbreviation dispatch_exec := (dispatch_exec sha256 text_le leaseDuration workerHeartbeatInterval).
#[local] Abbreviation dispatch_all := (dispatch_all sha256 text_le leaseDuration workerHeartbeatInterval).

(** What an event does to the tables: nothing, a call of the repository, or a
    request of somebody else. *)
Lemma dispatch_exec_tables e c db c' db' : dispatch_exec e c db = Some (c', db') ->
  db' = db \/
  (exists end_ now id, db' = (CancelRun end_ now id db).1) \/
  (exists ends nows, db' = (CancelRequestedRuns text_le ends nows (dc_batch c) db).1) \/
  (exists end_ skipped clock now, db' = (ReapExpired text_le workerHeartbeatInterval end_ skipped clock now (dc_batch c) db).1) \/
  (exists end_ skipped tokens now, db' = (CreateDispatches text_le end_ skipped tokens now (dc_batch c) db).1) \/
  (exists r, e = DRequest r /\ db' = perform sha256 text_le leaseDuration workerHeartbeatInterval r db).
Proof.
  destruct e as [deps|r| |id|end_ now id| |ends nows|end_ skipped clock now|end_ skipped tokens now| | | | |r| | | |r| |r]; cbn; intros H.
  all: try (injection H as <- <-; by left).
  all: try (apply fmap_Some in H as (c1 & _ & [= -> ->]); by left).
  - unfold cancel_run in H. case_bool_decide; [|done]. destruct (CancelRun end_ now id db) as [db1 r] eqn:E. injection H as <- <-.
    right; left. exists end_, now, id. by rewrite E.
  - unfold scan_cancel in H. destruct (CancelRequestedRuns _ _ _ _ db) as [db1 r] eqn:E. right; right; left. exists ends, nows. rewrite E.
    destruct (dc_scan c) as [[]|]; try done. destruct r; try done; by injection H as <- <-.
  - unfold scan_reap in H. destruct (ReapExpired _ _ _ _ _ _ _ db) as [db1 r] eqn:E. do 3 right; left. exists end_, skipped, clock, now. rewrite E.
    destruct (dc_scan c) as [[]|]; try done. destruct r; try done; by injection H as <- <-.
  - unfold scan_create in H. destruct (CreateDispatches _ _ _ _ _ _ db) as [db1 r] eqn:E. do 4 right; left. exists end_, skipped, tokens, now. rewrite E.
    destruct (dc_scan c) as [[]|]; try done. destruct r; try done; by injection H as <- <-.
  - injection H as <- <-. do 5 right. by exists r.
Qed.
Lemma dispatch_exec_refines e c db c' db' : db_ok db -> dispatch_exec e c db = Some (c', db') -> protocol db db'.
Proof.
  intros Hok H. apply dispatch_exec_tables in H as [->|[(end_ & now & id & ->)|[(ends & nows & ->)|[(end_ & skipped & clock & now & ->)|[(end_ & skipped & tokens & now & ->)|(r & _ & ->)]]]]].
  - apply rtc_refl.
  - destruct (CancelRun _ _ _ db) eqn:E. by eapply CancelRun_refines.
  - destruct (CancelRequestedRuns _ _ _ _ db) eqn:E. by eapply CancelRequestedRuns_refines.
  - destruct (ReapExpired _ _ _ _ _ _ _ db) eqn:E. by eapply ReapExpired_refines.
  - destruct (CreateDispatches _ _ _ _ _ _ db) eqn:E. by eapply CreateDispatches_refines.
  - by apply perform_refines.
Qed.

(** Histories. *)
Lemma dispatch_all_cons e es c db : dispatch_all (e :: es) c db = '(c1, db1) ← dispatch_exec e c db; dispatch_all es c1 db1.
Proof.
  unfold DispatchCoordinator.dispatch_all. cbn. destruct (DispatchCoordinator.dispatch_exec _ _ _ _ e c db) as [[c1 db1]|]; [done|]. cbn.
  induction es as [|e' es IH]; [done|exact IH].
Qed.
Lemma dispatch_all_ind (P : DispatchCoordinator -> database -> Prop) (Q : dispatch_event -> Prop) es :
  (forall e c db c' db', Q e -> P c db -> dispatch_exec e c db = Some (c', db') -> P c' db') ->
  forall c db c' db', Forall Q es -> P c db -> dispatch_all es c db = Some (c', db') -> P c' db'.
Proof.
  intros Hstep. induction es as [|e es IH]; intros c db c' db' HQ HP H; [by injection H as <- <-|].
  rewrite dispatch_all_cons in H. apply bind_Some in H as ([c1 db1] & H1 & H). apply Forall_cons in HQ as [Hq HQ]. eapply IH; [done| |exact H]. by eapply Hstep.
Qed.

(** The coordinator, its callers and the workers together follow the dispatch
    protocol in every interleaving, so the invariant of the tables holds. *)
Theorem coordinator_follows_protocol es c db c' db' :
  db_ok db -> dispatch_all es c db = Some (c', db') -> protocol db db' /\ db_ok db'.
Proof.
  intros Hok H. enough (Hp : protocol db db') by (split; [done|by eapply protocol_ok]).
  apply (dispatch_all_ind (fun _ d => protocol db d) (fun _ => True) es) in H; [done| |by apply Forall_true|apply rtc_refl].
  intros e c0 db0 c1 db1 _ Hp He. etrans; [exact Hp|]. eapply dispatch_exec_refines; [|exact He]. by eapply protocol_ok.
Qed.

(** The branches of an event. *)
Ltac exec_cases H :=
  cbn in H; try (apply fmap_Some in H as (? & H & [= -> ->]));
  unfold dispatch_Start, dispatch_acquired, cancel_begin, cancel_run, cancel_wake, scan_cancel, scan_reap, scan_create, scan_woken, scan_ticked,
    scan_stopped, scan_failed, check_returned, check_stopped, check_failed, dispatch_Close, dispatch_finish, scan_error in H;
  repeat (case_match; simplify_eq/=; try done); simplify_eq/=; try done.

(** ** The batch size *)
Lemma dispatch_fail_batch err c : dc_batch (dispatch_fail err c) = dc_batch c.
Proof. unfold dispatch_fail. by destruct (dc_fatal c). Qed.
Lemma dispatch_Wake_batch c : dc_batch (dispatch_Wake c) = dc_batch c.
Proof. unfold dispatch_Wake. by destruct (dc_accepting c). Qed.
Lemma dispatch_exec_batch e c db c' db' : dispatch_exec e c db = Some (c', db') -> dc_batch c' = dc_batch c.
Proof.
  intros H. by destruct e; exec_cases H; rewrite ?dispatch_fail_batch, ?dispatch_Wake_batch.
Qed.

(** Workers' requests: nobody else schedules. *)
Definition schedules (e : dispatch_event) : bool := match e with DRequest (DoCreateDispatches _ _ _ _ _) => true | _ => false end.

(** C30: Whatever the workers and callers do, scheduling by the coordinator leaves at
    most a batch of active dispatches, or as many as there were. *)
Theorem batch_bounds_dispatches es batch db c' db' :
  Forall (fun e => schedules e = false) es -> dispatch_all es (NewDispatchCoordinator batch) db = Some (c', db') ->
  (count_active db' <= Z.max (if (batch <=? 0)%Z then defaultBatchSize else batch) (count_active db))%Z.
Proof.
  intros Hes H. set (limit := if (batch <=? 0)%Z then defaultBatchSize else batch).
  eapply (dispatch_all_ind (fun c d => dc_batch c = limit /\ (count_active d <= Z.max limit (count_active db))%Z) _ es) in H as [_ H]; [exact H| |exact Hes|split; [done|lia]].
  clear H. intros e c db1 c1 db2 He [Hb Hle] H. split; [by rewrite (dispatch_exec_batch _ _ _ _ _ H)|].
  assert (Hnone : none_added db1 db2 -> (count_active db2 <= Z.max limit (count_active db))%Z) by (unfold none_added, count_active, active_count in *; lia).
  apply dispatch_exec_tables in H as [->|[(end_ & now & id & ->)|[(ends & nows & ->)|[(end_ & skipped & clock & now & ->)|[(end_ & skipped & tokens & now & ->)|(r & -> & ->)]]]]].
  - done.
  - apply Hnone. destruct (CancelRun _ _ _ _) eqn:E. by eapply CancelRun_active.
  - apply Hnone. destruct (CancelRequestedRuns _ _ _ _ _) eqn:E. by eapply CancelRequestedRuns_active.
  - apply Hnone. destruct (ReapExpired _ _ _ _ _ _ _ _) eqn:E. by eapply ReapExpired_active.
  - pose proof (CreateDispatches_active text_le end_ skipped tokens now (dc_batch c) db1). rewrite Hb in *. lia.
  - apply Hnone, perform_active. by intros ? ? ? ? ? ->.
Qed.

(** ** The lock

    [dispatch_orderly] histories: [Close] is not called while [Start] acquires
    the lock. *)
Inductive dispatch_orderly : DispatchCoordinator -> database -> Prop :=
| DOrderlyNew batch db : dispatch_orderly (NewDispatchCoordinator batch) db
| DOrderlyStep e c db c' db' : dispatch_orderly c db -> (e = DClose -> dc_acquiring c = false) ->
    dispatch_exec e c db = Some (c', db') -> dispatch_orderly c' db'.

Inductive dispatch_phase : DispatchCoordinator -> Prop :=
| DBefore batch started wake cancels parent :
    dispatch_phase (mkDispatchCoordinator batch false started false false false None wake None false None None cancels None None parent false)
| DAcquiring batch wake cancels parent :
    dispatch_phase (mkDispatchCoordinator batch false true false true false None wake None false None None cancels None None parent false)
| DClosingUnstarted batch started wake cancels parent :
    dispatch_phase (mkDispatchCoordinator batch false started true false false None wake None false None None cancels (Some false) None parent false)
| DClosedUnstarted batch started wake cancels parent :
    dispatch_phase (mkDispatchCoordinator batch false started true false false None wake None false None None cancels None (Some None) parent false)
| DOpen batch ready ctx wake errors fatal scan check cancels parent : (fatal = true -> ready = false /\ ctx = true) -> (fatal = true <-> is_Some errors) ->
    dispatch_phase (mkDispatchCoordinator batch ready true false false true (Some ctx) wake errors fatal scan check cancels None None parent true)
| DClosing batch wake errors fatal scan check cancels parent : (fatal = true <-> is_Some errors) ->
    dispatch_phase (mkDispatchCoordinator batch false true true false true (Some true) wake errors fatal scan check cancels (Some true) None parent true)
| DClosed batch wake errors fatal cancels r parent : (fatal = true <-> is_Some errors) ->
    dispatch_phase (mkDispatchCoordinator batch false true true false true (Some true) wake errors fatal None None cancels None (Some r) parent false).

Ltac dispatch_phase_tac :=
  repeat match goal with
  | |- context [dispatch_fail] => unfold dispatch_fail; cbn; case_match; simplify_eq/=
  | |- context [dispatch_Wake] => unfold dispatch_Wake, dc_accepting; cbn; try case_match; simplify_eq/=
  end; cbn; try (econstructor; naive_solver).
Lemma dispatch_phase_step e c db c' db' : dispatch_phase c -> (e = DClose -> dc_acquiring c = false) ->
  dispatch_exec e c db = Some (c', db') -> dispatch_phase c'.
Proof.
  intros Hph Hclose H. destruct Hph as [? []|? ?|? []|? []| | |], e; exec_cases H; dispatch_phase_tac. by specialize (Hclose eq_refl).
Qed.
Lemma dispatch_orderly_phase c db : dispatch_orderly c db -> dispatch_phase c.
Proof. induction 1; [constructor|by eapply dispatch_phase_step]. Qed.

(** C31: The loops run, and so scan the tables, only while the coordinator holds the
    lock; it is ready only with the lock and before any failure; once closed
    both loops have ended and the lock was released; a failure has cancelled
    the loops and sent its error. *)
Theorem scans_with_lock c db : dispatch_orderly c db ->
  (dc_scan c <> None \/ dc_check c <> None -> dc_owned c = true /\ dc_lock c = true) /\
  (dispatch_Ready c = true -> dc_owned c = true /\ dc_fatal c = false) /\
  (dc_closed c <> None -> dc_scan c = None /\ dc_check c = None /\ dc_owned c = false /\ dispatch_Ready c = false) /\
  (dc_fatal c = true -> dc_canceled c = true /\ dispatch_Ready c = false /\ is_Some (dc_errors c)).
Proof.
  intros Hc%dispatch_orderly_phase. destruct Hc as [| | | |batch ready ctx wake errors fatal scan check cancels parent Hf He|batch wake errors fatal ????? He|].
  all: unfold dispatch_Ready, dc_accepting, dc_canceled; cbn; split_and!; try done; try (by intros []).
  - intros [-> _]%andb_true_iff. split; [done|]. destruct fatal; [by destruct Hf|done].
  - intros ->. destruct Hf as [-> ->]; [done|]. split_and!; [by rewrite bool_decide_eq_true_2, orb_true_r|done|naive_solver].
  - intros ->. split_and!; [by rewrite bool_decide_eq_true_2, orb_true_r|done|naive_solver].
  - intros ->. split_and!; [by rewrite bool_decide_eq_true_2, orb_true_r|done|naive_solver].
Qed.

(** ** Wake-ups *)

(** The calls of a scan, in order. *)
Inductive scan_call : Type := CallCancel | CallReap | CallCreate.
Definition call_of (e : dispatch_event) : option scan_call :=
  match e with DScanCancel _ _ => Some CallCancel | DScanReap _ _ _ _ => Some CallReap | DScanCreate _ _ _ _ => Some CallCreate | _ => None end.
Definition whole_scan : list scan_call := [CallCancel; CallReap; CallCreate].
(** The calls that are left before the loop waits for the next signal. *)
Definition calls_left (c : DispatchCoordinator) : list scan_call :=
  if dc_wake c then whole_scan
  else match dc_scan c with
  | Some Reaping => [CallReap; CallCreate]
  | Some Creating => [CallCreate]
  | Some Waiting => []
  | _ => whole_scan
  end.
Lemma calls_left_whole c : calls_left c `sublist_of` whole_scan.
Proof. unfold calls_left, whole_scan. repeat case_match; repeat constructor. Qed.
Lemma calls_left_step e c db c' db' : dispatch_exec e c db = Some (c', db') -> calls_left c `sublist_of` option_list (call_of e) ++ calls_left c'.
Proof.
  intros H. assert (Hsame : dc_wake c' = dc_wake c -> dc_scan c' = dc_scan c -> calls_left c `sublist_of` option_list (call_of e) ++ calls_left c').
  { intros Hw Hs. unfold calls_left. rewrite Hw, Hs. by apply sublist_inserts_l. }
  destruct e; exec_cases H; try by apply Hsame.
  all: unfold dispatch_Wake, dispatch_fail; repeat (case_match; simplify_eq/=; try done); try by apply Hsame.
  all: clear Hsame; unfold calls_left; cbn; repeat (case_match; simplify_eq/=; try done);
    unfold whole_scan; eauto 10 using sublist_nil, sublist_skip, sublist_cons.
Qed.

(** C29: A wake-up is never lost: once it was accepted, the loop waits again without
    a signal only after a scan that began later has gone through its three
    calls. *)
Theorem wake_not_lost es c db c' db' :
  dc_accepting c = true -> dispatch_all es (dispatch_Wake c) db = Some (c', db') -> dc_scan c' = Some Waiting -> dc_wake c' = false ->
  whole_scan `sublist_of` omap call_of es.
Proof.
  intros Hacc H Hs Hw. assert (Hgen : forall es c db, dispatch_all es c db = Some (c', db') -> calls_left c `sublist_of` omap call_of es).
  { clear es c db Hacc H. induction es as [|e es IH]; intros c db H.
    - injection H as -> _. unfold calls_left. by rewrite Hw, Hs.
    - rewrite dispatch_all_cons in H. apply bind_Some in H as ([c1 db1] & H1 & H). apply calls_left_step in H1. apply IH in H.
      etrans; [exact H1|]. cbn. destruct (call_of e); cbn; [by apply sublist_skip|done]. }
  apply Hgen in H. unfold dispatch_Wake in H. by rewrite Hacc in H.
Qed.
End repository.

(** ** Examples *)
Abbreviation sample_dispatch_all := (dispatch_all sample_sha256 sample_text_le defaultLeaseDuration defaultWorkerHeartbeatInterval).
Abbreviation committed := (fun _ : RunID => Committed).
Definition sample_scan (now : time) : list dispatch_event :=
  [DScanCancel committed (fun _ => now); DScanReap Committed no_lock (fun _ => now) now; DScanCreate Committed no_lock (sample_tokens "d") now].
(** The coordinator starts and schedules; a worker claims; the coordinator is
    woken and finds nothing more. *)
Definition scheduling_session : list dispatch_event :=
  [DStart true; DAcquired (Ok tt)] ++ sample_scan 2000 ++ [DRequest (DoClaim Committed no_lock (sample_tokens "t") 3000 "w1" 1); DCheckReturned (Ok tt)].
Definition after_scheduling : DispatchCoordinator * database :=
  default (NewDispatchCoordinator 10, sample_db) (sample_dispatch_all scheduling_session (NewDispatchCoordinator 10) sample_db).
Definition woken_session : list dispatch_event :=
  [DScanCancel committed (fun _ => 4000%Z); DScanReap Committed no_lock (fun _ => 4000%Z) 4000; DScanCreate Committed no_lock (sample_tokens "e") 4000;
   DScanWoken] ++ sample_scan 5000.
Definition after_waking : DispatchCoordinator * database :=
  default (NewDispatchCoordinator 10, sample_db) (sample_dispatch_all woken_session (dispatch_Wake after_scheduling.1) after_scheduling.2).
Lemma scheduling_runs : sample_dispatch_all scheduling_session (NewDispatchCoordinator 10) sample_db = Some (after_scheduling.1, after_scheduling.2).
Proof. by vm_compute. Qed.
Lemma waking_runs : sample_dispatch_all woken_session (dispatch_Wake after_scheduling.1) after_scheduling.2 = Some (after_waking.1, after_waking.2).
Proof. by vm_compute. Qed.
Lemma coordinator_follows_protocol_witness :
  count_active after_scheduling.2 = 1%Z /\ dc_scan after_scheduling.1 = Some Canceling /\ db_ok after_scheduling.2.
Proof.
  split; [by vm_compute|]. split; [by vm_compute|].
  exact (proj2 (coordinator_follows_protocol _ _ _ _ scheduling_session _ _ _ _ sample_db_ok scheduling_runs)).
Defined.
Lemma batch_bounds_dispatches_witness : (count_active sample_db = 0 /\ count_active after_scheduling.2 = 1 /\ count_active after_scheduling.2 <= 10)%Z.
Proof.
  split; [by vm_compute|]. split; [by vm_compute|].
  assert (Hes : Forall (fun e => schedules e = false) scheduling_session) by (unfold scheduling_session; repeat (apply Forall_cons_2 || apply Forall_nil_2); done).
  pose proof (batch_bounds_dispatches _ _ _ _ _ 10 _ _ _ Hes scheduling_runs) as H.
  replace (count_active sample_db) with 0%Z in H by (by vm_compute). exact H.
Defined.
Lemma wake_not_lost_witness : (dc_wake (dispatch_Wake after_scheduling.1) = true /\ dc_scan after_waking.1 = Some Waiting /\ dc_wake after_waking.1 = false) /\
  whole_scan `sublist_of` omap call_of woken_session.
Proof.
  assert (H : dc_scan after_waking.1 = Some Waiting /\ dc_wake after_waking.1 = false) by (by vm_compute).
  split; [by split; [vm_compute|]|]. destruct H as [H1 H2].
  refine (wake_not_lost _ _ _ _ _ _ _ _ _ _ waking_runs H1 H2). by vm_compute.
Defined.

Lemma dispatch_orderly_run es : forall c db c' db', dispatch_orderly sample_sha256 sample_text_le defaultLeaseDuration defaultWorkerHeartbeatInterval c db ->
  Forall (fun e => e <> DClose) es -> sample_dispatch_all es c db = Some (c', db') ->
  dispatch_orderly sample_sha256 sample_text_le defaultLeaseDuration defaultWorkerHeartbeatInterval c' db'.
Proof.
  intros c db c' db' Hc Hes. eapply (dispatch_all_ind _ _ _ _ (dispatch_orderly _ _ _ _) (fun e => e <> DClose)); [|done|done].
  intros e c0 db0 c1 db1 He H0. by apply DOrderlyStep.
Qed.
Lemma scans_with_lock_witness : dc_scan after_scheduling.1 = Some Canceling /\ dc_owned after_scheduling.1 = true.
Proof.
  assert (H : dc_scan after_scheduling.1 = Some Canceling) by (by vm_compute). split; [exact H|].
  assert (Ho : dispatch_orderly sample_sha256 sample_text_le defaultLeaseDuration defaultWorkerHeartbeatInterval after_scheduling.1 after_scheduling.2).
  { eapply dispatch_orderly_run; [apply DOrderlyNew| |exact scheduling_runs].
    unfold scheduling_session; repeat (apply Forall_cons_2 || apply Forall_nil_2); done. }
  destruct (scans_with_lock _ _ _ _ _ _ Ho) as (Hlock & _). apply Hlock. left. by rewrite H.
Defined.

(** [Close] while [Start] acquires the lock: it has nothing to wait for and
    returns; [Start] then starts both loops, which nothing stops, and keeps the
    lock. *)
Example loops_after_close :
  let es := [DStart true; DClose; DFinish None; DAcquired (Ok tt)] ++ sample_scan 2000 in
  exists c db, sample_dispatch_all es (NewDispatchCoordinator 10) sample_db = Some (c, db) /\
    dc_closed c = Some None /\ dc_canceled c = false /\ dc_scan c = Some Canceling /\ dc_owned c = true /\ count_active db = 1%Z.
Proof.
  cbv zeta. set (es := _ ++ _). exists (default (NewDispatchCoordinator 10, sample_db) (sample_dispatch_all es (NewDispatchCoordinator 10) sample_db)).1,
    (default (NewDispatchCoordinator 10, sample_db) (sample_dispatch_all es (NewDispatchCoordinator 10) sample_db)).2.
  split; [by vm_compute|]. by vm_compute.
Qed.
