(* ===== verification/WorkerTheorems.v ===== *)
(** * Worker sessions are correct

    Credentials identify the session they were issued for as long as it lives,
    a session that drains takes no new lease, and registration does what its
    limits say, whatever other requests arrive in between. *)
From S2P Require Import Prelude Hoare GoStrings Json Model State Graph Compiler Distributed ChangeSet Stores Database Dispatch Workers Preserves DatabaseFacts DispatchInvariant Protocol Refinement TableTypes ProtocolTheorems DispatchTheorems.
From stdpp Require Import relations sorting.

(** ** Sessions through the protocol *)
Lemma step_session db db' w row : protocol_step db db' -> workers db !! w = Some row ->
  exists row', workers db' !! w = Some row' /\ session_evolves row row'.
Proof.
  intros Hstep Hw. destruct Hstep; try by exists row.
  - exists row. cbn. rewrite lookup_insert_ne by congruence. by split.
  - cbn. destruct (decide (w0 = w)) as [->|Hne]; [|rewrite lookup_insert_ne by done; by exists row].
    rewrite lookup_insert_eq. simplify_eq. by exists row'.
Qed.
Lemma protocol_session db db' w row : protocol db db' -> workers db !! w = Some row ->
  exists row', workers db' !! w = Some row' /\ session_evolves row row'.
Proof.
  intros Hr. revert row. induction Hr as [db|db1 db2 db3 Hstep _ IH]; intros row Hw; [by exists row|].
  destruct (step_session _ _ _ _ Hstep Hw) as (row2 & Hw2 & H2). destruct (IH _ Hw2) as (row3 & Hw3 & H3).
  exists row3. split; [done|by etrans].
Qed.

(** A session that is not active gets no lease. *)
Definition had_lease (w : string) (db db' : database) : Prop :=
  forall n d', dispatches db' !! n = Some d' -> leased_to w d' = true -> exists d, dispatches db !! n = Some d /\ leased_to w d = true.

Lemma had_lease_store w db n d : (leased_to w d = true -> exists d0, dispatches db !! n = Some d0 /\ leased_to w d0 = true) ->
  forall rs, had_lease w db (set_runs rs (store_dispatch n d db)).
Proof.
  intros H rs n' d'. cbn. intros [[<- <-]|[_ Hd]]%lookup_insert_Some Hl; [by apply H|by exists d'].
Qed.

Lemma step_leases db db' w row : protocol_step db db' -> workers db !! w = Some row -> w_status row ≠ WorkerActive ->
  had_lease w db db'.
Proof.
  intros Hstep Hw Hst. destruct Hstep; unlet; try (intros n' d' Hd' Hl; by exists d').
  - apply had_lease_store. by rewrite leased_pending.
  - apply had_lease_store. by rewrite leased_closed.
  - apply had_lease_store. unfold leased_to. cbn. intros Hl. passed.
    match goal with Hx : Some _ = Some w |- _ => injection Hx as <- end. congruence.
  - refine (had_lease_store w db n (set_leased _ d) _ (runs db)). intros Hl. exists d. split; [done|].
    unfold leased_to in *. cbn in Hl. rewrite H0, H1. exact Hl.
  - apply had_lease_store. by destruct H7 as [[-> _]|[-> _]]; rewrite leased_closed.
  - intros n' d'. cbn. rewrite lookup_fmap. destruct (dispatches db !! n') as [d0|] eqn:E; [|done]. intros [= <-] Hl.
    exists d0. split; [done|]. revert Hl. unfold revoke. by case_match; [rewrite leased_closed|].
Qed.

Lemma inactive_stays row row' : session_evolves row row' -> w_status row ≠ WorkerActive -> w_status row' ≠ WorkerActive.
Proof. intros Hev Hst. pose proof (sv_status _ _ Hev). by destruct (w_status row), (w_status row'). Qed.

Lemma protocol_leases db db' w row : protocol db db' -> workers db !! w = Some row -> w_status row ≠ WorkerActive ->
  had_lease w db db'.
Proof.
  intros Hr. revert row. induction Hr as [db|db1 db2 db3 Hstep _ IH]; intros row Hw Hst; [intros n d ? ?; by exists d|].
  destruct (step_session _ _ _ _ Hstep Hw) as (row2 & Hw2 & Hev). intros n d3 Hd3 Hl3.
  destruct (IH _ Hw2 (inactive_stays _ _ Hev Hst) n d3 Hd3 Hl3) as (d2 & Hd2 & Hl2). by eapply step_leases.
Qed.

(** ** Tokens *)
Lemma base64url_length n : forall l, length l <= n -> length l <= length (base64url l).
Proof.
  induction n as [|n IH]; intros l Hl; [destruct l; cbn in *; lia|]. destruct l as [|a [|b [|c l]]]; cbn [base64url length] in *; [lia..|].
  specialize (IH l). lia.
Qed.
Lemma string_of_list_ascii_length l : String.length (String.string_of_list_ascii l) = length l.
Proof. induction l; cbn; congruence. Qed.
Lemma GenerateToken_nonempty raw bytes token : raw = Ok bytes -> length bytes = tokenBytes -> GenerateToken raw = Ok token -> token ≠ "".
Proof.
  intros -> Hlen [= <-] E. apply (f_equal String.length) in E. unfold string_of_bytes in E.
  rewrite string_of_list_ascii_length, length_fmap in E. cbn in E. pose proof (base64url_length _ bytes (le_n _)). unfold tokenBytes in Hlen. lia.
Qed.

(** ** Registration *)
Section repository.
Context (sha256 : string -> string).
Context (text_le : string -> string -> bool) (leaseDuration workerHeartbeatInterval : duration).
#[local] Abbreviation perform_all := (perform_all sha256 text_le leaseDuration workerHeartbeatInterval).

Definition fills (entropy : nat -> outcome (list N)) : Prop := forall k bytes, entropy k = Ok bytes -> length bytes = tokenBytes.

(** Where a registration succeeds its session is a new row; before, the
    database may have kept rows whose insertion was not acknowledged. *)
Lemma registerLoop_Ok ends entropy clock request retries : fills entropy -> forall k db db' reg,
  registerLoop sha256 ends entropy clock request retries k db = (db', Ok reg) ->
  exists db0 k', let row := new_session sha256 request (SessionToken reg) (clock k') in let w := sum_WorkerID (Summary reg) in
    workers db0 !! w = None /\ worker_values w row = true /\ token_hash_used (w_token_hash row) db0 = false /\
    db' = set_workers (<[w := row]> (workers db0)) db0 /\ Summary reg = summary_of w 0 row /\ SessionToken reg ≠ "".
Proof.
  intros Hfill. induction retries as [|retries IH]; intros k db db' reg H; cbn [registerLoop] in H; [done|].
  unfold mbind, go_bind in H. cbn [lift] in H.
  destruct (GenerateToken (entropy (2 * k))) as [suffix|e| |] eqn:E1; try done.
  destruct (GenerateToken (entropy (2 * k + 1))) as [token|e| |] eqn:E2; try done. cbv zeta in H. unfold lift, result_of in H.
  destruct (transaction _ _ db) as [db1 [u|err| |]] eqn:E3; try done.
  - apply transaction_Ok, insert_worker_inv in E3 as (Hn & Hv & Hu & ->). injection H as <- <-. exists db, k. cbn. split_and!; try done.
    destruct (entropy (2 * k + 1)) as [bytes|e| |] eqn:E; try done. by eapply (GenerateToken_nonempty (Ok bytes)); [|by eapply Hfill|].
  - case_match; [done|by eapply IH].
Qed.

(** ** Authentication *)
Definition known_operation (op : WorkerOperation) : bool := match op with OperationOther _ => false | _ => true end.
Definition session_of (w : string) (row : worker_row) : WorkerSession :=
  mkWorkerSession w (w_protocol_version row) (w_executor_kinds row) (w_max_concurrency row) (w_status row).

(** What the owner of a session may do. *)
Definition admitted (w : string) (row : worker_row) (op : WorkerOperation) : outcome WorkerSession :=
  match w_status row, op with
  | WorkerDraining, OperationClaim => Err ErrWorkerDraining
  | (WorkerOffline | WorkerStopped), _ => Err ErrWorkerSessionInvalid
  | _, _ => Ok (session_of w row)
  end.

Lemma AuthenticateWorker_owner w token op db row :
  workers db !! w = Some row -> w_protocol_version row = ProtocolVersion -> MatchesToken sha256 token (w_token_hash row) = true ->
  known_operation op = true ->
  AuthenticateWorker sha256 Committed w token ProtocolVersion op db = (db, admitted w row op).
Proof.
  intros Hw Hp Hm Hop. unfold AuthenticateWorker. go_step. go_step. rewrite Hw, Hp, Hm. go_step. go_step.
  rewrite (bool_decide_eq_false_2 (op ∉ _)) by (destruct op; [by intros []; repeat constructor..|done]). go_step.
  unfold admitted, session_of. rewrite Hp. by destruct (w_status row), op.
Qed.

Lemma AuthenticateWorker_inv end_ w token v op db db' session :
  AuthenticateWorker sha256 end_ w token v op db = (db', Ok session) ->
  db' = db /\ v = ProtocolVersion /\ known_operation op = true /\ token ≠ "" /\
  exists row, workers db !! w = Some row /\ w_token_hash row = sha256 token /\ admitted w row op = Ok session.
Proof.
  intros H. unfold AuthenticateWorker in H. go_inv.
  match goal with Hx : wrapped _ _ _ = (?d, Ok ?x) |- _ => assert (d = db /\ x = workers db !! w) as [-> ->] end.
  { match goal with Hx : wrapped _ _ _ = _ |- _ => revert Hx end. unfold wrapped, transaction, gets. cbn. by destruct end_; intros [= <- <-]. }
  destruct (workers db !! w) as [row|]; [|done]. go_inv.
  match goal with Hx : negb (MatchesToken _ _ _) = false |- _ => apply negb_false_iff in Hx; unfold MatchesToken, is_empty in Hx end.
  case_match; [done|]. passed. match goal with Hx : ~ ~ _ |- _ => apply dec_stable in Hx end.
  split_and!; [done|done|destruct op; set_solver|done|]. exists row. split_and!; [done|done|].
  unfold admitted, session_of. destruct (w_status row), op; done.
Qed.

(** ** Draining *)
Lemma DrainWorker_inv now w db db' summary : DrainWorker Committed now w db = (db', Ok summary) ->
  exists row, let st := if (count_leases w db =? 0)%Z then WorkerStopped else WorkerDraining in
    let row' := set_worker_status st (if bool_decide (st = WorkerStopped) then Some now else None) row in
    workers db !! w = Some row /\ w_status row ∈ [WorkerActive; WorkerDraining] /\ worker_values w row' = true /\
    db' = set_workers (<[w := row']> (workers db)) db /\ summary = summary_of w (count_leases w db) row'.
Proof.
  intros H%transaction_Ok. go_inv. destruct (workers db !! w) as [row|]; [|done]. cbv zeta in H. go_inv. passed.
  match goal with Hx : ~ ~ _ |- _ => apply dec_stable in Hx end.
  match goal with Hx : update_worker _ _ _ = _ |- _ => apply update_worker_inv in Hx as [Hv ->] end.
  by exists row.
Qed.

Lemma drained_values now w row : worker_values w row = true -> (w_registered_at row <= now)%Z ->
  worker_values w (set_worker_status WorkerStopped (Some now) row) = true.
Proof.
  unfold worker_values. cbn. rewrite !andb_true_iff. intros H Hnow. apply Z.leb_le in Hnow. rewrite Hnow. tauto.
Qed.

Lemma no_leases w db : (forall n d, dispatches db !! n = Some d -> leased_to w d = false) -> count_leases w db = 0%Z.
Proof.
  intros H. unfold count_leases. destruct (dispatch_list _ db) as [|[n d] l] eqn:E; [done|].
  assert ((n, d) ∈ dispatch_list (fun _ => leased_to w) db) as [Hd Hl]%dispatch_list_elem by (rewrite E; by left).
  by rewrite (H n d Hd) in Hl.
Qed.
Lemma leases_none w db n d : count_leases w db = 0%Z -> dispatches db !! n = Some d -> leased_to w d = false.
Proof.
  intros H Hd. apply not_true_is_false. intros Hl. unfold count_leases in H.
  assert (Hin : (n, d) ∈ dispatch_list (fun _ => leased_to w) db) by by apply dispatch_list_elem.
  destruct (dispatch_list _ db); [by apply elem_of_nil in Hin|done].
Qed.

(** C25: A worker that was told to drain gets no new lease, whatever requests come
    later: it cannot claim, the leases it still holds are leases it held when it
    drained, and a worker that was reported stopped holds none.  Once its leases
    are settled, draining again stops it. *)
Theorem drained_worker_idle now w rs db db' summary :
  db_ok db -> DrainWorker Committed now w db = (db', Ok summary) ->
  let later := perform_all rs db' in
  had_lease w db later /\
  (sum_Status summary = WorkerStopped -> count_leases w later = 0%Z) /\
  (forall end_ skipped tokens now' slots db'' leases,
     Claim sha256 text_le leaseDuration end_ skipped tokens now' w slots later ≠ (db'', Ok leases)) /\
  (forall now' row, count_leases w later = 0%Z -> workers later !! w = Some row -> w_status row = WorkerDraining ->
     (w_registered_at row <= now')%Z ->
     exists db'' summary', DrainWorker Committed now' w later = (db'', Ok summary') /\ sum_Status summary' = WorkerStopped).
Proof.
  intros Hok H later. destruct (DrainWorker_inv _ _ _ _ _ H) as (row & Hw & Hst & Hv & Hdb & Hsum). cbv zeta in *.
  assert (Hok' : db_ok db') by (eapply protocol_ok; [exact Hok|by eapply (DrainWorker_refines _ _ _ _ _ _ H)]).
  assert (Hlater : protocol db' later) by by apply perform_all_refines.
  assert (Hd : dispatches db' = dispatches db) by by rewrite Hdb.
  set (row' := set_worker_status _ _ row) in *.
  assert (Hw' : workers db' !! w = Some row') by (rewrite Hdb; apply lookup_insert_eq).
  assert (Hst' : w_status row' ≠ WorkerActive) by (unfold row'; cbn; by case_match).
  assert (Hhad : had_lease w db later) by (intros n d Hn Hl; rewrite <-Hd; by eapply (protocol_leases _ _ _ _ Hlater Hw')).
  destruct (protocol_session _ _ _ _ Hlater Hw') as (row2 & Hw2 & Hev). pose proof (inactive_stays _ _ Hev Hst') as Hst2.
  split_and!; [done| | |].
  - rewrite Hsum. cbn. destruct (count_leases w db =? 0)%Z eqn:E; [|done]. intros _. passed. apply no_leases.
    intros n d Hn. apply not_true_is_false. intros Hl. destruct (Hhad n d Hn Hl) as (d0 & Hd0 & Hl0).
    by rewrite (leases_none _ _ _ _ E Hd0) in Hl0.
  - intros end_ skipped tokens now' slots db'' leases HC. unfold Claim in HC. go_inv. apply transaction_Ok in HC. go_inv.
    rewrite Hw2 in HC. case_bool_decide; [done|]. go_inv. by passed.
  - intros now' row3 Hzero Hw3 Hdrain Hnow. assert (row3 = row2) as -> by congruence. unfold DrainWorker, transaction. go_step. rewrite Hw2.
    rewrite (bool_decide_eq_false_2 (w_status row2 ∉ _)) by (rewrite Hdrain; set_solver). go_step. rewrite Hzero, Z.eqb_refl, (bool_decide_eq_true_2 (WorkerStopped = WorkerStopped)) by done. cbv zeta.
    pose proof (ct_sessions _ (db_constraints _ (perform_all_ok _ _ _ _ rs _ Hok')) _ _ Hw2) as Hv2.
    pose proof (update_worker_run _ _ later (drained_values now' _ _ Hv2 Hnow)) as Hrun. rewrite (bind_run _ _ _ _ _ Hrun). by do 2 eexists.
Qed.

(** ** Registration, refused *)

(** What a worker may register with; container executors are not among it. *)
Definition registrable (request : RegisterRequest) : Prop :=
  reg_ProtocolVersion request = ProtocolVersion /\
  (0 < rune_count (TrimSpace (reg_DisplayName request)) <= maxWorkerDisplayNameRunes)%nat /\
  (0 < reg_MaxConcurrency request <= maxWorkerConcurrency)%Z /\
  (0 < length (reg_ExecutorKinds request) <= maxWorkerExecutorKinds)%nat /\
  Forall (eq ExecutorMock) (reg_ExecutorKinds request).

Lemma normalizeKinds_mock kinds : forall seen, Forall (eq ExecutorMock) seen -> Forall (eq ExecutorMock) kinds ->
  normalizeKinds seen kinds = Ok (if bool_decide (kinds = []) || negb (bool_decide (seen = [])) then [] else [ExecutorMock]).
Proof.
  induction kinds as [|kind kinds IH]; intros seen Hs Hk; [done|]. apply Forall_cons in Hk as [<- Hk]. cbn [normalizeKinds].
  rewrite check_false. destruct seen as [|k seen].
  - rewrite bool_decide_eq_false_2 by (apply not_elem_of_nil). rewrite IH by (by repeat constructor). cbn.
    by rewrite orb_true_r.
  - apply Forall_cons in Hs as [<- Hs]. rewrite bool_decide_eq_true_2 by (by left). rewrite IH by (by repeat constructor). cbn.
    by rewrite orb_true_r.
Qed.
Lemma normalizeKinds_other kinds : forall seen, ~ Forall (eq ExecutorMock) kinds -> normalizeKinds seen kinds = Err ErrInvalidWorkerRegistration.
Proof.
  induction kinds as [|kind kinds IH]; intros seen Hk; [by destruct Hk|]. cbn [normalizeKinds].
  destruct (decide (kind = ExecutorMock)) as [->|Hne]; [|by rewrite bool_decide_eq_true_2].
  rewrite bool_decide_eq_false_2 by auto. rewrite check_false. assert (Hk' : ~ Forall (eq ExecutorMock) kinds) by (intros ?; apply Hk; by constructor).
  case_match; [by apply IH|by rewrite IH].
Qed.

Lemma rune_count_empty s : is_empty s = (rune_count s =? 0)%nat.
Proof. unfold is_empty, rune_count, runes. destruct s as [|c s]; [done|].
  change (bytes_of (String c s)) with (Ascii.N_of_ascii c :: bytes_of s). cbn [String.length runes_fuel]. by destruct (decode_rune _) as [[r n] ok]. Qed.

Lemma normalizeWorkerRegistration_spec request :
  (registrable request -> normalizeWorkerRegistration request =
     Ok (mkRegister (TrimSpace (reg_DisplayName request)) ProtocolVersion [ExecutorMock] (reg_MaxConcurrency request))) /\
  (~ registrable request -> exists e, normalizeWorkerRegistration request = Err e /\
     (e = ErrInvalidWorkerRegistration \/ e = ErrWorkerProtocolUnsupported)).
Proof.
  unfold normalizeWorkerRegistration, registrable. cbv zeta. rewrite rune_count_empty. set (name := TrimSpace _).
  split.
  - intros (Hp & Hn & Hm & Hk & Hmock). pass_check by (by apply differs_false).
    pass_check by (apply orb_false_iff; split; [apply Nat.eqb_neq|apply Nat.ltb_ge]; lia).
    pass_check by (apply orb_false_iff; split; [apply Z.leb_gt|apply Z.ltb_ge]; lia).
    pass_check by (apply orb_false_iff; split; [apply bool_decide_eq_false_2; intros E; rewrite E in Hk; cbn in Hk; lia|apply Nat.ltb_ge; lia]).
    rewrite normalizeKinds_mock by (done || constructor). rewrite (bool_decide_eq_false_2 (reg_ExecutorKinds request = [])); [by rewrite Hp|].
    intros E. rewrite E in Hk. cbn in Hk. lia.
  - intros Hno. unfold check. repeat (case_match; [by eauto|]). passed. rewrite normalizeKinds_other; [by eauto|].
    intros Hmock. apply Hno.
    repeat match goal with Hx : (_ =? _)%nat = false |- _ => apply Nat.eqb_neq in Hx | Hx : (_ <? _)%nat = false |- _ => apply Nat.ltb_ge in Hx end.
    assert (0 < length (reg_ExecutorKinds request)) by (by destruct (reg_ExecutorKinds request); [|apply Nat.lt_0_succ]).
    split_and!; try done; lia.
Qed.

(** A registration succeeds exactly within the limits of the protocol. *)
Theorem RegisterWorker_correct ends entropy clock request suffix token db :
  (forall s, String.length (sha256 s) = 32) ->
  (registrable request -> pg_text (TrimSpace (reg_DisplayName request)) = true ->
   ends 0 = Committed -> GenerateToken (entropy 0) = Ok suffix -> GenerateToken (entropy 1) = Ok token ->
   let w := ("wrk_" ++ suffix)%string in
   let row := mkWorker (TrimSpace (reg_DisplayName request)) ProtocolVersion [ExecutorMock] (reg_MaxConcurrency request)
                WorkerActive (sha256 token) (clock 0) (clock 0) None in
   (String.length w <= 128)%nat -> workers db !! w = None -> token_hash_used (sha256 token) db = false ->
   RegisterWorker sha256 ends entropy clock request db =
     (set_workers (<[w := row]> (workers db)) db, Ok (mkRegistration (summary_of w 0 row) token))) /\
  (~ registrable request -> exists e, RegisterWorker sha256 ends entropy clock request db = (db, Err e) /\
     (e = ErrInvalidWorkerRegistration \/ e = ErrWorkerProtocolUnsupported)).
Proof.
  intros Hsha. destruct (normalizeWorkerRegistration_spec request) as [Hgood Hbad]. split.
  - intros Hr Htext Hend Hs Ht w row Hlen Hw Hu. unfold RegisterWorker. rewrite (Hgood Hr). go_step.
    change workerRegistrationRetries with 3%nat. cbn [registerLoop]. change (2 * 0 + 1) with 1. change (2 * 0) with 0. rewrite Hs, Ht. go_step. go_step. cbv zeta. rewrite Hend.
    assert (Hv : worker_values w row = true).
    { destruct Hr as (_ & Hn & Hm & _ & _). unfold worker_values, maxWorkerConcurrency, maxWorkerDisplayNameRunes in *. cbn [w_display_name w_protocol_version w_executor_kinds w_max_concurrency w_token_hash w_registered_at w_last_heartbeat_at w_stopped_at w_status row length].
      rewrite Htext, Hsha, !andb_true_iff, !Nat.leb_le, !Z.leb_le. split_and!; try done; try lia; by apply le_n_S, Nat.le_0_l. }
    assert (Hins : insert_worker w row db = (set_workers (<[w := row]> (workers db)) db, Ok tt)).
    { unfold insert_worker. go_step. rewrite Hv. go_step. rewrite Hw. go_step. change (w_token_hash row) with (sha256 token). by rewrite Hu. }
    unfold result_of, transaction, mbind, go_bind. change (insert_worker _ _ db) with (insert_worker w row db). by rewrite Hins.
  - intros Hr. destruct (Hbad Hr) as (e & He & Hcase). exists e. split; [|done]. unfold RegisterWorker. unfold mbind, go_bind, lift. by rewrite He.
Qed.

(** A worker with the docker or the kubernetes runtime registers for [mock] and
    [container] tasks; it is refused. *)
Theorem container_worker_refused ends entropy clock request db :
  ExecutorContainer ∈ reg_ExecutorKinds request ->
  exists e, RegisterWorker sha256 ends entropy clock request db = (db, Err e) /\
    (e = ErrInvalidWorkerRegistration \/ e = ErrWorkerProtocolUnsupported).
Proof.
  intros Hc. destruct (proj2 (normalizeWorkerRegistration_spec request)) as (e & He & Hcase).
  { intros (_ & _ & _ & _ & Hmock). rewrite Forall_forall in Hmock. by specialize (Hmock _ Hc). }
  exists e. split; [|done]. unfold RegisterWorker. unfold mbind, go_bind, lift. by rewrite He.
Qed.
End repository.

(** ** The theorems at sample inputs *)
Definition sample_entropy (k : nat) : outcome (list N) := Ok (repeat (N.of_nat k) 32).
Definition sample_request : RegisterRequest := mkRegister "  second worker " 1 [ExecutorMock; ExecutorMock] 4.
Definition sample_register : go database Registration :=
  RegisterWorker sample_sha256 (fun _ => Committed) sample_entropy (fun _ => 1500%Z) sample_request.
Definition registered_db : database := (sample_register sample_db).1.
Definition sample_id : string := "wrk_AAAAAAAAAAAAAAAAAAAAAAAAAAAAAAAAAAAAAAAAAAA".
Definition sample_token : string := "AQEBAQEBAQEBAQEBAQEBAQEBAQEBAQEBAQEBAQEBAQE".
Definition sample_registration : Registration :=
  mkRegistration (mkWorkerSummary sample_id "second worker" 1 [ExecutorMock] 4 WorkerActive 0 1500 1500 None) sample_token.

Lemma sample_registered : sample_register sample_db = (registered_db, Ok sample_registration).
Proof. unfold registered_db. apply run_pair. vm_compute. reflexivity. Qed.


Definition drained_db : database := (DrainWorker Committed 3500 "w1" leased_db).1.
Lemma drained_worker_idle_witness :
  count_leases "w1" leased_db = 1%Z /\
  let later := sample_all [DoReapExpired Committed no_lock (fun _ => 100000000000) 100000000000 10;
                           DoCreateDispatches Committed no_lock (sample_tokens "e") 100000000000 10]%Z drained_db in
  had_lease "w1" leased_db later /\
  forall db'' leases, Claim sample_sha256 sample_text_le defaultLeaseDuration Committed no_lock (sample_tokens "u") 100000000001 "w1" 1 later
    ≠ (db'', Ok leases).
Proof.
  split; [by vm_compute|]. intros later.
  assert (H : exists summary, DrainWorker Committed 3500 "w1" leased_db = (drained_db, Ok summary)).
  { eexists. unfold drained_db. apply run_pair. vm_compute. reflexivity. }
  destruct H as [summary H].
  destruct (drained_worker_idle sample_sha256 sample_text_le defaultLeaseDuration defaultWorkerHeartbeatInterval 3500 "w1"
    [DoReapExpired Committed no_lock (fun _ => 100000000000) 100000000000 10; DoCreateDispatches Committed no_lock (sample_tokens "e") 100000000000 10]%Z
    leased_db drained_db summary leased_db_ok H) as (Hhad & _ & Hclaim & _).
  split; [exact Hhad|]. intros db'' leases. apply Hclaim.
Defined.
