(* ===== verification/WorkerApiTheorems.v ===== *)
(** * What a request to the workers' interface can do

    It follows the dispatch protocol; it changes the tables only with the
    credentials of a session, or with the bootstrap token to open one; and a
    session touches nothing that belongs to another worker. *)
From S2P Require Import Prelude Hoare GoStrings Json CanonicalJson Model State Compiler ChangeSet Stores Database Dispatch Workers Encoding EncodingFacts CursorFacts Preserves DatabaseFacts DispatchSteps DispatchInvariant Protocol Refinement DispatchTheorems WorkerTheorems WorkerApi.
From stdpp Require Import relations.

(** ** What belongs to other workers *)
Record others_kept (w : string) (db db' : database) : Prop := {
  ok_leases : forall n d l, dispatches db !! n = Some d -> d_status d ≠ DispatchPending -> d_lease d = Some l -> le_worker l ≠ w ->
    dispatches db' !! n = Some d;
  ok_sessions : forall v, v ≠ w -> workers db' !! v = workers db !! v;
}.
#[export] Instance others_kept_preorder w : PreOrder (others_kept w).
Proof.
  split; [done|]. intros db1 db2 db3 [H1 H2] [H3 H4]. split.
  - intros n d l Hd Hs Hl Hw. eapply H3; [by eapply H1|done..].
  - intros v Hv. by rewrite H4, H2.
Qed.
Lemma runs_only_others w db db' : runs_only db db' -> others_kept w db db'.
Proof. intros [Hd Hw]. split; [by rewrite Hd|by rewrite Hw]. Qed.
Lemma save_changes_others w s s' : preserves (others_kept w) (save_changes s s').
Proof. intros db db' u H%save_changes_only. by apply runs_only_others. Qed.
Lemma loadSnapshot_others w id : preserves (others_kept w) (loadSnapshot id).
Proof. unfold loadSnapshot. keep. Qed.
(** Only the row of dispatch [n] is written. *)
Definition row_only (n : string) (db db' : database) : Prop :=
  (forall m, m ≠ n -> dispatches db' !! m = dispatches db !! m) /\ workers db' = workers db.
#[export] Instance row_only_preorder n : PreOrder (row_only n).
Proof. split; [done|]. intros db1 db2 db3 [H1 H2] [H3 H4]. split; [intros m Hm; by rewrite H3, H1|congruence]. Qed.
Lemma save_changes_row n s s' : preserves (row_only n) (save_changes s s').
Proof. intros db db' u [Hd Hw]%save_changes_only. split; [by rewrite Hd|done]. Qed.
Lemma loadSnapshot_row n id : preserves (row_only n) (loadSnapshot id).
Proof. unfold loadSnapshot. keep. Qed.
Lemma update_dispatch_row n st f e : preserves (row_only n) (update_dispatch n st f e).
Proof. intros db db' [] (d & _ & _ & _ & ->)%update_dispatch_inv. split; [intros m Hm; by apply lookup_insert_ne|done]. Qed.
Lemma pending_others w n f e : preserves (others_kept w) (update_dispatch n DispatchPending f e).
Proof.
  intros db db' [] (d & Hd & Hp & _ & ->)%update_dispatch_inv. split; [|done]. intros m d' l Hd' Hs Hl Hw. cbn.
  rewrite lookup_insert_ne; [done|]. intros ->. rewrite Hd in Hd'. by injection Hd' as ->.
Qed.
#[local] Hint Resolve save_changes_others loadSnapshot_others save_changes_row loadSnapshot_row update_dispatch_row pending_others : keeps.

Section repository.
Context (sha256 : string -> string) (text_le : string -> string -> bool) (repositoryLease : duration).

Lemma claimLoop_others tokens now w items : forall n, preserves (others_kept w) (claimLoop sha256 repositoryLease tokens n now w items).
Proof. induction items as [|item items IH]; intros; cbn [claimLoop]; unfold claimOne; keep. Qed.
Lemma Claim_others end_ skipped tokens now w slots : always (others_kept w) (Claim sha256 text_le repositoryLease end_ skipped tokens now w slots).
Proof. pose proof claimLoop_others. apply always_fail_if; [apply _|]. intros _. apply always_transaction; [apply _|]. keep. Qed.

Lemma heartbeatLease_others now w ref : preserves (others_kept w) (heartbeatLease sha256 repositoryLease now w ref).
Proof.
  intros db db' item [_ ->]%heartbeatLease_effect. split; [|done]. intros n d l Hd Hs Hl Hw. cbn. rewrite map_lookup_imap, Hd. cbn. f_equal.
  unfold heard, owner. cbn. rewrite Hl, (bool_decide_eq_false_2 (le_worker l = w)) by done. by rewrite andb_false_l, andb_false_r.
Qed.
Lemma heartbeatLeases_others now w refs : preserves (others_kept w) (heartbeatLeases sha256 repositoryLease now w refs).
Proof. pose proof heartbeatLease_others. induction refs; cbn [heartbeatLeases]; keep. Qed.
Lemma Heartbeat_others end_ now w refs : always (others_kept w) (Heartbeat sha256 repositoryLease end_ now w refs).
Proof.
  apply always_transaction; [apply _|]. intros db db' l H. go_inv. destruct (workers db !! w) as [row|]; [|done]. go_inv.
  apply heartbeatLeases_others in H. etrans; [|exact H]. split; [done|]. intros v Hv. by apply lookup_insert_ne.
Qed.

Lemma completeLeased_row_only now w n hash result d l : preserves (row_only n) (completeLeased now w n hash result d l).
Proof. unfold completeLeased. keep. Qed.
Lemma Complete_others end_ now w n token result : always (others_kept w) (Complete sha256 end_ now w n token result).
Proof.
  apply always_lift; [apply _|]. intros hash _. apply always_transaction; [apply _|]. intros db db' b H. go_inv.
  destruct (dispatches db !! n) as [d|] eqn:Hd; [|done]. go_inv. destruct (d_lease d) as [l|] eqn:Hl; [|done]. go_inv. passed.
  case_bool_decide; go_inv; [done|]. match goal with Hx : completeLeased _ _ _ _ _ _ _ _ = _ |- _ => apply completeLeased_row_only in Hx as [Hrows Hws] end.
  split; [|by rewrite Hws]. intros m d' l' Hd' Hs Hl' Hw. rewrite Hrows; [done|]. intros ->. rewrite Hd in Hd'. injection Hd' as <-. rewrite Hl in Hl'. by injection Hl' as <-.
Qed.
Lemma DrainWorker_others end_ now w : always (others_kept w) (DrainWorker end_ now w).
Proof.
  apply always_transaction; [apply _|]. intros db db' r H. go_inv. destruct (workers db !! w) as [row|]; [|done]. cbv zeta in H. go_inv.
  match goal with Hx : update_worker _ _ _ = _ |- _ => apply update_worker_inv in Hx as [_ ->] end. split; [done|]. intros v Hv. by apply lookup_insert_ne.
Qed.

(** ** Opening a session *)
Definition session_added (db db' : database) : Prop :=
  dispatches db' = dispatches db /\ runs db' = runs db /\ forall v row, workers db !! v = Some row -> workers db' !! v = Some row.
#[local] Instance session_added_preorder : PreOrder session_added.
Proof. split; [done|]. intros db1 db2 db3 (H1 & H2 & H3) (H4 & H5 & H6). split_and!; [congruence|congruence|auto]. Qed.
Lemma RegisterWorker_added ends entropy clock request : always session_added (RegisterWorker sha256 ends entropy clock request).
Proof.
  apply RegisterWorker_always; [apply _|]. intros w row _ db db' u (Hn & _ & _ & ->)%insert_worker_inv. split_and!; [done|done|].
  intros v row' Hv. cbn. rewrite lookup_insert_ne; [done|]. intros ->. by rewrite Hn in Hv.
Qed.
Lemma AuthenticateWorker_same end_ w token v op : always eq (AuthenticateWorker sha256 end_ w token v op).
Proof.
  apply always_fail_if; [apply _|]. intros _ db db' r. unfold mbind at 1, go_bind at 1.
  destruct (wrapped _ _ db) as [db1 out] eqn:E. assert (Hdb1 : db1 = db) by (revert E; unfold wrapped, transaction, gets; by destruct end_; intros [= <- _]).
  subst db1. clear E. destruct out as [row|e| |]; [|by intros [= <- _]..]. revert db db' r.
  match goal with |- forall db db' r, ?m db = (db', r) -> _ => change (always eq m) end.
  destruct row as [row|]; [|by intros db db' r [= <- _]]. repeat (apply always_fail_if; [apply _|]; intros _). by intros db db' r [= <- _].
Qed.

(** ** Requests *)
Section server.
Context (server : Server) (ch : choices).
#[local] Abbreviation Handle := (Handle sha256 text_le repositoryLease server ch).

Lemma serve_tables {A} R `{!PreOrder R} (m : go database A) status wake k db db' woken ans :
  always R m -> serve m status wake k db = (db', woken, ans) -> R db db'.
Proof.
  intros Hm H. unfold serve, refuse in H. destruct (m db) as [db1 out] eqn:E. pose proof (Hm _ _ _ E). by destruct out; simplify_eq.
Qed.
Lemma with_body_tables {A} R `{!PreOrder R} (body : outcome A) k db db' woken ans :
  (forall a db' woken ans, k a db = (db', woken, ans) -> R db db') -> with_body body k db = (db', woken, ans) -> R db db'.
Proof. intros Hk H. unfold with_body, refuse in H. destruct body; simplify_eq; try done. by eapply Hk. Qed.

(** What an operation of a session does to the tables, under any relation that
    each repository call keeps. *)
Lemma operation_tables R `{!PreOrder R} w op n body db db' woken ans :
  (forall end_ skipped tokens now slots, always R (Claim sha256 text_le repositoryLease end_ skipped tokens now w slots)) ->
  (forall end_ now refs, always R (Heartbeat sha256 repositoryLease end_ now w refs)) ->
  (forall end_ now token result, always R (Complete sha256 end_ now w n token result)) ->
  (forall end_ now, always R (DrainWorker end_ now w)) ->
  handle_operation sha256 text_le repositoryLease ch op w n body db = (db', woken, ans) -> R db db'.
Proof.
  intros Hc Hh Hr Hd H. destruct op; cbn [handle_operation] in H; [| | | |by injection H as <- _ _]; (eapply (with_body_tables R); [|exact H]); cbv beta.
  - intros slots db1 woken1 ans1. by apply serve_tables.
  - intros refs db1 woken1 ans1. by apply serve_tables.
  - intros [token result] db1 woken1 ans1. by apply serve_tables.
  - intros _ db1 woken1 ans1. by apply serve_tables.
Qed.

(** The ways a request is handled. *)
Inductive handling (request : http_request) (db : database) (result : handled) : Prop :=
| Unchanged : result.1.1 = db -> handling request db result
| Registers body : matchesBootstrapToken (srv_bootstrapToken server) (rq_authorization request) = true -> RequiresWorkerCredentials (rq_path request) = true ->
    (forall R `{!PreOrder R}, always R (RegisterWorker sha256 (ch_ends ch) (ch_entropy ch) (ch_clock ch) body) -> R db result.1.1) -> handling request db result
| Operates w token version op n : ParseBearerToken (rq_authorization request) = Ok token -> RequiresWorkerCredentials (rq_path request) = true ->
    (exists session, AuthenticateWorker sha256 (ch_auth ch) w token version op db = (db, Ok session)) ->
    handle_operation sha256 text_le repositoryLease ch op w n (rq_body request) db = result -> handling request db result.
Lemma Handle_handling request db : handling request db (Handle request db).
Proof.
  unfold WorkerApi.Handle. destruct (negb (Matches _)) eqn:Hm; [by apply Unchanged|]. set (parts := splitPath (rq_path request)).
  destruct (bool_decide (length parts = 4) && _) eqn:E4.
  { apply andb_true_iff in E4 as [H4%bool_decide_eq_true Hreg].
    unfold handle_register. destruct (bool_decide (_ ≠ _)); [by apply Unchanged|]. destruct (matchesBootstrapToken _ _) eqn:Hb; [|by apply Unchanged]. cbn [negb].
    unfold with_body. destruct (as_register (rq_body request)) as [body|e| |] eqn:Ebody; [|by apply Unchanged..].
    apply (Registers _ _ _ body); [done|unfold RequiresWorkerCredentials; fold parts; by rewrite H4, Hreg|].
    intros R HR Halways. destruct (serve _ _ _ _ db) as [[db' woken] ans] eqn:E. by eapply serve_tables. }
  destruct (bool_decide (length parts = 3)).
  { apply Unchanged. unfold handle_list. destruct (bool_decide (_ ≠ _)); [done|]. destruct (pageLimit (rq_limit request)), (worker_decodeCursor (rq_cursor request)); try done.
    destruct (serve _ _ _ _ db) as [[db' woken] ans] eqn:E. symmetry. eapply (serve_tables eq); [|exact E]. intros db1 db2 r. unfold ListWorkerSummaries.
    unfold mbind, go_bind, fail_if, gets. destruct (_ || _); cbn; by inversion 1. }
  destruct (PathUnescape (default "" (parts !! 3))) as [w|]; [|by apply Unchanged]. destruct (is_empty (TrimSpace w)); [by apply Unchanged|]. destruct (bool_decide (length parts = 4)).
  { destruct (bool_decide (_ ≠ _)); [by apply Unchanged|]. apply Unchanged. destruct (serve _ _ _ _ db) as [[db' woken] ans] eqn:E. symmetry. eapply (serve_tables eq); [|exact E].
    intros db1 db2 r. unfold GetWorkerSummary, mbind, go_bind, gets. cbn [fst snd]. case_match; by inversion 1. }
  unfold handle_session. destruct (bool_decide (_ ≠ _)); [by apply Unchanged|]. destruct (workerOperation parts) as [[op n]|] eqn:Eop; [|by apply Unchanged].
  destruct (requestProtocolVersion (rq_protocol request)) as [version|e| |]; [|by apply Unchanged..]. destruct (ParseBearerToken (rq_authorization request)) as [token|e| |] eqn:Et; [|by apply Unchanged..].
  unfold session_call. destruct (AuthenticateWorker _ _ _ _ _ _ db) as [db1 [session|e| |]] eqn:Ea; pose proof (AuthenticateWorker_same _ _ _ _ _ _ _ _ Ea) as <-; [|by apply Unchanged..].
  eapply Operates; [exact Et| |by eexists|done]. unfold RequiresWorkerCredentials. fold parts. apply orb_true_iff. right. apply Nat.leb_le.
  destruct parts as [|? [|? [|? [|? [|? ?]]]]]; cbn in *; try done; lia.
Qed.

(** A request follows the dispatch protocol.  It changes nothing, or carries the
    bootstrap token and opens a session, or carries the token of a session and
    leaves what other workers hold and their sessions alone; the routes that
    the control plane guards with viewer credentials change nothing. *)
Theorem worker_isolation request db db' woken ans :
  db_ok db -> Handle request db = (db', woken, ans) ->
  protocol db db' /\ (RequiresWorkerCredentials (rq_path request) = false -> db' = db) /\
  (db' = db \/
   matchesBootstrapToken (srv_bootstrapToken server) (rq_authorization request) = true /\ session_added db db' \/
   exists w token row, ParseBearerToken (rq_authorization request) = Ok token /\ workers db !! w = Some row /\
     w_token_hash row = sha256 token /\ w_status row ≠ WorkerStopped /\ w_status row ≠ WorkerOffline /\ others_kept w db db').
Proof.
  intros Hok H. pose proof (Handle_handling request db) as Hh. rewrite H in Hh.
  destruct Hh as [E|body Hb Hc Htables|w token version op n Htok Hc [session Hauth] Hop]; cbn in *.
  - rewrite E. split_and!; [apply rtc_refl|done|by left].
  - split_and!; [|by rewrite Hc|right; left; split; [done|]].
    + apply (Htables implemented _); [by apply RegisterWorker_refines|done].
    + apply (Htables session_added _), RegisterWorker_added.
  - apply (AuthenticateWorker_inv _ text_le) in Hauth as (_ & _ & _ & _ & row & Hw & Hhash & Hadm). split_and!; [|by rewrite Hc|right; right].
    + eapply (operation_tables implemented); [..|exact Hop|exact Hok]; intros; [by apply Claim_refines|by apply Heartbeat_refines|by apply Complete_refines|by apply DrainWorker_refines].
    + exists w, token, row. split_and!; [done..| | |].
      * intros E. unfold admitted in Hadm. by rewrite E in Hadm.
      * intros E. unfold admitted in Hadm. by rewrite E in Hadm.
      * eapply (operation_tables (others_kept w)); [..|exact Hop]; intros; [apply Claim_others|apply Heartbeat_others|apply Complete_others|apply DrainWorker_others].
Qed.
End server.
End repository.

(** ** Worker cursors *)
Lemma worker_cursor_roundtrip w : w ≠ "" -> worker_decodeCursor (worker_encodeCursor w) = Ok w.
Proof.
  intros Hw. assert (Hb : bytes_of w ≠ []) by (intros E; apply Hw; by rewrite <-(string_of_bytes_of w), E).
  assert (Hne : string_of_bytes (base64url (bytes_of w)) ≠ "").
  { intros E. apply (f_equal String.length) in E. rewrite string_of_bytes_length in E. by apply nil_length_inv, base64url_empty in E. }
  unfold worker_decodeCursor, worker_encodeCursor, is_empty. rewrite bool_decide_eq_false_2 by done.
  rewrite bytes_of_string, base64url_roundtrip by (try apply base64url_bytes; apply bytes_of_bytes).
  destruct (bytes_of w) as [|b l] eqn:E; [done|]. by rewrite <-E, string_of_bytes_of.
Qed.

(** ** Examples *)
Definition sample_server : Server := mkServer "bootstrap" 5000000000 15000000000.
Definition sample_choices : choices :=
  mkChoices Committed Committed (fun _ => Committed) (fun _ => Err (Errorf "no entropy")) (fun _ => 3000%Z) no_lock (sample_tokens "t").
Definition no_body {A} : outcome A := Err (Errorf "EOF").
Definition claim_request (token : string) : http_request :=
  mkHttpRequest "POST" "/api/v1/workers/w1/claims" (String.append "Bearer " token) "1" "" "" (mkBodies no_body (Ok 1%Z) no_body no_body no_body).
Abbreviation sample_Handle := (Handle sample_sha256 sample_text_le defaultLeaseDuration sample_server sample_choices).
Example claim_answered : exists db' leases, sample_Handle (claim_request "session") pending_db = (db', false, Answered 200 (PLeases leases)) /\
  cl_token <$> leases = ["t0"].
Proof. eexists _, _. split; [by vm_compute|]. done. Qed.
Example claim_unauthorized : exists e, sample_Handle (claim_request "other") pending_db = (pending_db, false, Refused e) /\
  api_Status e = 401%Z /\ api_Code e = "worker_session_invalid".
Proof. eexists. split; [by vm_compute|]. done. Qed.
Lemma worker_isolation_witness : exists db' leases, sample_Handle (claim_request "session") pending_db = (db', false, Answered 200 (PLeases leases)) /\
  length leases = 1 /\ (db' ≠ pending_db) /\
  exists w token row, ParseBearerToken "Bearer session" = Ok token /\ workers pending_db !! w = Some row /\
     w_token_hash row = sample_sha256 token /\ w_status row ≠ WorkerStopped /\ w_status row ≠ WorkerOffline /\ others_kept w pending_db db'.
Proof.
  set (result := sample_Handle (claim_request "session") pending_db).
  assert (H : result = (result.1.1, false, Answered 200 (PLeases (match result.2 with Answered _ (PLeases leases) => leases | _ => [] end)))) by (by vm_compute).
  assert (Hne : result.1.1 ≠ pending_db).
  { intros E. apply (f_equal (fun db => d_status <$> dispatches db !! "dsp_d0")) in E. vm_compute in E. discriminate E. }
  assert (Hb : matchesBootstrapToken "bootstrap" "Bearer session" = false) by (by vm_compute).
  exists result.1.1, (match result.2 with Answered _ (PLeases leases) => leases | _ => [] end).
  destruct (worker_isolation _ _ _ _ _ _ _ _ _ _ pending_db_ok H) as (_ & _ & [E|[[Hboot _]|Hsession]]).
  - by destruct Hne.
  - change (matchesBootstrapToken "bootstrap" "Bearer session" = true) in Hboot. by rewrite Hb in Hboot.
  - split; [exact H|]. split; [by vm_compute|]. split; [exact Hne|exact Hsession].
Defined.
