(* ===== verification/WorkerRuntime.v ===== *)
(** * The worker process

    src/internal/workerruntime/runtime.go: a session claims tasks while it has
    free slots, executes each under its lease, renews the leases, delivers the
    results and drains when it is told to stop.  The state holds the three kinds
    of goroutines (the main loop, the heartbeat loop, one goroutine with a timer
    per lease); an event is one critical section, one return of a call, a timer,
    or a request reaching the control plane.  [now] is the time that all timers
    and the database share, [wall] the worker's clock; the executors' results
    are arguments of the events. *)
From S2P Require Import Prelude GoStrings Json Model State ChangeSet Stores Database Dispatch Workers Refinement WorkerApi.

(** ** Options *)
Record Options := mkOptions {
  o_BootstrapToken : string;
  o_Registration : RegisterRequest;
  o_PollMin : duration;
  o_PollMax : duration;
  o_HeartbeatInterval : duration;
  o_RetryInterval : duration;
  o_SafetyMargin : duration;
  o_ShutdownTimeout : duration;
  (** [Executors]: whether an executor is there for a kind, or a nil *)
  o_Executors : list (ExecutorKind * bool);
}.
Record Runtime := mkRuntime { r_executor : bool; r_executors : list ExecutorKind; r_options : Options }.
Definition NewRuntime (client executor : bool) (options : Options) : outcome Runtime :=
  check (negb client || negb executor && bool_decide (o_Executors options = [])) (Errorf "Worker client and executor are required") $
  check (is_empty (o_BootstrapToken options)) (Errorf "Worker bootstrap token is required") $
  check (bool_decide (reg_ProtocolVersion (o_Registration options) ≠ ProtocolVersion)) (Errorf "unsupported Worker protocol version") $
  check (reg_MaxConcurrency (o_Registration options) <=? 0)%Z (Errorf "Worker max concurrency must be positive") $
  check ((o_PollMin options <=? 0) || (o_PollMax options <? o_PollMin options))%Z (Errorf "invalid Worker poll interval range") $
  check ((o_HeartbeatInterval options <=? 0) || (o_RetryInterval options <=? 0))%Z (Errorf "Worker heartbeat and retry intervals must be positive") $
  check ((o_SafetyMargin options <? 0) || (o_ShutdownTimeout options <=? 0))%Z (Errorf "invalid Worker shutdown timing") $
  let given := fst <$> filter (fun p => p.2 = true) (o_Executors options) in
  Ok (mkRuntime executor (if executor && bool_decide (ExecutorMock ∉ given) then ExecutorMock :: given else given) options).
Definition executorFor (r : Runtime) (kind : ExecutorKind) : bool :=
  bool_decide (kind ∈ r_executors r) || bool_decide (kind = ExecutorMock) && r_executor r.

(** ** Delays *)
Definition nextPollDelay (current minimum maximum : duration) : duration :=
  if (current <=? 0)%Z then minimum
  else if (maximum ÷ 2 <? current)%Z then maximum
  else let next := wrap64 (current * 2) in if (maximum <? next)%Z then maximum else next.
(** [time.Until(deadline)] by the worker's clock. *)
Definition localSafetyDelay (wall : time) (lease : Lease) (margin : duration) : duration :=
  let deadline := if before (cl_expires_at lease) (cl_deadline lease) then cl_expires_at lease else cl_deadline lease in
  wrap64 (time_sub deadline wall - margin).

(** ** Replies *)
Inductive reply (A : Type) : Type := Reply (a : A) | ApiFailure (status : Z) (code : string) | TransportFailure.
Arguments Reply {A} a. Arguments ApiFailure {A} status code. Arguments TransportFailure {A}.
(** The answer is read, unless it gets lost on its way. *)
Definition reply_of {A} (lost : bool) (read : payload -> option A) (ans : answer) : reply A :=
  if lost then TransportFailure else match ans with
  | Answered _ p => match read p with Some a => Reply a | None => TransportFailure end
  | Refused e => ApiFailure (api_Status e) (api_Code e)
  | Broken => TransportFailure
  end.
Definition isPermanentSessionError {A} (r : reply A) : bool :=
  match r with
  | ApiFailure status code => (status =? 401)%Z || bool_decide (code = "worker_session_invalid") || bool_decide (code = "worker_protocol_unsupported")
  | _ => false
  end.
Definition failed {A} (r : reply A) : bool := match r with Reply _ => false | _ => true end.

(** ** State *)

(** The goroutine of a lease: before its executor, in it, in [submitWithRetry]
    (about to send, sent, answered, waiting), and before its deferred calls. *)
Inductive work_at : Type :=
| Starting
| Executing
| Submitting (r : ExecutionResponse)
| Sent (r : ExecutionResponse)
| Served (r : ExecutionResponse) (answer : reply bool)
| Retrying (r : ExecutionResponse)
| Leaving.
(** [enforceLocalSafetyDeadline]: not started, before its first delay, until the
    timer fires, ended. *)
Inductive timer_at : Type := TimerNone | TimerStarting | TimerArmed (fires : time) | TimerOff.
Record activeLease := mkActive {
  al_lease : Lease;
  al_canceled : bool;
  al_renew : option duration;
  al_timer : timer_at;
  al_work : work_at;
}.

Inductive main_at : Type :=
| Registering
| LoopTop
| Claiming (slots : Z)
| Claimed (answer : reply (list Lease))
| StartingLeases (leases : list Lease)
| Waiting
| LoopLeft
| Aborting (heartbeatFinished : bool)
| Draining
| Drained (answer : reply WorkerStatus)
| Settling (stopped : bool) (failure : bool)
| WaitingLeases (stopped : bool) (failure : bool)
| FinalDraining (failure : bool)
| FinalDrained (failure : bool) (answer : reply WorkerStatus)
| Stopping (failure : bool)
| Returned (failure : bool).
(** [Failing k]: the error was sent, then [stopPolling] and [stop] are called. *)
Inductive heartbeat_at : Type :=
| HeartbeatOff
| Idle
| Beating (refs : list LeaseRef)
| Beaten (answer : reply (list LeaseHeartbeat))
| Applying (leases : list LeaseHeartbeat)
| Failing (polling : bool)
| HeartbeatDone (failure : bool).

Record process := mkProcess {
  p_session : string * string;
  p_main : main_at;
  p_heartbeat : heartbeat_at;
  (** the goroutines, by a number, and [leaseState.active] *)
  p_leases : gmap nat activeLease;
  p_next : nat;
  p_active : gmap string nat;
  p_wg : Z;
  p_capacity : bool;
  p_pollDelay : duration;
  (** the contexts that were cancelled: the parent, [pollCtx], [runCtx], [drainCtx] *)
  p_ctx : bool;
  p_poll : bool;
  p_stop : bool;
  p_drain : bool;
}.
Section updates.
Context (p : process).
Definition at_main (m : main_at) : process :=
  mkProcess (p_session p) m (p_heartbeat p) (p_leases p) (p_next p) (p_active p) (p_wg p) (p_capacity p) (p_pollDelay p) (p_ctx p) (p_poll p) (p_stop p) (p_drain p).
Definition at_heartbeat (h : heartbeat_at) : process :=
  mkProcess (p_session p) (p_main p) h (p_leases p) (p_next p) (p_active p) (p_wg p) (p_capacity p) (p_pollDelay p) (p_ctx p) (p_poll p) (p_stop p) (p_drain p).
Definition set_leases (leases : gmap nat activeLease) : process :=
  mkProcess (p_session p) (p_main p) (p_heartbeat p) leases (p_next p) (p_active p) (p_wg p) (p_capacity p) (p_pollDelay p) (p_ctx p) (p_poll p) (p_stop p) (p_drain p).
Definition set_pollDelay (delay : duration) : process :=
  mkProcess (p_session p) (p_main p) (p_heartbeat p) (p_leases p) (p_next p) (p_active p) (p_wg p) (p_capacity p) delay (p_ctx p) (p_poll p) (p_stop p) (p_drain p).
Definition set_capacity (capacity : bool) : process :=
  mkProcess (p_session p) (p_main p) (p_heartbeat p) (p_leases p) (p_next p) (p_active p) (p_wg p) capacity (p_pollDelay p) (p_ctx p) (p_poll p) (p_stop p) (p_drain p).
Definition stopPolling : process :=
  mkProcess (p_session p) (p_main p) (p_heartbeat p) (p_leases p) (p_next p) (p_active p) (p_wg p) (p_capacity p) (p_pollDelay p) (p_ctx p) true (p_stop p) (p_drain p).
Definition stop : process :=
  mkProcess (p_session p) (p_main p) (p_heartbeat p) (p_leases p) (p_next p) (p_active p) (p_wg p) (p_capacity p) (p_pollDelay p) (p_ctx p) (p_poll p) true (p_drain p).

(** *** [leaseState] *)
Definition count : Z := Z.of_nat (size (p_active p)).
Definition add (lease : Lease) : process :=
  mkProcess (p_session p) (p_main p) (p_heartbeat p) (<[p_next p := mkActive lease false None TimerNone Starting]> (p_leases p)) (S (p_next p))
    (<[cl_dispatch lease := p_next p]> (p_active p)) (p_wg p + 1)%Z (p_capacity p) (p_pollDelay p) (p_ctx p) (p_poll p) (p_stop p) (p_drain p).
(** The end of goroutine [g]: [cancel], then [remove]. *)
Definition remove (g : nat) (dispatchID : string) : process :=
  if bool_decide (is_Some (p_active p !! dispatchID))
  then mkProcess (p_session p) (p_main p) (p_heartbeat p) (delete g (p_leases p)) (p_next p) (delete dispatchID (p_active p)) (p_wg p - 1)%Z true
    (p_pollDelay p) (p_ctx p) (p_poll p) (p_stop p) (p_drain p)
  else set_leases (delete g (p_leases p)).
Definition refs : list LeaseRef :=
  omap (fun '(_, g) => a ← p_leases p !! g; Some (mkLeaseRef (cl_dispatch (al_lease a)) (cl_token (al_lease a)))) (map_to_list (p_active p)).
Definition change_lease (g : nat) (f : activeLease -> activeLease) : process := set_leases (alter f g (p_leases p)).
Definition cancel_lease (a : activeLease) : activeLease := mkActive (al_lease a) true (al_renew a) (al_timer a) (al_work a).
Definition lease_cancel (dispatchID : string) : process :=
  match p_active p !! dispatchID with Some g => change_lease g cancel_lease | None => p end.
(** The newest value replaces one that was not taken. *)
Definition lease_renew (dispatchID : string) (remaining : duration) : process :=
  match p_active p !! dispatchID with
  | None => p
  | Some g =>
    if (remaining <=? 0)%Z then change_lease g cancel_lease
    else change_lease g (fun a => mkActive (al_lease a) (al_canceled a) (Some remaining) (al_timer a) (al_work a))
  end.
Definition cancelAll : process :=
  set_leases (map_imap (fun g a => Some (if bool_decide (p_active p !! cl_dispatch (al_lease a) = Some g) then cancel_lease a else a)) (p_leases p)).
End updates.

Section runtime.
Context (sha256 : string -> string) (text_le : string -> string -> bool) (repositoryLease workerHeartbeatInterval : duration) (r : Runtime).
#[local] Abbreviation options := (r_options r).
Definition lease_ended (p : process) (a : activeLease) : bool := al_canceled a || p_stop p.
(** A call of the client that is served. *)
Definition client_call (ch : choices) (p : process) (operation : WorkerOperation) (dispatchID : string) (body : bodies) (db : database) : database * answer :=
  let '(db, _, ans) := session_call sha256 text_le repositoryLease ch operation (p_session p).1 (p_session p).2 ProtocolVersion dispatchID body db in (db, ans).
Definition claim_body (slots : Z) : bodies := mkBodies (Err (Errorf "EOF")) (Ok slots) (Err (Errorf "EOF")) (Err (Errorf "EOF")) (Err (Errorf "EOF")).
Definition heartbeat_body (leases : list LeaseRef) : bodies := mkBodies (Err (Errorf "EOF")) (Err (Errorf "EOF")) (Ok leases) (Err (Errorf "EOF")) (Err (Errorf "EOF")).
Definition complete_body (token : string) (result : ExecutionResponse) : bodies :=
  mkBodies (Err (Errorf "EOF")) (Err (Errorf "EOF")) (Err (Errorf "EOF")) (Ok (token, result)) (Err (Errorf "EOF")).
Definition drain_body : bodies := mkBodies (Err (Errorf "EOF")) (Err (Errorf "EOF")) (Err (Errorf "EOF")) (Err (Errorf "EOF")) (Ok tt).

(** ** [Run] *)
Definition registered (answer : reply RegisterResponse) (p : process) : option process :=
  match p_main p, answer with
  | Registering, Reply response =>
    if is_empty (rr_WorkerID response) || is_empty (rr_SessionToken response) then Some (at_main p (Returned true))
    else Some (mkProcess (rr_WorkerID response, rr_SessionToken response) LoopTop Idle (p_leases p) (p_next p) (p_active p) (p_wg p) (p_capacity p)
      (o_PollMin options) (p_ctx p) (p_poll p) (p_stop p) (p_drain p))
  | Registering, _ => Some (at_main p (Returned true))
  | _, _ => None
  end.
(** The delay after a round that found nothing. *)
Definition back_off (p : process) : process :=
  at_main (set_pollDelay p (nextPollDelay (p_pollDelay p) (o_PollMin options) (o_PollMax options))) Waiting.
Definition loop_top (p : process) : option process :=
  match p_main p with
  | LoopTop =>
    if p_ctx p || p_stop p then Some (at_main p LoopLeft)
    else
      let slots := (reg_MaxConcurrency (o_Registration options) - count p)%Z in
      Some (if (0 <? slots)%Z then at_main p (Claiming slots) else back_off p)
  | _ => None
  end.
Definition claim_served (lost : bool) (ch : choices) (p : process) (db : database) : option (process * database) :=
  match p_main p with
  | Claiming slots =>
    let '(db, ans) := client_call ch p OperationClaim "" (claim_body slots) db in
    Some (at_main p (Claimed (reply_of lost (fun x => match x with PLeases leases => Some leases | _ => None end) ans)), db)
  | _ => None
  end.
Definition claim_lost (p : process) : option process :=
  match p_main p with Claiming _ => Some (at_main p (Claimed TransportFailure)) | _ => None end.
Definition claim_returned (p : process) : option process :=
  match p_main p with
  | Claimed answer =>
    Some (if isPermanentSessionError answer then cancelAll (at_main (stop (stopPolling p)) (Aborting false))
          else match answer with
          | Reply (lease :: leases) => at_main (set_pollDelay p (o_PollMin options)) (StartingLeases (lease :: leases))
          | _ => back_off p
          end)
  | _ => None
  end.
Definition startLease (p : process) : option process :=
  match p_main p with
  | StartingLeases (lease :: leases) => Some (add (at_main p (StartingLeases leases)) lease)
  | StartingLeases [] => Some (at_main p LoopTop)
  | _ => None
  end.
Definition waitForCapacity (p : process) : option process :=
  match p_main p with
  | Waiting => if p_capacity p then Some (at_main (set_pollDelay (set_capacity p false) (o_PollMin options)) LoopTop) else None
  | _ => None
  end.
Definition wait_over (p : process) : option process := match p_main p with Waiting => Some (at_main p LoopTop) | _ => None end.
Definition wait_canceled (p : process) : option process :=
  match p_main p with Waiting => if p_ctx p || p_poll p then Some (at_main p LoopLeft) else None | _ => None end.
(** Behind the loop: a session error that the heartbeat has sent, or the drain. *)
Definition loop_left (p : process) : option process :=
  match p_main p with
  | LoopLeft =>
    if negb (p_ctx p) && p_stop p
    then match p_heartbeat p with
         | HeartbeatDone true | Failing _ => Some (cancelAll (at_main (stop p) (Aborting true)))
         | HeartbeatDone false => Some (at_main (at_heartbeat p HeartbeatOff) Draining)
         | _ => None
         end
    else Some (at_main p Draining)
  | _ => None
  end.
Definition heartbeat_finished (p : process) : bool := match p_heartbeat p with HeartbeatDone _ | Failing _ => true | _ => false end.
Definition aborted (p : process) : option process :=
  match p_main p with
  | Aborting finished => if (p_wg p =? 0)%Z && (finished || heartbeat_finished p) then Some (at_main p (Returned true)) else None
  | _ => None
  end.
Definition summary_status (x : payload) : option WorkerStatus := match x with PSummary s => Some (sum_Status s) | _ => None end.
Definition drain_served (lost : bool) (ch : choices) (p : process) (db : database) : option (process * database) :=
  match p_main p with
  | Draining => let '(db, ans) := client_call ch p OperationDrain "" drain_body db in Some (at_main p (Drained (reply_of lost summary_status ans)), db)
  | FinalDraining failure =>
    let '(db, ans) := client_call ch p OperationDrain "" drain_body db in Some (at_main p (FinalDrained failure (reply_of lost summary_status ans)), db)
  | _ => None
  end.
Definition drain_lost (p : process) : option process :=
  match p_main p with
  | Draining => Some (at_main p (Drained TransportFailure))
  | FinalDraining failure => Some (at_main p (FinalDrained failure TransportFailure))
  | _ => None
  end.
Definition is_stopped (answer : reply WorkerStatus) : bool := match answer with Reply WorkerStopped => true | _ => false end.
Definition drain_returned (p : process) : option process :=
  match p_main p with
  | Drained answer => Some (at_main p (Settling (is_stopped answer) (failed answer)))
  | FinalDrained _ answer => Some (stop (at_main p (Stopping (failed answer))))
  | _ => None
  end.
Definition settle (p : process) : option process :=
  match p_main p with
  | Settling stopped failure =>
    if (count p =? 0)%Z then Some (at_main p (WaitingLeases stopped failure))
    else if p_drain p then Some (cancelAll (at_main p (WaitingLeases stopped failure)))
    else None
  | _ => None
  end.
Definition leases_waited (p : process) : option process :=
  match p_main p with
  | WaitingLeases stopped failure =>
    if (p_wg p =? 0)%Z
    then Some (if negb stopped && negb (p_drain p) then at_main p (FinalDraining failure) else stop (at_main p (Stopping failure)))
    else None
  | _ => None
  end.
Definition run_returns (p : process) : option process :=
  match p_main p with
  | Stopping failure => if heartbeat_finished p then Some (at_main p (Returned (failure && negb (p_ctx p) || p_ctx p))) else None
  | _ => None
  end.

(** ** The goroutine of a lease *)
Definition work (g : nat) (p : process) (f : activeLease -> option work_at) : option process :=
  a ← p_leases p !! g;
  w ← f a;
  Some (change_lease p g (fun a => mkActive (al_lease a) (al_canceled a) (al_renew a) (al_timer a) w)).
Definition lease_begin (g : nat) (p : process) : option process :=
  a ← p_leases p !! g;
  match al_work a with
  | Starting =>
    Some (change_lease p g (fun a => mkActive (al_lease a) (al_canceled a) (al_renew a) TimerStarting
      (if executorFor r (cl_executor (al_lease a)) then Executing else Leaving)))
  | _ => None
  end.
(** What the executor is asked to do. *)
Definition execution_request (lease : Lease) : ExecutionRequest :=
  mkExecutionRequest (cl_definition lease) (cl_run lease) (cl_task lease) (cl_action lease) (cl_input lease) (cl_attempt lease).
Definition lease_executed (g : nat) (response : ExecutionResponse) (p : process) : option process :=
  work g p (fun a => match al_work a with
    | Executing => Some (if lease_ended p a || bool_decide (Kind response = ResultCanceled) then Leaving else Submitting response)
    | _ => None end).
Definition submit (g : nat) (p : process) : option process :=
  work g p (fun a => match al_work a with Submitting response => Some (if lease_ended p a then Leaving else Sent response) | _ => None end).
Definition complete_served (g : nat) (lost : bool) (ch : choices) (p : process) (db : database) : option (process * database) :=
  a ← p_leases p !! g;
  match al_work a with
  | Sent response =>
    let '(db, ans) := client_call ch p OperationComplete (cl_dispatch (al_lease a)) (complete_body (cl_token (al_lease a)) response) db in
    p ← work g p (fun _ => Some (Served response (reply_of lost (fun x => match x with PApplied b => Some b | _ => None end) ans)));
    Some (p, db)
  | _ => None
  end.
Definition complete_lost (g : nat) (p : process) : option process :=
  work g p (fun a => match al_work a with Sent response => Some (Served response TransportFailure) | _ => None end).
Definition complete_returned (g : nat) (p : process) : option process :=
  work g p (fun a => match al_work a with
    | Served response answer => Some (match answer with
      | Reply _ => Leaving
      | ApiFailure _ code => if bool_decide (code = "lease_lost") || bool_decide (code = "result_conflict") then Leaving else Retrying response
      | TransportFailure => Retrying response
      end)
    | _ => None end).
(** [waitFor] the retry interval. *)
Definition retry (g : nat) (p : process) : option process :=
  work g p (fun a => match al_work a with Retrying response => Some (Submitting response) | _ => None end).
Definition retry_canceled (g : nat) (p : process) : option process :=
  work g p (fun a => match al_work a with Retrying _ => if lease_ended p a then Some Leaving else None | _ => None end).
Definition lease_leaves (g : nat) (p : process) : option process :=
  a ← p_leases p !! g;
  match al_work a with Leaving => Some (remove p g (cl_dispatch (al_lease a))) | _ => None end.

(** ** The timer of a lease *)
Definition arm (now : time) (delay : duration) (a : activeLease) : activeLease :=
  if (delay <=? 0)%Z then mkActive (al_lease a) true None TimerOff (al_work a)
  else mkActive (al_lease a) (al_canceled a) None (TimerArmed (now + delay)%Z) (al_work a).
Definition timer_start (g : nat) (now wall : time) (p : process) : option process :=
  a ← p_leases p !! g;
  match al_timer a with
  | TimerStarting =>
    let delay := localSafetyDelay wall (al_lease a) (o_SafetyMargin options) in
    Some (change_lease p g (fun a => if (delay <=? 0)%Z then mkActive (al_lease a) true (al_renew a) TimerOff (al_work a)
      else mkActive (al_lease a) (al_canceled a) (al_renew a) (TimerArmed (now + delay)%Z) (al_work a)))
  | _ => None
  end.
Definition timer_fired (g : nat) (now : time) (p : process) : option process :=
  a ← p_leases p !! g;
  match al_timer a with
  | TimerArmed fires =>
    if (fires <=? now)%Z then Some (change_lease p g (fun a => mkActive (al_lease a) true (al_renew a) TimerOff (al_work a))) else None
  | _ => None
  end.
Definition timer_renewed (g : nat) (now wall : time) (p : process) : option process :=
  a ← p_leases p !! g;
  match al_timer a, al_renew a with
  | TimerArmed _, Some remaining =>
    let delay := Z.min (remaining - o_SafetyMargin options) (wrap64 (time_sub (cl_deadline (al_lease a)) wall - o_SafetyMargin options)) in
    Some (change_lease p g (arm now delay))
  | _, _ => None
  end.
Definition timer_ended (g : nat) (p : process) : option process :=
  a ← p_leases p !! g;
  match al_timer a with
  | TimerArmed _ =>
    if lease_ended p a then Some (change_lease p g (fun a => mkActive (al_lease a) (al_canceled a) (al_renew a) TimerOff (al_work a))) else None
  | _ => None
  end.

(** ** The heartbeat loop *)
Definition heartbeat_ticked (p : process) : option process := match p_heartbeat p with Idle => Some (at_heartbeat p (Beating (refs p))) | _ => None end.
Definition heartbeat_stopped (p : process) : option process :=
  match p_heartbeat p with Idle => if p_stop p then Some (at_heartbeat p (HeartbeatDone false)) else None | _ => None end.
Definition heartbeat_served (lost : bool) (ch : choices) (p : process) (db : database) : option (process * database) :=
  match p_heartbeat p with
  | Beating leases =>
    let '(db, ans) := client_call ch p OperationHeartbeat "" (heartbeat_body leases) db in
    Some (at_heartbeat p (Beaten (reply_of lost (fun x => match x with PHeartbeat l => Some l | _ => None end) ans)), db)
  | _ => None
  end.
Definition heartbeat_lost (p : process) : option process := match p_heartbeat p with Beating _ => Some (at_heartbeat p (Beaten TransportFailure)) | _ => None end.
Definition heartbeat_returned (p : process) : option process :=
  match p_heartbeat p with
  | Beaten answer =>
    Some (if isPermanentSessionError answer then at_heartbeat p (Failing false)
          else match answer with Reply leases => at_heartbeat p (Applying leases) | _ => at_heartbeat p Idle end)
  | _ => None
  end.
Definition heartbeat_applied (p : process) : option process :=
  match p_heartbeat p with
  | Applying [] => Some (at_heartbeat p Idle)
  | Applying (h :: leases) =>
    let p := at_heartbeat p (Applying leases) in
    Some (match hb_status h with
          | LeaseRenewed => lease_renew p (hb_dispatch h) (wrap64 (hb_remaining_ms h * 1000000))
          | LeaseRevoked | LeaseUnknown => lease_cancel p (hb_dispatch h)
          end)
  | _ => None
  end.
(** After the error was sent: [stopPolling], then [stop]. *)
Definition heartbeat_failing (p : process) : option process :=
  match p_heartbeat p with
  | Failing false => Some (stopPolling (at_heartbeat p (Failing true)))
  | Failing true => Some (stop (at_heartbeat p (HeartbeatDone true)))
  | _ => None
  end.

(** ** Events *)
Inductive worker_event : Type :=
| WRegistered (answer : reply RegisterResponse) | WTop | WClaimServed (lost : bool) (ch : choices) | WClaimLost | WClaimReturned | WStartLease
| WCapacity | WWaitOver | WWaitCanceled | WLoopLeft | WAborted
| WDrainServed (lost : bool) (ch : choices) | WDrainLost | WDrainReturned | WSettle | WLeasesWaited | WReturns
| WBegin (g : nat) | WExecuted (g : nat) (response : ExecutionResponse) | WSubmit (g : nat) | WCompleteServed (g : nat) (lost : bool) (ch : choices)
| WCompleteLost (g : nat) | WCompleteReturned (g : nat) | WRetry (g : nat) | WRetryCanceled (g : nat) | WLeaves (g : nat)
| WTimerStart (g : nat) (now wall : time) | WTimerFired (g : nat) (now : time) | WTimerRenewed (g : nat) (now wall : time) | WTimerEnded (g : nat)
| WTick | WHeartbeatStopped | WHeartbeatServed (lost : bool) (ch : choices) | WHeartbeatLost | WHeartbeatReturned | WHeartbeatApplied | WHeartbeatFailing
(** the parent context is cancelled; the drain times out *)
| WSignal | WDrainTimeout
(** a request of somebody else to the repository *)
| WRequest (r : request).

Definition worker_exec (e : worker_event) (p : process) (db : database) : option (process * database) :=
  let keep (p : option process) := p ← p; Some (p, db) in
  match e with
  | WRegistered answer => keep (registered answer p)
  | WTop => keep (loop_top p)
  | WClaimServed lost ch => claim_served lost ch p db
  | WClaimLost => keep (claim_lost p)
  | WClaimReturned => keep (claim_returned p)
  | WStartLease => keep (startLease p)
  | WCapacity => keep (waitForCapacity p)
  | WWaitOver => keep (wait_over p)
  | WWaitCanceled => keep (wait_canceled p)
  | WLoopLeft => keep (loop_left p)
  | WAborted => keep (aborted p)
  | WDrainServed lost ch => drain_served lost ch p db
  | WDrainLost => keep (drain_lost p)
  | WDrainReturned => keep (drain_returned p)
  | WSettle => keep (settle p)
  | WLeasesWaited => keep (leases_waited p)
  | WReturns => keep (run_returns p)
  | WBegin g => keep (lease_begin g p)
  | WExecuted g response => keep (lease_executed g response p)
  | WSubmit g => keep (submit g p)
  | WCompleteServed g lost ch => complete_served g lost ch p db
  | WCompleteLost g => keep (complete_lost g p)
  | WCompleteReturned g => keep (complete_returned g p)
  | WRetry g => keep (retry g p)
  | WRetryCanceled g => keep (retry_canceled g p)
  | WLeaves g => keep (lease_leaves g p)
  | WTimerStart g now wall => keep (timer_start g now wall p)
  | WTimerFired g now => keep (timer_fired g now p)
  | WTimerRenewed g now wall => keep (timer_renewed g now wall p)
  | WTimerEnded g => keep (timer_ended g p)
  | WTick => keep (heartbeat_ticked p)
  | WHeartbeatStopped => keep (heartbeat_stopped p)
  | WHeartbeatServed lost ch => heartbeat_served lost ch p db
  | WHeartbeatLost => keep (heartbeat_lost p)
  | WHeartbeatReturned => keep (heartbeat_returned p)
  | WHeartbeatApplied => keep (heartbeat_applied p)
  | WHeartbeatFailing => keep (heartbeat_failing p)
  | WSignal =>
    Some (mkProcess (p_session p) (p_main p) (p_heartbeat p) (p_leases p) (p_next p) (p_active p) (p_wg p) (p_capacity p) (p_pollDelay p) true (p_poll p) (p_stop p) (p_drain p), db)
  | WDrainTimeout =>
    Some (mkProcess (p_session p) (p_main p) (p_heartbeat p) (p_leases p) (p_next p) (p_active p) (p_wg p) (p_capacity p) (p_pollDelay p) (p_ctx p) (p_poll p) (p_stop p) true, db)
  | WRequest r => Some (p, perform sha256 text_le repositoryLease workerHeartbeatInterval r db)
  end.
Definition worker_all (es : list worker_event) (p : process) (db : database) : option (process * database) :=
  foldl (fun s e => '(p, db) ← s; worker_exec e p db) (Some (p, db)) es.
Definition NewProcess : process := mkProcess ("", "") Registering HeartbeatOff ∅ 0 ∅ 0 false 0 false false false false.
End runtime.
