(* ===== verification/WorkerRuntimeTheorems.v ===== *)
(** * A worker process with the control plane

    Whatever happens in whatever order: the process executes only leases that
    are stored for it, each in one goroutine, within its concurrency, and it
    returns only when all of them have ended. *)
From S2P Require Import Prelude Hoare GoStrings Json Model State Compiler ChangeSet Stores Database Dispatch Workers Preserves DatabaseFacts DispatchSteps DispatchInvariant Protocol Refinement DispatchTheorems WorkerTheorems WorkerApi WorkerApiTheorems WorkerRuntime.
From stdpp Require Import relations.

Section runtime.
Context (sha256 : string -> string) (text_le : string -> string -> bool) (repositoryLease workerHeartbeatInterval : duration) (r : Runtime).
#[local] Abbreviation worker_exec := (worker_exec sha256 text_le repositoryLease workerHeartbeatInterval r).
#[local] Abbreviation worker_all := (worker_all sha256 text_le repositoryLease workerHeartbeatInterval r).
#[local] Abbreviation session_call := (session_call sha256 text_le repositoryLease).
#[local] Abbreviation client_call := (client_call sha256 text_le repositoryLease).

(** ** Calls *)
Lemma session_call_tables R `{!PreOrder R} ch w op token version n body db db' woken ans :
  (forall end_ skipped tokens now slots, always R (Claim sha256 text_le repositoryLease end_ skipped tokens now w slots)) ->
  (forall end_ now refs, always R (Heartbeat sha256 repositoryLease end_ now w refs)) ->
  (forall end_ now token result, always R (Complete sha256 end_ now w n token result)) ->
  (forall end_ now, always R (DrainWorker end_ now w)) ->
  session_call ch op w token version n body db = (db', woken, ans) -> R db db'.
Proof.
  intros Hc Hh Hr Hd H. unfold WorkerApi.session_call in H.
  destruct (AuthenticateWorker _ _ _ _ _ _ db) as [db1 [session|e| |]] eqn:Ea; pose proof (AuthenticateWorker_same _ _ _ _ _ _ _ _ _ Ea) as <-.
  2-4: unfold refuse in H; by simplify_eq.
  by eapply (operation_tables sha256 text_le repositoryLease ch R).
Qed.
Lemma client_call_refines ch p op n body db db' ans : client_call ch p op n body db = (db', ans) -> implemented db db'.
Proof.
  unfold WorkerRuntime.client_call. destruct (session_call _ _ _ _ _ _ _ db) as [[db1 woken] ans1] eqn:E. intros [= <- _].
  eapply (session_call_tables implemented); [..|exact E]; intros; [by apply Claim_refines|by apply Heartbeat_refines|by apply Complete_refines|by apply DrainWorker_refines].
Qed.
(** A claim that is answered with leases. *)
Lemma client_claim ch p slots db db' status leases :
  client_call ch p OperationClaim "" (claim_body slots) db = (db', Answered status (PLeases leases)) ->
  Claim sha256 text_le repositoryLease (ch_end ch) (ch_skipped ch) (ch_tokens ch) (ch_clock ch 0) (p_session p).1 slots db = (db', Ok leases).
Proof.
  unfold WorkerRuntime.client_call, WorkerApi.session_call. intros H.
  destruct (AuthenticateWorker _ _ _ _ _ _ db) as [db1 [session|e| |]] eqn:Ea; pose proof (AuthenticateWorker_same _ _ _ _ _ _ _ _ _ Ea) as <-;
    cbn in H; try done. unfold serve, refuse in H. destruct (Claim _ _ _ _ _ _ _ _ _ db) as [db1 [l|e| |]]; cbn in H; by simplify_eq.
Qed.

(** ** Leases stored for a worker *)
Record owned (w : string) (db : database) (lease : Lease) : Prop := {
  ow_row : exists d l, dispatches db !! cl_dispatch lease = Some d /\ d_lease d = Some l /\ le_worker l = w /\
    d_run d = cl_run lease /\ d_task d = cl_task lease /\ le_attempt l = cl_attempt lease /\ le_deadline l = cl_deadline lease /\
    MatchesToken sha256 (cl_token lease) (le_token_hash l) = negb (is_empty (cl_token lease));
}.
Lemma owned_kept w db db' lease : db_ok db -> protocol db db' -> owned w db lease -> owned w db' lease.
Proof.
  intros Hok Hp [(d & l & Hd & Hl & Hw & Hrun & Htask & Hatt & Hdl & Ht)].
  destruct (protocol_rows _ _ _ _ Hok Hp Hd) as (d' & Hd' & [Er Et _ _ El _]). destruct (El l Hl) as (l' & Hl' & [Sw Sa St Sd _]).
  split. exists d', l'. split_and!; congruence.
Qed.
(** What a claim hands out was stored for nobody before. *)
Lemma pending_unowned w db d n lease : db_ok db -> dispatches db !! n = Some d -> d_status d = DispatchPending -> owned w db lease -> cl_dispatch lease ≠ n.
Proof.
  intros Hok Hd Hp [(d' & l & Hd' & Hl & _)] E. rewrite E, Hd in Hd'. injection Hd' as <-.
  destruct (ct_rows _ (db_constraints _ Hok) _ _ Hd) as [Hshape _]. unfold dispatch_shape in Hshape. rewrite Hp, Hl in Hshape. done.
Qed.

(** ** The invariant *)
Definition leases_of (p : process) : gmap nat Lease := al_lease <$> p_leases p.
(** Leases that were received and have no goroutine yet. *)
Definition pending (p : process) : list Lease := match p_main p with Claimed (Reply l) => l | StartingLeases l => l | _ => [] end.
Definition reserved (p : process) : Z := match p_main p with Claiming slots => slots | _ => Z.of_nat (length (pending p)) end.
(** Where no lease is left. *)
Definition quiet (m : main_at) : bool :=
  match m with Registering | FinalDraining _ | FinalDrained _ _ | Stopping _ | Returned _ => true | _ => false end.
Definition max_leases : Z := reg_MaxConcurrency (o_Registration (r_options r)).
Definition held (p : process) (lease : Lease) : Prop := (exists g, leases_of p !! g = Some lease) \/ lease ∈ pending p.
Record process_ok (p : process) (db : database) : Prop := {
  po_db : db_ok db;
  po_active : forall n g, p_active p !! n = Some g <-> exists lease, leases_of p !! g = Some lease /\ cl_dispatch lease = n;
  po_count : size (p_active p) = size (leases_of p);
  po_next : forall g lease, leases_of p !! g = Some lease -> g < p_next p;
  po_wg : p_wg p = Z.of_nat (size (leases_of p));
  po_slots : (Z.of_nat (size (leases_of p)) + reserved p <= max_leases)%Z;
  po_owned : forall lease, held p lease -> owned (p_session p).1 db lease;
  po_pending : NoDup (cl_dispatch <$> pending p);
  po_distinct : forall lease g lease', lease ∈ pending p -> leases_of p !! g = Some lease' -> cl_dispatch lease ≠ cl_dispatch lease';
  po_quiet : quiet (p_main p) = true -> leases_of p = ∅;
}.

(** Steps that leave the leases as they are. *)
Record same_leases (p p' : process) : Prop := {
  sv_leases : leases_of p' = leases_of p;
  sv_active : p_active p' = p_active p;
  sv_next : p_next p' = p_next p;
  sv_wg : p_wg p' = p_wg p;
  sv_session : p_session p' = p_session p;
}.
#[local] Instance same_leases_preorder : PreOrder same_leases.
Proof. split; [done|]. intros p1 p2 p3 [] []. split; congruence. Qed.
Lemma process_view p p' db : process_ok p db -> same_leases p p' -> pending p' = pending p -> (reserved p' <= reserved p)%Z ->
  (quiet (p_main p') = true -> quiet (p_main p) = true \/ leases_of p = ∅) -> process_ok p' db.
Proof.
  intros [H1 H2 H3 H4 H5 H6 H7 H8 H9 H10] [E1 E2 E3 E4 E5] Ep Er Eq. split; rewrite ?E1, ?E2, ?E3, ?E4, ?E5, ?Ep; try done.
  - lia.
  - intros lease Hh. apply H7. unfold held in *. by rewrite E1, Ep in Hh.
  - intros Hq. destruct (Eq Hq); [by apply H10|done].
Qed.
Lemma process_tables p db db' : process_ok p db -> protocol db db' -> process_ok p db'.
Proof.
  intros [H1 H2 H3 H4 H5 H6 H7 H8 H9 H10] Hp. split; try done; [by eapply protocol_ok|]. intros lease Hh. eapply owned_kept; [exact H1|exact Hp|by apply H7].
Qed.

Lemma leases_change p g f : (forall a, al_lease (f a) = al_lease a) -> leases_of (change_lease p g f) = leases_of p.
Proof.
  intros Hf. unfold leases_of, change_lease. cbn. apply map_eq. intros k. rewrite !lookup_fmap. destruct (decide (k = g)) as [->|Hne].
  - rewrite lookup_alter_eq. destruct (p_leases p !! g); cbn; [|done]. by rewrite Hf.
  - by rewrite lookup_alter_ne.
Qed.
Lemma change_same p g f : (forall a, al_lease (f a) = al_lease a) -> same_leases p (change_lease p g f).
Proof. intros Hf. by split; [apply leases_change|..]. Qed.
Lemma lease_cancel_same p n : same_leases p (lease_cancel p n).
Proof. unfold lease_cancel. case_match; [by apply change_same|done]. Qed.
Lemma lease_renew_same p n d : same_leases p (lease_renew p n d).
Proof. unfold lease_renew. case_match; [|done]. by case_match; apply change_same. Qed.
Lemma cancelAll_same p : same_leases p (cancelAll p).
Proof.
  split; try done. unfold leases_of, cancelAll. cbn. apply map_eq. intros k. rewrite !lookup_fmap, map_lookup_imap.
  destruct (p_leases p !! k); cbn; [|done]. by case_bool_decide.
Qed.
Lemma work_same g p f p' : work g p f = Some p' -> same_leases p p' /\ p_main p' = p_main p.
Proof. unfold work. intros (a & _ & (w & _ & [= <-])%bind_Some)%bind_Some. split; [by apply change_same|done]. Qed.

(** ** Starting and ending a lease *)
Lemma add_ok p db lease leases : process_ok p db -> p_main p = StartingLeases (lease :: leases) ->
  process_ok (add (at_main p (StartingLeases leases)) lease) db.
Proof.
  intros [H1 H2 H3 H4 H5 H6 H7 H8 H9 H10] Hm.
  assert (Hpend : pending p = lease :: leases) by (unfold pending; by rewrite Hm).
  assert (Hres : reserved p = Z.of_nat (S (length leases))) by (unfold reserved; by rewrite Hm, Hpend).
  assert (Hfresh : leases_of p !! p_next p = None).
  { destruct (leases_of p !! p_next p) as [l|] eqn:E; [|done]. apply H4 in E. lia. }
  assert (Hnew : p_active p !! cl_dispatch lease = None).
  { destruct (p_active p !! cl_dispatch lease) as [g|] eqn:E; [|done]. apply H2 in E as (l & Hl & E). symmetry in E. exfalso.
    eapply H9; [|exact Hl|exact E]. rewrite Hpend. by left. }
  set (p' := add _ _). assert (Hleases : leases_of p' = <[p_next p := lease]> (leases_of p)) by (unfold leases_of, p'; cbn; by rewrite fmap_insert).
  rewrite Hpend in H8, H9. apply NoDup_cons in H8 as [Hn8 H8].
  split; rewrite ?Hleases; unfold p'; cbn.
  - done.
  - intros n g. rewrite lookup_insert_Some. split.
    + intros [[<- <-]|[Hne Hg]]; [exists lease; by rewrite lookup_insert_eq|]. apply H2 in Hg as (l & Hl & E). exists l. split; [|done].
      rewrite lookup_insert_ne; [done|]. intros <-. by rewrite Hfresh in Hl.
    + intros (l & [[<- <-]|[Hne Hl]]%lookup_insert_Some & E); [by left|right]. split; [|apply H2; by exists l].
      intros Ed. eapply H9; [by left|exact Hl|congruence].
  - by rewrite !map_size_insert_None, H3.
  - intros g l [[<- _]|[_ Hl]]%lookup_insert_Some; [lia|]. apply H4 in Hl. lia.
  - rewrite map_size_insert_None by done. lia.
  - rewrite map_size_insert_None by done. unfold reserved in *. cbn in *. lia.
  - intros l Hh. apply H7. change (held p' l) in Hh. destruct Hh as [[g Hg]|Hin].
    + rewrite Hleases in Hg. apply lookup_insert_Some in Hg as [[_ <-]|[_ Hg]]; [right; rewrite Hpend; by left|left; by exists g].
    + right. rewrite Hpend. by right.
  - done.
  - intros l g l' Hin [[_ <-]|[_ Hl]]%lookup_insert_Some E.
    + apply Hn8. rewrite <-E. by apply list_elem_of_fmap_2.
    + eapply H9; [by right|exact Hl|exact E].
  - done.
Qed.
Lemma remove_ok p db g a : process_ok p db -> p_leases p !! g = Some a -> process_ok (WorkerRuntime.remove p g (cl_dispatch (al_lease a))) db.
Proof.
  intros [H1 H2 H3 H4 H5 H6 H7 H8 H9 H10] Ha. assert (Hl : leases_of p !! g = Some (al_lease a)) by (unfold leases_of; by rewrite lookup_fmap, Ha).
  assert (Hact : p_active p !! cl_dispatch (al_lease a) = Some g) by (apply H2; by exists (al_lease a)).
  unfold WorkerRuntime.remove. rewrite Hact, bool_decide_eq_true_2 by done. set (p' := mkProcess _ _ _ _ _ _ _ _ _ _ _ _ _).
  assert (Hleases : leases_of p' = delete g (leases_of p)) by (unfold leases_of, p'; cbn; by rewrite fmap_delete).
  assert (Hsize : size (delete g (leases_of p)) = Nat.pred (size (leases_of p))) by (by rewrite map_size_delete, Hl).
  assert (Hpos : 0 < size (leases_of p)) by (apply Nat.neq_0_lt_0; intros E; apply map_size_empty_inv in E; by rewrite E in Hl).
  assert (Hinj : forall k l, leases_of p !! k = Some l -> cl_dispatch l = cl_dispatch (al_lease a) -> k = g).
  { intros k l Hk E. assert (p_active p !! cl_dispatch l = Some k) as Hk' by (apply H2; by exists l). rewrite E, Hact in Hk'. by injection Hk'. }
  split; rewrite ?Hleases; unfold p'; cbn; try done.
  - intros n k. rewrite lookup_delete_Some, H2. split.
    + intros [Hne (l & Hk & <-)]. exists l. split; [|done]. apply lookup_delete_Some. split; [|done]. intros <-. rewrite Hl in Hk. by injection Hk as <-.
    + intros (l & [Hne Hk]%lookup_delete_Some & <-). split; [|by exists l]. intros E. apply Hne. symmetry. by eapply Hinj.
  - rewrite map_size_delete, Hact, Hsize. by rewrite H3.
  - intros k l [_ Hk]%lookup_delete_Some. by eapply H4.
  - rewrite Hsize. lia.
  - rewrite Hsize. unfold reserved, pending in *. cbn. lia.
  - intros l Hh. change (held p' l) in Hh. apply H7. destruct Hh as [[k Hk]|Hin]; [|by right]. rewrite Hleases in Hk. apply lookup_delete_Some in Hk as [_ Hk]. left. by exists k.
  - intros l k l' Hin [_ Hk]%lookup_delete_Some. by eapply H9.
  - intros Hq. apply H10 in Hq. by rewrite Hq, delete_empty.
Qed.
End runtime.
