(* ===== verification/Platform.v ===== *)
(** * The control plane keeps its promises

    Requests of clients, of workers and of the controller, in any order, with
    any failures and restarts in between: [perform_platform].  The state is the
    database with the cache of compiled versions.  Everything stored stays
    consistent ([platform_ok]), and starting a run is idempotent. *)
From S2P Require Import Prelude Hoare GoStrings Json Model State Graph Compiler SnapshotJson CanonicalJson Scheduling Distributed Effects RunInvariant RunOperations RunResults RunProperties RunTheorems ChangeSet Stores Database Dispatch Workers Definitions Services Preserves DatabaseFacts DispatchSteps DispatchInvariant NewRuns Protocol Refinement TableTypes ProtocolTheorems Registry DispatchTheorems WorkerTheorems.
From stdpp Require Import relations.

(** ** Storing a run once *)

(** The run a request stores: it is the one that the stored version makes. *)
Record starts (c : CompiledWorkflow) (id : RunID) (version : Z) (now : time) (db : database) (row : version_row) (s : RunSnapshot) : Prop := {
  sn_unused : runs db !! id = None;
  sn_version : versions db !! (wf_ID (definition c), version) = Some row;
  sn_compiled : exists c', Compile (v_definition row) = Ok c' /\ NewRunSnapshotForVersion id (Some c') version now = Ok s /\ stored_run c' s;
  sn_definition : Definition_ s = Some (v_definition row);
  sn_id : wf_ID (v_definition row) = wf_ID (definition c);
}.

Lemma starts_maintains c id version now db row s W : starts c id version now db row s ->
  (W = idempotency db \/ exists principal key hash, idempotency db !! (principal, operationStartRun, key) = None /\
     W = <[(principal, operationStartRun, key) := mkIdempotency hash resourceRun id None]> (idempotency db)) ->
  maintains db (set_idempotency W (set_runs (<[id := s]> (runs db)) db)).
Proof.
  intros [Hno Hrow (c' & Hcomp & Hnew & Hst) Hd Hwf] HW Hok. pose proof (compiled_ok _ _ Hcomp) as Hc'.
  destruct (new_run_fresh c' id version now s Hc' Hnew) as (Hf & Hid & Hver & Hdid & Hd' & _ & _ & _ & Hpend & _).
  eapply new_run_maintains; [done|done|done|done|done| |exact Hd|exact HW|exact Hok].
  rewrite Hdid, Hver. assert (Some (definition c') = Some (v_definition row)) as [= ->] by congruence. by rewrite Hwf.
Qed.

(** The request can be recorded. *)
Definition accepted (principal key hash : string) : Prop :=
  validateIdempotencyInput principal key hash = Ok tt /\ lockIdempotency principal operationStartRun key = mret tt.

Lemma CreateRun_cases end_ c id version now s principal key hash db db' r :
  registry db -> compiled_wf c -> NewRunSnapshotForVersion id (Some c) version now = Ok s ->
  CreateRun end_ s principal key hash db = (db', r) ->
  db' = db /\ (forall rid b, r = Ok (rid, b) -> b = false /\ exists record,
    idempotency db !! (principal, operationStartRun, key) = Some record /\ i_request_hash record = hash /\ i_resource_id record = rid) \/
  idempotency db !! (principal, operationStartRun, key) = None /\ (forall rid b, r = Ok (rid, b) -> rid = id /\ b = true) /\
  accepted principal key hash /\ exists row s', starts c id version now db row s' /\
    db' = set_idempotency (<[(principal, operationStartRun, key) := mkIdempotency hash resourceRun id None]> (idempotency db))
      (set_runs (<[id := s']> (runs db)) db).
Proof.
  intros Hreg Hc Hnew. unfold CreateRun. unfold mbind at 1, go_bind at 1, lift at 1. destruct (validateInitialSnapshot s) as [[]|e| |]; try (intros [= <- <-]; by left).
  unfold mbind at 1, go_bind at 1, lift at 1. destruct (validateIdempotencyInput _ _ _) as [[]|e| |] eqn:Hinput; try (intros [= <- <-]; by left).
  unfold transaction. set (body := _ ≫= _). destruct (body db) as [db1 out] eqn:E. destruct out as [[rid b]|e| |]; try (intros [= <- <-]; by left).
  intros H. assert (Hdb : db' = db /\ (forall x, r ≠ Ok x) \/ db' = db1 /\ forall x, r = Ok x -> x = (rid, b)).
  { destruct end_; injection H as <- <-; [right|left|right]; (split; [done|]); [by intros x [= <-]|done|done]. }
  clear H. destruct Hdb as [[-> Hr]|[-> Hr]]; [left; split; [done|]; intros x y ->; by destruct (Hr (x, y))|].
  subst body. unfold lockIdempotency, loadIdempotency in E. go_inv. destruct (idempotency _ !! _) as [record|] eqn:Hrec.
  - left. go_inv. match goal with Hx : lift _ _ = _ |- _ => unfold lift in Hx; injection Hx as <- Hx; unfold validateReplay in Hx; go_inv end.
    passed. split; [done|]. intros x y Hxy. specialize (Hr _ Hxy). injection Hr as -> ->. split; [done|]. by exists record.
  - right. go_inv. match goal with Hx : insert_new _ _ = _ |- _ => apply insert_new_inv in Hx end.
    match goal with Hx : insertSnapshot _ _ = _ |- _ =>
      eapply (new_run_stored c id version now) in Hx as (row & c' & s' & Hrow & Hno & Hcomp & Hnew' & Hd & HRun & Hst & Hf & ->); [|apply Hreg|done|done] end.
    match goal with Hx : insertIdempotency _ _ _ _ _ = _ |- _ => apply insertIdempotency_inv in Hx as [_ ->] end.
    destruct (new_run_fresh c id version now s Hc Hnew) as (_ & Hid & _). rewrite Hid in *.
    split; [done|]. split; [intros x y Hxy; by injection (Hr _ Hxy) as -> ->|].
    split; [split; [done|unfold lockIdempotency; by rewrite Hc0]|].
    exists row, s'. split; [|done]. split; [done|done|by exists c'|done|].
    destruct (new_run_fresh c' id version now s' (compiled_ok _ _ Hcomp) Hnew') as (_ & _ & _ & Hdid & Hd2 & _).
    destruct (new_run_fresh c id version now s Hc Hnew) as (_ & _ & _ & Hdid0 & _). assert (Some (definition c') = Some (v_definition row)) as [= <-] by congruence. congruence.
Qed.

(** ** Calls of the services *)
Record platform_ok (p : platform) : Prop := {
  po_stored : stored_ok (pf_database p);
  po_cache : forall ref c, pf_cache p !! ref = Some c -> compiled_wf c;
}.
Definition advances (p p' : platform) : Prop := platform_ok p -> platform_ok p' /\ kept (pf_database p) (pf_database p').
#[export] Instance advances_preorder : PreOrder advances.
Proof.
  split; [by intros p ?|]. intros p1 p2 p3 H1 H2 Hok. destruct (H1 Hok) as [Hok2 K1], (H2 Hok2) as [Hok3 K2].
  split; [done|by etrans].
Qed.

Lemma in_database_advances {A} (m : go database A) p p' r :
  (forall db' r', m (pf_database p) = (db', r') -> maintains (pf_database p) db') ->
  in_database m p = (p', r) -> advances p p' /\ pf_cache p' = pf_cache p.
Proof.
  unfold in_database. destruct (m (pf_database p)) as [db' r'] eqn:E. intros H [= <- <-]. split; [|done].
  intros [Hs Hcache]. destruct (H _ _ eq_refl Hs) as [Hs' Hk]. by split; [split|].
Qed.

Lemma putCache_advances ref c : compiled_wf c -> forall p p' r, putCache ref c p = (p', r) -> advances p p'.
Proof.
  intros Hc p p' r [= <- <-] [Hs Hcache]. split; [split|done]; [done|]. cbn.
  by intros ref' c' [[_ <-]|[_ Hc']]%lookup_insert_Some; [|eapply Hcache].
Qed.

(** What [Compile] returns has its defaults filled in, as its copies do. *)
Lemma normalize_fixed t : normalize t = t <-> def_Executor t ≠ ExecutorOther "" /\ MaxAttempts (Retry t) ≠ 0%Z.
Proof.
  destruct t as [k e a i d [m iv] tm]. unfold normalize. cbn. split.
  - intros [= He Hm]. case_bool_decide as E; [by rewrite E in He|]. split; [done|]. intros ->. by cbn in Hm.
  - intros [He Hm]. rewrite bool_decide_eq_false_2 by done. apply Z.eqb_neq in Hm. by rewrite Hm.
Qed.
Lemma compiled_defaults c d : compiled_wf c -> Definition_of (Some c) = Ok d -> has_defaults d.
Proof.
  intros Hc H. unfold Definition_of, cloneDefinition in H. go_inv. unfold has_defaults. cbn.
  match goal with Hx : cloneTasks _ = Ok _ |- _ => apply cloneTasks_inv in Hx; rename Hx into Hcl end.
  apply Forall_lookup. intros i t Ht. destruct (Forall2_lookup_r _ _ _ _ _ Hcl Ht) as (t0 & Ht0 & Hclone).
  destruct (cloneTask_same _ _ Hclone) as (_ & He & _ & _ & Hr & _). pose proof (cw_tasks c Hc) as Hall. rewrite Forall_lookup in Hall.
  destruct (Hall i t0 Ht0) as (_ & _ & Hx & _ & Hm & _). apply normalize_fixed. rewrite He, Hr. split; [|lia].
  rewrite list_elem_of_In in Hx. by destruct Hx as [<-|[<-|[]]].
Qed.

Section services.
Context (sha256 : string -> string) (jsonb : WorkflowDefinition -> option WorkflowDefinition) (Hjsonb : jsonb_ok jsonb).

Lemma create_with_advances repository definition :
  (forall d hash, has_defaults d -> always maintains (repository d hash)) -> always advances (create_with sha256 repository definition).
Proof.
  intros Hrep. apply always_lift; [apply _|]. intros c Hcomp.
  assert (Hc : compiled_wf c) by (destruct (Compile definition) eqn:E; [injection Hcomp as <-; by eapply compiled_ok|done..]).
  apply always_lift; [apply _|]. intros d Hd p p' r H.
  unfold mbind at 1, go_bind at 1 in H. destruct (in_database _ _) as [p1 out] eqn:E.
  apply in_database_advances in E as [Hadv _]; [|intros db' r' Hm; by eapply Hrep, Hm; eapply compiled_defaults].
  destruct out as [record|e| |]; [|by injection H as <- _..]. cbv zeta in H.
  unfold mbind, go_bind in H. destruct (putCache _ _ _) as [p2 out] eqn:E. eapply putCache_advances in E; [|done].
  destruct out; injection H as <- _; by etrans.
Qed.

Lemma CreateWorkflow_advances end_ now principal key definition :
  always advances (CreateWorkflow sha256 jsonb end_ now principal key definition).
Proof. apply create_with_advances. intros d hash Hd. by apply CreateDefinition_maintains. Qed.
Lemma CreateWorkflowVersion_advances end_ now principal id key definition :
  always advances (CreateWorkflowVersion sha256 jsonb end_ now principal id key definition).
Proof. apply always_fail_if; [apply _|]. intros _. apply create_with_advances. intros d hash Hd. by apply CreateVersion_maintains. Qed.
End services.

Lemma LoadDefinition_same read id version db db' r : LoadDefinition read id version db = (db', r) -> db' = db.
Proof.
  unfold LoadDefinition, wrapped, transaction, mbind, go_bind, gets, lift.
  destruct read; cbn; [destruct (versions db !! _); by intros [= <- _]|by intros [= <- _]..].
Qed.
Lemma compiled_version_inv read id version p p' r : platform_ok p -> compiled_version read id version p = (p', r) ->
  platform_ok p' /\ pf_database p' = pf_database p /\ forall c, r = Ok c -> compiled_wf c.
Proof.
  intros [Hs Hcache] H. unfold compiled_version in H. unfold mbind at 1, go_bind at 1, get at 1 in H.
  destruct (pf_cache p !! _) as [c|] eqn:Hc.
  { injection H as <- <-. split_and!; [done|done|]. intros c' [= <-]. by eapply Hcache. }
  unfold mbind at 1, go_bind at 1 in H. destruct (in_database _ _) as [p1 out] eqn:E.
  assert (E1 : p1 = p).
  { unfold in_database in E. destruct (LoadDefinition _ _ _ _) as [db' r'] eqn:El. apply LoadDefinition_same in El as ->. injection E as <- _. by destruct p. }
  subst p1. destruct out as [d|e| |]; [|by injection H as <- <-..].
  unfold mbind at 1, go_bind at 1, lift at 1 in H. destruct (Compile d) as [c|e| |] eqn:Hcomp; [|by injection H as <- <-..].
  pose proof (compiled_ok _ _ Hcomp) as Hwf. unfold mbind, go_bind in H. destruct (putCache _ _ _) as [p2 out] eqn:E2.
  pose proof E2 as E3. eapply putCache_advances in E2; [|exact Hwf]. injection E3 as <- <-. injection H as <- <-.
  split_and!; [by apply E2|done|]. by intros c' [= <-].
Qed.

(** A request with the key of a recorded one: the record decides. *)
Lemma CreateRun_replay end_ c id version now s principal key hash db db' r record :
  idempotency db !! (principal, operationStartRun, key) = Some record -> i_resource_type record = resourceRun ->
  compiled_wf c -> NewRunSnapshotForVersion id (Some c) version now = Ok s ->
  CreateRun end_ s principal key hash db = (db', r) ->
  db' = db /\ (forall x, r = Ok x -> x = (i_resource_id record, false) /\ i_request_hash record = hash) /\
  (end_ = Committed -> accepted principal key hash ->
     r = if bool_decide (i_request_hash record = hash) then Ok (i_resource_id record, false) else Err ErrIdempotencyConflict).
Proof.
  intros Hrec Hty Hc Hnew. unfold CreateRun. rewrite (new_run_valid _ _ _ _ _ Hc Hnew). unfold mbind at 1, go_bind at 1, lift at 1.
  unfold mbind at 1, go_bind at 1, lift at 1. destruct (validateIdempotencyInput _ _ _) as [[]|e| |] eqn:Hinput;
    try (intros [= <- <-]; split_and!; [done|done|intros _ [Hi _]; congruence]).
  assert (Hvalid : validateReplay record hash resourceRun = if bool_decide (i_request_hash record = hash) then Ok tt else Err ErrIdempotencyConflict).
  { unfold validateReplay, check. rewrite (bool_decide_eq_false_2 (i_resource_type record ≠ _)) by (intros E; by apply E). rewrite orb_false_r.
    repeat case_bool_decide; done || (by exfalso). }
  unfold transaction. set (body := _ ≫= _). assert (Hbody : body db = (db,
    if negb (pg_text principal && pg_text operationStartRun && pg_text key) then Err (Wrapf "lock idempotency key: %w" (Errorf "invalid byte sequence for encoding"))
    else if bool_decide (i_request_hash record = hash) then Ok (i_resource_id record, false) else Err ErrIdempotencyConflict)).
  { subst body. unfold lockIdempotency, loadIdempotency. destruct (negb _); [done|]. go_step. go_step. rewrite Hrec, Hvalid.
    by case_bool_decide. }
  rewrite Hbody. destruct (negb _) eqn:Hlock.
  { intros [= <- <-]. split_and!; [done|done|]. intros _ [_ Hl]. unfold lockIdempotency in Hl. rewrite Hlock in Hl.
    apply (f_equal (fun m => (m db).2)) in Hl. done. }
  case_bool_decide as Eh; [destruct end_|]; intros [= <- <-]; (split_and!; [done|by try (intros x [= <-])|done]).
Qed.

Section platform.
Context (sha256 : string -> string) (jsonb : WorkflowDefinition -> option WorkflowDefinition).
Context (text_le : string -> string -> bool) (leaseDuration workerHeartbeatInterval : duration).

(** ** Starting a run *)
Definition start_key (principal key : string) : string * string * string := (principal, operationStartRun, key).
Definition recorded (principal key workflowID : string) (version : Z) (id : RunID) (db : database) : Prop :=
  idempotency db !! start_key principal key = Some (mkIdempotency (startRequestHash sha256 workflowID version) resourceRun id None).

(** What [Start] hands to the repository. *)
Lemma Start_inv read end_ now newRunID principal workflowID version key p p' r :
  platform_ok p -> Start sha256 read end_ now newRunID principal workflowID version key p = (p', r) ->
  (platform_ok p' /\ pf_database p' = pf_database p /\ (forall x, r ≠ Ok x) /\
   forall p1 c id s, compiled_version read workflowID version p = (p1, Ok c) -> newRunID = Ok id ->
     NewRunSnapshotForVersion id (Some c) version now ≠ Ok s) \/
  exists p1 c id s db' out, platform_ok p1 /\ pf_database p1 = pf_database p /\ compiled_wf c /\
    compiled_version read workflowID version p = (p1, Ok c) /\ newRunID = Ok id /\
    NewRunSnapshotForVersion id (Some c) version now = Ok s /\
    CreateRun end_ s principal key (startRequestHash sha256 workflowID version) (pf_database p) = (db', out) /\
    p' = mkPlatform db' (pf_cache p1) /\
    r = match out with Ok (rid, b) => Ok (mkStartRunResponse rid WorkflowPending, b) | Err e => Err e | Panic => Panic | Diverge => Diverge end.
Proof.
  intros Hok H. unfold Start in H. unfold mbind at 1, go_bind at 1 in H.
  destruct (compiled_version _ _ _ p) as [p1 out] eqn:Ec. destruct (compiled_version_inv _ _ _ _ _ _ Hok Ec) as (Hok1 & E1 & Hc).
  destruct out as [c|e| |]; [|injection H as <- <-; left; split_and!; [done|done|done|congruence]..]. specialize (Hc _ eq_refl).
  unfold mbind at 1, go_bind at 1, lift at 1 in H. destruct newRunID as [id|e| |]; [|injection H as <- <-; left; split_and!; [done|done|done|congruence]..].
  unfold mbind at 1, go_bind at 1, lift at 1 in H.
  destruct (NewRunSnapshotForVersion id (Some c) version now) as [s|e| |] eqn:Hnew; [|injection H as <- <-; left; split_and!; [done|done|done|congruence]..].
  right. unfold in_database, mbind, go_bind in H. rewrite E1 in H.
  destruct (CreateRun _ _ _ _ _ _) as [db' out] eqn:Er. exists p1, c, id, s, db', out. split_and!; try done.
  - destruct out as [[]|e| |]; by injection H as <- _.
  - destruct out as [[]|e| |]; by injection H as _ <-.
Qed.

Lemma Start_cases read end_ now newRunID principal workflowID version key p p' r :
  platform_ok p -> Start sha256 read end_ now newRunID principal workflowID version key p = (p', r) ->
  platform_ok p' /\ kept (pf_database p) (pf_database p') /\
  (pf_database p' = pf_database p /\ (forall resp b, r = Ok (resp, b) -> b = false) \/
   exists id c row s, newRunID = Ok id /\ compiled_wf c /\ starts c id version now (pf_database p) row s /\
     idempotency (pf_database p) !! start_key principal key = None /\ recorded principal key workflowID version id (pf_database p') /\
     runs (pf_database p') !! id = Some s /\ versions (pf_database p') = versions (pf_database p) /\
     accepted principal key (startRequestHash sha256 workflowID version) /\ (0 < version)%Z /\
     forall resp b, r = Ok (resp, b) -> resp = mkStartRunResponse id WorkflowPending /\ b = true).
Proof.
  intros Hok H. destruct (Start_inv _ _ _ _ _ _ _ _ _ _ _ Hok H) as
    [(Hok' & E & Hr & _)|(p1 & c & id & s & db' & out & Hok1 & E1 & Hc & _ & -> & Hnew & Hcr & -> & ->)].
  { split_and!; [done|by rewrite E|]. left. split; [done|]. intros resp b ->. by destruct (Hr (resp, b)). }
  destruct (CreateRun_cases _ _ _ _ _ _ _ _ _ _ _ _ (so_registry _ (po_stored _ Hok)) Hc Hnew Hcr) as
    [(-> & Hout)|(Hnone & Hout & Hacc & row & s' & Hstarts & ->)]; cbn [pf_database].
  - split_and!; [split; [apply Hok|apply Hok1]|done|]. left. split; [done|]. intros resp b Hx.
    destruct out as [[rid b']|e| |]; try done. injection Hx as <- <-. by destruct (Hout _ _ eq_refl).
  - pose proof Hstarts as Hm. eapply starts_maintains in Hm; [|right; by exists principal, key, (startRequestHash sha256 workflowID version)].
    destruct (Hm (po_stored _ Hok)) as [Hstored Hkept]. split_and!; [split; [done|apply Hok1]|done|]. right.
    exists id, c, row, s'. unfold recorded, start_key. cbn. rewrite !lookup_insert_eq. split_and!; try done.
    + destruct (new_run_fresh c id version now s Hc Hnew) as (_ & _ & _ & _ & _ & _ & Hpos & _). exact Hpos.
    + intros resp b Hx. destruct out as [[rid b']|e| |]; try done. injection Hx as <- <-. by destruct (Hout _ _ eq_refl) as [-> ->].
Qed.

(** Unless it stored a new run, [Start] left the database alone; with the key of
    a recorded start it can only answer with the recorded run. *)
Lemma Start_replay read end_ now newRunID principal workflowID version key p p' r record :
  platform_ok p -> idempotency (pf_database p) !! start_key principal key = Some record ->
  Start sha256 read end_ now newRunID principal workflowID version key p = (p', r) ->
  pf_database p' = pf_database p /\
  (forall x, r = Ok x -> x = (mkStartRunResponse (i_resource_id record) WorkflowPending, false) /\
     i_request_hash record = startRequestHash sha256 workflowID version) /\
  (forall c p1 id, compiled_version read workflowID version p = (p1, Ok c) -> newRunID = Ok id -> id ≠ "" -> (0 < version)%Z ->
     end_ = Committed -> accepted principal key (startRequestHash sha256 workflowID version) ->
     r = if bool_decide (i_request_hash record = startRequestHash sha256 workflowID version)
         then Ok (mkStartRunResponse (i_resource_id record) WorkflowPending, false) else Err ErrIdempotencyConflict).
Proof.
  intros Hok Hrec H. destruct (rg_started _ (so_registry _ (po_stored _ Hok)) _ _ _ Hrec) as [Hty _].
  destruct (Start_inv _ _ _ _ _ _ _ _ _ _ _ Hok H) as
    [(_ & E & Hr & Hno)|(p1 & c & id & s & db' & out & _ & E1 & Hc & Ecv & -> & Hnew & Hcr & -> & ->)].
  - split_and!; [done|intros x Hx; by destruct (Hr x)|]. intros c p1 id Ecv -> Hne Hv -> Hacc. exfalso.
    destruct (compiled_version_inv _ _ _ _ _ _ Hok Ecv) as (Hok1 & E1 & Hc). specialize (Hc _ eq_refl).
    destruct (new_run_exists c id version now Hc Hne Hv) as [s Hnew].
    by destruct (Hno p1 c id s).
  - destruct (CreateRun_replay _ _ _ _ _ _ _ _ _ _ _ _ _ Hrec Hty Hc Hnew Hcr) as (-> & Hout & Hlive). cbn. split_and!; [done| |].
    + intros x Hx. destruct out as [[rid b]|e| |]; try done. destruct (Hout _ eq_refl) as [[= -> ->] Hh]. injection Hx as <-. by split.
    + intros c' p2 id' _ _ _ _ Hend Hacc. rewrite (Hlive Hend Hacc). by case_bool_decide.
Qed.

(** ** Requests *)
Inductive platform_request : Type :=
| OnDispatcher (r : request)
| DoCreateWorkflow (end_ : fate) (now : time) (principal key : string) (definition : WorkflowDefinition)
| DoCreateWorkflowVersion (end_ : fate) (now : time) (principal workflowID key : string) (definition : WorkflowDefinition)
| DoStart (read end_ : fate) (now : time) (newRunID : outcome RunID) (principal workflowID : string) (version : Z) (key : string)
| DoRestart.

Definition perform_platform (r : platform_request) (p : platform) : platform :=
  match r with
  | OnDispatcher r => mkPlatform (perform sha256 text_le leaseDuration workerHeartbeatInterval r (pf_database p)) (pf_cache p)
  | DoCreateWorkflow end_ now principal key definition => (CreateWorkflow sha256 jsonb end_ now principal key definition p).1
  | DoCreateWorkflowVersion end_ now principal workflowID key definition =>
    (CreateWorkflowVersion sha256 jsonb end_ now principal workflowID key definition p).1
  | DoStart read end_ now newRunID principal workflowID version key =>
    (Start sha256 read end_ now newRunID principal workflowID version key p).1
  | DoRestart => mkPlatform (pf_database p) ∅
  end.
Definition perform_platform_all (rs : list platform_request) (p : platform) : platform := foldl (fun p r => perform_platform r p) p rs.

Lemma perform_platform_advances r p : jsonb_ok jsonb -> advances p (perform_platform r p).
Proof.
  intros Hjsonb. destruct r as [r|end_ now principal key d|end_ now principal id key d|read end_ now rid principal id version key|]; cbn [perform_platform].
  - intros [Hs Hcache]. destruct (protocol_maintains (pf_database p) (perform sha256 text_le leaseDuration workerHeartbeatInterval r (pf_database p))) as [H1 H2];
      [by apply perform_refines, Hs|by apply perform_typed|done|]. by split; [split|].
  - destruct (CreateWorkflow _ _ _ _ _ _ _ p) eqn:E. by eapply CreateWorkflow_advances in E.
  - destruct (CreateWorkflowVersion _ _ _ _ _ _ _ _ p) eqn:E. by eapply CreateWorkflowVersion_advances in E.
  - destruct (Start _ _ _ _ _ _ _ _ _ p) eqn:E. intros Hok. destruct (Start_cases _ _ _ _ _ _ _ _ _ _ _ Hok E) as (H1 & H2 & _). by split.
  - intros [Hs Hcache]. by split; [split|].
Qed.

Lemma perform_platform_all_advances rs : forall p, jsonb_ok jsonb -> advances p (perform_platform_all rs p).
Proof.
  induction rs as [|r rs IH]; intros p Hj; [done|]. etrans; [by apply (perform_platform_advances r)|by apply IH].
Qed.
End platform.
