(* ===== verification/PlatformTheorems.v ===== *)
(** * The control plane is correct

    The theorems about the requests of Platform.v: the invariant of everything
    that is stored, and idempotent starts.  Both hold for any sequence of
    requests of clients, workers and the controller, with any clocks, random
    identifiers, failures, lost answers and restarts. *)
From S2P Require Import Prelude Hoare GoStrings Json Model State Graph Compiler SnapshotJson CanonicalJson Scheduling Distributed Effects RunInvariant RunOperations RunResults RunProperties RunTheorems ChangeSet Stores Database Dispatch Workers Definitions Services Preserves DatabaseFacts DispatchSteps DispatchInvariant NewRuns Protocol Refinement TableTypes ProtocolTheorems Registry DispatchTheorems WorkerTheorems Platform.

Definition empty_platform : platform := mkPlatform (mkDatabase ∅ ∅ ∅ ∅ ∅ ∅) ∅.
Lemma empty_platform_ok : platform_ok empty_platform.
Proof.
  assert (Hct : constraints (pf_database empty_platform)) by by split.
  split; [|done]. split; [by split|split; [done| | |done]|done|done|split; try done].
  - by intros run key a (s & t & H & _).
  - by intros r1 r2 k1 k2 a1 a2 (s & t & H & _).
  - intros id v. split; [by intros [? ?]|by intros (w & ? & _)].
Qed.

Section platform.
Context (sha256 : string -> string) (jsonb : WorkflowDefinition -> option WorkflowDefinition).
Context (text_le : string -> string -> bool) (leaseDuration workerHeartbeatInterval : duration).
Abbreviation all_requests := (perform_platform_all sha256 jsonb text_le leaseDuration workerHeartbeatInterval).
Abbreviation Start := (Start sha256).

(** C1: Whatever requests arrive, the tables stay consistent: the dispatches agree
    with the tasks, the rows have their types, workers and runs keep to their
    limits, versions are numbered without gaps from 1 and are their own compiled
    form, every run carries the definition of the version it names, every
    idempotency record names what exists; and no request changes a stored
    version, a record, or the version a run belongs to. *)
Theorem platform_invariant rs p :
  jsonb_ok jsonb -> platform_ok p ->
  platform_ok (all_requests rs p) /\ kept (pf_database p) (pf_database (all_requests rs p)).
Proof. intros Hj. by apply perform_platform_all_advances. Qed.

(** C3: A start with a new key that is recorded - even if its answer was lost -
    stored one run, the one its version makes.  From then on, whatever happens in
    between, a start with this key stores nothing; it can only answer with that
    run, to the same request; and it does answer so whenever the version can be
    read and the transaction commits. *)
Theorem run_started_once read end_ now newRunID principal workflowID version key rs p p' r record :
  jsonb_ok jsonb -> platform_ok p -> Start read end_ now newRunID principal workflowID version key p = (p', r) ->
  idempotency (pf_database p) !! start_key principal key = None ->
  idempotency (pf_database p') !! start_key principal key = Some record ->
  let later := all_requests rs p' in
  exists id s row c', newRunID = Ok id /\ runs (pf_database p) !! id = None /\ runs (pf_database p') !! id = Some s /\
    versions (pf_database p') !! (DefinitionID (Run s), version) = Some row /\ Compile (v_definition row) = Ok c' /\
    NewRunSnapshotForVersion id (Some c') version now = Ok s /\
    (forall x, r = Ok x -> x = (mkStartRunResponse id WorkflowPending, true)) /\
    forall read' end' now' newRunID' workflowID' version' q r',
      Start read' end' now' newRunID' principal workflowID' version' key later = (q, r') ->
      pf_database q = pf_database later /\
      (forall x, r' = Ok x -> x = (mkStartRunResponse id WorkflowPending, false) /\
         startRequestHash sha256 workflowID' version' = startRequestHash sha256 workflowID version) /\
      (workflowID' = workflowID -> version' = version -> end' = Committed -> (exists id', newRunID' = Ok id' /\ id' ≠ "") ->
       (exists p1 c, compiled_version read' workflowID version later = (p1, Ok c)) ->
       r' = Ok (mkStartRunResponse id WorkflowPending, false)).
Proof.
  intros Hj Hok H Hnone Hrec later. destruct (Start_cases sha256 _ _ _ _ _ _ _ _ _ _ _ Hok H) as (Hok' & _ & Hcase).
  destruct Hcase as [[E _]|(id & c & row & s & -> & Hc & [Hunused Hrow (c' & Hcomp & Hnew & Hst) Hd Hid] & _ & Hrecd & Hs & Hv & Hacc & Hpos & Hr)].
  { rewrite E in Hrec. congruence. }
  exists id, s, row, c'. unfold recorded in Hrecd. assert (record = mkIdempotency (startRequestHash sha256 workflowID version) resourceRun id None) as -> by congruence.
  destruct (new_run_fresh c' id version now s (compiled_ok _ _ Hcomp) Hnew) as (_ & _ & _ & Hdid & Hdef & _).
  assert (Hdid' : DefinitionID (Run s) = wf_ID (definition c)) by (rewrite <-Hid, Hdid; congruence).
  split_and!; try done; [by rewrite Hdid', Hv|by intros [resp b] Hx; destruct (Hr _ _ Hx) as [-> ->]|].
  destruct (perform_platform_all_advances sha256 jsonb text_le leaseDuration workerHeartbeatInterval rs p' Hj Hok') as [Hokl Hkept].
  intros read' end' now' newRunID' workflowID' version' q r' Hq.
  destruct (Start_replay sha256 _ _ _ _ _ _ _ _ _ _ _ _ Hokl (kp_records _ _ Hkept _ _ Hrecd) Hq) as (Hdb & Hans & Hlive).
  split_and!; [done|intros x Hx; destruct (Hans x Hx) as [-> Hh]; split; [done|by rewrite <-Hh]|].
  intros -> -> Hend (id' & -> & Hne) (p1 & c1 & Hcv). rewrite (Hlive c1 p1 id' Hcv eq_refl Hne Hpos Hend Hacc).
  cbn. by rewrite bool_decide_eq_true_2.
Qed.
End platform.

(** ** The theorems at sample inputs *)

(** JSONB keeps a number by its value: what was written [1e2] is read as 100. *)
Definition sample_column (t : TaskDefinition) : option TaskDefinition :=
  let with_input input := mkTaskDefinition (def_Key t) (def_Executor t) (def_Action t) input (DependsOn t) (Retry t) (TimeoutMillis t) in
  match def_Input t with
  | None => Some (with_input None)
  | Some [("n", AnyNumber (Some number))] =>
    if bool_decide (number ∈ ["100"; "1e2"]) then Some (with_input (Some [("n", AnyNumber (Some "100"))]))
    else if bool_decide (number = "1") then Some t else None
  | _ => None
  end.
Definition sample_jsonb (d : WorkflowDefinition) : option WorkflowDefinition :=
  tasks ← mapM sample_column (def_Tasks d); Some (mkWorkflowDefinition (wf_ID d) (Concurrency d) tasks).

Lemma sample_column_ok t t' : sample_column t = Some t' ->
  cloneTask t' = Ok t' /\ def_Executor t' = def_Executor t /\ Retry t' = Retry t.
Proof.
  destruct t as [k e a i d r tm]. unfold sample_column. cbn [def_Input def_Key def_Executor def_Action DependsOn Retry TimeoutMillis].
  destruct i as [i|]; [|by intros [= <-]].
  repeat (match goal with |- context [match ?x with _ => _ end] => is_var x; destruct x end; try done).
  case_bool_decide; [by intros [= <-]|]. case_bool_decide as E; [|done]. subst. by intros [= <-].
Qed.
Lemma sample_jsonb_ok : jsonb_ok sample_jsonb.
Proof.
  split; intros d d' (ts & Hts & [= <-])%bind_Some; apply mapM_Some in Hts.
  - unfold cloneDefinition. cbn [def_Tasks wf_ID Concurrency].
    assert (E : cloneTasks ts = Ok ts); [|by rewrite E].
    induction Hts as [|t t' l l' Ht _ IH]; [done|]. cbn [cloneTasks]. destruct (sample_column_ok _ _ Ht) as (-> & _). cbn. by rewrite IH.
  - unfold has_defaults. cbn [def_Tasks]. induction Hts as [|t t' l l' Ht _ IH]; [done|]. intros [Hn Hl]%Forall_cons.
    constructor; [|by apply IH]. destruct (sample_column_ok _ _ Ht) as (_ & He & Hr). rewrite normalize_fixed in *. by rewrite He, Hr.
Qed.

Definition sample_flow (number : string) : WorkflowDefinition :=
  mkWorkflowDefinition "flow" 1
    [mkTaskDefinition "a" (ExecutorOther "") "echo" (Some [("n", AnyNumber (Some number))]) [] (mkRetryPolicy 1 0) 1000].
Abbreviation sample_platform := (perform_platform_all sample_sha256 sample_jsonb sample_text_le defaultLeaseDuration defaultWorkerHeartbeatInterval).
Definition created_platform (number : string) : platform :=
  sample_platform [DoCreateWorkflow Committed 1000 "alice" "c1" (sample_flow number)] empty_platform.
Lemma created_platform_ok number : platform_ok (created_platform number).
Proof. apply perform_platform_all_advances; [apply sample_jsonb_ok|apply empty_platform_ok]. Qed.

Definition sample_requests : list platform_request :=
  [DoCreateWorkflow Committed 1000 "alice" "c1" (sample_flow "1"); DoCreateWorkflowVersion Committed 1500 "alice" "flow" "c2" (sample_flow "100");
   DoStart Committed Committed 2000 (Ok "r1") "alice" "flow" 2 "s1";
   OnDispatcher (DoRegisterWorker (fun _ => Committed) sample_entropy (fun _ => 2500%Z) sample_request);
   OnDispatcher (DoCreateDispatches Committed no_lock (sample_tokens "d") 3000 10); DoRestart;
   OnDispatcher (DoClaim Committed no_lock (sample_tokens "t") 4000 sample_id 2)].

Lemma platform_invariant_witness :
  let p := sample_platform sample_requests empty_platform in
  count_leases sample_id (pf_database p) = 1%Z /\ is_Some (runs (pf_database p) !! "r1") /\ platform_ok p.
Proof.
  intros p. split_and!; [by vm_compute|by eexists; vm_compute|].
  destruct (platform_invariant sample_sha256 sample_jsonb sample_text_le defaultLeaseDuration defaultWorkerHeartbeatInterval
    sample_requests empty_platform sample_jsonb_ok empty_platform_ok) as [H _]. exact H.
Defined.

Definition lost_answer : fate := AnswerLost (Errorf "connection reset").
Definition sample_start (end_ : fate) (id : RunID) : go platform (StartRunResponse * bool) :=
  Start sample_sha256 Committed end_ 2000 (Ok id) "alice" "flow" 1 "s1".
Definition lost_platform : platform := (sample_start lost_answer "r1" (created_platform "1")).1.
Definition lost_error : outcome (StartRunResponse * bool) := (sample_start lost_answer "r1" (created_platform "1")).2.

Definition later_platform : platform :=
  sample_platform [DoRestart; OnDispatcher (DoCreateDispatches Committed no_lock (sample_tokens "d") 3000 10)] lost_platform.

Lemma run_started_once_witness :
  lost_error = Err (Errorf "connection reset") /\
  (sample_start Committed "r2" later_platform).2 = Ok (mkStartRunResponse "r1" WorkflowPending, false).
Proof.
  split; [vm_compute; reflexivity|].
  assert (Hrec : exists record, idempotency (pf_database lost_platform) !! start_key "alice" "s1" = Some record) by (eexists; vm_compute; reflexivity).
  destruct Hrec as [record Hrec].
  assert (Hcv : exists c, (compiled_version Committed "flow" 1 later_platform).2 = Ok c) by (eexists; vm_compute; reflexivity).
  destruct Hcv as [c Hcv].
  destruct (run_started_once sample_sha256 sample_jsonb sample_text_le defaultLeaseDuration defaultWorkerHeartbeatInterval
    Committed lost_answer 2000 (Ok "r1") "alice" "flow" 1 "s1" [DoRestart; OnDispatcher (DoCreateDispatches Committed no_lock (sample_tokens "d") 3000 10)]
    (created_platform "1") lost_platform lost_error record sample_jsonb_ok (created_platform_ok "1"))
    as (id & s & row & c' & Hid & _ & _ & _ & _ & _ & _ & Hlater); [by apply surjective_pairing|vm_compute; reflexivity|exact Hrec|].
  destruct (Hlater Committed Committed 2000%Z (Ok "r2") "flow" 1%Z _ _ (surjective_pairing _)) as (_ & _ & Hans).
  assert (id = "r1") as -> by (injection Hid as Hid; symmetry; exact Hid). apply Hans; [reflexivity|reflexivity|reflexivity|exists "r2"; split; [reflexivity|discriminate]|].
  exists (compiled_version Committed "flow" 1 later_platform).1, c. rewrite <-Hcv. apply surjective_pairing.
Defined.

(** The process that creates a version keeps the definition as it was sent.
    Where JSONB rewrites a number, the stored document differs from it, and
    the process refuses every start of its own version until it restarts. *)
Example cached_number_refused :
  let p := created_platform "1e2" in
  (sample_start Committed "r1" p).2 = Err (Errorf "Run snapshot definition does not match workflow version") /\
  (sample_start Committed "r1" (sample_platform [DoRestart] p)).2 = Ok (mkStartRunResponse "r1" WorkflowPending, true).
Proof. split; vm_compute; reflexivity. Qed.
