(* ===== verification/ListingTheorems.v ===== *)
(** * Listings miss nothing and repeat nothing

    Following the cursors of a listing while the tables change: the events of a
    run and the versions of a workflow come out as they are in the tables, the
    other listings in the order of their key, each row once. *)
From S2P Require Import Prelude Hoare GoStrings Json Model State Graph Compiler SnapshotJson CanonicalJson Scheduling Distributed Effects RunInvariant RunOperations RunResults RunProperties RunTheorems ChangeSet Stores Database Dispatch Workers Encoding EncodingFacts Definitions Services Cursors CursorFacts Queries Listings Pages Preserves DatabaseFacts DispatchSteps DispatchInvariant NewRuns Protocol Refinement TableTypes ProtocolTheorems Registry DispatchTheorems WorkerTheorems Platform PlatformTheorems.

(** ** Queries *)
Lemma filter_numbered {A} (f : A -> Z) b (m : nat) l : (forall k x, l !! k = Some x -> f x = (b + Z.of_nat k)%Z) ->
  filter (fun x => (b + Z.of_nat m - 1 < f x)%Z) l = drop m l.
Proof.
  revert b m. induction l as [|x l IH]; intros b m Hnum; [by destruct m|].
  assert (Hl : forall k y, l !! k = Some y -> f y = (b + 1 + Z.of_nat k)%Z) by (intros k y Hy; rewrite (Hnum (S k) y Hy); lia).
  pose proof (Hnum 0 x eq_refl) as Hx. rewrite filter_cons. destruct m as [|m].
  - rewrite decide_True by lia. cbn [drop]. f_equal. apply filter_all.
    intros y [k Hk]%list_elem_of_lookup. rewrite (Hl k y Hk). lia.
  - rewrite decide_False by lia. cbn [drop]. rewrite <-(IH (b + 1)%Z m Hl). apply list_filter_iff. intros y. lia.
Qed.
Lemma ensured_run id db : pg_text id = true -> is_Some (runs db !! id) -> ensureRunExists Committed id db = (db, Ok tt).
Proof. intros Ht [s Hs]. unfold ensureRunExists, select_row. rewrite Ht. go_step. unfold wrapped, transaction, gets. by rewrite Hs. Qed.
Lemma ensured_workflow id db : pg_text id = true -> is_Some (workflows db !! id) -> ensureWorkflowExists Committed id db = (db, Ok tt).
Proof. intros Ht [s Hs]. unfold ensureWorkflowExists, select_row. rewrite Ht. go_step. unfold wrapped, transaction, gets. by rewrite Hs. Qed.
Lemma limit_range limit size : normalizeLimit limit = Ok size -> (1 <= size <= 100)%Z.
Proof.
  unfold normalizeLimit, check, defaultPageSize, maxPageSize. destruct (limit =? 0)%Z eqn:E0; [intros [= <-]; lia|].
  destruct (_ || _) eqn:E; [done|]. intros [= <-]. rewrite orb_false_iff, !Z.ltb_ge in E. apply Z.eqb_neq in E0. lia.
Qed.
Lemma start_of {C K} cursor (start : K) (decode : string -> outcome C) key c : cursor ≠ "" -> decode cursor = Ok c ->
  start_after cursor start decode key = Ok (key c).
Proof. intros Hne H. unfold start_after, is_empty. rewrite bool_decide_eq_false_2 by done. by rewrite H. Qed.
Lemma last_take_lookup {A} (l : list A) m n a : last (take n (drop m l)) = Some a -> m + n <= length l -> 0 < n -> l !! (m + n - 1) = Some a.
Proof.
  intros H Hlen Hn. rewrite last_lookup, length_take, length_drop, lookup_take_lt, lookup_drop in H by lia.
  by replace (m + n - 1) with (m + pred (n `min` (length l - m))) by lia.
Qed.
Lemma last_exists {A} (l : list A) : 0 < length l -> exists a, last l = Some a.
Proof. destruct (last l) as [a|] eqn:E; [by exists a|]. apply last_None in E as ->. cbn. lia. Qed.

(** ** Events *)
Definition events_request (id : RunID) (limit : Z) (cursor : string) (db : database) : outcome (page StateEvent) :=
  (runService_ListEvents Committed Committed id cursor limit db).2.
Record readable_run (id : RunID) (db : database) : Prop := {
  rd_run : is_Some (runs db !! id);
  rd_events : events_contiguous 1 (event_rows id db) = true;
  rd_length : (Z.of_nat (length (event_rows id db)) < 2 ^ 63)%Z;
}.
Definition event_position (id : RunID) (cursor : string) (m : nat) : Prop :=
  start_after cursor 0%Z (fun c => decodeEventCursor c id) ec_Sequence = Ok (Z.of_nat m).

Lemma events_answers id limit size : pg_text id = true -> short id -> normalizeLimit limit = Ok size ->
  answers_log (events_request id limit) (fun e => e) (event_rows id) (readable_run id) (event_position id) (Z.to_nat size).
Proof.
  intros Htext Hshort Hsize cursor m db Hpos [Hrun Hev Hlen] Hm. pose proof (limit_range _ _ Hsize) as Hr. set (n := Z.to_nat size).
  pose proof (proj1 (events_contiguous_spec _ 1) Hev) as Hnum. unfold events_request, runService_ListEvents. rewrite Hsize. go_step.
  unfold event_position in Hpos. rewrite Hpos. go_step.
  assert (Hq : ListStateEvents Committed Committed id (Z.of_nat m) size db =
    (db, Ok (take n (drop m (event_rows id db)), (n <? length (drop m (event_rows id db)))%nat))).
  { unfold ListStateEvents. rewrite Htext. erewrite bind_run by (apply (select_ok _ _ _ _ n); unfold n; lia). cbv beta.
    assert (E : filter (fun e => (int64 (Z.of_nat m) < Sequence e)%Z) (event_rows id db) = drop m (event_rows id db)).
    { rewrite <-(filter_numbered Sequence 1 m _ Hnum). apply list_filter_iff. intros e.
      unfold int64. rewrite wrap64_id by lia. lia. }
    rewrite E. assert (Hpositive : existsb (fun e => (Sequence e <=? 0)%Z) (take (S n) (drop m (event_rows id db))) = false).
    { apply not_true_iff_false. intros (e & He & Hle)%existsb_exists. apply list_elem_of_In in He.
      apply elem_of_take in He as (k & Hk & _). rewrite lookup_drop in Hk. apply Hnum in Hk. apply Z.leb_le in Hle. lia. }
    rewrite Hpositive. go_step.
    erewrite (bind_run (if bool_decide _ then _ else _)) by (case_bool_decide; [by apply ensured_run|done]).
    unfold lift. replace size with (Z.of_nat n) by (unfold n; lia). by rewrite cut_take. }
  erewrite bind_run by exact Hq. unfold lift. cbn [snd]. rewrite length_drop.
  assert (Eb : (n <? length (event_rows id db) - m)%nat = (m + n <? length (event_rows id db))%nat).
  { apply eq_true_iff_eq. rewrite !Nat.ltb_lt. lia. }
  rewrite Eb. destruct (m + n <? _)%nat eqn:E; [|exists ""; by rewrite make_page_last]. apply Nat.ltb_lt in E.
  destruct (last_exists (take n (drop m (event_rows id db)))) as [a Ha]; [rewrite length_take, length_drop; unfold n in *; lia|].
  assert (Hseq : Sequence a = Z.of_nat (m + n)).
  { apply last_take_lookup in Ha; [|lia|unfold n; lia]. apply Hnum in Ha. unfold n in *. lia. }
  destruct (event_cursor_ok id (Sequence a) Hshort) as [c Hc]; [unfold n in *; lia|].
  destruct (event_cursor id (Sequence a) c id) as [Hne Hdec]; [by apply pg_text_valid|unfold n in *; lia|done|].
  rewrite decide_True in Hdec by done. exists c. rewrite (make_page_more _ _ _ _ _ Ha Hc). split; [done|]. split; [done|].
  unfold event_position. rewrite (start_of _ _ _ _ _ Hne Hdec). cbn. by rewrite Hseq.
Qed.

(** ** Versions *)
Definition versions_request (id : string) (limit : Z) (cursor : string) (db : database) : outcome (page VersionSummary) :=
  (workflowService_ListVersions Committed Committed id cursor limit db).2.
Definition version_record (id : string) (a : Z * version_row) : VersionRecord :=
  mkVersionRecord id a.1 (v_created_at a.2) (v_created_by a.2).
Definition version_position (id : string) (cursor : string) (m : nat) : Prop :=
  start_after cursor 0%Z (fun c => decodeVersionCursor c id) vc_AfterVersion = Ok (Z.of_nat m).
Record readable_workflow (id : string) (db : database) : Prop := {
  rw_registry : registry db;
  rw_workflow : is_Some (workflows db !! id);
}.

Lemma elem_of_version_rows id db v row : (v, row) ∈ version_rows id db <-> versions db !! (id, v) = Some row.
Proof.
  unfold version_rows. rewrite order_by_Permutation, list_elem_of_fmap. split.
  - intros ([[i v'] row'] & [= -> ->] & [-> H]%list_elem_of_filter). by apply elem_of_map_to_list.
  - intros H. exists ((id, v), row). split; [done|]. apply list_elem_of_filter. split; [done|]. by apply elem_of_map_to_list.
Qed.
Lemma version_rows_NoDup id db : NoDup (version_rows id db).*1.
Proof.
  unfold version_rows. rewrite order_by_Permutation, <-list_fmap_compose. apply NoDup_fmap_2_strong; [|apply NoDup_filter, NoDup_map_to_list].
  intros [[i v] row] [[i' v'] row'] [-> H]%list_elem_of_filter [-> H']%list_elem_of_filter. cbn. intros ->.
  apply elem_of_map_to_list in H, H'. by simplify_eq.
Qed.
Lemma version_numbers id db w : registry db -> workflows db !! id = Some w -> (version_rows id db).*1 = seqZ 1 (wr_latest_version w).
Proof.
  intros Hreg Hw. apply (StronglySorted_unique Z.le).
  - apply StronglySorted_fmap with (R1 := fun a b => Is_true (a.1 <=? b.1)%Z).
    + intros a b H. by apply Z.leb_le, Is_true_eq_true.
    + apply StronglySorted_merge_sort; [intros a b c; unfold Is_true; repeat case_match; rewrite ?Z.leb_le, ?Z.leb_gt in *; done || lia|].
      intros a b. unfold Is_true. destruct (a.1 <=? b.1)%Z eqn:E; [by left|right]. apply Z.leb_gt in E. case_match; [done|]. rewrite Z.leb_gt in *. lia.
  - apply sorted_lookup. intros i j x y Hij Hx Hy. apply lookup_seqZ in Hx as [-> _], Hy as [-> _]. lia.
  - apply NoDup_Permutation; [apply version_rows_NoDup|apply NoDup_seqZ|]. intros v. rewrite elem_of_seqZ, list_elem_of_fmap.
    pose proof (rg_versions db Hreg id v) as Hv. split.
    + intros ([v' row] & -> & Hin%elem_of_version_rows). cbn. destruct (proj1 (rg_versions db Hreg id v')) as (w' & Hw' & Hr); [by exists row|]. simplify_eq. lia.
    + intros Hr. destruct (proj2 Hv) as [row Hrow]; [exists w; split; [done|lia]|]. exists (v, row). split; [done|]. by apply elem_of_version_rows.
Qed.
Lemma version_row_number id db w k a : registry db -> workflows db !! id = Some w -> version_rows id db !! k = Some a -> a.1 = (1 + Z.of_nat k)%Z.
Proof.
  intros Hreg Hw Ha. pose proof (version_numbers id db w Hreg Hw) as E. apply (f_equal (.!! k)) in E. rewrite list_lookup_fmap, Ha in E.
  symmetry in E. by apply lookup_seqZ in E as [? _].
Qed.
Lemma version_rows_length id db w : registry db -> workflows db !! id = Some w -> Z.of_nat (length (version_rows id db)) = wr_latest_version w.
Proof.
  intros Hreg Hw. pose proof (version_numbers id db w Hreg Hw) as E. apply (f_equal length) in E. rewrite length_fmap, length_seqZ in E.
  pose proof (rg_latest _ Hreg _ _ Hw). lia.
Qed.
Lemma version_rows_kept id db db' : readable_workflow id db -> registry db' -> kept db db' -> version_rows id db `prefix_of` version_rows id db'.
Proof.
  intros [Hreg [w Hw]] Hreg' Hk. destruct (kp_workflows _ _ Hk id w Hw) as (w' & Hw' & _ & _ & Hle). apply prefix_lookup_iff. intros i [v row] Hi.
  pose proof (version_row_number id db w i _ Hreg Hw Hi) as Hv. cbn in Hv.
  assert (Hin : (v, row) ∈ version_rows id db') by (apply elem_of_version_rows, (kp_versions _ _ Hk), elem_of_version_rows; by eapply list_elem_of_lookup_2).
  apply list_elem_of_lookup in Hin as [j Hj]. pose proof (version_row_number id db' w' j _ Hreg' Hw' Hj) as Hv'. cbn in Hv'.
  by replace i with j by lia.
Qed.

Lemma versions_answers id limit size : match_identifier id = true -> normalizeLimit limit = Ok size ->
  answers_log (versions_request id limit) (fun a => versionSummary (version_record id a)) (version_rows id) (readable_workflow id) (version_position id) (Z.to_nat size).
Proof.
  intros Hident Hsize cursor m db Hpos [Hreg [w Hw]] Hm. pose proof (limit_range _ _ Hsize) as Hr. set (n := Z.to_nat size).
  destruct (identifier_valid_text id Hident) as (Hvalid & Hne0 & Hshort). assert (Htext : pg_text id = true) by by apply identifier_pg_text.
  pose proof (fun k x => version_row_number id db w k x Hreg Hw) as Hnum. pose proof (version_rows_length id db w Hreg Hw) as Hlatest.
  pose proof (rg_latest _ Hreg _ _ Hw) as Hmax. unfold max_integer in Hmax.
  unfold versions_request, workflowService_ListVersions. rewrite Hsize. go_step. unfold version_position in Hpos. rewrite Hpos. go_step.
  assert (Hq : ListVersions Committed Committed id (Z.of_nat m) size db =
    (db, Ok (version_record id <$> take n (drop m (version_rows id db)), (n <? length (drop m (version_rows id db)))%nat))).
  { unfold ListVersions. assert (Hint : is_integer (Z.of_nat m) = true) by (unfold is_integer, max_integer; rewrite andb_true_iff, !Z.leb_le; lia).
    rewrite Htext, Hint. erewrite bind_run by (apply (select_ok _ _ _ _ n); unfold n; lia). cbv beta.
    assert (E : filter (fun '(v, _) => (Z.of_nat m < v)%Z) (version_rows id db) = drop m (version_rows id db)).
    { rewrite <-(filter_numbered fst 1 m _ Hnum). apply list_filter_iff. intros [v row]. cbn. lia. }
    rewrite E. assert (Ef : (fun '(v, row) => mkVersionRecord id v (v_created_at row) (v_created_by row)) <$> drop m (version_rows id db) =
      version_record id <$> drop m (version_rows id db)) by (apply list_fmap_ext; by intros ? [v row] _).
    rewrite Ef. erewrite (bind_run (if bool_decide _ then _ else _)) by (case_bool_decide; [by apply ensured_workflow|done]).
    unfold lift. replace size with (Z.of_nat n) by (unfold n; lia). rewrite cut_take, length_fmap. by rewrite fmap_take. }
  erewrite bind_run by exact Hq. unfold lift. cbn [snd]. rewrite length_drop.
  assert (Eb : (n <? length (version_rows id db) - m)%nat = (m + n <? length (version_rows id db))%nat).
  { apply eq_true_iff_eq. rewrite !Nat.ltb_lt. lia. }
  rewrite Eb. destruct (m + n <? _)%nat eqn:E; [|exists ""; by rewrite make_page_last, <-list_fmap_compose]. apply Nat.ltb_lt in E.
  destruct (last_exists (take n (drop m (version_rows id db)))) as [a Ha]; [rewrite length_take, length_drop; unfold n in *; lia|].
  assert (Hseq : a.1 = Z.of_nat (m + n)).
  { apply last_take_lookup in Ha; [|lia|unfold n; lia]. apply Hnum in Ha. unfold n in *. lia. }
  destruct (version_cursor_ok id a.1) as [c Hc]; [unfold short; lia|unfold n in *; lia|].
  destruct (version_cursor id a.1 c id) as [Hne Hdec]; [done|unfold n in *; lia|done|].
  rewrite decide_True in Hdec by done. exists c. rewrite (make_page_more _ _ _ (version_record id a) c); [|by rewrite fmap_last, Ha|done].
  rewrite <-list_fmap_compose. split; [done|]. split; [done|].
  unfold version_position. rewrite (start_of _ _ _ _ _ Hne Hdec). cbn. by rewrite Hseq.
Qed.

(** ** Orders *)
Record total_order {K} (le : K -> K -> bool) : Prop := {
  to_total : forall a b, le a b = true \/ le b a = true;
  to_trans : forall a b c, le a b = true -> le b c = true -> le a c = true;
  to_antisym : forall a b, le a b = true -> le b a = true -> a = b;
}.
(** A deterministic collation, in which the empty text comes first. *)
Record collation (text_le : string -> string -> bool) : Prop := {
  co_order : total_order text_le;
  co_empty : forall s, text_le s "" = true -> s = "";
}.
Lemma time_then_text_order text_le : total_order text_le -> total_order (time_then_text text_le).
Proof.
  intros [H1 H2 H3]. split; unfold time_then_text.
  - intros [t1 s1] [t2 s2]. cbn. destruct (Z.lt_total t1 t2) as [Hlt|[->|Hlt]].
    + left. apply Z.ltb_lt in Hlt. by rewrite Hlt.
    + rewrite Z.eqb_refl. destruct (H1 s1 s2) as [->| ->]; rewrite ?orb_true_r; auto.
    + right. apply Z.ltb_lt in Hlt. by rewrite Hlt.
  - intros [t1 s1] [t2 s2] [t3 s3]. cbn. rewrite !orb_true_iff, !andb_true_iff, !Z.ltb_lt, !Z.eqb_eq.
    intros [?|[-> ?]] [?|[-> ?]]; [left; lia..|right; split; [done|by eapply H2]].
  - intros [t1 s1] [t2 s2]. cbn. rewrite !orb_true_iff, !andb_true_iff, !Z.ltb_lt, !Z.eqb_eq.
    intros [?|[-> ?]] [?|[? ?]]; try lia. f_equal. by apply H3.
Qed.
Lemma order_by_sorted {A K} (le : K -> K -> bool) (key : A -> K) (l : list A) : total_order le -> NoDup (key <$> l) ->
  StronglySorted (fun a b => negb (le (key b) (key a)) = true) (order_by (fun a b => le (key a) (key b)) l).
Proof.
  intros [H1 H2 H3] Hnd. pose proof (Refinement.order_by_Permutation (fun a b => le (key a) (key b)) l) as Hp.
  assert (Hs : StronglySorted (fun a b => Is_true (le (key a) (key b))) (order_by (fun a b => le (key a) (key b)) l)).
  { apply StronglySorted_merge_sort.
    - intros a b c Ha Hb. apply Is_true_eq_left. apply Is_true_eq_true in Ha, Hb. by eapply H2.
    - intros a b. destruct (H1 (key a) (key b)) as [E|E]; [left|right]; by apply Is_true_eq_left. }
  rewrite <-Hp in Hnd. clear Hp. induction Hs as [|a l' _ IH Ha]; constructor; cbn in Hnd; apply NoDup_cons in Hnd as [Hn Hnd]; [by apply IH|].
  rewrite Forall_forall in *. intros b Hb. apply negb_true_iff, not_true_iff_false. intros Hba. apply Hn.
  rewrite (H3 (key a) (key b)); [by apply list_elem_of_fmap_2|by apply Is_true_eq_true, Ha|done].
Qed.
Lemma beyond_order {K} (le : K -> K -> bool) : total_order le ->
  (forall k, negb (le k k) = false) /\ (forall p k k', negb (le k p) = true -> negb (le k' k) = true -> negb (le k' p) = true).
Proof.
  intros [H1 H2 H3]. split.
  - intros k. destruct (H1 k k) as [-> | ->]; done.
  - intros p k k'. rewrite !negb_true_iff, <-!not_true_iff_false. intros Hkp Hk'k Hk'p. apply Hkp.
    destruct (H1 k k') as [E|E]; [by eapply H2|done].
Qed.

(** ** Workflows *)
Section workflows.
Context (text_le : string -> string -> bool) (Hcoll : collation text_le).
Definition workflows_request (limit : Z) (cursor : string) (db : database) : outcome (page WorkflowSummary) :=
  (workflowService_List text_le Committed cursor limit db).2.
Definition workflow_position (cursor p : string) : Prop :=
  start_after cursor "" decodeWorkflowCursor wc_WorkflowID = Ok p /\ pg_text p = true.
Definition after_text (p k : string) : bool := negb (text_le k p).

Lemma workflows_ordered : ordered (workflow_rows text_le) fst after_text (fun k => k) registry.
Proof.
  destruct (beyond_order _ (co_order _ Hcoll)) as [Hi Ht]. split; [|exact Hi|exact Ht].
  intros db _. unfold key_lt, after_text. apply (order_by_sorted text_le fst); [apply Hcoll|apply NoDup_fst_map_to_list].
Qed.
Lemma workflows_answers limit size : normalizeLimit limit = Ok size ->
  answers_keyset (workflows_request limit) (fun a => workflowSummary (workflow_record a.1 a.2)) (workflow_rows text_le) fst after_text (fun k => k)
    registry workflow_position (Z.to_nat size).
Proof.
  intros Hsize cursor p db [Hpos Hp] Hreg found. pose proof (limit_range _ _ Hsize) as Hr. set (n := Z.to_nat size).
  unfold workflows_request, workflowService_List. rewrite Hsize. go_step. rewrite Hpos. go_step.
  assert (Hq : ListWorkflows text_le Committed p size db =
    (db, Ok ((fun a => workflow_record a.1 a.2) <$> take n found, (n <? length found)%nat))).
  { unfold ListWorkflows. rewrite Hp. erewrite bind_run by (apply (select_ok _ _ _ _ n); unfold n; lia). cbv beta.
    assert (E : filter (fun '(id, _) => text_le id p = false) (workflow_rows text_le db) = found).
    { apply list_filter_iff. intros [id w]. unfold after_text. cbn. by rewrite negb_true_iff. }
    rewrite E. assert (Ef : (fun '(id, w) => workflow_record id w) <$> found = (fun a => workflow_record a.1 a.2) <$> found) by (apply list_fmap_ext; by intros ? [id w] _).
    rewrite Ef. unfold lift. replace size with (Z.of_nat n) by (unfold n; lia). rewrite cut_take, length_fmap. by rewrite fmap_take. }
  erewrite bind_run by exact Hq. unfold lift. cbn [snd].
  destruct (n <? _)%nat eqn:E; [|exists ""; by rewrite make_page_last, <-list_fmap_compose]. apply Nat.ltb_lt in E.
  destruct (last_exists (take n found)) as [a Ha]; [rewrite length_take; unfold n in *; lia|].
  assert (Hid : match_identifier a.1 = true).
  { apply last_Some in Ha as [l El]. assert (Hin : a ∈ take n found) by (rewrite El; apply elem_of_app; right; by left).
    apply elem_of_take in Hin as (i & Hi & _). apply list_elem_of_lookup_2, list_elem_of_filter in Hi as [_ Hi].
    unfold workflow_rows in Hi. rewrite Refinement.order_by_Permutation in Hi. destruct a as [id w]. apply elem_of_map_to_list in Hi. by eapply rg_ids. }
  destruct (identifier_valid_text _ Hid) as (Hvalid & Hne0 & Hshort). destruct (workflow_cursor_ok a.1) as [c Hc]; [unfold short; lia|].
  destruct (workflow_cursor a.1 c Hvalid Hne0 Hc) as [Hne Hdec]. exists c.
  rewrite (make_page_more _ _ _ (workflow_record a.1 a.2) c); [|by rewrite fmap_last, Ha|done]. rewrite <-list_fmap_compose.
  split; [done|]. split; [done|]. exists a. split; [done|]. split; [by rewrite (start_of _ _ _ _ _ Hne Hdec)|by apply identifier_pg_text].
Qed.
End workflows.

(** ** Tasks *)
Definition tasks_request (id : RunID) (limit : Z) (cursor : string) (db : database) : outcome (page TaskSummary) :=
  (runService_ListTasks Committed Committed id cursor limit db).2.
Definition task_position (id : RunID) (cursor : string) (p : Z) : Prop :=
  start_after cursor (-1)%Z (fun c => decodeTaskCursor c id) tc_TaskIndex = Ok p /\ is_integer p = true.
(** task_index is an INTEGER column. *)
Record readable_tasks (id : RunID) (db : database) : Prop := {
  rt_run : is_Some (runs db !! id);
  rt_indexes : (Z.of_nat (length (task_rows id db)) <= max_integer)%Z;
}.
Lemma task_row_index id db k r : task_rows id db !! k = Some r -> tr_Index r = Z.of_nat k.
Proof.
  unfold task_rows. destruct (runs db !! id); [|done]. rewrite list_lookup_imap. intros (t & _ & ->)%fmap_Some. done.
Qed.
Lemma tasks_ordered id : ordered (task_rows id) tr_Index Z.ltb (fun k => k) (readable_tasks id).
Proof.
  split.
  - intros db _. apply sorted_lookup. intros i j x y Hij Hx%task_row_index Hy%task_row_index. unfold key_lt. apply Z.ltb_lt. lia.
  - intros k. apply Z.ltb_irrefl.
  - intros p k k'. rewrite !Z.ltb_lt. lia.
Qed.
Lemma tasks_answers id limit size : pg_text id = true -> short id -> normalizeLimit limit = Ok size ->
  answers_keyset (tasks_request id limit) taskSummary (task_rows id) tr_Index Z.ltb (fun k => k) (readable_tasks id) (task_position id) (Z.to_nat size).
Proof.
  intros Htext Hshort Hsize cursor p db [Hpos Hp] [Hrun Hmax] found. pose proof (limit_range _ _ Hsize) as Hr. set (n := Z.to_nat size).
  unfold tasks_request, runService_ListTasks. rewrite Hsize. go_step. rewrite Hpos. go_step.
  assert (Hq : ListTaskRuns Committed Committed id p size db = (db, Ok (take n found, (n <? length found)%nat))).
  { unfold ListTaskRuns. rewrite Htext, Hp. erewrite bind_run by (apply (select_ok _ _ _ _ n); unfold n; lia). cbv beta.
    assert (E : filter (fun r => (p < tr_Index r)%Z) (task_rows id db) = found).
    { apply list_filter_iff. intros r. by rewrite Z.ltb_lt. }
    rewrite E. erewrite (bind_run (if bool_decide _ then _ else _)) by (case_bool_decide; [by apply ensured_run|done]).
    unfold lift. replace size with (Z.of_nat n) by (unfold n; lia). by rewrite cut_take. }
  erewrite bind_run by exact Hq. unfold lift. cbn [snd].
  destruct (n <? _)%nat eqn:E; [|exists ""; by rewrite make_page_last]. apply Nat.ltb_lt in E.
  destruct (last_exists (take n found)) as [a Ha]; [rewrite length_take; unfold n in *; lia|].
  assert (Hidx : (0 <= tr_Index a <= max_integer)%Z).
  { apply last_Some in Ha as [l El]. assert (Hin : a ∈ take n found) by (rewrite El; apply elem_of_app; right; by left).
    apply elem_of_take in Hin as (i & Hi & _). apply list_elem_of_lookup_2, list_elem_of_filter in Hi as [_ Hi].
    apply list_elem_of_lookup in Hi as [k Hk]. pose proof (lookup_lt_Some _ _ _ Hk). apply task_row_index in Hk. lia. }
  unfold max_integer in Hidx. destruct (task_cursor_ok id (tr_Index a) Hshort) as [c Hc]; [lia|].
  destruct (task_cursor id (tr_Index a) c id) as [Hne Hdec]; [by apply pg_text_valid|lia|done|]. rewrite decide_True in Hdec by done.
  exists c. rewrite (make_page_more _ _ _ _ _ Ha Hc). split; [done|]. split; [done|]. exists a. split; [done|].
  split; [by rewrite (start_of _ _ _ _ _ Hne Hdec)|]. unfold is_integer, max_integer. rewrite andb_true_iff, !Z.leb_le. lia.
Qed.

(** ** Runs *)
Section listed_runs.
Context (sha256 : string -> string) (Hsha : forall s, String.length (sha256 s) = 32).
Context (text_le : string -> string -> bool) (Hcoll : collation text_le) (local : time -> Z).
Context (workflowID : string) (status_text : string) (status : WorkflowStatus).
Definition runs_request (limit : Z) (cursor : string) (db : database) : outcome (page RunSummary) :=
  (runService_List sha256 text_le local Committed (mkRunListOptions cursor limit workflowID status_text) db).2.
Definition listed_query (p : option (time * string)) : RunQuery := mkRunQuery workflowID status (fst <$> p) (from_option snd "" p).
Definition run_position (cursor : string) (p : option (time * string)) : Prop :=
  run_query sha256 (mkRunListOptions cursor 0 workflowID status_text) status = Ok (listed_query p) /\
  forall t id, p = Some (t, id) -> id ≠ "" /\ pg_text id = true /\ microseconds t = t.
Definition after_run (p : option (time * string)) (k : time * string) : bool :=
  match p with None => true | Some p => negb (run_le text_le k p) end.
Definition selected_runs (db : database) : list (RunID * RunSnapshot) :=
  filter (fun a => run_selected (listed_query None) a = true) (run_rows text_le db).
(** What the listing can show: identifiers that are short texts, and times with
    microseconds that RFC 3339 can write. *)
Definition showable (id : RunID) (s : RunSnapshot) : Prop :=
  pg_text id = true /\ id ≠ "" /\ short id /\ CreatedAt (Run s) ≠ 0%Z /\ microseconds (CreatedAt (Run s)) = CreatedAt (Run s) /\
  is_Some (format_time (local (CreatedAt (Run s))) (CreatedAt (Run s))) /\ (0 <= Revision (Run s))%Z.
Definition showable_runs (db : database) : Prop := forall id s, runs db !! id = Some s -> showable id s.

Lemma elem_of_run_rows db id s : (id, s) ∈ run_rows text_le db <-> runs db !! id = Some s.
Proof. unfold run_rows. rewrite Refinement.order_by_Permutation. apply elem_of_map_to_list. Qed.
Lemma runs_ordered : ordered selected_runs run_key after_run Some showable_runs.
Proof.
  destruct (beyond_order _ (time_then_text_order _ (co_order _ Hcoll))) as [Hi Ht]. split; [|exact Hi|].
  - intros db _. apply filter_sorted. apply (order_by_sorted (run_le text_le) run_key); [apply time_then_text_order, Hcoll|].
    apply NoDup_fmap_2_strong; [|apply NoDup_map_to_list]. intros [i s] [i' s'] H H'. unfold run_key. cbn. intros [= _ ->].
    apply elem_of_map_to_list in H, H'. by simplify_eq.
  - intros [p|] k k'; [apply Ht|done].
Qed.
Lemma runs_answers limit size : normalizeLimit limit = Ok size -> parseRunStatus status_text = Ok status -> pg_text workflowID = true ->
  answers_keyset (runs_request limit) (fun a => runSummary (run_record a)) selected_runs run_key after_run Some
    showable_runs run_position (Z.to_nat size).
Proof.
  intros Hsize Hstatus Htext cursor p db [Hpos Hp] Hgood found. pose proof (limit_range _ _ Hsize) as Hr. set (n := Z.to_nat size).
  assert (Hfound : forall a, a ∈ found -> showable a.1 a.2).
  { intros [id s] [_ [_ Hin]%list_elem_of_filter]%list_elem_of_filter. by apply elem_of_run_rows, Hgood in Hin. }
  unfold runs_request, runService_List. cbn [ro_Cursor ro_Limit ro_WorkflowID ro_Status]. rewrite Hsize. go_step. rewrite Hstatus. go_step.
  unfold run_query in *. cbn [ro_Cursor ro_Limit ro_WorkflowID ro_Status] in *. rewrite Hpos. go_step.
  assert (Hq : ListRunSummaries text_le Committed (listed_query p) size db =
    (db, Ok (run_record <$> take n found, (n <? length found)%nat))).
  { unfold ListRunSummaries. assert (Hxor : xorb (bool_decide (rq_AfterCreated (listed_query p) = None)) (is_empty (rq_AfterRunID (listed_query p))) = false).
    { destruct p as [[t id]|]; [|done]. destruct (Hp t id eq_refl) as (Hne & _). cbn. unfold is_empty. by rewrite bool_decide_eq_false_2. }
    rewrite Hxor. go_step. assert (Hsend : pg_text (rq_WorkflowID (listed_query p)) && pg_text (workflow_status_string (rq_Status (listed_query p))) &&
      pg_text (rq_AfterRunID (listed_query p)) = true).
    { cbn [listed_query rq_WorkflowID rq_Status rq_AfterRunID]. rewrite Htext, andb_true_l, andb_true_iff. split.
      - clear Hxor. unfold parseRunStatus in Hstatus. cbv zeta in Hstatus. case_bool_decide as Hin; [|done]. injection Hstatus as <-.
        rewrite list_elem_of_In in Hin. cbn in Hin. destruct_or! Hin; rewrite <-?Hin; done.
      - destruct p as [[t id]|]; [|done]. by destruct (Hp t id eq_refl) as (_ & ? & _). }
    rewrite Hsend. erewrite bind_run by (apply (select_ok _ _ _ _ n); unfold n; lia). cbv beta.
    assert (E : filter (fun a => run_selected (listed_query p) a && run_after text_le (listed_query p) a = true) (run_rows text_le db) = found).
    { unfold found, behind, selected_runs. rewrite list_filter_filter. apply list_filter_iff. intros a. rewrite andb_true_iff.
      assert (Ha : run_after text_le (listed_query p) a = after_run p (run_key a)).
      { destruct p as [[t id]|]; [|done]. destruct (Hp t id eq_refl) as (_ & _ & Ht). unfold run_after, after_run. cbn. by rewrite Ht. }
      rewrite Ha. unfold run_selected. cbn. tauto. }
    rewrite E. assert (Hrev : existsb (fun a => (Revision (Run a.2) <? 0)%Z) (take (S n) found) = false).
    { apply not_true_iff_false. intros (a & Ha & Hlt)%existsb_exists. apply list_elem_of_In, elem_of_take in Ha as (i & Hi & _).
      apply list_elem_of_lookup_2, Hfound in Hi as (_ & _ & _ & _ & _ & _ & Hi). apply Z.ltb_lt in Hlt. lia. }
    rewrite Hrev. go_step. unfold lift. replace size with (Z.of_nat n) by (unfold n; lia). rewrite fmap_take, cut_take, length_fmap. by rewrite fmap_take. }
  erewrite bind_run by exact Hq. unfold lift. cbn [snd].
  destruct (n <? _)%nat eqn:E; [|exists ""; by rewrite make_page_last, <-list_fmap_compose]. apply Nat.ltb_lt in E.
  destruct (last_exists (take n found)) as [a Ha]; [rewrite length_take; unfold n in *; lia|].
  assert (Hshow : showable a.1 a.2).
  { apply Hfound. apply last_Some in Ha as [l El]. assert (Hin : a ∈ take n found) by (rewrite El; apply elem_of_app; right; by left).
    apply elem_of_take in Hin as (i & Hi & _). by eapply list_elem_of_lookup_2. }
  destruct Hshow as (Hid & Hne0 & Hshort & Ht0 & Htm & Hfmt & _).
  destruct (run_cursor_ok sha256 local (CreatedAt (Run a.2)) a.1 workflowID status Hsha Hshort Hfmt) as [c Hc].
  destruct (run_cursor sha256 local (CreatedAt (Run a.2)) a.1 workflowID status c workflowID status) as [Hne Hdec]; [by apply pg_text_valid|done..|].
  rewrite decide_True in Hdec by done. exists c.
  rewrite (make_page_more _ _ _ (run_record a) c); [|by rewrite fmap_last, Ha|done]. rewrite <-list_fmap_compose.
  split; [done|]. split; [done|]. exists a. split; [done|]. split; [|by intros t id [= <- <-]].
  unfold run_query. cbn [ro_Cursor ro_WorkflowID]. rewrite (start_of _ _ _ _ _ Hne Hdec). done.
Qed.
End listed_runs.

(** ** While requests go on *)
Section visited.
Context (sha256 : string -> string) (jsonb : WorkflowDefinition -> option WorkflowDefinition).
Context (text_le : string -> string -> bool) (leaseDuration workerHeartbeatInterval : duration).

(** The tables at each request for a page, with the requests of others between
    one page and the next. *)
Fixpoint visited (p : platform) (between : list (list platform_request)) : list database :=
  pf_database p ::
  match between with
  | [] => []
  | rs :: between => visited (perform_platform_all sha256 jsonb text_le leaseDuration workerHeartbeatInterval rs p) between
  end.

Lemma visited_kept between : forall p, jsonb_ok jsonb -> platform_ok p ->
  StronglySorted kept (visited p between) /\ Forall stored_ok (visited p between) /\ Forall (kept (pf_database p)) (visited p between).
Proof.
  induction between as [|rs between IH]; intros p Hj Hok; cbn [visited].
  - split_and!; [by repeat constructor|apply Forall_singleton; apply Hok|by apply Forall_singleton].
  - destruct (perform_platform_all_advances sha256 jsonb text_le leaseDuration workerHeartbeatInterval rs p Hj Hok) as [Hok' Hk].
    destruct (IH _ Hj Hok') as (H1 & H2 & H3).
    assert (H3' : Forall (kept (pf_database p)) (visited (perform_platform_all sha256 jsonb text_le leaseDuration workerHeartbeatInterval rs p) between))
      by (eapply Forall_impl; [exact H3|]; intros db Hdb; by etrans).
    split_and!; [by constructor|constructor; [apply Hok|done]|by constructor].
Qed.
Lemma event_rows_kept id db db' : kept db db' -> event_rows id db `prefix_of` event_rows id db'.
Proof.
  intros Hk. unfold event_rows. destruct (runs db !! id) as [s|] eqn:Hs; [|apply prefix_nil].
  destruct (kp_runs _ _ Hk id s Hs) as (s' & -> & _ & _ & _ & _ & He). exact He.
Qed.

(** C22: While other requests go on between the pages, following the cursors of
    the events of a run gives the log as it is in the tables at one of the
    requests, each event once and none missing; so do the cursors of the versions
    of a workflow, numbered from 1 to its latest.  The client gets there when it
    asks for more pages than there are full ones. *)
Theorem history_listed between p limit size N :
  jsonb_ok jsonb -> platform_ok p -> normalizeLimit limit = Ok size ->
  let dbs := visited p between in
  N < Z.to_nat size * length dbs ->
  (forall id, is_Some (runs (pf_database p) !! id) -> pg_text id = true -> short id ->
     (forall db, db ∈ dbs -> length (event_rows id db) <= N) -> (Z.of_nat N < 2 ^ 63)%Z ->
     exists db, db ∈ dbs /\ follow (events_request id limit) "" dbs = Ok (event_rows id db)) /\
  (forall id, is_Some (workflows (pf_database p) !! id) -> (forall db, db ∈ dbs -> length (version_rows id db) <= N) ->
     exists db w, db ∈ dbs /\ workflows db !! id = Some w /\ (version_rows id db).*1 = seqZ 1 (wr_latest_version w) /\
       follow (versions_request id limit) "" dbs = Ok ((fun a => versionSummary (version_record id a)) <$> version_rows id db)).
Proof.
  intros Hj Hok Hsize dbs HN. pose proof (limit_range _ _ Hsize) as Hr. destruct (visited_kept between p Hj Hok) as (Hs & Hstored & Hkept).
  fold dbs in Hs, Hstored, Hkept. rewrite !Forall_forall in *. split.
  - intros id [s Hrun] Htext Hshort Hlen Hmax.
    assert (Hread : Forall (readable_run id) dbs).
    { apply Forall_forall. intros db Hdb. destruct (kp_runs _ _ (Hkept db Hdb) id s Hrun) as (s' & Hs' & _). split; [by exists s'| |].
      - unfold event_rows. rewrite Hs'. destruct (db_runs _ (so_rows _ (Hstored db Hdb)) _ _ Hs') as (_ & c & Hst). apply (sr_loadable _ _ Hst).
      - specialize (Hlen db Hdb). lia. }
    destruct (log_pages (events_request id limit) (fun e => e) (event_rows id) (readable_run id) (event_position id) (Z.to_nat size) ltac:(lia)
      N (events_answers id limit size Htext Hshort Hsize) dbs "" 0) as (db & Hdb & Hf); [|exact Hread| |done|lia|].
    + apply sorted_lookup. intros i j x y Hij Hx Hy. apply event_rows_kept. by eapply (sorted_lookup_1 kept dbs Hs).
    + apply Forall_forall. intros db Hdb. specialize (Hlen db Hdb). lia.
    + exists db. split; [done|]. by rewrite Hf, list_fmap_id.
  - intros id [w Hw] Hlen.
    assert (Hread : forall db, db ∈ dbs -> readable_workflow id db).
    { intros db Hdb. destruct (kp_workflows _ _ (Hkept db Hdb) id w Hw) as (w' & Hw' & _). split; [apply Hstored, Hdb|by exists w']. }
    assert (Hident : match_identifier id = true) by by eapply rg_ids, Hw; apply Hok.
    destruct (log_pages (versions_request id limit) (fun a => versionSummary (version_record id a)) (version_rows id) (readable_workflow id)
      (version_position id) (Z.to_nat size) ltac:(lia) N (versions_answers id limit size Hident Hsize) dbs "" 0) as (db & Hdb & Hf); [| | |done|lia|].
    + apply sorted_lookup. intros i j x y Hij Hx Hy. eapply version_rows_kept; [by eapply Hread, list_elem_of_lookup_2|by eapply so_registry, Hstored, list_elem_of_lookup_2|].
      by eapply (sorted_lookup_1 kept dbs Hs).
    + apply Forall_forall. intros db Hdb. by apply Hread.
    + apply Forall_forall. intros db Hdb. specialize (Hlen db Hdb). lia.
    + destruct (Hread db Hdb) as [Hreg [w' Hw']]. exists db, w'. split_and!; [done|done|by apply version_numbers|done].
Qed.

(** C23: Following the cursors of the workflows, of the tasks of a run, and of the
    runs that match a filter gives rows in the order of their key, each key once,
    each as it was at one of the requests; nothing that is there throughout is
    left out, whatever else comes, goes or changes between the pages.  The client
    gets there when it asks for more pages than there are full ones. *)
Theorem rows_listed_once between p limit size local workflowID status_text status run :
  jsonb_ok jsonb -> platform_ok p -> collation text_le -> (forall s, String.length (sha256 s) = 32) -> normalizeLimit limit = Ok size ->
  let dbs := visited p between in let n := Z.to_nat size in
  (forall ids, covers (workflow_rows text_le) fst ids dbs -> length ids < n * length dbs ->
     exists listed, follow (workflows_request text_le limit) "" dbs = Ok ((fun a => workflowSummary (workflow_record a.1 a.2)) <$> listed) /\
       lists_all (workflow_rows text_le) fst (after_text text_le) (fun k => k) dbs listed) /\
  (forall indexes, pg_text run = true -> short run -> Forall (readable_tasks run) dbs ->
     covers (task_rows run) tr_Index indexes dbs -> length indexes < n * length dbs ->
     exists listed, follow (tasks_request run limit) "" dbs = Ok (taskSummary <$> listed) /\
       lists_all (task_rows run) tr_Index Z.ltb (fun k => k) dbs listed) /\
  (forall keys, parseRunStatus status_text = Ok status -> pg_text workflowID = true -> Forall (showable_runs local) dbs ->
     covers (selected_runs text_le workflowID status) run_key keys dbs -> length keys < n * length dbs ->
     exists listed, follow (runs_request sha256 text_le local workflowID status_text limit) "" dbs = Ok ((fun a => runSummary (run_record a)) <$> listed) /\
       lists_all (selected_runs text_le workflowID status) run_key (after_run text_le) Some dbs listed).
Proof.
  intros Hj Hok Hcoll Hsha Hsize dbs n. pose proof (limit_range _ _ Hsize) as Hr. destruct (visited_kept between p Hj Hok) as (_ & Hstored & _).
  fold dbs in Hstored. assert (Hn : 0 < n) by (unfold n; lia). split_and!.
  - intros ids Hcov Hlen. eapply (keyset_pages _ _ _ _ _ _ registry (workflow_position) n Hn); [by apply workflows_answers|by apply workflows_ordered|by split| |exact Hcov| |exact Hlen].
    + eapply Forall_impl; [exact Hstored|]. apply so_registry.
    + intros db Hreg [id w] Ha. unfold workflow_rows in Ha. rewrite Refinement.order_by_Permutation in Ha. apply elem_of_map_to_list in Ha.
      unfold after_text. cbn. apply negb_true_iff, not_true_iff_false. intros Hle. apply (co_empty _ Hcoll) in Hle.
      destruct (identifier_valid_text id) as (_ & ? & _); [by eapply rg_ids|done].
  - intros indexes Htext Hshort Hread Hcov Hlen. eapply (keyset_pages _ _ _ _ _ _ (readable_tasks run) (task_position run) n Hn);
      [by apply tasks_answers|apply tasks_ordered|by split|exact Hread|exact Hcov| |exact Hlen].
    intros db _ a Ha. apply list_elem_of_lookup in Ha as [k Hk]. apply task_row_index in Hk. apply Z.ltb_lt. lia.
  - intros keys Hstatus Htext Hshow Hcov Hlen. eapply (keyset_pages _ _ _ _ _ _ (showable_runs local) (run_position sha256 workflowID status_text status) n Hn) with (p := None);
      [by apply runs_answers|by apply runs_ordered|by split|exact Hshow|exact Hcov|done|exact Hlen].
Qed.
End visited.

(** ** A log and versions that grow while they are read *)
Definition read_platform : platform := sample_platform (take 5 sample_requests) empty_platform.
Lemma read_platform_ok : platform_ok read_platform.
Proof. apply perform_platform_all_advances; [apply sample_jsonb_ok|apply empty_platform_ok]. Qed.
Definition growing : list (list platform_request) :=
  [drop 5 sample_requests ++ [DoCreateWorkflowVersion Committed 5000 "bob" "flow" "c3" (sample_flow "1")]; []; []].
Abbreviation sample_visited := (visited sample_sha256 sample_jsonb sample_text_le defaultLeaseDuration defaultWorkerHeartbeatInterval read_platform growing).

Lemma sample_lengths : (fun db => (length (event_rows "r1" db), length (version_rows "flow" db))) <$> sample_visited = [(2, 2); (3, 3); (3, 3); (3, 3)].
Proof. vm_compute. reflexivity. Qed.
Lemma sample_length db : db ∈ sample_visited -> length (event_rows "r1" db) <= 3 /\ length (version_rows "flow" db) <= 3.
Proof.
  intros Hdb. apply (list_elem_of_fmap_2 (fun db => (length (event_rows "r1" db), length (version_rows "flow" db)))) in Hdb.
  rewrite sample_lengths, list_elem_of_In in Hdb. cbn in Hdb. destruct_or! Hdb; injection Hdb as <- <-; lia.
Qed.

Lemma history_listed_witness :
  (exists db, db ∈ sample_visited /\ follow (events_request "r1" 1) "" sample_visited = Ok (event_rows "r1" db)) /\
  (exists db w, db ∈ sample_visited /\ workflows db !! "flow" = Some w /\ (version_rows "flow" db).*1 = seqZ 1 (wr_latest_version w) /\
     follow (versions_request "flow" 1) "" sample_visited = Ok ((fun a => versionSummary (version_record "flow" a)) <$> version_rows "flow" db)).
Proof.
  destruct (history_listed sample_sha256 sample_jsonb sample_text_le defaultLeaseDuration defaultWorkerHeartbeatInterval growing read_platform 1 1 3
    sample_jsonb_ok read_platform_ok eq_refl) as [H1 H2]; [cbn [length visited growing]; lia|]. split.
  - apply H1; [eexists; vm_compute; reflexivity|reflexivity|unfold short; cbn; lia|intros db Hdb; apply sample_length, Hdb|lia].
  - apply H2; [eexists; vm_compute; reflexivity|intros db Hdb; apply sample_length, Hdb].
Defined.

Lemma bytewise_trans a : forall b c, String.leb a b = true -> String.leb b c = true -> String.leb a c = true.
Proof.
  unfold String.leb. induction a as [|x a IH]; intros [|y b] [|z c]; cbn; try done. specialize (IH b c). unfold Ascii.compare.
  destruct (N.compare_spec (Ascii.N_of_ascii x) (Ascii.N_of_ascii y)) as [E1|E1|E1], (N.compare_spec (Ascii.N_of_ascii y) (Ascii.N_of_ascii z)) as [E2|E2|E2];
    try done; destruct (N.compare_spec (Ascii.N_of_ascii x) (Ascii.N_of_ascii z)); try done; lia.
Qed.
Lemma sample_collation : collation sample_text_le.
Proof.
  split; [split|].
  - apply String.leb_total.
  - apply bytewise_trans.
  - apply String.leb_antisym.
  - intros s Hs. apply String.leb_antisym; [done|by destruct s].
Qed.
Lemma sample_bytes_length n : forall z, String.length (sample_bytes n z) = n.
Proof. induction n as [|n IH]; intros z; cbn; [done|by rewrite IH]. Qed.
Lemma sample_covers {A K} (rows : database -> list A) (key : A -> K) keys :
  NoDup keys -> Forall (fun db => Forall (fun a => key a ∈ keys) (rows db)) sample_visited -> covers rows key keys sample_visited.
Proof. intros Hnd Hall. split; [done|]. intros db Hdb a Ha. rewrite Forall_forall in Hall. specialize (Hall db Hdb). rewrite Forall_forall in Hall. by apply Hall. Qed.

Lemma sample_tasks_readable : Forall (readable_tasks "r1") sample_visited.
Proof.
  assert (H : Forall (fun db => is_Some (runs db !! "r1") /\ (Z.of_nat (length (task_rows "r1" db)) <= max_integer)%Z) sample_visited)
    by (apply (bool_decide_unpack _); vm_compute; exact I).
  eapply Forall_impl; [exact H|]. intros db [H1 H2]. by split.
Qed.
Lemma sample_runs_showable : Forall (showable_runs (fun _ => 0%Z)) sample_visited.
Proof.
  assert (H : Forall (fun db => Forall (fun '(id, s) => showable (fun _ => 0%Z) id s) (map_to_list (runs db))) sample_visited).
  { unfold showable, short. apply (bool_decide_unpack _). vm_compute. exact I. }
  eapply Forall_impl; [exact H|]. intros db Hdb id s Hs. rewrite Forall_forall in Hdb. apply (Hdb (id, s)). by apply elem_of_map_to_list.
Qed.

Lemma rows_listed_once_witness : exists ids indexes keys,
  follow (workflows_request sample_text_le 1) "" sample_visited = Ok ids /\ length ids = 1 /\
  follow (tasks_request "r1" 1) "" sample_visited = Ok indexes /\ length indexes = 1 /\
  follow (runs_request sample_sha256 sample_text_le (fun _ => 0%Z) "flow" "" 1) "" sample_visited = Ok keys /\ length keys = 1.
Proof.
  destruct (rows_listed_once sample_sha256 sample_jsonb sample_text_le defaultLeaseDuration defaultWorkerHeartbeatInterval growing read_platform 1 1
    (fun _ => 0%Z) "flow" "" (WorkflowOther "") "r1" sample_jsonb_ok read_platform_ok sample_collation (fun s => sample_bytes_length 32 _) eq_refl) as (H1 & H2 & H3).
  destruct (H1 ["flow"]) as (l1 & E1 & _); [|cbn; lia|].
  { apply sample_covers; [apply NoDup_singleton|]. apply (bool_decide_unpack _). vm_compute. exact I. }
  destruct (H2 [0%Z]) as (l2 & E2 & _); [reflexivity|unfold short; cbn; lia|apply sample_tasks_readable| |cbn; lia|].
  { apply sample_covers; [apply NoDup_singleton|]. apply (bool_decide_unpack _). vm_compute. exact I. }
  destruct (H3 [(2000%Z, "r1")]) as (l3 & E3 & _); [reflexivity|reflexivity|apply sample_runs_showable| |cbn; lia|].
  { apply sample_covers; [apply NoDup_singleton|]. apply (bool_decide_unpack _). vm_compute. exact I. }
  do 3 eexists. split; [exact E1|]. split; [|split; [exact E2|split; [|split; [exact E3|]]]].
  - apply (f_equal (fun r => match r with Ok l => length l | _ => 0 end)) in E1. rewrite <-E1. vm_compute. reflexivity.
  - apply (f_equal (fun r => match r with Ok l => length l | _ => 0 end)) in E2. rewrite <-E2. vm_compute. reflexivity.
  - apply (f_equal (fun r => match r with Ok l => length l | _ => 0 end)) in E3. rewrite <-E3. vm_compute. reflexivity.
Defined.

(** ** Cancelling a run that has ended *)

(** A run that ended without a cancellation request gets none, and the service
    takes that for a request that was lost. *)
Lemma cancel_finished_refused db id s c now (controller : go database unit) db' :
  runs db !! id = Some s -> stored_run c s -> isWorkflowTerminal (run_Status (Run s)) = true -> CancelRequestedAt (Run s) = None ->
  controller db = (db', Ok tt) ->
  runService_Cancel Committed now controller id db = (db', Err (Errorf "cancel request for Run %s was not persisted")).
Proof.
  intros Hs Hst Hterm Hnone Hctl. unfold runService_Cancel.
  assert (Hreq : RequestCancel Committed id now db = (db, Ok (Run s))).
  { unfold RequestCancel, transaction. go_step. rewrite Hs. assert (Ht : IsWorkflowTerminalForStore (run_Status (Run s)) = true) by exact Hterm.
    rewrite Ht. cbn [negb andb]. go_step. by rewrite (bind_run _ _ _ _ _ (loadSnapshot_stored c s id db Hs Hst)). }
  rewrite (bind_run _ _ _ _ _ Hreq), (bind_run _ _ _ _ _ Hctl), Hnone. done.
Qed.

(** ** Cursors with numbers beyond the columns *)
Definition event_cursor_of (n : Z) : string := match encodeEventCursor "r1" n with Ok c => c | _ => "" end.
Definition version_cursor_of (n : Z) : string := match encodeVersionCursor "flow" n with Ok c => c | _ => "" end.
(** A sequence number from 2^63 wraps around: the listing starts again. *)
Example event_cursor_wraps :
  Items <$> events_request "r1" 100 (event_cursor_of (2 ^ 63)) (pf_database read_platform) = Ok (event_rows "r1" (pf_database read_platform)).
Proof. vm_compute. reflexivity. Qed.
(** A version beyond INTEGER is not refused as an argument: the query fails. *)
Example version_cursor_fails :
  workflowService_ListVersions Committed Committed "flow" (version_cursor_of (2 ^ 31)) 100 (pf_database read_platform) =
    (pf_database read_platform, Err (Wrapf "query workflow versions: %w" (Errorf "failed to encode args"))).
Proof. vm_compute. reflexivity. Qed.
